(** * Games catalog: a formal model of the fighting-game and cubes demos

    Shallow embedding of the TypeScript sources and of the deployment
    workflow of the games repository, followed by the properties
    established about them.

    Conventions.
    - A JavaScript [number] is modelled by an exact rational ([Q]) where
      the program computes it from its own constants: finite values,
      arithmetic without rounding.  Numerical results are compared with
      [==] (equality of rationals) and orders with [<=] and [<].
    - A health in [scene.ts] can be read back from [localStorage], so it
      is a [number] that may also be [NaN] or infinite.
    - The cooldowns of the special attacks are also modelled in IEEE 754
      double precision ([Clock]), where the rounding of each subtraction
      decides in which frame a cooldown has run out.
    - A JavaScript object that is shared and mutated is modelled by the
      record that holds it; references into a scene graph are paths.
    - The closure variables of [init] form a [World] record that every
      function takes and returns. *)

From Stdlib Require Import QArith Qminmax Qabs Lqa.
From Stdlib Require Import SpecFloat.
From stdpp Require Import gmap strings list.

Open Scope Q_scope.

(** * Part I: the programs *)

(** ** JavaScript numbers and truthiness *)

Definition Qltb (a b : Q) : bool := negb (Qle_bool b a).
Definition Qgtb (a b : Q) : bool := Qltb b a.
Definition Qgeb (a b : Q) : bool := Qle_bool b a.

Definition Math_max (a b : Q) : Q := Qmax a b.
Definition Math_min (a b : Q) : Q := Qmin a b.

Definition ofNat (n : nat) : Q := inject_Z (Z.of_nat n).

(** [keys[code]] on a [Record<string, boolean>]: a code that was never
    pressed reads [undefined], which is falsy. *)
Definition truthy (keys : gmap string bool) (code : string) : bool :=
  default false (keys !! code).

(** ** Numbers that need not be finite *)

(** A [number] that can come from outside the program, such as the result
    of [Number(s)] on a stored string: a finite value, [NaN], or one of the
    two infinities. *)
Inductive number :=
| Finite (value : Q)
| NaN
| Infinity
| NegativeInfinity.

Coercion Finite : Q >-> number.

Module JS.

(** [a <= b], [a < b] and [a === b]: every comparison with [NaN] is
    false. *)
Definition leb (a b : number) : bool :=
  match a, b with
  | NaN, _ | _, NaN => false
  | NegativeInfinity, _ => true
  | _, Infinity => true
  | Finite p, Finite q => Qle_bool p q
  | _, _ => false
  end.

Definition ltb (a b : number) : bool :=
  match a, b with
  | NaN, _ | _, NaN => false
  | _, _ => negb (leb b a)
  end.

Definition eqb (a b : number) : bool :=
  match a, b with
  | Finite p, Finite q => Qeq_bool p q
  | Infinity, Infinity => true
  | NegativeInfinity, NegativeInfinity => true
  | _, _ => false
  end.

(** [Math.max(a, b)] and [Math.min(a, b)]: [NaN] as soon as one argument
    is [NaN]. *)
Definition max (a b : number) : number :=
  match a, b with
  | NaN, _ | _, NaN => NaN
  | Finite p, Finite q => Finite (Math_max p q)
  | _, _ => if leb a b then b else a
  end.

Definition min (a b : number) : number :=
  match a, b with
  | NaN, _ | _, NaN => NaN
  | Finite p, Finite q => Finite (Math_min p q)
  | _, _ => if leb a b then a else b
  end.

(** [a - b]. *)
Definition minus (a b : number) : number :=
  match a, b with
  | NaN, _ | _, NaN => NaN
  | Finite p, Finite q => Finite (p - q)
  | Infinity, Infinity | NegativeInfinity, NegativeInfinity => NaN
  | Infinity, _ | _, NegativeInfinity => Infinity
  | NegativeInfinity, _ | _, Infinity => NegativeInfinity
  end.

Definition lt (a b : number) : Prop := ltb a b = true.

(** A number that lies between two finite bounds. *)
Definition between (lo hi : Q) (a : number) : Prop :=
  match a with
  | Finite q => lo <= q <= hi
  | _ => False
  end.

End JS.

(** ** Frames and their times *)

(** Clock readings that never go back, the first frame starting at
    [prev]. *)
Fixpoint monotone (prev : Q) (times : list Q) : Prop :=
  match times with
  | [] => True
  | t :: times' => prev <= t /\ monotone t times'
  end.

(** A run of frames. *)
Definition run {W I : Type} (step : I -> W -> W) (frames : list I) (s : W) : W :=
  fold_left (fun s i => step i s) frames s.

(** ** The part of three.js that the demos rely on *)

Module THREE.

Record Vector3 := mkVector3 { x : Q; y : Q; z : Q }.

Definition origin : Vector3 := mkVector3 0 0 0.
Definition ones : Vector3 := mkVector3 1 1 1.

Definition set_x (v : Vector3) (a : Q) : Vector3 := mkVector3 a (y v) (z v).
Definition set_y (v : Vector3) (a : Q) : Vector3 := mkVector3 (x v) a (z v).
Definition set_z (v : Vector3) (a : Q) : Vector3 := mkVector3 (x v) (y v) a.

(** [Box3]: an axis-aligned box given by its two extreme corners. *)
Record Box3 := mkBox3 { min : Vector3; max : Vector3 }.

(** [this.intersectsBox(box)]: the six separating-plane tests. *)
Definition intersectsBox (this box : Box3) : bool :=
  Qgeb (x (max box)) (x (min this)) && Qle_bool (x (min box)) (x (max this)) &&
  Qgeb (y (max box)) (y (min this)) && Qle_bool (y (min box)) (y (max this)) &&
  Qgeb (z (max box)) (z (min this)) && Qle_bool (z (min box)) (z (max this)).

(** [Object3D]: a node of the scene graph with the fields the demos touch;
    [opacity] is the opacity of the node's material. *)
#[warnings="-register-all"]
Inductive Object3D : Type :=
  mkObject3D {
    name : string;
    position : Vector3;
    rotation : Vector3;
    scale : Vector3;
    opacity : Q;
    children : list Object3D
  }.

(** A reference to a descendant: the child indices from the root down. *)
Definition Ref : Type := list nat.

(** [getObjectByName]: depth-first, the node itself first, then each child
    in order; [None] stands for [undefined]. *)
Fixpoint getObjectByName (o : Object3D) (n : string) : option Ref :=
  match o with
  | mkObject3D nm _ _ _ _ cs =>
      if String.eqb nm n then Some []
      else
        (fix first (cs : list Object3D) (i : nat) : option Ref :=
           match cs with
           | [] => None
           | c :: cs' =>
               match getObjectByName c n with
               | Some p => Some (i :: p)
               | None => first cs' (S i)
               end
           end) cs 0%nat
  end.

(** Dereferencing a path. *)
Fixpoint objectAt (o : Object3D) (r : Ref) : option Object3D :=
  match r with
  | [] => Some o
  | i :: r' =>
      match children o !! i with
      | Some c => objectAt c r'
      | None => None
      end
  end.

(** Writing through a reference: [f] is applied to the node at [r]; a path
    that leads nowhere leaves the graph as it is. *)
Fixpoint updateAt (f : Object3D -> Object3D) (o : Object3D) (r : Ref) : Object3D :=
  match r with
  | [] => f o
  | i :: r' =>
      match children o !! i with
      | Some c =>
          mkObject3D (name o) (position o) (rotation o) (scale o) (opacity o)
                     (<[i := updateAt f c r']> (children o))
      | None => o
      end
  end.

Definition set_position (v : Vector3) (o : Object3D) : Object3D :=
  mkObject3D (name o) v (rotation o) (scale o) (opacity o) (children o).
Definition set_rotation (v : Vector3) (o : Object3D) : Object3D :=
  mkObject3D (name o) (position o) v (scale o) (opacity o) (children o).
Definition set_scale (v : Vector3) (o : Object3D) : Object3D :=
  mkObject3D (name o) (position o) (rotation o) v (opacity o) (children o).
Definition set_opacity (a : Q) (o : Object3D) : Object3D :=
  mkObject3D (name o) (position o) (rotation o) (scale o) a (children o).
Definition set_children (cs : list Object3D) (o : Object3D) : Object3D :=
  mkObject3D (name o) (position o) (rotation o) (scale o) (opacity o) cs.

Definition set_position_x (a : Q) (o : Object3D) : Object3D :=
  set_position (set_x (position o) a) o.
Definition set_rotation_x (a : Q) (o : Object3D) : Object3D :=
  set_rotation (set_x (rotation o) a) o.
Definition set_rotation_y (a : Q) (o : Object3D) : Object3D :=
  set_rotation (set_y (rotation o) a) o.
Definition set_rotation_z (a : Q) (o : Object3D) : Object3D :=
  set_rotation (set_z (rotation o) a) o.

(** [v.addScaledVector(u, s)]. *)
Definition addScaledVector (v u : Vector3) (s : Q) : Vector3 :=
  mkVector3 (x v + x u * s) (y v + y u * s) (z v + z u * s).

Definition sub (v u : Vector3) : Vector3 :=
  mkVector3 (x v - x u) (y v - y u) (z v - z u).

Definition multiplyScalar (v : Vector3) (s : Q) : Vector3 :=
  mkVector3 (x v * s) (y v * s) (z v * s).

(** The search among the children, on its own. *)
Definition firstAmong (n : string) : list Object3D -> nat -> option Ref :=
  fix first (cs : list Object3D) (i : nat) : option Ref :=
    match cs with
    | [] => None
    | c :: cs' =>
        match getObjectByName c n with
        | Some p => Some (i :: p)
        | None => first cs' (S i)
        end
    end.

(** Structural induction on the scene graph. *)
Fixpoint Object3D_tree_ind (P : Object3D -> Prop)
         (step : forall o, Forall P (children o) -> P o) (o : Object3D) : P o :=
  match o with
  | mkObject3D nm p r s op cs =>
      step (mkObject3D nm p r s op cs)
           ((fix all (cs : list Object3D) : Forall P cs :=
               match cs with
               | [] => @List.Forall_nil _ P
               | c :: cs' =>
                   @List.Forall_cons _ P c cs' (Object3D_tree_ind P step c) (all cs')
               end) cs)
  end.

(** What the platform provides and the model leaves open: the constant
    [Math.PI], the function [Math.sin], and the world-space bounding box
    that [new THREE.Box3().setFromObject(o)] computes from the geometry
    under [o]. *)
Class Platform := {
  Math_PI : Q;
  Math_sin : Q -> Q;
  Math_sqrt : Q -> Q;
  setFromObject : Object3D -> Box3
}.

(** [v.length()] and [v.normalize()], the latter dividing by
    [v.length() || 1]. *)
Definition length `{Platform} (v : Vector3) : Q :=
  Math_sqrt (x v * x v + y v * y v + z v * z v).

Definition normalize `{Platform} (v : Vector3) : Vector3 :=
  let l := length v in
  multiplyScalar v (1 / (if Qeq_bool l 0 then 1 else l)).

End THREE.

(** ** The characters that the fighters demo builds *)

Module Characters.

Import THREE.

Definition part (name : string) (px py pz : Q) (children : list Object3D) : Object3D :=
  mkObject3D name (mkVector3 px py pz) origin ones 1 children.

(** A puppy-style eye: sclera, pupil, shine. *)
Definition eye (offsetX : Q) : Object3D :=
  part EmptyString offsetX 0.12 0.53
       [part EmptyString 0 0 0.02 [part EmptyString (- 0.04) 0.04 0.025 []]].

Definition mouth : Object3D := part EmptyString 0 (- 0.2) 0.51 [].

(** [createRobloxCharacter]. *)
Definition createRobloxCharacter : Object3D :=
  let spike (i : Q) :=
    mkObject3D EmptyString (mkVector3 (i * 0.3) 0.75 0)
               (mkVector3 (- 0.2617993877991494) 0 0) ones 1 [] in
  let head :=
    part "head" 0 3.5 0
         [ eye (- 0.24); eye 0.24; mouth;
           part EmptyString 0 0.45 0 [];
           spike (- (1)); spike 0; spike 1;
           part EmptyString (- 0.8) (- 0.05) 0 [];
           part EmptyString 0.8 (- 0.05) 0 [] ] in
  part EmptyString 0 0 0
       [ head;
         part "torso" 0 2.25 0 [];
         part EmptyString (- 0.95) 2.25 0 [];
         part "rightArm" 0.95 2.25 0 [];
         part EmptyString (- 0.3) 0.75 0 [];
         part "rightLeg" 0.3 0.75 0 [] ].

(** [createGirlCharacter]. *)
Definition createGirlCharacter : Object3D :=
  let head :=
    part "head" 0 3.5 0
         [ eye (- 0.24); eye 0.24; mouth;
           part EmptyString 0 0.45 0 [];
           part EmptyString (- 0.75) (- 0.25) 0 [];
           part EmptyString 0.75 (- 0.25) 0 [];
           part EmptyString 0 (- 0.25) (- 0.55) [] ] in
  part EmptyString 0 0 0
       [ head;
         part "torso" 0 2.05 0 [];
         part EmptyString (- 0.95) 2.25 0 [];
         part "rightArm" 0.95 2.25 0 [];
         part EmptyString (- 0.3) 0.6 0 [];
         part "rightLeg" 0.3 0.6 0 [];
         part EmptyString 0 1.2 0 [] ].

(** The two characters where [init] places them. *)
Definition boy : Object3D := set_position_x (- (3)) createRobloxCharacter.
Definition girl : Object3D :=
  set_scale (mkVector3 (- (1)) 1 1) (set_position_x 3 createGirlCharacter).

(** A character without any named part. *)
Definition mannequin : Object3D := part EmptyString 0 0 0 [part EmptyString 0 1 0 []].

(** A stand-in for the platform, good enough to run the model: a
    polynomial for the sine, and for the bounding box that of a fighter
    standing at the position of the object and turned towards its
    opponent, so that the box is about 1.3 wide along the line between the
    two (the depth of the head with its face) and 2.3 wide across it (from
    arm to arm). *)
Definition testPlatform : Platform :=
  {| Math_PI := 3.141592653589793;
     Math_sin := fun a => a - a * a * a / 6;
     Math_sqrt := fun a => (a + 1) / 2;
     setFromObject := fun o =>
       mkBox3 (mkVector3 (x (position o) - 0.65) (y (position o)) (z (position o) - 1.15))
              (mkVector3 (x (position o) + 0.65) (y (position o) + 4)
                         (z (position o) + 1.15)) |}.

End Characters.

(** ** cubes/src/main.ts *)

Module Cubes.

Definition SPEED_THRESHOLD : Q := 1.0.

Inductive Geometry := cubeGeometry | sphereGeometry.

(** The two base materials; every mesh carries a clone of one of them. *)
Inductive BaseMaterial := cubeBaseMaterial | sphereBaseMaterial.

(** A cloned material: its own identity, the base it was cloned from and
    the hue offset given to [color.offsetHSL]. *)
Record Material := mkMaterial {
  material_id : nat;
  base : BaseMaterial;
  hue : Q
}.

Record Mesh := mkMesh {
  geometry : Geometry;
  material : Material;
  position : THREE.Vector3;
  rotation : THREE.Vector3
}.

(** The module-level variables and the scene.  Meshes live in [heap] under
    their object id; [cubes] and [scene] hold references to them.  The
    scene also holds objects that are not meshes (the light). *)
Record Demo := mkDemo {
  rotationSpeed : Q;
  isSphere : bool;
  cubes : list nat;
  scene : list nat;
  heap : gmap nat Mesh;
  nextObjectId : nat;
  nextMaterialId : nat
}.

Definition currentGeometry (st : Demo) : Geometry :=
  if isSphere st then sphereGeometry else cubeGeometry.

(** [scene.remove(c)]: the first occurrence of [c] among the children. *)
Fixpoint remove_first (c : nat) (l : list nat) : list nat :=
  match l with
  | [] => []
  | a :: l' => if Nat.eqb a c then l' else a :: remove_first c l'
  end.

Definition scene_remove (c : nat) (st : Demo) : Demo :=
  mkDemo (rotationSpeed st) (isSphere st) (cubes st) (remove_first c (scene st))
         (heap st) (nextObjectId st) (nextMaterialId st).

(** [scene.add(o)]: detach from the former parent, then append. *)
Definition scene_add (c : nat) (st : Demo) : Demo :=
  mkDemo (rotationSpeed st) (isSphere st) (cubes st) (remove_first c (scene st) ++ [c])
         (heap st) (nextObjectId st) (nextMaterialId st).

Definition set_cubes (l : list nat) (st : Demo) : Demo :=
  mkDemo (rotationSpeed st) (isSphere st) l (scene st)
         (heap st) (nextObjectId st) (nextMaterialId st).

(** [Math.ceil(Math.sqrt(count))] on a count that is a natural number. *)
Definition gridSizeOf (count : nat) : nat := Nat.sqrt_up count.

(** One turn of the loop of [createCubes]. *)
Definition createCube (count gridSize : nat) (st : Demo) (i : nat) : Demo :=
  let material :=
    mkMaterial (nextMaterialId st)
               (if isSphere st then sphereBaseMaterial else cubeBaseMaterial)
               (if isSphere st then 0 else ofNat i / ofNat count) in
  let spacing := 1.5 in
  let row := (i / gridSize)%nat in
  let col := (i mod gridSize)%nat in
  let cube :=
    mkMesh (currentGeometry st) material
           (THREE.mkVector3
              ((ofNat col - (ofNat gridSize - 1) / 2) * spacing)
              ((ofNat row - (ofNat gridSize - 1) / 2) * spacing)
              0)
           THREE.origin in
  let id := nextObjectId st in
  let st1 :=
    mkDemo (rotationSpeed st) (isSphere st) (cubes st) (scene st)
           (<[id := cube]> (heap st)) (S id) (S (nextMaterialId st)) in
  let st2 := scene_add id st1 in
  set_cubes (cubes st2 ++ [id]) st2.

Definition createCubes (count : nat) (st : Demo) : Demo :=
  let st1 := fold_left (fun s c => scene_remove c s) (cubes st) st in
  let st2 := set_cubes [] st1 in
  let gridSize := gridSizeOf count in
  fold_left (createCube count gridSize) (seq 0 count) st2.

(** [cubes.forEach(c => ...)] for a body that only touches the mesh. *)
Definition forEachCube (f : Mesh -> Mesh) (st : Demo) : Demo :=
  mkDemo (rotationSpeed st) (isSphere st) (cubes st) (scene st)
         (fold_left (fun h c => alter f c h) (cubes st) (heap st))
         (nextObjectId st) (nextMaterialId st).

Definition move (dx dy : Q) (m : Mesh) : Mesh :=
  mkMesh (geometry m) (material m)
         (THREE.mkVector3 (THREE.x (position m) + dx) (THREE.y (position m) + dy)
                          (THREE.z (position m)))
         (rotation m).

(** The geometry swap of the q and w branches; each mesh receives its own
    clone of the base material. *)
Definition reskin (g : Geometry) (b : BaseMaterial) (st : Demo) : Demo :=
  fold_left
    (fun s c =>
       mkDemo (rotationSpeed s) (isSphere s) (cubes s) (scene s)
              (alter (fun m => mkMesh g (mkMaterial (nextMaterialId s) b 0)
                                      (position m) (rotation m)) c (heap s))
              (nextObjectId s) (S (nextMaterialId s)))
    (cubes st) st.

Definition set_speed (v : Q) (sphere : bool) (st : Demo) : Demo :=
  mkDemo v sphere (cubes st) (scene st) (heap st) (nextObjectId st) (nextMaterialId st).

(** [parseInt(s, 10)] on a string that starts with a digit 1 to 9 and has
    a single character, as the digit branch of the handler receives it;
    [None] stands for [NaN]. *)
Definition parseInt (s : string) : option nat :=
  if String.eqb s "1" then Some 1%nat else
  if String.eqb s "2" then Some 2%nat else
  if String.eqb s "3" then Some 3%nat else
  if String.eqb s "4" then Some 4%nat else
  if String.eqb s "5" then Some 5%nat else
  if String.eqb s "6" then Some 6%nat else
  if String.eqb s "7" then Some 7%nat else
  if String.eqb s "8" then Some 8%nat else
  if String.eqb s "9" then Some 9%nat else None.

Definition digitKeys : list string :=
  ["1"; "2"; "3"; "4"; "5"; "6"; "7"; "8"; "9"].

(** The [keydown] listener: a [switch] on [event.key] with no default. *)
Definition keydown (key : string) (st : Demo) : Demo :=
  let step := 0.1 in
  if String.eqb key "ArrowUp" then forEachCube (move 0 step) st
  else if String.eqb key "ArrowDown" then forEachCube (move 0 (- step)) st
  else if String.eqb key "ArrowLeft" then forEachCube (move (- step) 0) st
  else if String.eqb key "ArrowRight" then forEachCube (move step 0) st
  else if String.eqb key "q" || String.eqb key "Q" then
    let speed := Math_max 0 (rotationSpeed st - 0.005) in
    if Qltb speed SPEED_THRESHOLD && isSphere st
    then reskin cubeGeometry cubeBaseMaterial (set_speed speed false st)
    else set_speed speed (isSphere st) st
  else if String.eqb key "w" || String.eqb key "W" then
    let speed := rotationSpeed st + 0.005 in
    if Qgeb speed SPEED_THRESHOLD && negb (isSphere st)
    then reskin sphereGeometry sphereBaseMaterial (set_speed speed true st)
    else set_speed speed (isSphere st) st
  else if bool_decide (key ∈ digitKeys) then
    match parseInt key with
    | Some n => createCubes n st
    | None => st
    end
  else st.

(** The keys that have a [case] in the handler. *)
Definition handledKeys : list string :=
  ["ArrowUp"; "ArrowDown"; "ArrowLeft"; "ArrowRight"; "q"; "Q"; "w"; "W"]
    ++ digitKeys.

(** One frame of the animation loop. *)
Definition animate (st : Demo) : Demo :=
  forEachCube
    (fun m => mkMesh (geometry m) (material m) (position m)
                     (THREE.mkVector3 (THREE.x (rotation m) + rotationSpeed st)
                                      (THREE.y (rotation m) + rotationSpeed st)
                                      (THREE.z (rotation m))))
    st.

(** [init]: one cube, then the light, which takes the next object id and
    joins the scene. *)
Definition init : Demo :=
  let st := createCubes 1 (mkDemo 0.01 false [] [] ∅ 0 0) in
  let light := nextObjectId st in
  scene_add light
    (mkDemo (rotationSpeed st) (isSphere st) (cubes st) (scene st) (heap st)
            (S light) (nextMaterialId st)).

(** The mesh that the [i]-th turn of the loop builds. *)
Definition cubeOf (st : Demo) (count g i : nat) : Mesh :=
  mkMesh (currentGeometry st)
         (mkMaterial (nextMaterialId st + i)
                     (if isSphere st then sphereBaseMaterial else cubeBaseMaterial)
                     (if isSphere st then 0 else ofNat i / ofNat count))
         (THREE.mkVector3
            ((ofNat (i mod g) - (ofNat g - 1) / 2) * 1.5)
            ((ofNat (i / g) - (ofNat g - 1) / 2) * 1.5)
            0)
         THREE.origin.

(** Well-formed demo states: no object is twice in the scene, and every
    identifier in use was handed out by the allocator. *)
Definition wf (st : Demo) : Prop :=
  NoDup (scene st) /\
  Forall (fun c => (c < nextObjectId st)%nat) (scene st) /\
  Forall (fun c => (c < nextObjectId st)%nat) (cubes st) /\
  (forall c, is_Some (heap st !! c) -> (c < nextObjectId st)%nat).

End Cubes.

(** ** The fighters demo, base variant (the scene without blocking) *)

Module Base.

Import THREE.

Inductive Side := F1 | F2.

Definition other (s : Side) : Side :=
  match s with F1 => F2 | F2 => F1 end.

Inductive AttackType := Punch | Kick.

Record Controls := mkControls {
  left : string;
  right : string;
  punch : string;
  kick : string
}.

Record Fighter := mkFighter {
  group : Object3D;
  facing : Z;
  health : Q;
  isAttacking : bool;
  attackTimer : Q;
  attackLimb : option Ref;
  attackType : option AttackType;
  controls : Controls
}.

(** A fireball in flight; its [owner] is always the girl. *)
Record Projectile := mkProjectile {
  mesh : Object3D;
  velocity : Vector3;
  lifetime : Q
}.

(** Calls that leave the game state: DOM updates and special attacks, the
    most recent first. *)
Inductive Effect :=
| HealthBarsUpdated
| LightningShot
| FireballShot
| GameEnded (message : string).

(** The variables that [init] closes over.  The fighters' groups are the
    objects [boy] and [girl]; [bar1] and [bar2] are the widths of the two
    health bars in pixels. *)
Record World := mkWorld {
  fighter1 : Fighter;
  fighter2 : Fighter;
  gameStarted : bool;
  gameOver : bool;
  prevTime : Q;
  lightningCooldown : Q;
  xPressedPrev : bool;
  fireballCooldown : Q;
  uPressedPrev : bool;
  projectiles : list Projectile;
  bar1 : Q;
  bar2 : Q;
  log : list Effect
}.

Definition speed : Q := 2.5.
Definition attackDuration : Q := 0.3.

Definition getFighter (s : Side) (w : World) : Fighter :=
  match s with F1 => fighter1 w | F2 => fighter2 w end.

Definition set_fighter1 (f : Fighter) (w : World) : World :=
  mkWorld f (fighter2 w) (gameStarted w) (gameOver w) (prevTime w)
          (lightningCooldown w) (xPressedPrev w) (fireballCooldown w) (uPressedPrev w)
          (projectiles w) (bar1 w) (bar2 w) (log w).
Definition set_fighter2 (f : Fighter) (w : World) : World :=
  mkWorld (fighter1 w) f (gameStarted w) (gameOver w) (prevTime w)
          (lightningCooldown w) (xPressedPrev w) (fireballCooldown w) (uPressedPrev w)
          (projectiles w) (bar1 w) (bar2 w) (log w).
Definition putFighter (s : Side) (f : Fighter) (w : World) : World :=
  match s with F1 => set_fighter1 f w | F2 => set_fighter2 f w end.
Definition set_gameStarted (b : bool) (w : World) : World :=
  mkWorld (fighter1 w) (fighter2 w) b (gameOver w) (prevTime w)
          (lightningCooldown w) (xPressedPrev w) (fireballCooldown w) (uPressedPrev w)
          (projectiles w) (bar1 w) (bar2 w) (log w).
Definition set_gameOver (b : bool) (w : World) : World :=
  mkWorld (fighter1 w) (fighter2 w) (gameStarted w) b (prevTime w)
          (lightningCooldown w) (xPressedPrev w) (fireballCooldown w) (uPressedPrev w)
          (projectiles w) (bar1 w) (bar2 w) (log w).
Definition set_prevTime (t : Q) (w : World) : World :=
  mkWorld (fighter1 w) (fighter2 w) (gameStarted w) (gameOver w) t
          (lightningCooldown w) (xPressedPrev w) (fireballCooldown w) (uPressedPrev w)
          (projectiles w) (bar1 w) (bar2 w) (log w).
Definition set_lightningCooldown (c : Q) (w : World) : World :=
  mkWorld (fighter1 w) (fighter2 w) (gameStarted w) (gameOver w) (prevTime w)
          c (xPressedPrev w) (fireballCooldown w) (uPressedPrev w)
          (projectiles w) (bar1 w) (bar2 w) (log w).
Definition set_xPressedPrev (b : bool) (w : World) : World :=
  mkWorld (fighter1 w) (fighter2 w) (gameStarted w) (gameOver w) (prevTime w)
          (lightningCooldown w) b (fireballCooldown w) (uPressedPrev w)
          (projectiles w) (bar1 w) (bar2 w) (log w).
Definition set_fireballCooldown (c : Q) (w : World) : World :=
  mkWorld (fighter1 w) (fighter2 w) (gameStarted w) (gameOver w) (prevTime w)
          (lightningCooldown w) (xPressedPrev w) c (uPressedPrev w)
          (projectiles w) (bar1 w) (bar2 w) (log w).
Definition set_uPressedPrev (b : bool) (w : World) : World :=
  mkWorld (fighter1 w) (fighter2 w) (gameStarted w) (gameOver w) (prevTime w)
          (lightningCooldown w) (xPressedPrev w) (fireballCooldown w) b
          (projectiles w) (bar1 w) (bar2 w) (log w).
Definition set_projectiles (ps : list Projectile) (w : World) : World :=
  mkWorld (fighter1 w) (fighter2 w) (gameStarted w) (gameOver w) (prevTime w)
          (lightningCooldown w) (xPressedPrev w) (fireballCooldown w) (uPressedPrev w)
          ps (bar1 w) (bar2 w) (log w).
Definition set_bars (b1 b2 : Q) (w : World) : World :=
  mkWorld (fighter1 w) (fighter2 w) (gameStarted w) (gameOver w) (prevTime w)
          (lightningCooldown w) (xPressedPrev w) (fireballCooldown w) (uPressedPrev w)
          (projectiles w) b1 b2 (log w).
Definition emit (e : Effect) (w : World) : World :=
  mkWorld (fighter1 w) (fighter2 w) (gameStarted w) (gameOver w) (prevTime w)
          (lightningCooldown w) (xPressedPrev w) (fireballCooldown w) (uPressedPrev w)
          (projectiles w) (bar1 w) (bar2 w) (e :: log w).

Definition set_group (g : Object3D) (f : Fighter) : Fighter :=
  mkFighter g (facing f) (health f) (isAttacking f) (attackTimer f)
            (attackLimb f) (attackType f) (controls f).
Definition set_facing (d : Z) (f : Fighter) : Fighter :=
  mkFighter (group f) d (health f) (isAttacking f) (attackTimer f)
            (attackLimb f) (attackType f) (controls f).
Definition set_health (h : Q) (f : Fighter) : Fighter :=
  mkFighter (group f) (facing f) h (isAttacking f) (attackTimer f)
            (attackLimb f) (attackType f) (controls f).
Definition set_isAttacking (b : bool) (f : Fighter) : Fighter :=
  mkFighter (group f) (facing f) (health f) b (attackTimer f)
            (attackLimb f) (attackType f) (controls f).
Definition set_attackTimer (t : Q) (f : Fighter) : Fighter :=
  mkFighter (group f) (facing f) (health f) (isAttacking f) t
            (attackLimb f) (attackType f) (controls f).
Definition set_attackLimb (l : option Ref) (f : Fighter) : Fighter :=
  mkFighter (group f) (facing f) (health f) (isAttacking f) (attackTimer f)
            l (attackType f) (controls f).
Definition set_attackType (t : option AttackType) (f : Fighter) : Fighter :=
  mkFighter (group f) (facing f) (health f) (isAttacking f) (attackTimer f)
            (attackLimb f) t (controls f).

(** [updateHealthBars]. *)
Definition updateHealthBars (w : World) : World :=
  emit HealthBarsUpdated
       (set_bars (health (fighter1 w) * 2) (health (fighter2 w) * 2) w).

(** [endGame]: the flag, and the overlay with its message. *)
Definition endGame (message : string) (w : World) : World :=
  emit (GameEnded message) (set_gameOver true w).

(** The world as [init] leaves it, [t0] being the time of its last
    statement. *)
Definition initial (t0 : Q) : World :=
  mkWorld
    (mkFighter Characters.boy 1 100 false 0
               (getObjectByName Characters.boy "rightArm") None
               (mkControls "KeyA" "KeyD" "KeyF" "KeyG"))
    (mkFighter Characters.girl (-1) 100 false 0
               (getObjectByName Characters.girl "rightLeg") None
               (mkControls "ArrowLeft" "ArrowRight" "Slash" "KeyL"))
    false false t0 0 false 0 false [] 200 200 [HealthBarsUpdated].

(** A hit shows as a refresh of the health bars. *)
Definition hitRegistered (w w' : World) : Prop :=
  log w' = HealthBarsUpdated :: log w.

Definition isLightning (e : Effect) : bool :=
  match e with LightningShot => true | _ => false end.
Definition isFireball (e : Effect) : bool :=
  match e with FireballShot => true | _ => false end.

(** The number of lightnings and of fireballs shot so far. *)
Definition lightningShots (w : World) : nat := List.length (List.filter isLightning (log w)).
Definition fireballShots (w : World) : nat := List.length (List.filter isFireball (log w)).

(** What a frame can do to each special attack: the clock, the cooldown,
    the former state of the key, the shots so far. *)
Definition lightningView (w : World) : Q * Q * bool * nat :=
  (prevTime w, lightningCooldown w, xPressedPrev w, lightningShots w).
Definition fireballView (w : World) : Q * Q * bool * nat :=
  (prevTime w, fireballCooldown w, uPressedPrev w, fireballShots w).

(** Both fighters have a health between 0 and 100. *)
Definition healthy (w : World) : Prop :=
  (0 <= health (fighter1 w) <= 100) /\ (0 <= health (fighter2 w) <= 100).


(** Two key maps that agree on the four controls of a fighter. *)
Definition sameControls (keys1 keys2 : gmap string bool) (f : Fighter) : Prop :=
  truthy keys1 (left (controls f)) = truthy keys2 (left (controls f)) /\
  truthy keys1 (right (controls f)) = truthy keys2 (right (controls f)) /\
  truthy keys1 (punch (controls f)) = truthy keys2 (punch (controls f)) /\
  truthy keys1 (kick (controls f)) = truthy keys2 (kick (controls f)).

Section WithPlatform.

Context `{Platform}.

(** *** [updateFighter], statement by statement *)

(** Face the opponent and turn the body. *)
Definition faceOpponent (opponent f : Fighter) : Fighter :=
  let d := if Qgtb (x (position (group opponent))) (x (position (group f)))
           then 1%Z else (-1)%Z in
  let f := set_facing d f in
  set_group
    (set_rotation_y (if Z.eqb (facing f) 1 then Math_PI / 2 else - Math_PI / 2)
                    (group f)) f.

(** Movement. *)
Definition movement (keys : gmap string bool) (dt : Q) (f : Fighter) : Fighter :=
  let f := if truthy keys (left (controls f))
           then set_group (set_position_x (x (position (group f)) - speed * dt)
                                          (group f)) f
           else f in
  if truthy keys (right (controls f))
  then set_group (set_position_x (x (position (group f)) + speed * dt) (group f)) f
  else f.

(** Determine the attack type pressed: the kick test comes second. *)
Definition requestedAttack (keys : gmap string bool) (f : Fighter)
  : option AttackType :=
  let r := None in
  let r := if truthy keys (punch (controls f)) then Some Punch else r in
  if truthy keys (kick (controls f)) then Some Kick else r.

(** Start of an attack, with the choice of the limb. *)
Definition startAttack (keys : gmap string bool) (f : Fighter) : Fighter :=
  match requestedAttack keys f with
  | Some a =>
      if negb (isAttacking f) then
        let f := set_isAttacking true f in
        let f := set_attackTimer attackDuration f in
        let f := set_attackType (Some a) f in
        match a with
        | Punch => set_attackLimb (getObjectByName (group f) "rightArm") f
        | Kick => set_attackLimb (getObjectByName (group f) "rightLeg") f
        end
      else f
  | None => f
  end.

(** The countdown of the attack. *)
Definition tickAttack (dt : Q) (f : Fighter) : Fighter :=
  let f := set_attackTimer (attackTimer f - dt) f in
  if Qle_bool (attackTimer f) 0
  then set_attackType None (set_isAttacking false f)
  else f.

(** Animate the limb: the same rotation for a punch and for a kick, and
    none once the attack type is cleared. *)
Definition animateLimb (f : Fighter) : Fighter :=
  match attackLimb f with
  | Some limb =>
      let progress := 1 - attackTimer f / attackDuration in
      let angle := Math_sin (progress * Math_PI) * (Math_PI / 2) in
      match attackType f with
      | Some Punch => set_group (updateAt (set_rotation_x (- angle)) (group f) limb) f
      | Some Kick => set_group (updateAt (set_rotation_x (- angle)) (group f) limb) f
      | None => f
      end
  | None => f
  end.

(** Reset of the limb when not attacking. *)
Definition resetLimb (f : Fighter) : Fighter :=
  match attackLimb f with
  | Some limb => set_group (updateAt (set_rotation_x 0) (group f) limb) f
  | None => f
  end.

(** The collision test. *)
Definition boxesOverlap (f opponent : Fighter) : bool :=
  intersectsBox (setFromObject (group f)) (setFromObject (group opponent)).

(** The hit: damage, refresh of the bars, end of the combo. *)
Definition registerHit (who : Side) (w : World) : World :=
  let opponent := getFighter (other who) w in
  let w := putFighter (other who)
                      (set_health (Math_max 0 (health opponent - 10)) opponent) w in
  let w := updateHealthBars w in
  putFighter who (set_isAttacking false (getFighter who w)) w.

Definition updateFighter (keys : gmap string bool) (who : Side) (dt : Q)
           (w : World) : World :=
  let f := getFighter who w in
  let opponent := getFighter (other who) w in
  if gameOver w || Qle_bool (health f) 0 then w
  else
    let f := faceOpponent opponent f in
    let f := movement keys dt f in
    let f := startAttack keys f in
    if isAttacking f then
      let f := tickAttack dt f in
      let f := animateLimb f in
      if boxesOverlap f opponent
      then registerHit who (putFighter who f w)
      else putFighter who f w
    else putFighter who (resetLimb f) w.

(** The fighter as it stands when the attack state is examined, and as
    it stands when the boxes are computed. *)
Definition engaged (keys : gmap string bool) (dt : Q) (opponent f : Fighter)
  : Fighter :=
  startAttack keys (movement keys dt (faceOpponent opponent f)).

Definition striking (keys : gmap string bool) (dt : Q) (opponent f : Fighter)
  : Fighter :=
  animateLimb (tickAttack dt (engaged keys dt opponent f)).

(** *** The special attacks *)

Definition shootLightning (w : World) : World :=
  let w := emit LightningShot w in
  let w := set_fighter2
             (set_health (Math_max 0 (health (fighter2 w) - 10)) (fighter2 w)) w in
  let w := updateHealthBars w in
  if Qeq_bool (health (fighter2 w)) 0 && negb (gameOver w)
  then endGame "Boy wins!" w else w.

Definition shootFireball (w : World) : World :=
  let startPos := set_y (position (group (fighter2 w))) 2 in
  let endPos := set_y (position (group (fighter1 w))) 2 in
  let dir := normalize (sub endPos startPos) in
  let sphere := mkObject3D EmptyString startPos origin ones 1 [] in
  set_projectiles
    (projectiles w ++ [mkProjectile sphere (multiplyScalar dir 8) 1.5])
    (emit FireballShot w).

(** *** The projectiles, from the last index down to the first *)

Definition updateProjectile (dt : Q) (p : Projectile) (w : World)
  : option Projectile * World :=
  let p := mkProjectile
             (set_position (addScaledVector (position (mesh p)) (velocity p) dt)
                           (mesh p))
             (velocity p) (lifetime p - dt) in
  if Qle_bool (lifetime p) 0 then (None, w)
  else if intersectsBox (setFromObject (mesh p))
                        (setFromObject (group (fighter1 w))) then
    let w := set_fighter1
               (set_health (Math_max 0 (health (fighter1 w) - 10)) (fighter1 w)) w in
    let w := updateHealthBars w in
    let w := if Qeq_bool (health (fighter1 w)) 0 && negb (gameOver w)
             then endGame "Girl wins!" w else w in
    (None, w)
  else (Some p, w).

Fixpoint updateProjectiles (dt : Q) (ps : list Projectile) (w : World)
  : list Projectile * World :=
  match ps with
  | [] => ([], w)
  | p :: rest =>
      let '(rest', w) := updateProjectiles dt rest w in
      match updateProjectile dt p w with
      | (Some p', w) => (p' :: rest', w)
      | (None, w) => (rest', w)
      end
  end.

(** *** One frame *)

(** The cooldowns run down. *)
Definition coolDown (dt : Q) (w : World) : World :=
  let w := if Qgtb (lightningCooldown w) 0
           then set_lightningCooldown (lightningCooldown w - dt) w else w in
  if Qgtb (fireballCooldown w) 0
  then set_fireballCooldown (fireballCooldown w - dt) w else w.

(** The lightning key, for the boy. *)
Definition lightningKey (keys : gmap string bool) (w : World) : World :=
  if negb (gameOver w) && Qgtb (health (fighter1 w)) 0 then
    let xPressed := truthy keys "KeyX" in
    let w := if xPressed && negb (xPressedPrev w) && Qle_bool (lightningCooldown w) 0
             then set_lightningCooldown 1 (shootLightning w) else w in
    set_xPressedPrev xPressed w
  else w.

(** The fireball key, for the girl. *)
Definition fireballKey (keys : gmap string bool) (w : World) : World :=
  if negb (gameOver w) && Qgtb (health (fighter2 w)) 0 then
    let uPressed := truthy keys "KeyU" in
    let w := if uPressed && negb (uPressedPrev w) && Qle_bool (fireballCooldown w) 0
             then set_fireballCooldown 1 (shootFireball w) else w in
    set_uPressedPrev uPressed w
  else w.

(** [animate]: [current] is the reading of [performance.now()]. *)
Definition animate (keys : gmap string bool) (current : Q) (w : World) : World :=
  let dt := (current - prevTime w) / 1000 in
  let w := set_prevTime current w in
  if gameStarted w then
    let w := if negb (gameOver w)
             then updateFighter keys F2 dt (updateFighter keys F1 dt w) else w in
    let w := coolDown dt w in
    let w := lightningKey keys w in
    let w := fireballKey keys w in
    let '(ps, w) := updateProjectiles dt (projectiles w) w in
    set_projectiles ps w
  else w.

(** A frame as the loop receives it: the keys that are down and the reading
    of the clock. *)
Definition frame (i : gmap string bool * Q) (w : World) : World :=
  animate (fst i) (snd i) w.

End WithPlatform.

End Base.

(** ** The fighters demo, variant with blocking and force fields *)

Module Shield.

Import THREE.

Inductive Side := F1 | F2.

Definition other (s : Side) : Side :=
  match s with F1 => F2 | F2 => F1 end.

Inductive AttackType := Punch | Kick.

Record Controls := mkControls {
  left : string;
  right : string;
  punch : string;
  kick : string;
  block : string
}.

(** [forceMesh] refers to the shield among the children of [group]. *)
Record Fighter := mkFighter {
  group : Object3D;
  facing : Z;
  health : Q;
  isAttacking : bool;
  attackTimer : Q;
  attackLimb : option Ref;
  attackType : option AttackType;
  isBlocking : bool;
  blockTimer : Q;
  forceActiveTimer : Q;
  forceCooldown : Q;
  forceMesh : option Ref;
  shieldKey : string;
  controls : Controls
}.

Record Projectile := mkProjectile {
  mesh : Object3D;
  velocity : Vector3;
  lifetime : Q
}.

Inductive Effect :=
| HealthBarsUpdated
| LightningShot
| FireballShot
| GameEnded (message : string).

Record World := mkWorld {
  fighter1 : Fighter;
  fighter2 : Fighter;
  gameStarted : bool;
  gameOver : bool;
  prevTime : Q;
  lightningCooldown : Q;
  xPressedPrev : bool;
  fireballCooldown : Q;
  uPressedPrev : bool;
  gPressedPrev : bool;
  zPressedPrev : bool;
  projectiles : list Projectile;
  bar1 : Q;
  bar2 : Q;
  log : list Effect
}.

Definition speed : Q := 2.5.
Definition attackDuration : Q := 0.3.
Definition BLOCK_GRACE : Q := 0.25.
Definition FIELD_DURATION : Q := 4.
Definition COOLDOWN : Q := 60.

Definition set_group (v : Object3D) (r : Fighter) : Fighter :=
  mkFighter v (facing r) (health r) (isAttacking r) (attackTimer r) (attackLimb r)
    (attackType r) (isBlocking r) (blockTimer r) (forceActiveTimer r)
    (forceCooldown r) (forceMesh r) (shieldKey r) (controls r).
Definition set_facing (v : Z) (r : Fighter) : Fighter :=
  mkFighter (group r) v (health r) (isAttacking r) (attackTimer r) (attackLimb r)
    (attackType r) (isBlocking r) (blockTimer r) (forceActiveTimer r)
    (forceCooldown r) (forceMesh r) (shieldKey r) (controls r).
Definition set_health (v : Q) (r : Fighter) : Fighter :=
  mkFighter (group r) (facing r) v (isAttacking r) (attackTimer r) (attackLimb r)
    (attackType r) (isBlocking r) (blockTimer r) (forceActiveTimer r)
    (forceCooldown r) (forceMesh r) (shieldKey r) (controls r).
Definition set_isAttacking (v : bool) (r : Fighter) : Fighter :=
  mkFighter (group r) (facing r) (health r) v (attackTimer r) (attackLimb r)
    (attackType r) (isBlocking r) (blockTimer r) (forceActiveTimer r)
    (forceCooldown r) (forceMesh r) (shieldKey r) (controls r).
Definition set_attackTimer (v : Q) (r : Fighter) : Fighter :=
  mkFighter (group r) (facing r) (health r) (isAttacking r) v (attackLimb r)
    (attackType r) (isBlocking r) (blockTimer r) (forceActiveTimer r)
    (forceCooldown r) (forceMesh r) (shieldKey r) (controls r).
Definition set_attackLimb (v : option Ref) (r : Fighter) : Fighter :=
  mkFighter (group r) (facing r) (health r) (isAttacking r) (attackTimer r) v
    (attackType r) (isBlocking r) (blockTimer r) (forceActiveTimer r)
    (forceCooldown r) (forceMesh r) (shieldKey r) (controls r).
Definition set_attackType (v : option AttackType) (r : Fighter) : Fighter :=
  mkFighter (group r) (facing r) (health r) (isAttacking r) (attackTimer r)
    (attackLimb r) v (isBlocking r) (blockTimer r) (forceActiveTimer r)
    (forceCooldown r) (forceMesh r) (shieldKey r) (controls r).
Definition set_isBlocking (v : bool) (r : Fighter) : Fighter :=
  mkFighter (group r) (facing r) (health r) (isAttacking r) (attackTimer r)
    (attackLimb r) (attackType r) v (blockTimer r) (forceActiveTimer r)
    (forceCooldown r) (forceMesh r) (shieldKey r) (controls r).
Definition set_blockTimer (v : Q) (r : Fighter) : Fighter :=
  mkFighter (group r) (facing r) (health r) (isAttacking r) (attackTimer r)
    (attackLimb r) (attackType r) (isBlocking r) v (forceActiveTimer r)
    (forceCooldown r) (forceMesh r) (shieldKey r) (controls r).
Definition set_forceActiveTimer (v : Q) (r : Fighter) : Fighter :=
  mkFighter (group r) (facing r) (health r) (isAttacking r) (attackTimer r)
    (attackLimb r) (attackType r) (isBlocking r) (blockTimer r) v (forceCooldown
    r) (forceMesh r) (shieldKey r) (controls r).
Definition set_forceCooldown (v : Q) (r : Fighter) : Fighter :=
  mkFighter (group r) (facing r) (health r) (isAttacking r) (attackTimer r)
    (attackLimb r) (attackType r) (isBlocking r) (blockTimer r) (forceActiveTimer
    r) v (forceMesh r) (shieldKey r) (controls r).
Definition set_forceMesh (v : option Ref) (r : Fighter) : Fighter :=
  mkFighter (group r) (facing r) (health r) (isAttacking r) (attackTimer r)
    (attackLimb r) (attackType r) (isBlocking r) (blockTimer r) (forceActiveTimer
    r) (forceCooldown r) v (shieldKey r) (controls r).

Definition set_fighter1 (v : Fighter) (r : World) : World :=
  mkWorld v (fighter2 r) (gameStarted r) (gameOver r) (prevTime r)
    (lightningCooldown r) (xPressedPrev r) (fireballCooldown r) (uPressedPrev r)
    (gPressedPrev r) (zPressedPrev r) (projectiles r) (bar1 r) (bar2 r) (log r).
Definition set_fighter2 (v : Fighter) (r : World) : World :=
  mkWorld (fighter1 r) v (gameStarted r) (gameOver r) (prevTime r)
    (lightningCooldown r) (xPressedPrev r) (fireballCooldown r) (uPressedPrev r)
    (gPressedPrev r) (zPressedPrev r) (projectiles r) (bar1 r) (bar2 r) (log r).
Definition set_gameStarted (v : bool) (r : World) : World :=
  mkWorld (fighter1 r) (fighter2 r) v (gameOver r) (prevTime r) (lightningCooldown
    r) (xPressedPrev r) (fireballCooldown r) (uPressedPrev r) (gPressedPrev r)
    (zPressedPrev r) (projectiles r) (bar1 r) (bar2 r) (log r).
Definition set_gameOver (v : bool) (r : World) : World :=
  mkWorld (fighter1 r) (fighter2 r) (gameStarted r) v (prevTime r)
    (lightningCooldown r) (xPressedPrev r) (fireballCooldown r) (uPressedPrev r)
    (gPressedPrev r) (zPressedPrev r) (projectiles r) (bar1 r) (bar2 r) (log r).
Definition set_prevTime (v : Q) (r : World) : World :=
  mkWorld (fighter1 r) (fighter2 r) (gameStarted r) (gameOver r) v
    (lightningCooldown r) (xPressedPrev r) (fireballCooldown r) (uPressedPrev r)
    (gPressedPrev r) (zPressedPrev r) (projectiles r) (bar1 r) (bar2 r) (log r).
Definition set_lightningCooldown (v : Q) (r : World) : World :=
  mkWorld (fighter1 r) (fighter2 r) (gameStarted r) (gameOver r) (prevTime r) v
    (xPressedPrev r) (fireballCooldown r) (uPressedPrev r) (gPressedPrev r)
    (zPressedPrev r) (projectiles r) (bar1 r) (bar2 r) (log r).
Definition set_xPressedPrev (v : bool) (r : World) : World :=
  mkWorld (fighter1 r) (fighter2 r) (gameStarted r) (gameOver r) (prevTime r)
    (lightningCooldown r) v (fireballCooldown r) (uPressedPrev r) (gPressedPrev r)
    (zPressedPrev r) (projectiles r) (bar1 r) (bar2 r) (log r).
Definition set_fireballCooldown (v : Q) (r : World) : World :=
  mkWorld (fighter1 r) (fighter2 r) (gameStarted r) (gameOver r) (prevTime r)
    (lightningCooldown r) (xPressedPrev r) v (uPressedPrev r) (gPressedPrev r)
    (zPressedPrev r) (projectiles r) (bar1 r) (bar2 r) (log r).
Definition set_uPressedPrev (v : bool) (r : World) : World :=
  mkWorld (fighter1 r) (fighter2 r) (gameStarted r) (gameOver r) (prevTime r)
    (lightningCooldown r) (xPressedPrev r) (fireballCooldown r) v (gPressedPrev r)
    (zPressedPrev r) (projectiles r) (bar1 r) (bar2 r) (log r).
Definition set_gPressedPrev (v : bool) (r : World) : World :=
  mkWorld (fighter1 r) (fighter2 r) (gameStarted r) (gameOver r) (prevTime r)
    (lightningCooldown r) (xPressedPrev r) (fireballCooldown r) (uPressedPrev r) v
    (zPressedPrev r) (projectiles r) (bar1 r) (bar2 r) (log r).
Definition set_zPressedPrev (v : bool) (r : World) : World :=
  mkWorld (fighter1 r) (fighter2 r) (gameStarted r) (gameOver r) (prevTime r)
    (lightningCooldown r) (xPressedPrev r) (fireballCooldown r) (uPressedPrev r)
    (gPressedPrev r) v (projectiles r) (bar1 r) (bar2 r) (log r).
Definition set_projectiles (v : list Projectile) (r : World) : World :=
  mkWorld (fighter1 r) (fighter2 r) (gameStarted r) (gameOver r) (prevTime r)
    (lightningCooldown r) (xPressedPrev r) (fireballCooldown r) (uPressedPrev r)
    (gPressedPrev r) (zPressedPrev r) v (bar1 r) (bar2 r) (log r).
Definition set_bar1 (v : Q) (r : World) : World :=
  mkWorld (fighter1 r) (fighter2 r) (gameStarted r) (gameOver r) (prevTime r)
    (lightningCooldown r) (xPressedPrev r) (fireballCooldown r) (uPressedPrev r)
    (gPressedPrev r) (zPressedPrev r) (projectiles r) v (bar2 r) (log r).
Definition set_bar2 (v : Q) (r : World) : World :=
  mkWorld (fighter1 r) (fighter2 r) (gameStarted r) (gameOver r) (prevTime r)
    (lightningCooldown r) (xPressedPrev r) (fireballCooldown r) (uPressedPrev r)
    (gPressedPrev r) (zPressedPrev r) (projectiles r) (bar1 r) v (log r).
Definition set_log (v : list Effect) (r : World) : World :=
  mkWorld (fighter1 r) (fighter2 r) (gameStarted r) (gameOver r) (prevTime r)
    (lightningCooldown r) (xPressedPrev r) (fireballCooldown r) (uPressedPrev r)
    (gPressedPrev r) (zPressedPrev r) (projectiles r) (bar1 r) (bar2 r) v.

Definition getFighter (s : Side) (w : World) : Fighter :=
  match s with F1 => fighter1 w | F2 => fighter2 w end.
Definition putFighter (s : Side) (f : Fighter) (w : World) : World :=
  match s with F1 => set_fighter1 f w | F2 => set_fighter2 f w end.
Definition emit (e : Effect) (w : World) : World := set_log (e :: log w) w.

(** [updateHealthBars]. *)
Definition updateHealthBars (w : World) : World :=
  emit HealthBarsUpdated
       (set_bar2 (health (fighter2 w) * 2) (set_bar1 (health (fighter1 w) * 2) w)).

(** [endGame]: the flag, and the overlay with its message. *)
Definition endGame (message : string) (w : World) : World :=
  emit (GameEnded message) (set_gameOver true w).

(** The world as [init] leaves it, [t0] being the time of its last
    statement. *)
Definition initial (t0 : Q) : World :=
  mkWorld
    (mkFighter Characters.boy 1 100 false 0
               (getObjectByName Characters.boy "rightArm") None
               false 0 0 0 None "KeyG"
               (mkControls "KeyA" "KeyD" "KeyF" "KeyH" "KeyR"))
    (mkFighter Characters.girl (-1) 100 false 0
               (getObjectByName Characters.girl "rightLeg") None
               false 0 0 0 None "KeyZ"
               (mkControls "ArrowLeft" "ArrowRight" "Slash" "KeyL" "KeyP"))
    false false t0 0 false 0 false false false [] 200 200 [HealthBarsUpdated].

(** A hit shows as a refresh of the health bars. *)
Definition hitRegistered (w w' : World) : Prop :=
  log w' = HealthBarsUpdated :: log w.

Definition isLightning (e : Effect) : bool :=
  match e with LightningShot => true | _ => false end.
Definition isFireball (e : Effect) : bool :=
  match e with FireballShot => true | _ => false end.

(** The number of lightnings and of fireballs shot so far. *)
Definition lightningShots (w : World) : nat := List.length (List.filter isLightning (log w)).
Definition fireballShots (w : World) : nat := List.length (List.filter isFireball (log w)).

(** What a frame can do to each special attack: the clock, the cooldown,
    the former state of the key, the shots so far. *)
Definition lightningView (w : World) : Q * Q * bool * nat :=
  (prevTime w, lightningCooldown w, xPressedPrev w, lightningShots w).
Definition fireballView (w : World) : Q * Q * bool * nat :=
  (prevTime w, fireballCooldown w, uPressedPrev w, fireballShots w).

(** Both fighters have a health between 0 and 100. *)
Definition healthy (w : World) : Prop :=
  (0 <= health (fighter1 w) <= 100) /\ (0 <= health (fighter2 w) <= 100).


Section WithPlatform.

Context `{Platform}.

(** *** [updateFighter], statement by statement *)

Definition faceOpponent (opponent f : Fighter) : Fighter :=
  let d := if Qgtb (x (position (group opponent))) (x (position (group f)))
           then 1%Z else (-1)%Z in
  let f := set_facing d f in
  set_group
    (set_rotation_y (if Z.eqb (facing f) 1 then Math_PI / 2 else - Math_PI / 2)
                    (group f)) f.

Definition movement (keys : gmap string bool) (dt : Q) (f : Fighter) : Fighter :=
  let f := if truthy keys (left (controls f))
           then set_group (set_position_x (x (position (group f)) - speed * dt)
                                          (group f)) f
           else f in
  if truthy keys (right (controls f))
  then set_group (set_position_x (x (position (group f)) + speed * dt) (group f)) f
  else f.

(** Blocking with grace period: a held key re-arms the timer, a released
    key lets it run down. *)
Definition blocking (keys : gmap string bool) (dt : Q) (f : Fighter) : Fighter :=
  let f := if truthy keys (block (controls f)) then set_blockTimer BLOCK_GRACE f
           else if Qgtb (blockTimer f) 0 then set_blockTimer (blockTimer f - dt) f
           else f in
  set_isBlocking (Qgtb (blockTimer f) 0) f.

(** Attacking is disabled while blocking; the kick test comes second. *)
Definition requestedAttack (keys : gmap string bool) (f : Fighter)
  : option AttackType :=
  let r := None in
  if negb (isBlocking f) then
    let r := if truthy keys (punch (controls f)) then Some Punch else r in
    if truthy keys (kick (controls f)) then Some Kick else r
  else r.

Definition startAttack (keys : gmap string bool) (f : Fighter) : Fighter :=
  match requestedAttack keys f with
  | Some a =>
      if negb (isAttacking f) then
        let f := set_isAttacking true f in
        let f := set_attackTimer attackDuration f in
        let f := set_attackType (Some a) f in
        match a with
        | Punch => set_attackLimb (getObjectByName (group f) "rightArm") f
        | Kick => set_attackLimb (getObjectByName (group f) "rightLeg") f
        end
      else f
  | None => f
  end.

Definition tickAttack (dt : Q) (f : Fighter) : Fighter :=
  let f := set_attackTimer (attackTimer f - dt) f in
  if Qle_bool (attackTimer f) 0
  then set_attackType None (set_isAttacking false f)
  else f.

Definition animateLimb (f : Fighter) : Fighter :=
  match attackLimb f with
  | Some limb =>
      let progress := 1 - attackTimer f / attackDuration in
      let angle := Math_sin (progress * Math_PI) * (Math_PI / 2) in
      match attackType f with
      | Some Punch => set_group (updateAt (set_rotation_x (- angle)) (group f) limb) f
      | Some Kick => set_group (updateAt (set_rotation_x (- angle)) (group f) limb) f
      | None => f
      end
  | None => f
  end.

Definition resetLimb (f : Fighter) : Fighter :=
  match attackLimb f with
  | Some limb => set_group (updateAt (set_rotation_x 0) (group f) limb) f
  | None => f
  end.

(** Blocking arm animation (crossed arms). *)
Definition animateArms (f : Fighter) : Fighter :=
  let leftArm := getObjectByName (group f) "leftArm" in
  let rightArm := getObjectByName (group f) "rightArm" in
  let write (target : option Ref) (g : Object3D -> Object3D) (f : Fighter) :=
    match target with
    | Some r => set_group (updateAt g (group f) r) f
    | None => f
    end in
  if isBlocking f then
    let f := write leftArm
               (fun o => set_rotation_x 0 (set_rotation_z (Math_PI / 4) o)) f in
    write rightArm (fun o => set_rotation_x 0 (set_rotation_z (- Math_PI / 4) o)) f
  else
    let f := write leftArm (set_rotation_z 0) f in
    write rightArm (set_rotation_z 0) f.

Definition boxesOverlap (f opponent : Fighter) : bool :=
  intersectsBox (setFromObject (group f)) (setFromObject (group opponent)).

(** Whether the opponent can be hit. *)
Definition exposed (opponent : Fighter) : bool :=
  negb (isBlocking opponent) && Qle_bool (forceActiveTimer opponent) 0.

Definition registerHit (who : Side) (w : World) : World :=
  let opponent := getFighter (other who) w in
  let w := putFighter (other who)
                      (set_health (Math_max 0 (health opponent - 10)) opponent) w in
  let w := updateHealthBars w in
  putFighter who (set_isAttacking false (getFighter who w)) w.

Definition updateFighter (keys : gmap string bool) (who : Side) (dt : Q)
           (w : World) : World :=
  let f := getFighter who w in
  let opponent := getFighter (other who) w in
  if gameOver w || Qle_bool (health f) 0 then w
  else
    let f := faceOpponent opponent f in
    let f := movement keys dt f in
    let f := blocking keys dt f in
    let f := startAttack keys f in
    let w :=
      if isAttacking f then
        let f := tickAttack dt f in
        let f := animateLimb f in
        if boxesOverlap f opponent && exposed opponent
        then registerHit who (putFighter who f w)
        else putFighter who f w
      else putFighter who (resetLimb f) w in
    putFighter who (animateArms (getFighter who w)) w.

(** The fighter as it stands when the attack state is examined, and as
    it stands when the boxes are computed. *)
Definition engaged (keys : gmap string bool) (dt : Q) (opponent f : Fighter)
  : Fighter :=
  startAttack keys (blocking keys dt (movement keys dt (faceOpponent opponent f))).

Definition striking (keys : gmap string bool) (dt : Q) (opponent f : Fighter)
  : Fighter :=
  animateLimb (tickAttack dt (engaged keys dt opponent f)).

(** *** The special attacks *)

Definition shootLightning (w : World) : World :=
  let w := emit LightningShot w in
  let w := if exposed (fighter2 w)
           then set_fighter2
                  (set_health (Math_max 0 (health (fighter2 w) - 10)) (fighter2 w)) w
           else w in
  let w := updateHealthBars w in
  if Qeq_bool (health (fighter2 w)) 0 && negb (gameOver w)
  then endGame "Boy wins!" w else w.

Definition shootFireball (w : World) : World :=
  let startPos := set_y (position (group (fighter2 w))) 2 in
  let endPos := set_y (position (group (fighter1 w))) 2 in
  let dir := normalize (sub endPos startPos) in
  let sphere := mkObject3D EmptyString startPos origin ones 1 [] in
  set_projectiles
    (projectiles w ++ [mkProjectile sphere (multiplyScalar dir 8) 1.5])
    (emit FireballShot w).

(** *** The force field *)

(** The shield: a glowing sphere, a wireframe sphere and a ring. *)
Definition shieldGroup : Object3D :=
  mkObject3D EmptyString (mkVector3 0 1.75 0) origin ones 1
             [ mkObject3D EmptyString origin origin ones 0.25 [];
               mkObject3D EmptyString origin origin ones 0.4 [];
               mkObject3D EmptyString origin (mkVector3 (Math_PI / 2) 0 0) ones 0.5 [] ].

Definition activateField (f : Fighter) : Fighter :=
  let f := set_forceActiveTimer FIELD_DURATION f in
  let f := set_forceCooldown COOLDOWN f in
  let f := set_forceMesh (Some [List.length (children (group f))]) f in
  set_group (set_children (children (group f) ++ [shieldGroup]) (group f)) f.

(** The pulse, the spin and the flicker of an active field. *)
Definition animateField (dt : Q) (f : Fighter) : Fighter :=
  let elapsed := FIELD_DURATION - forceActiveTimer f in
  let pulse := 1 + 0.15 * Math_sin (elapsed * Math_PI * 4) in
  match forceMesh f with
  | Some m =>
      let g := updateAt (set_scale (mkVector3 pulse pulse pulse)) (group f) m in
      let g := updateAt (fun o => set_rotation_y (y (rotation o) + dt * 1.5) o) g m in
      let g := updateAt (fun o => set_rotation_y (y (rotation o) - dt * 2.5) o)
                        g (m ++ [1%nat]) in
      let g := updateAt (fun o => set_rotation_z (z (rotation o) + dt * 3) o)
                        g (m ++ [2%nat]) in
      let g := updateAt
                 (set_opacity
                    (0.18 + 0.07 * (Math_sin (elapsed * Math_PI * 6) + 1) / 2))
                 g (m ++ [0%nat]) in
      set_group g f
  | None => f
  end.

(** [f.group.remove(f.forceMesh)] and the release of the reference. *)
Definition removeField (f : Fighter) : Fighter :=
  match forceMesh f with
  | Some (i :: _) =>
      set_forceMesh None
        (set_group (set_children (delete i (children (group f))) (group f)) f)
  | Some [] => set_forceMesh None f
  | None => f
  end.

Definition handleForceField (keys : gmap string bool) (f : Fighter) (key : string)
           (prevPressed : bool) (dt : Q) : Fighter :=
  let pressed := truthy keys key in
  let f := if pressed && negb prevPressed && Qle_bool (forceCooldown f) 0
              && Qle_bool (forceActiveTimer f) 0
           then activateField f else f in
  let f := if Qgtb (forceCooldown f) 0
           then set_forceCooldown (forceCooldown f - dt) f else f in
  if Qgtb (forceActiveTimer f) 0 then
    let f := animateField dt f in
    let f := set_forceActiveTimer (forceActiveTimer f - dt) f in
    if Qle_bool (forceActiveTimer f) 0 then removeField f else f
  else f.

(** *** The projectiles, from the last index down to the first *)

Definition updateProjectile (dt : Q) (p : Projectile) (w : World)
  : option Projectile * World :=
  let p := mkProjectile
             (set_position (addScaledVector (position (mesh p)) (velocity p) dt)
                           (mesh p))
             (velocity p) (lifetime p - dt) in
  if Qle_bool (lifetime p) 0 then (None, w)
  else if intersectsBox (setFromObject (mesh p))
                        (setFromObject (group (fighter1 w))) then
    let w := if exposed (fighter1 w)
             then set_fighter1
                    (set_health (Math_max 0 (health (fighter1 w) - 10)) (fighter1 w)) w
             else w in
    let w := updateHealthBars w in
    let w := if Qeq_bool (health (fighter1 w)) 0 && negb (gameOver w)
             then endGame "Girl wins!" w else w in
    (None, w)
  else (Some p, w).

Fixpoint updateProjectiles (dt : Q) (ps : list Projectile) (w : World)
  : list Projectile * World :=
  match ps with
  | [] => ([], w)
  | p :: rest =>
      let '(rest', w) := updateProjectiles dt rest w in
      match updateProjectile dt p w with
      | (Some p', w) => (p' :: rest', w)
      | (None, w) => (rest', w)
      end
  end.

(** *** One frame *)

Definition coolDown (dt : Q) (w : World) : World :=
  let w := if Qgtb (lightningCooldown w) 0
           then set_lightningCooldown (lightningCooldown w - dt) w else w in
  if Qgtb (fireballCooldown w) 0
  then set_fireballCooldown (fireballCooldown w - dt) w else w.

Definition lightningKey (keys : gmap string bool) (w : World) : World :=
  if negb (gameOver w) && Qgtb (health (fighter1 w)) 0 then
    let xPressed := truthy keys "KeyX" in
    let w := if xPressed && negb (xPressedPrev w) && Qle_bool (lightningCooldown w) 0
             then set_lightningCooldown 1 (shootLightning w) else w in
    set_xPressedPrev xPressed w
  else w.

Definition fireballKey (keys : gmap string bool) (w : World) : World :=
  if negb (gameOver w) && Qgtb (health (fighter2 w)) 0 then
    let uPressed := truthy keys "KeyU" in
    let w := if uPressed && negb (uPressedPrev w) && Qle_bool (fireballCooldown w) 0
             then set_fireballCooldown 1 (shootFireball w) else w in
    set_uPressedPrev uPressed w
  else w.

Definition forceFields (keys : gmap string bool) (dt : Q) (w : World) : World :=
  let w := set_fighter1
             (handleForceField keys (fighter1 w) "KeyG" (gPressedPrev w) dt) w in
  let w := set_gPressedPrev (truthy keys "KeyG") w in
  let w := set_fighter2
             (handleForceField keys (fighter2 w) "KeyZ" (zPressedPrev w) dt) w in
  set_zPressedPrev (truthy keys "KeyZ") w.

(** [animate]: [current] is the reading of [performance.now()]. *)
Definition animate (keys : gmap string bool) (current : Q) (w : World) : World :=
  let dt := (current - prevTime w) / 1000 in
  let w := set_prevTime current w in
  if gameStarted w then
    let w := if negb (gameOver w)
             then updateFighter keys F2 dt (updateFighter keys F1 dt w) else w in
    let w := coolDown dt w in
    let w := lightningKey keys w in
    let w := fireballKey keys w in
    let w := forceFields keys dt w in
    let '(ps, w) := updateProjectiles dt (projectiles w) w in
    set_projectiles ps w
  else w.

(** A frame as the loop receives it: the keys that are down and the reading
    of the clock. *)
Definition frame (i : gmap string bool * Q) (w : World) : World :=
  animate (fst i) (snd i) w.

End WithPlatform.

End Shield.

(** ** The clock and the cooldowns of the frame loop, in double precision *)

(** The lines of [animate] that compute the time step and handle the two
    special attacks are the same in both variants of the fighters demo. *)

Module Clock.

(** A [number] as the machine holds it: a value of the binary64 format of
    IEEE 754, with the arithmetic of the standard (every result rounded to
    the nearest value, ties to even). *)
Definition double : Type := spec_float.

Definition prec : Z := 53.
Definition emax : Z := 1024.

Definition ofZ (n : Z) : double := binary_normalize prec emax n 0 false.
Definition minus (a b : double) : double := SFsub prec emax a b.
Definition divide (a b : double) : double := SFdiv prec emax a b.
Definition gtb (a b : double) : bool := SFltb b a.
Definition leb (a b : double) : bool := SFleb a b.



(** The variables of [init] that the cooldowns live in; [lightnings] and
    [fireballs] count the calls of [shootLightning] and [shootFireball]. *)
Record Timers := mkTimers {
  prevTime : double;
  lightningCooldown : double;
  xPressedPrev : bool;
  fireballCooldown : double;
  uPressedPrev : bool;
  lightnings : nat;
  fireballs : nat
}.

Definition set_prevTime (v : double) (r : Timers) : Timers :=
  mkTimers v (lightningCooldown r) (xPressedPrev r) (fireballCooldown r)
           (uPressedPrev r) (lightnings r) (fireballs r).
Definition set_lightningCooldown (v : double) (r : Timers) : Timers :=
  mkTimers (prevTime r) v (xPressedPrev r) (fireballCooldown r)
           (uPressedPrev r) (lightnings r) (fireballs r).
Definition set_xPressedPrev (v : bool) (r : Timers) : Timers :=
  mkTimers (prevTime r) (lightningCooldown r) v (fireballCooldown r)
           (uPressedPrev r) (lightnings r) (fireballs r).
Definition set_fireballCooldown (v : double) (r : Timers) : Timers :=
  mkTimers (prevTime r) (lightningCooldown r) (xPressedPrev r) v
           (uPressedPrev r) (lightnings r) (fireballs r).
Definition set_uPressedPrev (v : bool) (r : Timers) : Timers :=
  mkTimers (prevTime r) (lightningCooldown r) (xPressedPrev r) (fireballCooldown r)
           v (lightnings r) (fireballs r).
Definition set_lightnings (v : nat) (r : Timers) : Timers :=
  mkTimers (prevTime r) (lightningCooldown r) (xPressedPrev r) (fireballCooldown r)
           (uPressedPrev r) v (fireballs r).
Definition set_fireballs (v : nat) (r : Timers) : Timers :=
  mkTimers (prevTime r) (lightningCooldown r) (xPressedPrev r) (fireballCooldown r)
           (uPressedPrev r) (lightnings r) v.

(** What one call of [animate] finds: the reading of [performance.now()],
    the keys that are down, whether the game has started, and the values
    of the tests [!gameOver && fighter1.health > 0] and
    [!gameOver && fighter2.health > 0] when the frame comes to them. *)
Record Frame := mkFrame {
  current : double;
  keys : gmap string bool;
  gameStarted : bool;
  boyFights : bool;
  girlFights : bool
}.

(** The state at the end of [init]: [prevTime] is the reading of the clock
    then. *)
Definition initial (now : double) : Timers :=
  mkTimers now (ofZ 0) false (ofZ 0) false 0 0.

(** [if (cooldown > 0) cooldown -= dt]. *)
Definition coolDown (dt cooldown : double) : double :=
  if gtb cooldown (ofZ 0) then minus cooldown dt else cooldown.

(** The statements of [animate] that read or write the clock and the two
    cooldowns. *)
Definition animate (i : Frame) (s : Timers) : Timers :=
  let dt := divide (minus (current i) (prevTime s)) (ofZ 1000) in
  let s := set_prevTime (current i) s in
  if gameStarted i then
    let s := set_lightningCooldown (coolDown dt (lightningCooldown s)) s in
    let s := set_fireballCooldown (coolDown dt (fireballCooldown s)) s in
    let s :=
      if boyFights i then
        let xPressed := truthy (keys i) "KeyX" in
        let s :=
          if xPressed && negb (xPressedPrev s) && leb (lightningCooldown s) (ofZ 0)
          then set_lightningCooldown (ofZ 1) (set_lightnings (S (lightnings s)) s)
          else s in
        set_xPressedPrev xPressed s
      else s in
    if girlFights i then
      let uPressed := truthy (keys i) "KeyU" in
      let s :=
        if uPressed && negb (uPressedPrev s) && leb (fireballCooldown s) (ofZ 0)
        then set_fireballCooldown (ofZ 1) (set_fireballs (S (fireballs s)) s)
        else s in
      set_uPressedPrev uPressed s
    else s
  else s.





End Clock.

(** ** fighters/src/security.ts *)

Module Security.

Record SecurityConfig := mkSecurityConfig {
  MIN_HEALTH : Q;
  MAX_HEALTH : Q;
  MAX_SPEED : Q;
  BREACH_COOLDOWN : Q;
  BREACH_THRESHOLD : Q;
  ATTACK_COOLDOWN : Q;
  MAX_ATTACKS_PER_SECOND : Q;
  MAX_POSITION_CHANGE : Q;
  MAX_TELEPORTS_PER_SECOND : Q;
  POSITION_CHECK_INTERVAL : Q;
  VIOLATION_THRESHOLD : Q;
  ANTI_CHEAT_ENABLED : bool;
  DETECTION_INTERVAL : Q;
  MAX_HEALTH_CHANGE_RATE : Q
}.

Definition SECURITY_CONFIG : SecurityConfig :=
  mkSecurityConfig 0 100 25 5000 15 80 15 20 8 200 20 false 1000 75.

Definition validateHealth (health : number) : number :=
  JS.max (MIN_HEALTH SECURITY_CONFIG) (JS.min (MAX_HEALTH SECURITY_CONFIG) health).

Definition validateSpeed (speed : Q) : Q :=
  Math_min (speed * 2) (MAX_SPEED SECURITY_CONFIG).

Definition validatePosition (pos : THREE.Vector3) : THREE.Vector3 :=
  let maxX := 12 in
  let maxY := 8 in
  let maxZ := 8 in
  THREE.mkVector3
    (Math_max (- maxX) (Math_min maxX (THREE.x pos)))
    (Math_max 0 (Math_min maxY (THREE.y pos)))
    (Math_max (- maxZ) (Math_min maxZ (THREE.z pos))).

Definition validateCharacterType (type : string) : bool :=
  bool_decide (type ∈ ["roblox"; "robot"; "ninja"; "bunny"]).

End Security.

(** ** fighters/src/scene.ts: the fighter update with the security checks *)

Module Secure.

Import THREE.

Inductive Side := F1 | F2.

Definition other (s : Side) : Side :=
  match s with F1 => F2 | F2 => F1 end.

Inductive AttackType := Punch | Kick | Laser | Shuriken.

Record Controls := mkControls {
  left : string;
  right : string;
  punch : string;
  kick : string;
  block : string
}.

Record BunnyMinion := mkBunnyMinion {
  mesh : Object3D;
  velocity : Vector3;
  lifetime : Q;
  target : Vector3
}.

Record Fighter := mkFighter {
  group : Object3D;
  facing : Z;
  health : number;
  isAttacking : bool;
  attackTimer : Q;
  attackLimb : option Ref;
  attackType : option AttackType;
  isBlocking : bool;
  blockTimer : Q;
  forceActiveTimer : Q;
  forceCooldown : Q;
  forceMesh : option Ref;
  shieldKey : string;
  characterType : string;
  controls : Controls;
  isOPForm : bool;
  opFormTimer : Q;
  opFormCooldown : Q;
  opMesh : option Ref;
  bunnyArmy : list BunnyMinion;
  bunnyArmyCooldown : Q
}.

(** The security state declared inside [init], which hides the imported
    one; times are readings of [Date.now()] in milliseconds. *)
Record SecurityState := mkSecurityState {
  lastAttackTime : Z;
  attackCount : Z;
  lastResetTime : Z;
  invalidInputAttempts : Z;
  lastPosition : Vector3;
  teleportAttempts : Z;
  lastTeleportTime : Z;
  securityViolations : Z;
  lastHealthUpdate : Z;
  suspiciousHealthChanges : Z
}.

Record FirewallSystem := mkFirewallSystem {
  active : bool;
  lastBreachAttempt : Z;
  breachCount : Z;
  warningLevel : Z
}.

(** What the program does to the page, the scene and the loudspeaker;
    [SummonEffectShown], [MiniBunnyShown] and [SummonSound] are the
    effects of [summonBunnyArmy]: the cylinder that it adds to the scene at
    the position of the fighter and animates, each small bunny that it adds
    to the scene and lets hop, and the sound that it plays. *)
Inductive Effect :=
| HealthBarsUpdated
| Warned (message : string)
| CheatingDetected
| HitSound (isBoy : bool)
| LightningShot
| GameEnded (message : string)
| SummonEffectShown (position : Vector3)
| MiniBunnyShown (mesh : Object3D)
| SummonSound.

(** [violations] is the counter table of the anti-cheat system. *)
Record World := mkWorld {
  fighter1 : Fighter;
  fighter2 : Fighter;
  fighter1Security : SecurityState;
  fighter2Security : SecurityState;
  firewallSystem : FirewallSystem;
  violations : gmap string Z;
  gameOver : bool;
  log : list Effect
}.

(** The constants declared inside [init]; the two [CONFIG_] values are the
    fields of the [SECURITY_CONFIG] object declared there. *)
Definition MAX_HEALTH : Q := 100.
Definition MIN_HEALTH : Q := 0.
Definition MAX_MOVEMENT_SPEED : Q := 1000.
Definition NINJA_SPEED_MULTIPLIER : Q := 100.
Definition VALID_CHARACTER_TYPES : list string := ["roblox"; "robot"; "ninja"; "bunny"].
Definition CONFIG_MAX_ATTACKS_PER_SECOND : Z := 5.
Definition CONFIG_VIOLATION_THRESHOLD : Z := 3.

Definition set_group (v : Object3D) (r : Fighter) : Fighter :=
  mkFighter v (facing r) (health r) (isAttacking r) (attackTimer r) (attackLimb r)
    (attackType r) (isBlocking r) (blockTimer r) (forceActiveTimer r)
    (forceCooldown r) (forceMesh r) (shieldKey r) (characterType r) (controls r)
    (isOPForm r) (opFormTimer r) (opFormCooldown r) (opMesh r) (bunnyArmy r)
    (bunnyArmyCooldown r).
Definition set_facing (v : Z) (r : Fighter) : Fighter :=
  mkFighter (group r) v (health r) (isAttacking r) (attackTimer r) (attackLimb r)
    (attackType r) (isBlocking r) (blockTimer r) (forceActiveTimer r)
    (forceCooldown r) (forceMesh r) (shieldKey r) (characterType r) (controls r)
    (isOPForm r) (opFormTimer r) (opFormCooldown r) (opMesh r) (bunnyArmy r)
    (bunnyArmyCooldown r).
Definition set_health (v : number) (r : Fighter) : Fighter :=
  mkFighter (group r) (facing r) v (isAttacking r) (attackTimer r) (attackLimb r)
    (attackType r) (isBlocking r) (blockTimer r) (forceActiveTimer r)
    (forceCooldown r) (forceMesh r) (shieldKey r) (characterType r) (controls r)
    (isOPForm r) (opFormTimer r) (opFormCooldown r) (opMesh r) (bunnyArmy r)
    (bunnyArmyCooldown r).
Definition set_isAttacking (v : bool) (r : Fighter) : Fighter :=
  mkFighter (group r) (facing r) (health r) v (attackTimer r) (attackLimb r)
    (attackType r) (isBlocking r) (blockTimer r) (forceActiveTimer r)
    (forceCooldown r) (forceMesh r) (shieldKey r) (characterType r) (controls r)
    (isOPForm r) (opFormTimer r) (opFormCooldown r) (opMesh r) (bunnyArmy r)
    (bunnyArmyCooldown r).
Definition set_attackTimer (v : Q) (r : Fighter) : Fighter :=
  mkFighter (group r) (facing r) (health r) (isAttacking r) v (attackLimb r)
    (attackType r) (isBlocking r) (blockTimer r) (forceActiveTimer r)
    (forceCooldown r) (forceMesh r) (shieldKey r) (characterType r) (controls r)
    (isOPForm r) (opFormTimer r) (opFormCooldown r) (opMesh r) (bunnyArmy r)
    (bunnyArmyCooldown r).
Definition set_attackType (v : option AttackType) (r : Fighter) : Fighter :=
  mkFighter (group r) (facing r) (health r) (isAttacking r) (attackTimer r)
    (attackLimb r) v (isBlocking r) (blockTimer r) (forceActiveTimer r)
    (forceCooldown r) (forceMesh r) (shieldKey r) (characterType r) (controls r)
    (isOPForm r) (opFormTimer r) (opFormCooldown r) (opMesh r) (bunnyArmy r)
    (bunnyArmyCooldown r).
Definition set_isBlocking (v : bool) (r : Fighter) : Fighter :=
  mkFighter (group r) (facing r) (health r) (isAttacking r) (attackTimer r)
    (attackLimb r) (attackType r) v (blockTimer r) (forceActiveTimer r)
    (forceCooldown r) (forceMesh r) (shieldKey r) (characterType r) (controls r)
    (isOPForm r) (opFormTimer r) (opFormCooldown r) (opMesh r) (bunnyArmy r)
    (bunnyArmyCooldown r).
Definition set_blockTimer (v : Q) (r : Fighter) : Fighter :=
  mkFighter (group r) (facing r) (health r) (isAttacking r) (attackTimer r)
    (attackLimb r) (attackType r) (isBlocking r) v (forceActiveTimer r)
    (forceCooldown r) (forceMesh r) (shieldKey r) (characterType r) (controls r)
    (isOPForm r) (opFormTimer r) (opFormCooldown r) (opMesh r) (bunnyArmy r)
    (bunnyArmyCooldown r).
Definition set_characterType (v : string) (r : Fighter) : Fighter :=
  mkFighter (group r) (facing r) (health r) (isAttacking r) (attackTimer r)
    (attackLimb r) (attackType r) (isBlocking r) (blockTimer r) (forceActiveTimer
    r) (forceCooldown r) (forceMesh r) (shieldKey r) v (controls r) (isOPForm r)
    (opFormTimer r) (opFormCooldown r) (opMesh r) (bunnyArmy r) (bunnyArmyCooldown
    r).
Definition set_isOPForm (v : bool) (r : Fighter) : Fighter :=
  mkFighter (group r) (facing r) (health r) (isAttacking r) (attackTimer r)
    (attackLimb r) (attackType r) (isBlocking r) (blockTimer r) (forceActiveTimer
    r) (forceCooldown r) (forceMesh r) (shieldKey r) (characterType r) (controls
    r) v (opFormTimer r) (opFormCooldown r) (opMesh r) (bunnyArmy r)
    (bunnyArmyCooldown r).
Definition set_bunnyArmy (v : list BunnyMinion) (r : Fighter) : Fighter :=
  mkFighter (group r) (facing r) (health r) (isAttacking r) (attackTimer r)
    (attackLimb r) (attackType r) (isBlocking r) (blockTimer r) (forceActiveTimer
    r) (forceCooldown r) (forceMesh r) (shieldKey r) (characterType r) (controls
    r) (isOPForm r) (opFormTimer r) (opFormCooldown r) (opMesh r) v
    (bunnyArmyCooldown r).
Definition set_bunnyArmyCooldown (v : Q) (r : Fighter) : Fighter :=
  mkFighter (group r) (facing r) (health r) (isAttacking r) (attackTimer r)
    (attackLimb r) (attackType r) (isBlocking r) (blockTimer r) (forceActiveTimer
    r) (forceCooldown r) (forceMesh r) (shieldKey r) (characterType r) (controls
    r) (isOPForm r) (opFormTimer r) (opFormCooldown r) (opMesh r) (bunnyArmy r) v.

Definition set_lastAttackTime (v : Z) (r : SecurityState) : SecurityState :=
  mkSecurityState v (attackCount r) (lastResetTime r) (invalidInputAttempts r)
    (lastPosition r) (teleportAttempts r) (lastTeleportTime r) (securityViolations
    r) (lastHealthUpdate r) (suspiciousHealthChanges r).
Definition set_attackCount (v : Z) (r : SecurityState) : SecurityState :=
  mkSecurityState (lastAttackTime r) v (lastResetTime r) (invalidInputAttempts r)
    (lastPosition r) (teleportAttempts r) (lastTeleportTime r) (securityViolations
    r) (lastHealthUpdate r) (suspiciousHealthChanges r).
Definition set_lastResetTime (v : Z) (r : SecurityState) : SecurityState :=
  mkSecurityState (lastAttackTime r) (attackCount r) v (invalidInputAttempts r)
    (lastPosition r) (teleportAttempts r) (lastTeleportTime r) (securityViolations
    r) (lastHealthUpdate r) (suspiciousHealthChanges r).
Definition set_lastPosition (v : Vector3) (r : SecurityState) : SecurityState :=
  mkSecurityState (lastAttackTime r) (attackCount r) (lastResetTime r)
    (invalidInputAttempts r) v (teleportAttempts r) (lastTeleportTime r)
    (securityViolations r) (lastHealthUpdate r) (suspiciousHealthChanges r).
Definition set_teleportAttempts (v : Z) (r : SecurityState) : SecurityState :=
  mkSecurityState (lastAttackTime r) (attackCount r) (lastResetTime r)
    (invalidInputAttempts r) (lastPosition r) v (lastTeleportTime r)
    (securityViolations r) (lastHealthUpdate r) (suspiciousHealthChanges r).
Definition set_lastTeleportTime (v : Z) (r : SecurityState) : SecurityState :=
  mkSecurityState (lastAttackTime r) (attackCount r) (lastResetTime r)
    (invalidInputAttempts r) (lastPosition r) (teleportAttempts r) v
    (securityViolations r) (lastHealthUpdate r) (suspiciousHealthChanges r).
Definition set_securityViolations (v : Z) (r : SecurityState) : SecurityState :=
  mkSecurityState (lastAttackTime r) (attackCount r) (lastResetTime r)
    (invalidInputAttempts r) (lastPosition r) (teleportAttempts r)
    (lastTeleportTime r) v (lastHealthUpdate r) (suspiciousHealthChanges r).

Definition set_lastBreachAttempt (v : Z) (r : FirewallSystem) : FirewallSystem :=
  mkFirewallSystem (active r) v (breachCount r) (warningLevel r).
Definition set_breachCount (v : Z) (r : FirewallSystem) : FirewallSystem :=
  mkFirewallSystem (active r) (lastBreachAttempt r) v (warningLevel r).
Definition set_warningLevel (v : Z) (r : FirewallSystem) : FirewallSystem :=
  mkFirewallSystem (active r) (lastBreachAttempt r) (breachCount r) v.

Definition set_fighter1 (v : Fighter) (r : World) : World :=
  mkWorld v (fighter2 r) (fighter1Security r) (fighter2Security r) (firewallSystem
    r) (violations r) (gameOver r) (log r).
Definition set_fighter2 (v : Fighter) (r : World) : World :=
  mkWorld (fighter1 r) v (fighter1Security r) (fighter2Security r) (firewallSystem
    r) (violations r) (gameOver r) (log r).
Definition set_fighter1Security (v : SecurityState) (r : World) : World :=
  mkWorld (fighter1 r) (fighter2 r) v (fighter2Security r) (firewallSystem r)
    (violations r) (gameOver r) (log r).
Definition set_fighter2Security (v : SecurityState) (r : World) : World :=
  mkWorld (fighter1 r) (fighter2 r) (fighter1Security r) v (firewallSystem r)
    (violations r) (gameOver r) (log r).
Definition set_firewallSystem (v : FirewallSystem) (r : World) : World :=
  mkWorld (fighter1 r) (fighter2 r) (fighter1Security r) (fighter2Security r) v
    (violations r) (gameOver r) (log r).
Definition set_violations (v : gmap string Z) (r : World) : World :=
  mkWorld (fighter1 r) (fighter2 r) (fighter1Security r) (fighter2Security r)
    (firewallSystem r) v (gameOver r) (log r).
Definition set_gameOver (v : bool) (r : World) : World :=
  mkWorld (fighter1 r) (fighter2 r) (fighter1Security r) (fighter2Security r)
    (firewallSystem r) (violations r) v (log r).
Definition set_log (v : list Effect) (r : World) : World :=
  mkWorld (fighter1 r) (fighter2 r) (fighter1Security r) (fighter2Security r)
    (firewallSystem r) (violations r) (gameOver r) v.

Definition getFighter (s : Side) (w : World) : Fighter :=
  match s with F1 => fighter1 w | F2 => fighter2 w end.
Definition putFighter (s : Side) (f : Fighter) (w : World) : World :=
  match s with F1 => set_fighter1 f w | F2 => set_fighter2 f w end.
Definition getSecurity (s : Side) (w : World) : SecurityState :=
  match s with F1 => fighter1Security w | F2 => fighter2Security w end.
Definition putSecurity (s : Side) (c : SecurityState) (w : World) : World :=
  match s with F1 => set_fighter1Security c w | F2 => set_fighter2Security c w end.
Definition emit (e : Effect) (w : World) : World := set_log (e :: log w) w.

(** The validation functions declared inside [init]. *)
Definition validateHealth (health : number) : number :=
  JS.max MIN_HEALTH (JS.min MAX_HEALTH health).

Definition validatePosition (pos : Vector3) : Vector3 :=
  mkVector3 (Math_max (- (10)) (Math_min 10 (x pos)))
            (Math_max 0 (Math_min 5 (y pos)))
            (Math_max (- (10)) (Math_min 10 (z pos))).

Definition validateSpeed (speed : Q) : Q :=
  Math_max 0 (Math_min MAX_MOVEMENT_SPEED speed).

Definition validateCharacterType (type : string) : bool :=
  bool_decide (type ∈ VALID_CHARACTER_TYPES).

(** [checkSecurityViolation]; [now] is its own reading of the clock. *)
Definition checkSecurityViolation (now : Z) (who : Side) (type : string) (w : World)
  : bool * World :=
  let security := getSecurity who w in
  let security :=
    if (CONFIG_VIOLATION_THRESHOLD <=? now - lastResetTime security)%Z
    then set_lastResetTime now (set_securityViolations 0%Z security)
    else security in
  let security := set_securityViolations (securityViolations security + 1)%Z security in
  if (CONFIG_VIOLATION_THRESHOLD <=? securityViolations security)%Z
  then (true, emit (Warned type)
                   (putSecurity who (set_securityViolations 0%Z security) w))
  else (false, putSecurity who security w).

(** How one call of [updateHealthBars] goes, which the page and the
    storage of the browser decide.  The two validations at the head of the
    [try] block cannot throw; what follows them can (the health bars are
    rebuilt through the DOM, and [localStorage.setItem] throws when the
    storage is full or denied).  Then the [catch] block runs: it reads the
    two stored strings back, and it can throw in turn, at
    [localStorage.getItem] or later when it rebuilds the bars.
    [stored1] and [stored2] are what [Number] makes of the two strings;
    [None] stands for a string that is [null] or empty, which the tests
    [if (stored1)] and [if (stored2)] skip. *)
Inductive Attempt :=
| Completes
| Recovers (stored1 stored2 : option number)
| RecoversAndThrows (stored1 stored2 : option number)
| Throws.

(** How a call ends: it returns, or an exception leaves it. *)
Inductive Ending := Returned | Thrown.

Definition restore (stored : option number) (f : Fighter) : Fighter :=
  match stored with
  | Some h => set_health h f
  | None => f
  end.

(** [updateHealthBars], as far as the game state goes. *)
Definition updateHealthBars (attempt : Attempt) (w : World) : Ending * World :=
  let w := set_fighter1 (set_health (validateHealth (health (fighter1 w))) (fighter1 w)) w in
  let w := set_fighter2 (set_health (validateHealth (health (fighter2 w))) (fighter2 w)) w in
  match attempt with
  | Completes => (Returned, emit HealthBarsUpdated w)
  | Recovers stored1 stored2 =>
      let w := emit (Warned "Error updating health bars:") w in
      let w := set_fighter1 (restore stored1 (fighter1 w)) w in
      let w := set_fighter2 (restore stored2 (fighter2 w)) w in
      (Returned, w)
  | RecoversAndThrows stored1 stored2 =>
      let w := emit (Warned "Error updating health bars:") w in
      let w := set_fighter1 (restore stored1 (fighter1 w)) w in
      let w := set_fighter2 (restore stored2 (fighter2 w)) w in
      (Thrown, w)
  | Throws => (Thrown, emit (Warned "Error updating health bars:") w)
  end.

Definition endGame (message : string) (w : World) : World :=
  emit (GameEnded message) (set_gameOver true w).

(** [antiCheatSystem.punishViolation]. *)
Definition punishViolation (who : Side) (w : World) : World :=
  let fighter := getFighter who w in
  let fighter := set_health (JS.max 20 (JS.minus (health fighter) 30)) fighter in
  let fighter := set_attackTimer 2 fighter in
  let fighter := set_isBlocking false fighter in
  let fighter := set_isOPForm false fighter in
  let id := match who with F1 => "fighter1" | F2 => "fighter2" end in
  set_violations (<[id := 0%Z]> (violations w))
                 (emit CheatingDetected (putFighter who fighter w)).

Definition exposed (defender : Fighter) : bool :=
  negb (isBlocking defender) && Qle_bool (forceActiveTimer defender) 0.

Definition winner (attacker : Side) : string :=
  match attacker with F1 => "Boy wins!" | F2 => "Girl wins!" end.

(** What follows a call of [updateHealthBars] runs only if the call
    returns. *)
Definition andThen (r : Ending * World) (k : World -> World) : Ending * World :=
  match r with
  | (Returned, w) => (Returned, k w)
  | (Thrown, w) => (Thrown, w)
  end.

(** [performRobloxSpecial]: the lightning with reduced damage. *)
Definition performRobloxSpecial (attempt : Attempt) (attacker : Side) (w : World)
  : Ending * World :=
  let w := emit LightningShot w in
  let defender := getFighter (other attacker) w in
  if exposed defender then
    let w := putFighter (other attacker)
                        (set_health (JS.max 0 (JS.minus (health defender) 7)) defender) w in
    andThen (updateHealthBars attempt w)
      (fun w =>
         let w := if JS.eqb (health (getFighter (other attacker) w)) 0
                  then endGame (winner attacker) w else w in
         emit (HitSound (match other attacker with F1 => true | F2 => false end)) w)
  else (Returned, w).

(** One frame of a ring of [performRobotSpecial] that reaches the
    defender. *)
Definition robotRingHit (attempt : Attempt) (attacker : Side) (w : World)
  : Ending * World :=
  let defender := getFighter (other attacker) w in
  if exposed defender then
    let w := putFighter (other attacker)
                        (set_health (JS.max 0 (JS.minus (health defender) 2)) defender) w in
    andThen (updateHealthBars attempt w)
      (fun w =>
         let w := if JS.eqb (health (getFighter (other attacker) w)) 0
                  then endGame (winner attacker) w else w in
         emit (HitSound (match other attacker with F1 => true | F2 => false end)) w)
  else (Returned, w).

(** A bunny of the army of [owner] that reaches the opponent. *)
Definition bunnyHit (owner : Side) (w : World) : World :=
  let opponent := getFighter (other owner) w in
  if negb (isBlocking opponent) then
    let w := putFighter (other owner)
                        (set_health (JS.max 0 (JS.minus (health opponent) 20)) opponent) w in
    emit (HitSound (match other owner with F1 => true | F2 => false end)) w
  else w.

(** A projectile that reaches the boy. *)
Definition projectileHit (attempt : Attempt) (w : World) : Ending * World :=
  let w := if exposed (fighter1 w)
           then set_fighter1
                  (set_health (JS.max 0 (JS.minus (health (fighter1 w)) 10)) (fighter1 w)) w
           else w in
  andThen (updateHealthBars attempt w)
    (fun w =>
       let w := if JS.eqb (health (fighter1 w)) 0 && negb (gameOver w)
                then endGame "Girl wins!" w else w in
       emit (HitSound true) w).

(** The places of [scene.ts] that assign to a fighter's health during
    play. *)
Inductive HealthOp :=
| OpValidate
| OpPenalty (who : Side)
| OpRobloxSpecial (attacker : Side)
| OpRobotRing (attacker : Side)
| OpBunny (owner : Side)
| OpProjectile.

(** The world after the operation, whether it returns or throws;
    [attempt] is how its call of [updateHealthBars] goes, if it makes
    one. *)
Definition applyHealthOp (attempt : Attempt) (op : HealthOp) (w : World) : World :=
  match op with
  | OpValidate => snd (updateHealthBars attempt w)
  | OpPenalty who => punishViolation who w
  | OpRobloxSpecial attacker => snd (performRobloxSpecial attempt attacker w)
  | OpRobotRing attacker => snd (robotRingHit attempt attacker w)
  | OpBunny owner => bunnyHit owner w
  | OpProjectile => snd (projectileHit attempt w)
  end.

(** Both fighters have a health between 0 and 100. *)
Definition healthy (w : World) : Prop :=
  JS.between 0 100 (health (fighter1 w)) /\ JS.between 0 100 (health (fighter2 w)).

(** The healths that the [catch] block of [updateHealthBars] reads back,
    if it gets that far, are between 0 and 100. *)
Definition trusted (attempt : Attempt) : Prop :=
  match attempt with
  | Recovers stored1 stored2 | RecoversAndThrows stored1 stored2 =>
      (forall h, stored1 = Some h -> JS.between 0 100 h) /\
      (forall h, stored2 = Some h -> JS.between 0 100 h)
  | _ => True
  end.

(** The fields of a fighter that the countdowns read and write. *)
Definition timers (f : Fighter) : Q * Q * bool * bool * option AttackType :=
  (attackTimer f, blockTimer f, isAttacking f, isBlocking f, attackType f).

Section WithPlatform.

Context `{Platform}.

(** What [summonBunnyArmy] builds for its [i]-th bunny: the mesh, the
    velocity and the target, which depend on [Math.random]. *)
Variable miniBunny : Fighter -> Fighter -> nat -> Object3D * Vector3 * Vector3.

Definition BUNNY_COUNT : nat := 4.
Definition BUNNY_LIFETIME : Q := 6.
Definition BUNNY_COOLDOWN : Q := 8.

(** [summonBunnyArmy(f, opponent)], [f] being the fighter on the side
    [who]. *)
Definition summonBunnyArmy (who : Side) (w : World) : World :=
  let f := getFighter who w in
  let opponent := getFighter (other who) w in
  if Qgtb (bunnyArmyCooldown f) 0 || negb (String.eqb (characterType f) "bunny")
  then w
  else
    let w := putFighter who (set_bunnyArmyCooldown BUNNY_COOLDOWN f) w in
    let w := emit (SummonEffectShown (position (group f))) w in
    let w :=
      fold_left
        (fun w i =>
           let f := getFighter who w in
           let '(m, v, t) := miniBunny f opponent i in
           putFighter who
             (set_bunnyArmy (bunnyArmy f ++ [mkBunnyMinion m v BUNNY_LIFETIME t]) f)
             (emit (MiniBunnyShown m) w))
        (seq 0 BUNNY_COUNT) w in
    emit SummonSound w.

Definition distanceTo (a b : Vector3) : Q := length (sub a b).

(** *** [updateFighter], step by step; [now] is the reading of
    [Date.now()], taken to be the same throughout one call *)

(** 2. Position validation. *)
Definition teleportCheck (now : Z) (who : Side) (w : World) : World :=
  let f := getFighter who w in
  let security := getSecurity who w in
  let newPos := position (group f) in
  let distance := distanceTo newPos (lastPosition security) in
  let timeDiff := (now - lastTeleportTime security)%Z in
  let w :=
    if Qgtb distance 5 && (timeDiff <? 100)%Z then
      let security := set_teleportAttempts (teleportAttempts security + 1)%Z security in
      let w := putSecurity who security w in
      if (3 <? teleportAttempts security)%Z then
        let w := snd (checkSecurityViolation now who "Illegal teleport detected" w) in
        putFighter who
          (set_group (set_position (lastPosition (getSecurity who w)) (group f)) f) w
      else w
    else
      putSecurity who
        (set_teleportAttempts (Z.max 0 (teleportAttempts security - 1)) security) w in
  let security := getSecurity who w in
  putSecurity who
    (set_lastTeleportTime now
       (set_lastPosition (position (group (getFighter who w))) security)) w.

(** 3. Attack rate limiting. *)
Definition rateWindow (now : Z) (who : Side) (w : World) : World :=
  let security := getSecurity who w in
  if (1000 <? now - lastResetTime security)%Z
  then putSecurity who (set_lastResetTime now (set_attackCount 0%Z security)) w
  else w.

(** 4. Character type validation. *)
Definition characterCheck (now : Z) (who : Side) (w : World) : World :=
  if negb (validateCharacterType (characterType (getFighter who w))) then
    let w := snd (checkSecurityViolation now who "Invalid character type" w) in
    putFighter who (set_characterType "roblox" (getFighter who w)) w
  else w.

(** 5. Movement with the validated speed, final position and facing. *)
Definition movement (keys : gmap string bool) (dt : Q) (f : Fighter) : Fighter :=
  let speed := 5 in
  let currentSpeed :=
    if String.eqb (characterType f) "ninja"
    then validateSpeed (speed * NINJA_SPEED_MULTIPLIER)
    else validateSpeed (speed * (if isOPForm f then 2 else 1)) in
  let f := if truthy keys (left (controls f))
           then set_facing (-1)%Z
                  (set_group (set_position_x (x (position (group f)) - currentSpeed * dt)
                                             (group f)) f)
           else f in
  let f := if truthy keys (right (controls f))
           then set_facing 1%Z
                  (set_group (set_position_x (x (position (group f)) + currentSpeed * dt)
                                             (group f)) f)
           else f in
  let f := set_group (set_position (validatePosition (position (group f))) (group f)) f in
  set_group
    (set_rotation_y (if Z.eqb (facing f) 1 then Math_PI / 2 else - Math_PI / 2)
                    (group f)) f.

(** Attacks with rate limiting: the punch key wins over the kick key. *)
Definition startAttack (keys : gmap string bool) (now : Z) (who : Side) (w : World)
  : World :=
  let f := getFighter who w in
  let security := getSecurity who w in
  if (truthy keys (punch (controls f)) || truthy keys (kick (controls f)))
       && negb (isAttacking f) && negb (isBlocking f) then
    if (attackCount security <? CONFIG_MAX_ATTACKS_PER_SECOND)%Z then
      let attackType := if truthy keys (punch (controls f)) then Punch else Kick in
      let f := set_isAttacking true f in
      let f := set_attackTimer 0.3 f in
      let f := set_attackType (Some attackType) f in
      let security := set_attackCount (attackCount security + 1)%Z security in
      let security := set_lastAttackTime now security in
      putSecurity who security (putFighter who f w)
    else w
  else w.

(** Firewall breach detection. *)
Definition firewallCheck (now : Z) (who : Side) (w : World) : World :=
  let f := getFighter who w in
  if Qgtb (Qabs (x (position (group f)))) 7.5 then
    let fw := firewallSystem w in
    let fw := if (CONFIG_VIOLATION_THRESHOLD <? now - lastBreachAttempt fw)%Z
              then set_breachCount 0%Z fw else fw in
    let fw := set_breachCount (breachCount fw + 1)%Z fw in
    let fw := set_lastBreachAttempt now fw in
    let fw := set_warningLevel 3%Z fw in
    let w := set_firewallSystem fw w in
    if (CONFIG_VIOLATION_THRESHOLD <=? breachCount fw)%Z then
      let w := snd (checkSecurityViolation now who "Firewall breach attempt" w) in
      let f := getFighter who w in
      putFighter who
        (set_group (set_position_x (match who with F1 => - (7) | F2 => 7 end)
                                   (group f)) f) w
    else w
  else w.

(** Update timers. *)
Definition updateTimers (dt : Q) (f : Fighter) : Fighter :=
  let f :=
    if Qgtb (attackTimer f) 0 then
      let f := set_attackTimer (attackTimer f - dt) f in
      if Qle_bool (attackTimer f) 0
      then set_attackType None (set_isAttacking false f)
      else f
    else f in
  if Qgtb (blockTimer f) 0 then
    let f := set_blockTimer (blockTimer f - dt) f in
    if Qle_bool (blockTimer f) 0 then set_isBlocking false f else f
  else f.

(** The bunny army ability. *)
Definition bunnyAbility (keys : gmap string bool) (who : Side) (w : World) : World :=
  let f := getFighter who w in
  if String.eqb (characterType f) "bunny" then
    let specialKey := match who with F1 => "KeyB" | F2 => "KeyN" end in
    if truthy keys specialKey && Qle_bool (bunnyArmyCooldown f) 0
    then summonBunnyArmy who w
    else w
  else w.

Definition updateFighter (keys : gmap string bool) (now : Z) (who : Side) (dt : Q)
           (w : World) : World :=
  if gameOver w || JS.leb (health (getFighter who w)) 0 then w
  else
    let f := getFighter who w in
    let w := putFighter who (set_health (validateHealth (health f)) f) w in
    let w := teleportCheck now who w in
    let w := rateWindow now who w in
    let w := characterCheck now who w in
    let w := putFighter who (movement keys dt (getFighter who w)) w in
    let w := startAttack keys now who w in
    let w := firewallCheck now who w in
    let w := putFighter who (updateTimers dt (getFighter who w)) w in
    bunnyAbility keys who w.


End WithPlatform.

End Secure.

(** ** The bow before the fight ([bowFighters], the same in every variant) *)

Module Bow.

Import THREE.

(** A statement either completes or throws. *)
Inductive Result (A : Type) : Type :=
| Ok (a : A)
| Throw (error : string).
Arguments Ok {A} a.
Arguments Throw {A} error.

Definition bind {A B : Type} (r : Result A) (k : A -> Result B) : Result B :=
  match r with
  | Ok a => k a
  | Throw e => Throw e
  end.

Notation "'attempt' x := r 'in' k" := (bind r (fun x => k))
  (at level 10, x name, r at level 100, k at level 200).

(** What the closure of the start button sees: the two characters, the
    flag that its callback sets, and the number of calls of the callback. *)
Record Stage := mkStage {
  boy : Object3D;
  girl : Object3D;
  gameStarted : bool;
  callbacks : nat
}.

(** The variables of one call of [bowFighters]. *)
Record Closure := mkClosure {
  torso1 : option Ref;
  torso2 : option Ref;
  head1 : option Ref;
  head2 : option Ref;
  t : Q
}.

Definition bowTime : Q := 0.6.
Definition upTime : Q := 0.6.

(** [(target as THREE.Mesh).rotation.x = v]: reading [rotation] from
    [undefined] throws. *)
Definition assignRotationX (target : option Ref) (v : Q) (o : Object3D)
  : Result Object3D :=
  match target with
  | Some r => Ok (updateAt (set_rotation_x v) o r)
  | None => Throw "TypeError: Cannot read properties of undefined (reading 'rotation')"
  end.

(** [if (target) (target as THREE.Mesh).rotation.x = v]. *)
Definition whenPresent (target : option Ref) (v : Q) (o : Object3D) : Result Object3D :=
  if bool_decide (is_Some target) then assignRotationX target v o else Ok o.

(** The four guarded assignments of each branch. *)
Definition pose (c : Closure) (angle : Q) (s : Stage) : Result Stage :=
  attempt b := whenPresent (torso1 c) angle (boy s) in
  attempt g := whenPresent (torso2 c) angle (girl s) in
  attempt b := whenPresent (head1 c) angle b in
  attempt g := whenPresent (head2 c) angle g in
  Ok (mkStage b g (gameStarted s) (callbacks s)).

(** The same four assignments where nothing can throw: an assignment
    whose target is missing is left out. *)
Definition settle (target : option Ref) (v : Q) (o : Object3D) : Object3D :=
  match target with
  | Some r => updateAt (set_rotation_x v) o r
  | None => o
  end.

Definition posed (c : Closure) (angle : Q) (s : Stage) : Stage :=
  mkStage (settle (head1 c) angle (settle (torso1 c) angle (boy s)))
          (settle (head2 c) angle (settle (torso2 c) angle (girl s)))
          (gameStarted s) (callbacks s).

(** None of the four lookups found an object. *)
Definition nothingFound (c : Closure) : Prop :=
  torso1 c = None /\ torso2 c = None /\ head1 c = None /\ head2 c = None.

(** The callback handed over by the start button. *)
Definition callback (s : Stage) : Stage :=
  mkStage (boy s) (girl s) true (S (callbacks s)).

Section WithPlatform.

Context `{Platform}.

(** Ensure they face each other. *)
Definition faceEachOther (s : Stage) : Stage :=
  let dir1 := if Qgtb (x (position (girl s))) (x (position (boy s)))
              then 1%Z else (-1)%Z in
  let dir2 := if Qgtb (x (position (boy s))) (x (position (girl s)))
              then 1%Z else (-1)%Z in
  mkStage
    (set_rotation_y (if Z.eqb dir1 1 then Math_PI / 2 else - Math_PI / 2) (boy s))
    (set_rotation_y (if Z.eqb dir2 1 then Math_PI / 2 else - Math_PI / 2) (girl s))
    (gameStarted s) (callbacks s).

(** [bowAnim]: one animation frame.  The function asks for the next
    frame before anything else, on every path. *)
Definition bowAnim (cs : Closure * Stage) : Result (Closure * Stage) :=
  let '(c, s) := cs in
  let dt := 1 / 60 in
  let next c := mkClosure (torso1 c) (torso2 c) (head1 c) (head2 c) (t c + dt) in
  if Qltb (t c) bowTime then
    let angle := (t c / bowTime) * (Math_PI / 4) in
    attempt s := pose c angle s in
    Ok (next c, s)
  else if Qltb (t c) (bowTime + upTime) then
    let progress := (t c - bowTime) / upTime in
    let angle := (1 - progress) * (Math_PI / 4) in
    attempt s := pose c angle s in
    Ok (next c, s)
  else
    attempt s := pose c 0 s in
    Ok (c, callback (faceEachOther s)).

(** [bowFighters]: the four lookups, then the first frame is due. *)
Definition bowFighters (s : Stage) : Closure :=
  mkClosure (getObjectByName (boy s) "torso") (getObjectByName (girl s) "torso")
            (getObjectByName (boy s) "head") (getObjectByName (girl s) "head") 0.

(** The first [n] frames of the bow. *)
Fixpoint frames (n : nat) (cs : Closure * Stage) : Result (Closure * Stage) :=
  match n with
  | O => Ok cs
  | S n' => attempt cs' := bowAnim cs in frames n' cs'
  end.

End WithPlatform.

End Bow.

(** ** The deployment workflow (job [build-and-deploy]) *)

Module Deploy.

(** *** The workspace of the runner *)

Inductive Contents :=
| Artefact (data : string)
| CatalogIndex.

(** A file, or a directory with its named entries. *)
#[warnings="-register-all"]
Inductive Node : Type :=
| File (contents : Contents)
| Dir (entries : gmap string Node).

Definition Path : Type := list string.

Fixpoint lookup (root : Node) (p : Path) : option Node :=
  match p with
  | [] => Some root
  | c :: p' =>
      match root with
      | Dir es =>
          match es !! c with
          | Some v => lookup v p'
          | None => None
          end
      | File _ => None
      end
  end.

(** [[ -d p ]]. *)
Definition is_dir (root : Node) (p : Path) : bool :=
  match lookup root p with
  | Some (Dir _) => true
  | _ => false
  end.

(** Replacement of the entries of the directory at [p] by [f] of them;
    [None] when [p] is not a directory. *)
Fixpoint at_dir (p : Path) (f : gmap string Node -> gmap string Node)
         (root : Node) : option Node :=
  match root with
  | File _ => None
  | Dir es =>
      match p with
      | [] => Some (Dir (f es))
      | c :: p' =>
          match es !! c with
          | Some v =>
              match at_dir p' f v with
              | Some v' => Some (Dir (<[c := v']> es))
              | None => None
              end
          | None => None
          end
      end
  end.

(** [rm -rf p], for a path [p] with a parent and a name. *)
Definition rm_rf (parent : Path) (name : string) (root : Node) : Node :=
  default root (at_dir parent (delete name) root).

(** [mkdir -p p]: fails when a file is in the way. *)
Fixpoint mkdir_p (p : Path) (root : Node) : option Node :=
  match root with
  | File _ => None
  | Dir es =>
      match p with
      | [] => Some root
      | c :: p' =>
          match mkdir_p p' (default (Dir ∅) (es !! c)) with
          | Some v => Some (Dir (<[c := v]> es))
          | None => None
          end
      end
  end.

(** Names that the pattern [*] matches: those that do not start with a
    dot. *)
Definition visible (name : string) : bool := negb (String.prefix "." name).

Definition matching (es : gmap string Node) : gmap string Node :=
  filter (fun e => Is_true (visible (fst e))) es.

(** [cp -r src/* dest/].  The pattern expands to the visible entries of
    [src]; a pattern without a match stays as it is and names no file, so
    that [cp] fails; [dest] has to be a directory, and what is copied
    replaces what it held under the same name. *)
Definition cp_r_glob (src dest : Path) (root : Node) : option Node :=
  match lookup root src with
  | Some (Dir es) =>
      if bool_decide (matching es = ∅) then None
      else at_dir dest (fun ds => matching es ∪ ds) root
  | _ => None
  end.

(** *** The shell *)

Record Shell := mkShell {
  fs : Node;
  stdout : list string;
  stderr : list string
}.

(** A script that goes on, or that has ended with a status. *)
Inductive Status :=
| Running (sh : Shell)
| Exited (code : Z) (sh : Shell).

(** [set -e]: the script ends with the first status that is not zero. *)
Definition andThen (st : Status) (k : Shell -> Status) : Status :=
  match st with
  | Running sh => k sh
  | Exited c sh => Exited c sh
  end.

Definition echo (line : string) (sh : Shell) : Status :=
  Running (mkShell (fs sh) (stdout sh ++ [line]) (stderr sh)).

Definition echo_err (line : string) (sh : Shell) : Status :=
  Running (mkShell (fs sh) (stdout sh) (stderr sh ++ [line])).

Definition exit (code : Z) (sh : Shell) : Status := Exited code sh.

(** A command that changes the workspace or fails with status 1. *)
Definition command (f : Node -> option Node) (sh : Shell) : Status :=
  match f (fs sh) with
  | Some root => Running (mkShell root (stdout sh) (stderr sh))
  | None => Exited 1 sh
  end.

(** The programs that the workflow calls and the model leaves open.
    [npm ci] and [npm run build] run inside the directory of a game and
    are taken to write there only: they map that directory to its new
    state, or fail with a status. *)
Class Runner := {
  checkout : Node -> option Node;
  setup_node : Node -> option Node;
  npm_ci : string -> Node -> Z + Node;
  npm_run_build : string -> Node -> Z + Node;
  upload_pages_artifact : Node -> bool;
  deploy_pages : Node -> bool
}.

Definition SITE_DIR : string := "site".
Definition GAMES : list string := ["fighters"; "cubes"].

Definition notFound (game : string) : string :=
  "❌ Could not find build output directory for " +:+ game.

Section WithRunner.

Context `{Runner}.

(** A program run between [pushd "$GAME"] and [popd]. *)
Definition inGame (tool : string -> Node -> Z + Node) (game : string) (sh : Shell)
  : Status :=
  match lookup (fs sh) [game] with
  | Some (Dir es) =>
      match tool game (Dir es) with
      | inr d =>
          Running
            (mkShell (default (fs sh) (at_dir [] (insert game d) (fs sh)))
                     (stdout sh) (stderr sh))
      | inl code => Exited code sh
      end
  | _ => Exited 1 sh
  end.

Definition build (game : string) (sh : Shell) : Status :=
  andThen (inGame npm_ci game sh) (inGame npm_run_build game).

(** Determine the build output directory ([dist] or [build]). *)
Definition resolveOutDir (game : string) (root : Node) : option Path :=
  if is_dir root [game; "dist"] then Some [game; "dist"]
  else if is_dir root [game; "build"] then Some [game; "build"]
  else None.

(** Copy the built artefacts under a folder named after the game. *)
Definition publish (game : string) (sh : Shell) : Status :=
  match resolveOutDir game (fs sh) with
  | Some OUT_DIR =>
      andThen (command (mkdir_p [SITE_DIR; game]) sh)
              (command (cp_r_glob OUT_DIR [SITE_DIR; game]))
  | None =>
      andThen (echo_err (notFound game) sh) (exit 1)
  end.

(** One turn of the loop over the games. *)
Definition forGame (game : string) (sh : Shell) : Status :=
  andThen (echo ("\n👉 Building " +:+ game) sh)
          (fun sh => andThen (build game sh) (publish game)).

Fixpoint forGames (games : list string) (sh : Shell) : Status :=
  match games with
  | [] => Running sh
  | game :: rest => andThen (forGame game sh) (forGames rest)
  end.

(** The [run] script of the step that builds the games and prepares the
    site directory. *)
Definition buildScript (sh : Shell) : Status :=
  let sh := mkShell (rm_rf [] SITE_DIR (fs sh)) (stdout sh) (stderr sh) in
  andThen (command (mkdir_p [SITE_DIR]) sh)
    (fun sh =>
       andThen (forGames GAMES sh)
         (command (at_dir [SITE_DIR] (insert "index.html" (File CatalogIndex))))).

(** *** The job: its steps in order, each only after the success of
    the ones before *)

Inductive Step := Checkout | SetupNode | BuildGames | UploadArtifact | DeployPages.

Inductive Outcome :=
| Deployed (site : Node)
| Aborted (step : Step) (code : Z) (sh : Shell).

Definition job (workspace : Node) : Outcome :=
  let sh0 := mkShell workspace [] [] in
  match checkout workspace with
  | None => Aborted Checkout 1 sh0
  | Some root =>
      match setup_node root with
      | None => Aborted SetupNode 1 (mkShell root [] [])
      | Some root =>
          match buildScript (mkShell root [] []) with
          | Exited code sh => Aborted BuildGames code sh
          | Running sh =>
              match lookup (fs sh) [SITE_DIR] with
              | Some site =>
                  if upload_pages_artifact site then
                    if deploy_pages site then Deployed site
                    else Aborted DeployPages 1 sh
                  else Aborted UploadArtifact 1 sh
              | None => Aborted UploadArtifact 1 sh
              end
          end
      end
  end.

End WithRunner.

End Deploy.


(** ** Worlds and inputs to run the programs on *)

Module Samples.

Import THREE.

(** The keys of a frame. *)
Definition noKeys : gmap string bool := ∅.
Definition punchAndKick : gmap string bool := {[ "KeyF" := true; "KeyG" := true ]}.
Definition lightningKey : gmap string bool := {[ "KeyX" := true ]}.
Definition blockKey : gmap string bool := {[ "KeyR" := true ]}.

(** The base variant once the game has started and the fighters have
    walked up to each other. *)
Definition baseDuel : Base.World :=
  let w := Base.initial 0 in
  let near (x : Q) (f : Base.Fighter) :=
    Base.set_group (set_position_x x (Base.group f)) f in
  Base.set_gameStarted true
    (Base.set_fighter2 (near 0.6 (Base.fighter2 w))
       (Base.set_fighter1 (near (- 0.6) (Base.fighter1 w)) w)).

(** The same, the boy in the middle of a punch. *)
Definition basePunch : Base.World :=
  Base.set_fighter1
    (Base.set_attackType (Some Base.Punch)
       (Base.set_attackTimer 0.2
          (Base.set_isAttacking true (Base.fighter1 baseDuel)))) baseDuel.

(** The base variant at the moment the bow has ended and the fight
    starts. *)
Definition baseStart : Base.World := Base.set_gameStarted true (Base.initial 0).

(** [count] frames of a tenth of a second each, the first one ending at
    [from] tenths, with the same keys down throughout. *)
Definition held (keys : gmap string bool) (from count : nat)
  : list (gmap string bool * Q) :=
  map (fun k => (keys, 100 * ofNat k)) (seq from count).

(** A fight: the boy walks up to the girl (KeyD), lands nine punches
    (KeyF), steps back (KeyA) while the girl starts a kick (KeyL) that does
    not reach him, then steps in again and lands the tenth punch. *)
Definition knockOutRun : list (gmap string bool * Q) :=
  held {[ "KeyD" := true ]} 1 19 ++
  held {[ "KeyF" := true ]} 20 9 ++
  held {[ "KeyA" := true; "KeyL" := true ]} 29 1 ++
  held {[ "KeyD" := true; "KeyF" := true ]} 30 1.

(** The world after that fight: the girl is knocked out in the middle of
    her kick. *)
Definition baseKnockedOut : Base.World :=
  run (Base.frame (H := Characters.testPlatform)) knockOutRun baseStart.

(** The same two situations in the variant with blocking. *)
Definition shieldDuel : Shield.World :=
  let w := Shield.initial 0 in
  let near (x : Q) (f : Shield.Fighter) :=
    Shield.set_group (set_position_x x (Shield.group f)) f in
  Shield.set_gameStarted true
    (Shield.set_fighter2 (near 0.6 (Shield.fighter2 w))
       (Shield.set_fighter1 (near (- 0.6) (Shield.fighter1 w)) w)).

Definition shieldPunch : Shield.World :=
  Shield.set_fighter1
    (Shield.set_attackType (Some Shield.Punch)
       (Shield.set_attackTimer 0.2
          (Shield.set_isAttacking true (Shield.fighter1 shieldDuel)))) shieldDuel.

(** The variant with blocking at the moment the fight starts, and after a
    first frame of a tenth of a second in which the boy holds his block
    key. *)
Definition shieldStart : Shield.World := Shield.set_gameStarted true (Shield.initial 0).

Definition shieldBlocking : Shield.World :=
  Shield.frame (H := Characters.testPlatform) (blockKey, 100) shieldStart.

(** The scene with the security checks, at its start. *)
Definition secureFighter (g : Object3D) (d : Z) (c : Secure.Controls) (k : string)
  : Secure.Fighter :=
  Secure.mkFighter g d 100 false 0 None None false 0 0 0 None k "roblox" c
                   false 0 0 None [] 0.

Definition secureState (p : Vector3) : Secure.SecurityState :=
  Secure.mkSecurityState 0 0 0 0 p 0 0 0 0 0.

Definition secureDuel : Secure.World :=
  Secure.mkWorld
    (secureFighter Characters.boy (-1) (Secure.mkControls "KeyA" "KeyD" "KeyF" "KeyG" "KeyS")
                   "KeyS")
    (secureFighter Characters.girl 1 (Secure.mkControls "KeyJ" "KeyL" "KeyI" "KeyO" "KeyK")
                   "KeyK")
    (secureState (position Characters.boy)) (secureState (position Characters.girl))
    (Secure.mkFirewallSystem true 0 0 0) ∅ false [].


(** A bunny for the army, where [Math.random] has no say. *)
Definition plainBunny (f opponent : Secure.Fighter) (i : nat)
  : Object3D * Vector3 * Vector3 :=
  (Characters.mannequin, origin, origin).

(** Two characters without named parts, about to bow. *)
Definition mannequins : Bow.Stage :=
  Bow.mkStage (set_position_x (- (3)) Characters.mannequin)
              (set_position_x 3 Characters.mannequin) false 0.

(** The two characters of the demo, about to bow. *)
Definition fighters : Bow.Stage := Bow.mkStage Characters.boy Characters.girl false 0.

(** A runner whose programs all succeed and whose builds change nothing. *)
Definition quietRunner : Deploy.Runner :=
  {| Deploy.checkout := Some;
     Deploy.setup_node := Some;
     Deploy.npm_ci := fun _ d => inr d;
     Deploy.npm_run_build := fun _ d => inr d;
     Deploy.upload_pages_artifact := fun _ => true;
     Deploy.deploy_pages := fun _ => true |}.

Definition page (data : string) : Deploy.Node := Deploy.File (Deploy.Artefact data).

(** A checkout in which both games are built, the first one with a hidden
    file next to its page. *)
Definition builtWorkspace : Deploy.Node :=
  Deploy.Dir
    {[ "fighters" :=
         Deploy.Dir {[ "dist" := Deploy.Dir {[ "index.html" := page "fighters";
                                                ".nojekyll" := page "marker" ]} ]};
       "cubes" :=
         Deploy.Dir {[ "dist" := Deploy.Dir {[ "index.html" := page "cubes" ]} ]} ]}.

(** A checkout in which the second game has no output directory. *)
Definition halfBuiltWorkspace : Deploy.Node :=
  Deploy.Dir
    {[ "fighters" :=
         Deploy.Dir {[ "dist" := Deploy.Dir {[ "index.html" := page "fighters" ]} ]};
       "cubes" := Deploy.Dir {[ "src" := Deploy.Dir ∅ ]} ]}.

End Samples.

(** ** The base variant as it is played: the events of a session *)

Module Play.

Import THREE Base.

(** What happens to the closure of [init] after its last statement: the
    callback of the bow sets [gameStarted], and the browser calls
    [animate] with the keys that are down and the reading of the clock. *)
Inductive Event :=
| Started
| Frame (keys : gmap string bool) (current : Q).

(** The readings of the clock, in order. *)
Definition clockReadings (events : list Event) : list Q :=
  omap (fun e => match e with Frame _ t => Some t | Started => None end) events.

(** The messages of the calls of [endGame], the most recent first. *)
Definition endings (w : World) : list string :=
  omap (fun e => match e with GameEnded m => Some m | _ => None end) (log w).

(** The game is over exactly if [endGame] was called, it was called at
    most once, and the fighter that its message declares beaten has no
    health left. *)
Definition settled (w : World) : Prop :=
  match endings w with
  | [] => gameOver w = false
  | [m] =>
      gameOver w = true /\
      ((m = "Boy wins!" /\ health (fighter2 w) == 0) \/
       (m = "Girl wins!" /\ health (fighter1 w) == 0))
  | _ => False
  end.

(** The fireballs in flight, the oldest first: each has time left, and at
    most [bound] less one second for every younger fireball. *)
Fixpoint staggered (bound : Q) (ps : list Projectile) : Prop :=
  match ps with
  | [] => True
  | p :: younger =>
      0 < lifetime p /\ lifetime p <= bound - ofNat (List.length younger) /\
      staggered bound younger
  end.

(** Neither health has risen, and neither is negative. *)
Definition declining (w w' : World) : Prop :=
  (0 <= health (fighter1 w') <= health (fighter1 w)) /\
  (0 <= health (fighter2 w') <= health (fighter2 w)).

(** The fighters stand as they stood, but for the health of the boy. *)
Definition frozen (w w' : World) : Prop :=
  fighter2 w' = fighter2 w /\
  fighter1 w' = set_health (health (fighter1 w')) (fighter1 w).

(** What a step leaves alone once the game is over: the flag, the
    fighters but for the boy's health, the calls of [endGame], the shots,
    the cooldowns and the remembered keys. *)
Definition still (w w' : World) : Prop :=
  gameOver w' = true /\ frozen w w' /\ endings w' = endings w /\
  lightningShots w' = lightningShots w /\ fireballShots w' = fireballShots w /\
  lightningCooldown w' = lightningCooldown w /\
  fireballCooldown w' = fireballCooldown w /\
  xPressedPrev w' = xPressedPrev w /\ uPressedPrev w' = uPressedPrev w.

Section WithPlatform.

Context `{Platform}.

Definition step (e : Event) (w : World) : World :=
  match e with
  | Started => set_gameStarted true w
  | Frame keys current => animate keys current w
  end.

End WithPlatform.

End Play.



(** ** The variant with blocking as it is played *)

Module Guard.

Import THREE Shield.

Inductive Event :=
| Started
| Frame (keys : gmap string bool) (current : Q).


(** The three fields of a force field. *)
Definition fieldOf (f : Fighter) : option Ref * Q * Q :=
  (forceMesh f, forceActiveTimer f, forceCooldown f).

Section WithPlatform.

Context `{Platform}.

Definition step (e : Event) (w : World) : World :=
  match e with
  | Started => set_gameStarted true w
  | Frame keys current => animate keys current w
  end.

(** A series of updates of the same fighter, each with its keys and its
    time step. *)
Definition updates (who : Side) (inputs : list (gmap string bool * Q)) (w : World)
  : World :=
  fold_left (fun w i => updateFighter (fst i) who (snd i) w) inputs w.

End WithPlatform.

End Guard.

(** ** The cubes demo as it is used *)

Module Viewer.

Import Cubes.

(** What happens to the page: a key goes down, or a frame is drawn. *)
Inductive Event :=
| Key (key : string)
| Tick.

Definition step (e : Event) (st : Demo) : Demo :=
  match e with
  | Key key => keydown key st
  | Tick => animate st
  end.

(** The light: the object that [init] adds to the scene after the first
    cube. *)
Definition light : nat :=
  nextObjectId (createCubes 1 (mkDemo 0.01 false [] [] ∅ 0 0)).

(** The base material of the current mode. *)
Definition currentBase (st : Demo) : BaseMaterial :=
  if isSphere st then sphereBaseMaterial else cubeBaseMaterial.

(** What holds of the demo all along: the speed and the mode agree, the
    tracked meshes are distinct, wear the geometry and the material of the
    mode, and make up the scene together with the light. *)
Definition tidy (st : Demo) : Prop :=
  0 <= rotationSpeed st /\
  (isSphere st = true <-> SPEED_THRESHOLD <= rotationSpeed st) /\
  NoDup (cubes st) /\ (light ∉ cubes st) /\
  (forall x, x ∈ scene st <-> x = light \/ x ∈ cubes st) /\
  (1 <= List.length (cubes st) <= 9)%nat /\
  (forall c, c ∈ cubes st ->
     exists m, heap st !! c = Some m /\ geometry m = currentGeometry st /\
               base (material m) = currentBase st).

End Viewer.

(** ** scene.ts: the arena and the opponent *)

Module Arena.

Import THREE Secure.

(** The box that [validatePosition] clamps into. *)
Definition inArena (p : Vector3) : Prop :=
  (- (10) <= x p <= 10) /\ (0 <= y p <= 5) /\ (- (10) <= z p <= 10).

(** The effects that hurt nobody: a warning on the console, and what a
    summon of the bunny army shows and plays. *)
Definition harmless (e : Effect) : bool :=
  match e with
  | Warned _ | SummonEffectShown _ | MiniBunnyShown _ | SummonSound => true
  | _ => false
  end.

(** Nothing but such effects has been added to the effects. *)
Definition quietly (w w' : World) : Prop :=
  exists added, log w' = added ++ log w /\ forallb harmless added = true.

(** What a step leaves of the world to the opponent of [who]: the
    opponent itself, the state of the game, and no effect but harmless
    ones. *)
Definition spares (who : Side) (w w' : World) : Prop :=
  getFighter (other who) w' = getFighter (other who) w /\
  gameOver w' = gameOver w /\ quietly w w'.

End Arena.

(** ** scene.ts: the change of character *)

Module Roster.

Import THREE Secure.

(** The characters that are built elsewhere, and the sparkles of the
    transformation, whose places depend on [Math.random]. *)
Class Wardrobe := {
  createRobotCharacter : Object3D;
  createNinjaCharacter : Object3D;
  createBunnyCharacter : Object3D;
  sparkles : Object3D
}.

(** The parameter [type] of [switchCharacter]. *)
Inductive Kind := Boy | Girl.

(** The game with the variables of the change of character; [shown1] and
    [shown2] tell whether the group of each fighter is a child of the
    scene. *)
Record Stage := mkStage {
  world : World;
  gameStarted : bool;
  currentBoyCharacter : string;
  currentGirlCharacter : string;
  shown1 : bool;
  shown2 : bool
}.

Definition set_world (v : World) (r : Stage) : Stage :=
  mkStage v (gameStarted r) (currentBoyCharacter r) (currentGirlCharacter r)
          (shown1 r) (shown2 r).
Definition set_current (type : Kind) (v : string) (r : Stage) : Stage :=
  match type with
  | Boy => mkStage (world r) (gameStarted r) v (currentGirlCharacter r)
                   (shown1 r) (shown2 r)
  | Girl => mkStage (world r) (gameStarted r) (currentBoyCharacter r) v
                    (shown1 r) (shown2 r)
  end.
Definition set_shown (who : Side) (v : bool) (r : Stage) : Stage :=
  match who with
  | F1 => mkStage (world r) (gameStarted r) (currentBoyCharacter r)
                  (currentGirlCharacter r) v (shown2 r)
  | F2 => mkStage (world r) (gameStarted r) (currentBoyCharacter r)
                  (currentGirlCharacter r) (shown1 r) v
  end.
Definition shown (who : Side) (r : Stage) : bool :=
  match who with F1 => shown1 r | F2 => shown2 r end.

Definition set_attackLimb (v : option Ref) (r : Fighter) : Fighter :=
  mkFighter (group r) (facing r) (health r) (isAttacking r) (attackTimer r) v
    (attackType r) (isBlocking r) (blockTimer r) (forceActiveTimer r)
    (forceCooldown r) (forceMesh r) (shieldKey r) (characterType r) (controls r)
    (isOPForm r) (opFormTimer r) (opFormCooldown r) (opMesh r) (bunnyArmy r)
    (bunnyArmyCooldown r).

(** The object literal of the key listener; a character that is not among
    its keys reads [undefined]. *)
Definition nextChar : gmap string string :=
  {[ "roblox" := "robot"; "robot" := "ninja"; "ninja" := "roblox" ]}.

(** What a handler leaves behind: the stage, and whether it threw. *)
Definition Outcome : Type := Stage * bool.

Section WithWardrobe.

Context `{Platform} `{Wardrobe}.
Variable miniBunny : Fighter -> Fighter -> nat -> Object3D * Vector3 * Vector3.

(** The [switch] of [switchCharacter]; no [case] leaves [newCharacter]
    undefined. *)
Definition newCharacter (type : Kind) (character : option string) : option Object3D :=
  match character with
  | Some c =>
      if String.eqb c "roblox"
      then Some (match type with
                 | Boy => Characters.createRobloxCharacter
                 | Girl => Characters.createGirlCharacter
                 end)
      else if String.eqb c "robot" then Some createRobotCharacter
      else if String.eqb c "ninja" then Some createNinjaCharacter
      else if String.eqb c "bunny" then Some createBunnyCharacter
      else None
  | None => None
  end.

(** [switchCharacter]: the old group leaves the scene first; with
    [newCharacter] undefined, [newCharacter.position] throws a
    [TypeError] and the rest is not run. *)
Definition switchCharacter (who : Side) (type : Kind) (character : option string)
           (st : Stage) : Outcome :=
  let fighter := getFighter who (world st) in
  let oldPos := position (group fighter) in
  let oldRot := rotation (group fighter) in
  let st := set_shown who false st in
  match newCharacter type character, character with
  | Some new, Some c =>
      let new := set_rotation oldRot (set_position oldPos new) in
      let fighter := set_group new fighter in
      let fighter :=
        set_attackLimb
          (getObjectByName new (match type with Boy => "rightArm" | Girl => "rightLeg" end))
          fighter in
      let st := set_world (putFighter who fighter (world st)) st in
      let st := set_shown who true st in
      let st := set_current type c st in
      let fighter := getFighter who (world st) in
      (set_world (putFighter who (set_characterType c fighter) (world st)) st, false)
  | _, _ => (st, true)
  end.

(** The key listener of the change of character, on [event.key]. *)
Definition keydown (key : string) (st : Stage) : Outcome :=
  if negb (gameStarted st) || gameOver (world st) then (st, false)
  else
    let '(st, threw) :=
      if String.eqb key "1"
      then switchCharacter F1 Boy (nextChar !! currentBoyCharacter st) st
      else (st, false) in
    if threw then (st, true)
    else if String.eqb key "2"
         then switchCharacter F2 Girl (nextChar !! currentGirlCharacter st) st
         else (st, false).

(** [handleBunnyTransform], up to the start of the animation of the
    sparkles. *)
Definition handleBunnyTransform (keys : gmap string bool) (who : Side) (st : Stage)
  : Outcome :=
  let f := getFighter who (world st) in
  if truthy keys "KeyA" && negb (String.eqb (characterType f) "bunny")
       && match who with F1 => true | F2 => false end
  then
    let '(st, threw) := switchCharacter who Boy (Some "bunny") st in
    if threw then (st, true)
    else
      let f := getFighter who (world st) in
      let g := set_children (children (group f) ++ [sparkles]) (group f) in
      (set_world (putFighter who (set_group g f) (world st)) st, false)
  else (st, false).

(** What touches the characters in the course of a game: a key goes down;
    the frame loop calls [handleBunnyTransform] on the boy; it updates a
    fighter.  The loop does both only while the game is on. *)
Inductive Event :=
| KeyDown (key : string)
| Transform (keys : gmap string bool)
| Update (who : Side) (keys : gmap string bool) (now : Z) (dt : Q).

Definition playing (st : Stage) : bool := gameStarted st && negb (gameOver (world st)).

Definition step (e : Event) (st : Stage) : Stage :=
  match e with
  | KeyDown key => fst (keydown key st)
  | Transform keys =>
      if playing st then fst (handleBunnyTransform keys F1 st) else st
  | Update who keys now dt =>
      if playing st
      then set_world (updateFighter miniBunny keys now who dt (world st)) st
      else st
  end.

End WithWardrobe.

End Roster.

(** ** Sessions to play the games through *)

Module Sessions.

Import THREE Play.

(** The boy shoots his lightning ten times, a second apart, from the
    moment the fight starts. *)
Definition tenLightnings : list Event :=
  Started ::
  flat_map (fun k => [Frame {[ "KeyX" := true ]} (1000 * ofNat k);
                      Frame ∅ (1000 * ofNat k + 500)])
           (seq 1 10).

(** The girl shoots a fireball, and a second one as soon as the cooldown
    allows. *)
Definition twoFireballs : list Event :=
  [Started; Frame {[ "KeyU" := true ]} 100; Frame ∅ 600;
   Frame {[ "KeyU" := true ]} 1200].


(** Both fighters raise their force fields in the first frame of the
    fight. *)
Definition bothFields : list Guard.Event :=
  [Guard.Started; Guard.Frame {[ "KeyG" := true; "KeyZ" := true ]} 100].






(** A wardrobe to run the change of character with, and the game of the
    scene with the security checks, started. *)
Definition plainWardrobe : Roster.Wardrobe :=
  {| Roster.createRobotCharacter := Characters.mannequin;
     Roster.createNinjaCharacter := Characters.mannequin;
     Roster.createBunnyCharacter := Characters.createRobloxCharacter;
     Roster.sparkles := Characters.mannequin |}.

Definition started : Roster.Stage :=
  Roster.mkStage Samples.secureDuel true "roblox" "roblox" true true.

Definition leftKey : gmap string bool := {[ "KeyA" := true ]}.

(** A checkout that brings along a [site] directory of its own. *)
Definition staleWorkspace : Deploy.Node :=
  Deploy.Dir
    {[ "fighters" :=
         Deploy.Dir {[ "dist" := Deploy.Dir {[ "index.html" := Samples.page "fighters" ]} ]};
       "cubes" :=
         Deploy.Dir {[ "build" := Deploy.Dir {[ "index.html" := Samples.page "cubes" ]} ]};
       "site" := Deploy.Dir {[ "old.html" := Samples.page "old" ]} ]}.


(** The boy of the scene with the security checks after five attacks in
    the current window. *)
Definition fiveAttacks : Secure.World :=
  Secure.set_fighter1Security
    (Secure.set_attackCount 5 (Secure.fighter1Security Samples.secureDuel))
    Samples.secureDuel.

(** The boy far outside the arena. *)
Definition strayed : Secure.World :=
  Secure.set_fighter1
    (Secure.set_group
       (set_position (mkVector3 40 (- (3)) 25) (Secure.group (Secure.fighter1 Samples.secureDuel)))
       (Secure.fighter1 Samples.secureDuel))
    Samples.secureDuel.

End Sessions.

(** ** Case analysis on the tests of a definition *)

Ltac branches :=
  repeat match goal with
         | |- context [if ?b then _ else _] => destruct b eqn:?
         | |- context [match ?o with Some _ => _ | None => _ end] => destruct o eqn:?
         end.

(** * Part II: the properties *)

(** ** The cubes demo *)

Section CubesFacts.

Import Cubes.

Lemma eqb_false_of_neq (a b : string) : a <> b -> String.eqb a b = false.
Proof. intros Hne. apply String.eqb_neq. exact Hne. Qed.

(** Claim C6.  A key that has no [case] in the handler leaves the whole
    demo as it is: the rotation speed, the geometry mode, the list of cubes,
    the scene and every mesh. *)
Theorem keydown_unhandled (key : string) (st : Demo) :
  key ∉ handledKeys -> keydown key st = st.
Proof.
  intros Hkey.
  assert (Hne : forall k, k ∈ handledKeys -> key <> k).
  { intros k Hk ->. exact (Hkey Hk). }
  unfold keydown.
  rewrite !eqb_false_of_neq by (apply Hne, list_elem_of_In; simpl; tauto).
  simpl.
  rewrite bool_decide_eq_false_2; [reflexivity|].
  intros Hin. apply Hkey. unfold handledKeys. apply elem_of_app. right. exact Hin.
Qed.

Lemma remove_first_fresh (c : nat) (l : list nat) : c ∉ l -> remove_first c l = l.
Proof.
  induction l as [|a l IH]; intros Hc; [reflexivity|].
  simpl. destruct (Nat.eqb_spec a c) as [->|Hne].
  - exfalso. apply Hc. left.
  - f_equal. apply IH. intros Hin. apply Hc. right. exact Hin.
Qed.

Lemma remove_first_subset (c x : nat) (l : list nat) :
  x ∈ remove_first c l -> x ∈ l.
Proof.
  induction l as [|a l IH]; simpl; [tauto|].
  destruct (Nat.eqb_spec a c) as [->|Hne]; intros Hx.
  - right. exact Hx.
  - apply elem_of_cons in Hx as [->|Hx]; [left | right; auto].
Qed.

Lemma remove_first_other (c x : nat) (l : list nat) :
  x ∈ l -> x <> c -> x ∈ remove_first c l.
Proof.
  induction l as [|a l IH]; simpl; intros Hx Hne; [exact Hx|].
  apply elem_of_cons in Hx as [->|Hx].
  - destruct (Nat.eqb_spec a c); [congruence | left].
  - destruct (Nat.eqb_spec a c); [exact Hx | right; auto].
Qed.

Lemma remove_first_NoDup (c : nat) (l : list nat) :
  NoDup l -> NoDup (remove_first c l) /\ c ∉ remove_first c l.
Proof.
  induction 1 as [|a l Ha Hl IH]; simpl.
  - split; [constructor | apply not_elem_of_nil].
  - destruct (Nat.eqb_spec a c) as [->|Hne].
    + split; assumption.
    + destruct IH as [IH1 IH2]. split.
      * constructor; [|exact IH1]. intros Hin. apply Ha.
        eapply remove_first_subset, Hin.
      * intros Hin. apply elem_of_cons in Hin as [->|Hin]; [congruence | auto].
Qed.

(** The scene once every tracked cube has been taken out. *)
Lemma removal_fields (cs : list nat) (st : Demo) :
  let st' := fold_left (fun s c => scene_remove c s) cs st in
  rotationSpeed st' = rotationSpeed st /\ isSphere st' = isSphere st /\
  cubes st' = cubes st /\ heap st' = heap st /\
  nextObjectId st' = nextObjectId st /\ nextMaterialId st' = nextMaterialId st /\
  scene st' = fold_left (fun l c => remove_first c l) cs (scene st).
Proof.
  revert st. induction cs as [|c cs IH]; intros st; simpl; [tauto|].
  specialize (IH (scene_remove c st)). simpl in IH. exact IH.
Qed.

Lemma removal_scene (cs l : list nat) :
  NoDup l ->
  let l' := fold_left (fun l c => remove_first c l) cs l in
  NoDup l' /\ (forall x, x ∈ l' -> x ∈ l) /\ (forall c, c ∈ cs -> c ∉ l') /\
  (forall x, x ∈ l -> x ∉ cs -> x ∈ l').
Proof.
  revert l. induction cs as [|c cs IH]; intros l Hl; simpl.
  - repeat split; auto. intros c Hc. inversion Hc.
  - destruct (remove_first_NoDup c l Hl) as [Hnd Hc].
    destruct (IH _ Hnd) as (H1 & H2 & H3 & H4). repeat split.
    + exact H1.
    + intros x Hx. eapply remove_first_subset, H2, Hx.
    + intros d Hd. apply elem_of_cons in Hd as [->|Hd]; [|auto].
      intros Hin. apply Hc, H2, Hin.
    + intros x Hx Hn. apply H4.
      * apply remove_first_other; [exact Hx|]. intros ->. apply Hn. left.
      * intros Hin. apply Hn. right. exact Hin.
Qed.

Lemma loop_state (count g k : nat) (st : Demo) :
  cubes st = [] ->
  Forall (fun c => (c < nextObjectId st)%nat) (scene st) ->
  let st' := fold_left (createCube count g) (seq 0 k) st in
  let ids := map (fun i => (nextObjectId st + i)%nat) (seq 0 k) in
  rotationSpeed st' = rotationSpeed st /\ isSphere st' = isSphere st /\
  nextObjectId st' = (nextObjectId st + k)%nat /\
  nextMaterialId st' = (nextMaterialId st + k)%nat /\
  cubes st' = ids /\
  scene st' = scene st ++ ids /\
  (forall i, (i < k)%nat ->
     heap st' !! (nextObjectId st + i)%nat = Some (cubeOf st count g i)) /\
  (forall c, (c < nextObjectId st)%nat -> heap st' !! c = heap st !! c) /\
  (forall c, is_Some (heap st' !! c) ->
     is_Some (heap st !! c) \/ (c < nextObjectId st + k)%nat).
Proof.
  intros Hcubes Hscene. induction k as [|k IH].
  - simpl. rewrite Hcubes, app_nil_r, !Nat.add_0_r.
    repeat split; auto. intros i Hi. lia.
  - rewrite seq_S, fold_left_app. simpl fold_left.
    cbv zeta in IH.
    set (s := fold_left (createCube count g) (seq 0 k) st) in *.
    destruct IH as (Hr & Hs & Hn & Hm & Hc & Hsc & Hh & Ho & Hd).
    rewrite map_app. simpl map.
    assert (Hfresh : nextObjectId s ∉ scene s).
    { rewrite Hsc, Hn. intros Hin. apply elem_of_app in Hin as [Hin|Hin].
      - rewrite Forall_forall in Hscene. apply Hscene in Hin. lia.
      - apply list_elem_of_fmap in Hin as (j & Hj & Hin).
        apply elem_of_seq in Hin. lia. }
    unfold createCube. simpl.
    rewrite (remove_first_fresh _ _ Hfresh).
    rewrite Hr, Hs, Hn, Hm, Hc, Hsc. repeat split; try lia.
    + rewrite <- app_assoc. reflexivity.
    + intros i Hi. destruct (decide (i = k)) as [->|Hne].
      * rewrite lookup_insert_eq. unfold cubeOf, currentGeometry. rewrite Hs.
        reflexivity.
      * rewrite lookup_insert_ne by lia. apply Hh. lia.
    + intros c Hc'. rewrite lookup_insert_ne by lia. apply Ho, Hc'.
    + intros c Hc'. destruct (decide (c = nextObjectId st + k)%nat) as [->|Hne].
      * right. lia.
      * rewrite lookup_insert_ne in Hc' by congruence.
        destruct (Hd c Hc') as [Hd'|Hd']; [left; exact Hd' | right; lia].
Qed.

Lemma digit_key_parses (n : nat) (key : string) (st : Demo) :
  (1 <= n <= 9)%nat -> digitKeys !! (n - 1)%nat = Some key ->
  keydown key st = createCubes n st.
Proof.
  intros [Hlo Hhi] Hkey.
  do 10 (destruct n as [|n]; [first [lia | injection Hkey as <-; reflexivity]|]).
  lia.
Qed.

(** Claim C9.  A digit key [n] from 1 to 9 runs [createCubes n]: every
    cube tracked before leaves the scene, and the list of cubes then holds
    [n] distinct meshes that did not exist before, the [i]-th of them in
    row [i / g] and column [i mod g] of a grid of width [g], the least
    number whose square reaches [n], with a spacing of 1.5. *)
Theorem digit_key_lays_out_grid (st : Demo) (n : nat) (key : string) :
  wf st -> (1 <= n <= 9)%nat -> digitKeys !! (n - 1)%nat = Some key ->
  let st' := keydown key st in
  let g := gridSizeOf n in
  st' = createCubes n st /\
  ((g - 1) * (g - 1) < n <= g * g)%nat /\
  (forall c, c ∈ cubes st -> c ∉ scene st') /\
  length (cubes st') = n /\
  NoDup (cubes st') /\
  (forall i, (i < n)%nat ->
     exists c m,
       cubes st' !! i = Some c /\
       heap st !! c = None /\ (c ∉ scene st) /\ (c ∉ cubes st) /\
       (c ∈ scene st') /\ heap st' !! c = Some m /\
       THREE.x (position m) == (ofNat (i mod g) - (ofNat g - 1) / 2) * 1.5 /\
       THREE.y (position m) == (ofNat (i / g) - (ofNat g - 1) / 2) * 1.5 /\
       THREE.z (position m) == 0).
Proof.
  intros (Hnd & Hsc & Hcs & Hheap) Hn Hkey st' g.
  assert (Hst' : st' = createCubes n st) by (apply digit_key_parses; assumption).
  split; [exact Hst'|]. split.
  { unfold g, gridSizeOf. pose proof (Nat.sqrt_up_spec n ltac:(lia)) as Hs.
    rewrite <- Nat.sub_1_r in Hs. simpl in Hs. lia. }
  rewrite Hst'. unfold createCubes.
  set (st1 := fold_left (fun s c => scene_remove c s) (cubes st) st).
  destruct (removal_fields (cubes st) st) as (_ & _ & _ & Hh1 & Hn1 & _ & Hs1).
  fold st1 in Hh1, Hn1, Hs1.
  destruct (removal_scene (cubes st) (scene st) Hnd) as (_ & Hsub & Hgone & _).
  rewrite <- Hs1 in Hsub, Hgone.
  assert (Hsc1 : Forall (fun c => (c < nextObjectId (set_cubes [] st1))%nat)
                        (scene (set_cubes [] st1))).
  { simpl. rewrite Hn1. apply Forall_forall. intros x Hx.
    rewrite Forall_forall in Hsc. apply Hsc, Hsub, Hx. }
  destruct (loop_state n (gridSizeOf n) n (set_cubes [] st1) eq_refl Hsc1)
    as (_ & _ & _ & _ & Hc & Hscene & Hmesh & _ & _).
  simpl in Hc, Hscene, Hmesh. rewrite Hn1 in Hc, Hscene, Hmesh.
  fold g in Hc, Hscene, Hmesh |- *.
  set (st2 := fold_left (createCube n g) (seq 0 n) (set_cubes [] st1)) in *.
  assert (Hnew : forall c, c ∈ cubes st2 -> (nextObjectId st <= c)%nat).
  { intros c Hin. rewrite Hc in Hin.
    apply list_elem_of_fmap in Hin as (j & -> & _). lia. }
  split.
  { intros c Hin Hin'. rewrite Hscene in Hin'.
    apply elem_of_app in Hin' as [Hin'|Hin'].
    - exact (Hgone c Hin Hin').
    - rewrite <- Hc in Hin'. apply Hnew in Hin'.
      rewrite Forall_forall in Hcs. apply Hcs in Hin. lia. }
  split; [rewrite Hc, length_map, length_seq; reflexivity|].
  split.
  { rewrite Hc. apply NoDup_fmap_2; [|apply NoDup_seq]. intros a b Hab. lia. }
  intros i Hi.
  exists (nextObjectId st + i)%nat, (cubeOf (set_cubes [] st1) n g i).
  assert (Hlk : cubes st2 !! i = Some (nextObjectId st + i)%nat).
  { rewrite Hc, list_lookup_fmap, lookup_seq_lt by exact Hi. reflexivity. }
  repeat split.
  - exact Hlk.
  - destruct (heap st !! (nextObjectId st + i)%nat) eqn:E; [|reflexivity].
    specialize (Hheap _ (mk_is_Some _ _ E)). lia.
  - intros Hin. rewrite Forall_forall in Hsc. apply Hsc in Hin. lia.
  - intros Hin. rewrite Forall_forall in Hcs. apply Hcs in Hin. lia.
  - rewrite Hscene, <- Hc. apply elem_of_app. right.
    eapply list_elem_of_lookup_2, Hlk.
  - apply Hmesh, Hi.
Qed.

(** *** Well-formedness is kept by every event *)

Lemma alter_fold_is_Some (f : nat -> Mesh -> Mesh) (cs : list nat)
      (h : gmap nat Mesh) (k : nat) :
  is_Some (fold_left (fun h c => alter (f c) c h) cs h !! k) <-> is_Some (h !! k).
Proof.
  revert h. induction cs as [|c cs IH]; intros h; simpl; [tauto|].
  rewrite IH. destruct (decide (c = k)) as [->|Hne].
  - rewrite lookup_alter_eq, fmap_is_Some. tauto.
  - rewrite lookup_alter_ne by exact Hne. tauto.
Qed.

Lemma wf_forEachCube (f : Mesh -> Mesh) (st : Demo) : wf st -> wf (forEachCube f st).
Proof.
  intros (H1 & H2 & H3 & H4). unfold wf, forEachCube. simpl.
  repeat split; try assumption.
  intros c Hc. apply H4.
  apply (alter_fold_is_Some (fun _ => f)) in Hc. exact Hc.
Qed.

Lemma wf_set_speed (v : Q) (b : bool) (st : Demo) : wf st -> wf (set_speed v b st).
Proof. intros H. exact H. Qed.

Lemma reskin_fields (g : Geometry) (b : BaseMaterial) (cs : list nat) (st : Demo) :
  let st' :=
    fold_left
      (fun s c =>
         mkDemo (rotationSpeed s) (isSphere s) (cubes s) (scene s)
                (alter (fun m => mkMesh g (mkMaterial (nextMaterialId s) b 0)
                                        (position m) (rotation m)) c (heap s))
                (nextObjectId s) (S (nextMaterialId s)))
      cs st in
  cubes st' = cubes st /\ scene st' = scene st /\
  nextObjectId st' = nextObjectId st /\
  (forall k, is_Some (heap st' !! k) <-> is_Some (heap st !! k)).
Proof.
  revert st. induction cs as [|c cs IH]; intros st; simpl; [tauto|].
  match goal with |- context [fold_left ?F cs ?S0] => specialize (IH S0) end.
  simpl in IH. destruct IH as (Hc & Hs & Hn & Hh).
  repeat split; try assumption.
  - intros Hk. apply Hh in Hk. destruct (decide (c = k)) as [->|Hne].
    + rewrite lookup_alter_eq, fmap_is_Some in Hk. exact Hk.
    + rewrite lookup_alter_ne in Hk by exact Hne. exact Hk.
  - intros Hk. apply Hh. destruct (decide (c = k)) as [->|Hne].
    + rewrite lookup_alter_eq, fmap_is_Some. exact Hk.
    + rewrite lookup_alter_ne by exact Hne. exact Hk.
Qed.

Lemma wf_reskin (g : Geometry) (b : BaseMaterial) (st : Demo) :
  wf st -> wf (reskin g b st).
Proof.
  intros (H1 & H2 & H3 & H4). unfold wf, reskin.
  destruct (reskin_fields g b (cubes st) st) as (Hc & Hs & Hn & Hh).
  cbv zeta in Hc, Hs, Hn, Hh. rewrite Hc, Hs, Hn.
  repeat split; try assumption.
  intros c Hin. apply H4, Hh, Hin.
Qed.

Lemma wf_createCubes (count : nat) (st : Demo) : wf st -> wf (createCubes count st).
Proof.
  intros (Hnd & Hsc & Hcs & Hheap). unfold createCubes.
  set (st1 := fold_left (fun s c => scene_remove c s) (cubes st) st).
  destruct (removal_fields (cubes st) st) as (_ & _ & _ & Hh1 & Hn1 & _ & Hs1).
  fold st1 in Hh1, Hn1, Hs1.
  destruct (removal_scene (cubes st) (scene st) Hnd) as (Hnd1 & Hsub & _ & _).
  rewrite <- Hs1 in Hnd1, Hsub.
  assert (Hsc1 : Forall (fun c => (c < nextObjectId (set_cubes [] st1))%nat)
                        (scene (set_cubes [] st1))).
  { simpl. rewrite Hn1. apply Forall_forall. intros x Hx.
    rewrite Forall_forall in Hsc. apply Hsc, Hsub, Hx. }
  destruct (loop_state count (gridSizeOf count) count (set_cubes [] st1) eq_refl Hsc1)
    as (_ & _ & Hn & _ & Hc & Hscene & _ & _ & Hdom).
  simpl in Hn, Hc, Hscene, Hdom. rewrite Hn1 in Hn, Hc, Hscene, Hdom.
  rewrite Hh1 in Hdom.
  set (st2 := fold_left (createCube count (gridSizeOf count)) (seq 0 count)
                        (set_cubes [] st1)) in *.
  assert (Hids : Forall (fun c => (c < nextObjectId st + count)%nat)
                        (map (fun i => (nextObjectId st + i)%nat) (seq 0 count))).
  { apply Forall_forall. intros c Hin.
    apply list_elem_of_fmap in Hin as (j & -> & Hj). apply elem_of_seq in Hj. lia. }
  unfold wf. rewrite Hn, Hc, Hscene. repeat split.
  - apply NoDup_app. split; [exact Hnd1|]. split.
    + intros x Hx Hin. apply list_elem_of_fmap in Hin as (j & -> & _).
      simpl in Hsc1. rewrite Forall_forall in Hsc1. apply Hsc1 in Hx. lia.
    + apply NoDup_fmap_2; [|apply NoDup_seq]. intros a b Hab. lia.
  - apply Forall_app. split; [|exact Hids].
    simpl in Hsc1. eapply Forall_impl; [exact Hsc1|]. simpl. intros. lia.
  - exact Hids.
  - intros c Hin. destruct (Hdom c Hin) as [Hold|Hnew]; [|exact Hnew].
    apply Hheap in Hold. lia.
Qed.

Lemma wf_keydown (key : string) (st : Demo) : wf st -> wf (keydown key st).
Proof.
  intros Hwf. unfold keydown.
  repeat match goal with
         | |- wf (if ?b then _ else _) => destruct b
         | |- wf (match ?o with Some _ => _ | None => _ end) => destruct o
         end;
    auto using wf_forEachCube, wf_set_speed, wf_reskin, wf_createCubes.
Qed.

Lemma wf_init : wf init.
Proof.
  unfold wf. repeat split.
  - vm_compute. repeat constructor; rewrite ?elem_of_cons, ?elem_of_nil; lia.
  - vm_compute. repeat constructor.
  - vm_compute. repeat constructor.
  - intros c [m Hm]. change (nextObjectId init) with 2%nat.
    destruct (decide (c < 2)%nat) as [|Hge]; [assumption|exfalso].
    unfold init, createCubes in Hm. simpl in Hm.
    rewrite lookup_insert_ne, lookup_empty in Hm by lia. discriminate.
Qed.


Lemma keydown_unhandled_witness :
  ("x" ∉ handledKeys) /\ keydown "x" init = init.
Proof.
  assert (Hx : "x" ∉ handledKeys).
  { intros Hin. apply list_elem_of_In in Hin. simpl in Hin.
    repeat destruct Hin as [Hin|Hin]; try discriminate Hin. exact Hin. }
  split; [exact Hx | exact (keydown_unhandled "x" init Hx)].
Defined.

Lemma digit_key_lays_out_grid_witness :
  wf init /\ (1 <= 4 <= 9)%nat /\ digitKeys !! 3%nat = Some "4" /\
  keydown "4" init = createCubes 4 init /\
  length (cubes (keydown "4" init)) = 4%nat.
Proof.
  assert (H49 : (1 <= 4 <= 9)%nat) by lia.
  assert (Hkey : digitKeys !! (4 - 1)%nat = Some "4") by reflexivity.
  pose proof (digit_key_lays_out_grid init 4 "4" wf_init H49 Hkey) as Hgrid.
  cbv zeta in Hgrid.
  split; [exact wf_init|]. split; [exact H49|]. split; [exact Hkey|].
  split; [exact (proj1 Hgrid)|].
  exact (proj1 (proj2 (proj2 (proj2 Hgrid)))).
Defined.

End CubesFacts.

(** ** three.js: the lookup by name *)

Section ThreeFacts.

Import THREE.

Lemma getObjectByName_unfold (o : Object3D) (n : string) :
  getObjectByName o n =
  if String.eqb (name o) n then Some [] else firstAmong n (children o) 0%nat.
Proof. destruct o. reflexivity. Qed.

Lemma firstAmong_Some (n : string) (cs : list Object3D) (i : nat) (p : Ref) :
  firstAmong n cs i = Some p ->
  exists j c r, p = (i + j)%nat :: r /\ cs !! j = Some c /\
                getObjectByName c n = Some r.
Proof.
  revert i. induction cs as [|c cs IH]; intros i Hp; [discriminate|].
  simpl in Hp. destruct (getObjectByName c n) as [r|] eqn:Hc.
  - injection Hp as <-. exists 0%nat, c, r. rewrite Nat.add_0_r. auto.
  - apply IH in Hp as (j & c' & r & -> & Hj & Hr).
    exists (S j), c', r. split; [f_equal; lia | auto].
Qed.

Lemma firstAmong_is_Some (n : string) (cs : list Object3D) (i j : nat) (c : Object3D) :
  cs !! j = Some c -> is_Some (getObjectByName c n) -> is_Some (firstAmong n cs i).
Proof.
  revert i j. induction cs as [|c' cs IH]; intros i j Hj Hc; [discriminate|].
  simpl. destruct (getObjectByName c' n) eqn:Hc'; [eauto|].
  destruct j as [|j]; simpl in Hj.
  - injection Hj as ->. rewrite Hc' in Hc. destruct Hc. discriminate.
  - eapply IH; eauto.
Qed.

(** A reference that the search returns leads to an object of that name. *)
Lemma getObjectByName_sound (n : string) (o : Object3D) :
  forall r, getObjectByName o n = Some r ->
  exists o', objectAt o r = Some o' /\ name o' = n.
Proof.
  induction o as [o IH] using Object3D_tree_ind. intros r Hr.
  rewrite getObjectByName_unfold in Hr.
  destruct (String.eqb_spec (name o) n) as [Hn|Hn].
  - injection Hr as <-. exists o. auto.
  - apply firstAmong_Some in Hr as (j & c & r' & -> & Hj & Hr).
    rewrite Forall_forall in IH.
    destruct (IH c (list_elem_of_lookup_2 _ _ _ Hj) r' Hr) as (o' & Ho' & Hname).
    exists o'. simpl. rewrite Hj. auto.
Qed.

(** The search finds a reference whenever some object has that name. *)
Lemma getObjectByName_complete (n : string) (r : Ref) :
  forall o o', objectAt o r = Some o' -> name o' = n ->
  is_Some (getObjectByName o n).
Proof.
  induction r as [|i r IH]; intros o o' Hat Hname; simpl in Hat.
  - injection Hat as <-. rewrite getObjectByName_unfold.
    rewrite (proj2 (String.eqb_eq _ _) Hname). eauto.
  - destruct (children o !! i) as [c|] eqn:Hc; [|discriminate].
    rewrite getObjectByName_unfold. destruct (String.eqb (name o) n); [eauto|].
    eapply firstAmong_is_Some; [exact Hc|]. eapply IH; eauto.
Qed.

(** Moving or turning the root does not change what a name refers to. *)
Lemma getObjectByName_set_position (v : Vector3) (o : Object3D) (n : string) :
  getObjectByName (set_position v o) n = getObjectByName o n.
Proof. destruct o. reflexivity. Qed.

Lemma getObjectByName_set_rotation (v : Vector3) (o : Object3D) (n : string) :
  getObjectByName (set_rotation v o) n = getObjectByName o n.
Proof. destruct o. reflexivity. Qed.

End ThreeFacts.

(** ** Comparisons and clamping *)

Section NumberFacts.

Lemma Qle_bool_true (a b : Q) : Qle_bool a b = true <-> a <= b.
Proof. apply Qle_bool_iff. Qed.

Lemma Qle_bool_false (a b : Q) : Qle_bool a b = false <-> b < a.
Proof.
  split; intros H.
  - apply Qnot_le_lt. intros Hle. apply Qle_bool_iff in Hle. congruence.
  - destruct (Qle_bool a b) eqn:E; [|reflexivity].
    apply Qle_bool_iff in E. exfalso. exact (Qlt_not_le _ _ H E).
Qed.

Lemma Qltb_true (a b : Q) : Qltb a b = true <-> a < b.
Proof. unfold Qltb. rewrite negb_true_iff. apply Qle_bool_false. Qed.

Lemma Qltb_false (a b : Q) : Qltb a b = false <-> b <= a.
Proof. unfold Qltb. rewrite negb_false_iff. apply Qle_bool_iff. Qed.

Lemma Qgtb_true (a b : Q) : Qgtb a b = true <-> b < a.
Proof. apply Qltb_true. Qed.

Lemma Qgtb_false (a b : Q) : Qgtb a b = false <-> a <= b.
Proof. apply Qltb_false. Qed.

Lemma Math_max_ge_l (a b : Q) : a <= Math_max a b.
Proof. apply Q.le_max_l. Qed.

Lemma Math_max_le (a b c : Q) : a <= c -> b <= c -> Math_max a b <= c.
Proof. intros. apply Q.max_lub; assumption. Qed.

(** A loss of health that is floored stays between the floor and 100. *)
Lemma damage_in_range (floor d h : Q) :
  0 <= floor -> floor <= 100 -> 0 <= d -> 0 <= h <= 100 ->
  0 <= Math_max floor (h - d) <= 100.
Proof.
  intros Hf Hf' Hd [Hlo Hhi]. split.
  - eapply Qle_trans; [exact Hf | apply Math_max_ge_l].
  - apply Math_max_le; lra.
Qed.

(** Numbers that need not be finite. *)
Lemma JS_positive_alive (a : number) : JS.lt 0 a -> JS.leb a 0 = false.
Proof.
  unfold JS.lt. destruct a as [q| | |]; cbn; try discriminate; [|reflexivity].
  intros Hq. apply negb_true_iff in Hq. exact Hq.
Qed.

Lemma JS_between_finite (lo hi : Q) (a : number) :
  JS.between lo hi a -> exists q, a = Finite q /\ lo <= q <= hi.
Proof. destruct a as [q| | |]; cbn; intros Hb; try contradiction. eauto. Qed.

Lemma JS_damage_in_range (floor d : Q) (h : number) :
  0 <= floor -> floor <= 100 -> 0 <= d -> JS.between 0 100 h ->
  JS.between 0 100 (JS.max floor (JS.minus h d)).
Proof.
  intros Hf Hf' Hd Hb. destruct (JS_between_finite _ _ _ Hb) as (q & -> & Hq).
  cbn. apply damage_in_range; assumption.
Qed.

(** [Math.max(lo, Math.min(hi, h))] lies between the two bounds unless
    [h] is [NaN], which it leaves as it is. *)
Lemma JS_clamp_range (lo hi : Q) (h : number) :
  lo <= hi -> h <> NaN -> JS.between lo hi (JS.max lo (JS.min hi h)).
Proof.
  intros Hle Hh. destruct h as [q| | |]; [| contradiction | |].
  - cbn. split; [apply Math_max_ge_l|].
    apply Math_max_le; [exact Hle | apply Q.le_min_l].
  - cbn. split; [apply Math_max_ge_l|]. apply Math_max_le; [exact Hle | apply Qle_refl].
  - cbn. split; [apply Qle_refl | exact Hle].
Qed.

Lemma JS_clamp_NaN (lo hi : Q) : JS.max lo (JS.min hi NaN) = NaN.
Proof. reflexivity. Qed.

End NumberFacts.

(** ** The base variant: the statements of the update *)

Section BaseFacts.

Import THREE Base.
Context `{Platform}.

#[local] Arguments getObjectByName : simpl never.

(** *** What each statement of [updateFighter] leaves alone *)

Lemma faceOpponent_fields (o f : Fighter) :
  let f' := faceOpponent o f in
  health f' = health f /\ isAttacking f' = isAttacking f /\
  attackTimer f' = attackTimer f /\ attackLimb f' = attackLimb f /\
  attackType f' = attackType f /\ controls f' = controls f /\
  (forall n, getObjectByName (group f') n = getObjectByName (group f) n).
Proof.
  repeat split. intros n. apply getObjectByName_set_rotation.
Qed.

Lemma movement_fields (keys : gmap string bool) (dt : Q) (f : Fighter) :
  let f' := movement keys dt f in
  health f' = health f /\ isAttacking f' = isAttacking f /\
  attackTimer f' = attackTimer f /\ attackLimb f' = attackLimb f /\
  attackType f' = attackType f /\ controls f' = controls f /\
  facing f' = facing f /\
  (forall n, getObjectByName (group f') n = getObjectByName (group f) n).
Proof.
  unfold movement.
  destruct (truthy keys (left (controls f))); simpl;
    destruct (truthy keys (right (controls f))); simpl;
    repeat split; intros n; unfold set_position_x;
    rewrite ?getObjectByName_set_position; reflexivity.
Qed.

Lemma requestedAttack_both (keys : gmap string bool) (f : Fighter) :
  truthy keys (kick (controls f)) = true -> requestedAttack keys f = Some Kick.
Proof. intros Hk. unfold requestedAttack. rewrite Hk. reflexivity. Qed.

Lemma startAttack_health (keys : gmap string bool) (f : Fighter) :
  health (startAttack keys f) = health f /\
  controls (startAttack keys f) = controls f /\
  group (startAttack keys f) = group f.
Proof.
  unfold startAttack. destruct (requestedAttack keys f) as [[|]|];
    destruct (isAttacking f); repeat split.
Qed.

Lemma tickAttack_fields (dt : Q) (f : Fighter) :
  let f' := tickAttack dt f in
  health f' = health f /\ attackLimb f' = attackLimb f /\ group f' = group f /\
  controls f' = controls f /\ attackTimer f' = attackTimer f - dt /\
  (attackTimer f - dt <= 0 -> isAttacking f' = false /\ attackType f' = None) /\
  (0 < attackTimer f - dt ->
   isAttacking f' = isAttacking f /\ attackType f' = attackType f).
Proof.
  unfold tickAttack. cbn [attackTimer set_attackTimer].
  destruct (Qle_bool (attackTimer f - dt) 0) eqn:E; cbn.
  - apply Qle_bool_true in E. repeat split; try reflexivity; exfalso; lra.
  - apply Qle_bool_false in E. repeat split; try reflexivity; exfalso; lra.
Qed.

Lemma animateLimb_fields (f : Fighter) :
  let f' := animateLimb f in
  health f' = health f /\ isAttacking f' = isAttacking f /\
  attackTimer f' = attackTimer f /\ attackLimb f' = attackLimb f /\
  attackType f' = attackType f /\ controls f' = controls f /\ facing f' = facing f.
Proof.
  destruct f as [g fc h ia tm [limb|] [[|]|] c]; repeat split.
Qed.

Lemma resetLimb_fields (f : Fighter) :
  let f' := resetLimb f in
  health f' = health f /\ isAttacking f' = isAttacking f /\
  attackTimer f' = attackTimer f /\ attackLimb f' = attackLimb f /\
  attackType f' = attackType f /\ controls f' = controls f /\ facing f' = facing f.
Proof.
  destruct f as [g fc h ia tm [limb|] ty c]; repeat split.
Qed.

Lemma get_put_same (who : Side) (f : Fighter) (w : World) :
  getFighter who (putFighter who f w) = f.
Proof. destruct who; reflexivity. Qed.

Lemma get_put_other (who : Side) (f : Fighter) (w : World) :
  getFighter (other who) (putFighter who f w) = getFighter (other who) w.
Proof. destruct who; reflexivity. Qed.

Lemma get_put_other' (who : Side) (f : Fighter) (w : World) :
  getFighter who (putFighter (other who) f w) = getFighter who w.
Proof. destruct who; reflexivity. Qed.

(** [updateFighter] in terms of the fighter at its two stages. *)
Lemma updateFighter_unfold (keys : gmap string bool) (who : Side) (dt : Q) (w : World) :
  updateFighter keys who dt w =
  let f := getFighter who w in
  let opponent := getFighter (other who) w in
  if gameOver w || Qle_bool (health f) 0 then w
  else if isAttacking (engaged keys dt opponent f) then
         if boxesOverlap (striking keys dt opponent f) opponent
         then registerHit who (putFighter who (striking keys dt opponent f) w)
         else putFighter who (striking keys dt opponent f) w
       else putFighter who (resetLimb (engaged keys dt opponent f)) w.
Proof. reflexivity. Qed.

Lemma registerHit_effect (who : Side) (f : Fighter) (w : World) :
  let w' := registerHit who (putFighter who f w) in
  log w' = HealthBarsUpdated :: log w /\
  getFighter (other who) w' =
    set_health (Math_max 0 (health (getFighter (other who) w) - 10))
               (getFighter (other who) w) /\
  getFighter who w' = set_isAttacking false f.
Proof. destruct who; repeat split. Qed.

Lemma guard_open (w : World) (f : Fighter) :
  gameOver w = false -> 0 < health f -> gameOver w || Qle_bool (health f) 0 = false.
Proof.
  intros -> Hh. simpl. apply Qle_bool_false. exact Hh.
Qed.

End BaseFacts.

(** ** The base variant: attacks and hits *)

Section BaseAttacks.

Import THREE Base.
Context `{Platform}.

#[local] Arguments getObjectByName : simpl never.

Lemma cons_neq_self {A : Type} (a : A) (l : list A) : l <> a :: l.
Proof.
  intros E. apply (f_equal (@List.length A)) in E. simpl in E. lia.
Qed.

Lemma engaged_fields (keys : gmap string bool) (dt : Q) (o f : Fighter) :
  let e := engaged keys dt o f in
  health e = health f /\ controls e = controls f /\
  (forall n, getObjectByName (group e) n = getObjectByName (group f) n).
Proof.
  unfold engaged.
  destruct (faceOpponent_fields o f) as (F1 & _ & _ & _ & _ & F6 & F7).
  destruct (movement_fields keys dt (faceOpponent o f))
    as (M1 & _ & _ & _ & _ & M6 & _ & M8).
  destruct (startAttack_health keys (movement keys dt (faceOpponent o f)))
    as (S1 & S2 & S3).
  cbv zeta in *. repeat split.
  - congruence.
  - congruence.
  - intros n. rewrite S3, M8, F7. reflexivity.
Qed.

Lemma striking_fields (keys : gmap string bool) (dt : Q) (o f : Fighter) :
  let e := engaged keys dt o f in
  let s := striking keys dt o f in
  health s = health f /\ attackLimb s = attackLimb e /\
  attackTimer s = attackTimer e - dt /\
  (attackTimer e - dt <= 0 -> isAttacking s = false /\ attackType s = None) /\
  (0 < attackTimer e - dt ->
   isAttacking s = isAttacking e /\ attackType s = attackType e).
Proof.
  unfold striking.
  destruct (engaged_fields keys dt o f) as (E1 & _ & _).
  destruct (tickAttack_fields dt (engaged keys dt o f))
    as (T1 & T2 & _ & _ & T5 & T6 & T7).
  destruct (animateLimb_fields (tickAttack dt (engaged keys dt o f)))
    as (A1 & A2 & A3 & A4 & A5 & _ & _).
  cbv zeta in *. repeat split; try congruence.
  - rewrite A2. apply T6. assumption.
  - rewrite A5. apply T6. assumption.
  - rewrite A2. apply T7. assumption.
  - rewrite A5. apply T7. assumption.
Qed.

(** The kick key wins: with both keys held, the attack that starts is a
    kick and its limb is what the name rightLeg refers to in the group. *)
Lemma kick_starts (keys : gmap string bool) (dt : Q) (o f : Fighter) :
  truthy keys (kick (controls f)) = true -> isAttacking f = false ->
  let e := engaged keys dt o f in
  isAttacking e = true /\ attackType e = Some Kick /\
  attackTimer e = attackDuration /\
  attackLimb e = getObjectByName (group e) "rightLeg".
Proof.
  intros Hkick Hidle. unfold engaged.
  destruct (faceOpponent_fields o f) as (_ & F2 & _ & _ & _ & F6 & _).
  destruct (movement_fields keys dt (faceOpponent o f))
    as (_ & M2 & _ & _ & _ & M6 & _ & _).
  cbv zeta in *.
  set (m := movement keys dt (faceOpponent o f)) in *.
  assert (Hreq : requestedAttack keys m = Some Kick).
  { apply requestedAttack_both. rewrite M6, F6. exact Hkick. }
  assert (Hm : isAttacking m = false) by congruence.
  unfold startAttack. rewrite Hreq, Hm. repeat split.
Qed.

(** Claim C10.  In the base variant, with the punch key and the kick key
    both held and the fighter not yet attacking, the request is a kick; the
    attack that starts is a kick, and its limb is the object that the name
    rightLeg refers to in the group of the fighter: a reference to an object
    of that name, present whenever the group contains one.  At the end of
    the update the limb is still that object, and the attack is still a kick
    unless the frame was as long as the attack.  A fighter that the update
    skips starts nothing. *)
Theorem both_keys_start_kick (keys : gmap string bool) (who : Side) (dt : Q)
        (w : World) :
  let f := getFighter who w in
  let opponent := getFighter (other who) w in
  truthy keys (punch (controls f)) = true ->
  truthy keys (kick (controls f)) = true ->
  isAttacking f = false ->
  let e := engaged keys dt opponent f in
  let w' := updateFighter keys who dt w in
  requestedAttack keys f = Some Kick /\
  isAttacking e = true /\ attackType e = Some Kick /\
  attackLimb e = getObjectByName (group f) "rightLeg" /\
  (forall r, attackLimb e = Some r ->
     exists limb, objectAt (group e) r = Some limb /\ name limb = "rightLeg") /\
  ((exists r limb, objectAt (group f) r = Some limb /\ name limb = "rightLeg") ->
   is_Some (attackLimb e)) /\
  (gameOver w = false -> 0 < health f ->
   attackLimb (getFighter who w') = getObjectByName (group f) "rightLeg" /\
   (dt < attackDuration -> attackType (getFighter who w') = Some Kick)) /\
  (gameOver w = true \/ health f <= 0 -> w' = w).
Proof.
  intros f opponent Hpunch Hkick Hidle e w'.
  destruct (kick_starts keys dt opponent f Hkick Hidle) as (K1 & K2 & K3 & K4).
  destruct (engaged_fields keys dt opponent f) as (_ & _ & E3).
  cbv zeta in K1, K2, K3, K4, E3. fold e in K1, K2, K3, K4, E3.
  assert (Hlimb : attackLimb e = getObjectByName (group f) "rightLeg").
  { rewrite K4. apply E3. }
  split; [apply requestedAttack_both; exact Hkick|].
  split; [exact K1|]. split; [exact K2|]. split; [exact Hlimb|].
  split.
  { intros r Hr. rewrite K4 in Hr. apply getObjectByName_sound in Hr. exact Hr. }
  split.
  { intros (r & limb & Hat & Hname). rewrite Hlimb.
    eapply getObjectByName_complete; eauto. }
  split.
  - intros Hover Halive. unfold w'. rewrite updateFighter_unfold. cbv zeta.
    fold f opponent e. rewrite (guard_open w f Hover Halive), K1.
    destruct (striking_fields keys dt opponent f) as (_ & S2 & _ & _ & S5).
    cbv zeta in S2, S5. fold e in S2, S5.
    set (s := striking keys dt opponent f) in *.
    assert (Hty : dt < attackDuration -> attackType s = Some Kick).
    { intros Hdt. rewrite <- K2. apply S5. rewrite K3. lra. }
    destruct (boxesOverlap s opponent).
    + destruct (registerHit_effect who s w) as (_ & _ & R3). cbv zeta in R3.
      rewrite R3. cbn [attackLimb attackType set_isAttacking].
      split; [congruence | exact Hty].
    + rewrite get_put_same. split; [congruence | exact Hty].
  - intros Hskip. unfold w'. rewrite updateFighter_unfold. cbv zeta. fold f.
    destruct Hskip as [-> | Hdead]; [reflexivity|].
    apply Qle_bool_true in Hdead. rewrite Hdead, orb_true_r. reflexivity.
Qed.

(** In a frame that the update does not skip, a hit is registered exactly
    when the fighter is attacking and its box meets the box of the
    opponent. *)
Lemma base_hit_exactly (keys : gmap string bool) (who : Side) (dt : Q) (w : World) :
  let f := getFighter who w in
  let opponent := getFighter (other who) w in
  gameOver w = false -> 0 < health f ->
  let e := engaged keys dt opponent f in
  let s := striking keys dt opponent f in
  let w' := updateFighter keys who dt w in
  (hitRegistered w w' <-> isAttacking e = true /\ boxesOverlap s opponent = true) /\
  (hitRegistered w w' ->
   health (getFighter (other who) w') = Math_max 0 (health opponent - 10) /\
   isAttacking (getFighter who w') = false) /\
  (~ hitRegistered w w' -> getFighter (other who) w' = opponent /\ log w' = log w).
Proof.
  intros f opponent Hover Halive e s w'.
  unfold w', hitRegistered. rewrite updateFighter_unfold. cbv zeta.
  fold f opponent e s. rewrite (guard_open w f Hover Halive).
  destruct (isAttacking e) eqn:Ee; [destruct (boxesOverlap s opponent) eqn:Eb|].
  - destruct (registerHit_effect who s w) as (R1 & R2 & R3). cbv zeta in R1, R2, R3.
    fold opponent in R2. rewrite R1, R2, R3. split; [|split].
    + split; [split; reflexivity | reflexivity].
    + intros _. split; reflexivity.
    + intros Hno. exfalso. apply Hno. reflexivity.
  - assert (Hlog : log (putFighter who s w) = log w) by (destruct who; reflexivity).
    rewrite Hlog, get_put_other. split; [|split].
    + split; [intros E; exfalso; exact (cons_neq_self _ _ E) | intros [_ E]; discriminate E].
    + intros E. exfalso. exact (cons_neq_self _ _ E).
    + intros _. split; reflexivity.
  - assert (Hlog : log (putFighter who (resetLimb e) w) = log w)
      by (destruct who; reflexivity).
    rewrite Hlog, get_put_other. split; [|split].
    + split; [intros E; exfalso; exact (cons_neq_self _ _ E) | intros [E _]; discriminate E].
    + intros E. exfalso. exact (cons_neq_self _ _ E).
    + intros _. split; reflexivity.
Qed.

(** A fighter that the update skips registers no hit, whatever its state. *)
Lemma base_skipped (keys : gmap string bool) (who : Side) (dt : Q) (w : World) :
  gameOver w = true \/ health (getFighter who w) <= 0 ->
  updateFighter keys who dt w = w.
Proof.
  intros Hskip. rewrite updateFighter_unfold. cbv zeta.
  destruct Hskip as [-> | Hdead]; [reflexivity|].
  apply Qle_bool_true in Hdead. rewrite Hdead, orb_true_r. reflexivity.
Qed.

End BaseAttacks.

(** The boy of the base variant holds KeyF and KeyG at once: the attack
    that starts is a kick with his right leg. *)
Lemma both_keys_start_kick_witness :
  let w := Samples.baseDuel in
  let f := Base.fighter1 w in
  let e := Base.engaged (H := Characters.testPlatform) Samples.punchAndKick (1 # 60)
                        (Base.fighter2 w) f in
  truthy Samples.punchAndKick (Base.punch (Base.controls f)) = true /\
  truthy Samples.punchAndKick (Base.kick (Base.controls f)) = true /\
  Base.isAttacking f = false /\
  Base.attackType e = Some Base.Kick /\
  Base.attackLimb e = THREE.getObjectByName (Base.group f) "rightLeg" /\
  is_Some (Base.attackLimb e).
Proof.
  cbv zeta.
  assert (Hp : truthy Samples.punchAndKick
                 (Base.punch (Base.controls (Base.getFighter Base.F1 Samples.baseDuel)))
               = true) by reflexivity.
  assert (Hk : truthy Samples.punchAndKick
                 (Base.kick (Base.controls (Base.getFighter Base.F1 Samples.baseDuel)))
               = true) by reflexivity.
  assert (Hi : Base.isAttacking (Base.getFighter Base.F1 Samples.baseDuel) = false)
    by reflexivity.
  destruct (both_keys_start_kick (H := Characters.testPlatform) Samples.punchAndKick
              Base.F1 (1 # 60) Samples.baseDuel Hp Hk Hi)
    as (_ & _ & Hty & Hlimb & _ & Hsome & _).
  split; [exact Hp|]. split; [exact Hk|]. split; [exact Hi|].
  split; [exact Hty|]. split; [exact Hlimb|].
  apply Hsome. exists [5%nat]. eexists. split; [vm_compute; reflexivity | reflexivity].
Defined.

(** ** The variant with blocking: the statements of the update, hits *)

Section ShieldFacts.

Import THREE Shield.
Context `{Platform}.

#[local] Arguments getObjectByName : simpl never.

Lemma shield_get_put_same (who : Side) (f : Fighter) (w : World) :
  getFighter who (putFighter who f w) = f.
Proof. destruct who; reflexivity. Qed.

Lemma shield_get_put_other (who : Side) (f : Fighter) (w : World) :
  getFighter (other who) (putFighter who f w) = getFighter (other who) w.
Proof. destruct who; reflexivity. Qed.

Lemma shield_log_put (who : Side) (f : Fighter) (w : World) :
  log (putFighter who f w) = log w.
Proof. destruct who; reflexivity. Qed.

Lemma shield_blocking_fields (keys : gmap string bool) (dt : Q) (f : Fighter) :
  let f' := blocking keys dt f in
  health f' = health f /\ isAttacking f' = isAttacking f /\
  attackTimer f' = attackTimer f /\ attackType f' = attackType f /\
  controls f' = controls f /\ group f' = group f /\
  isBlocking f' = Qgtb (blockTimer f') 0 /\
  (truthy keys (block (controls f)) = true -> blockTimer f' = BLOCK_GRACE) /\
  (truthy keys (block (controls f)) = false -> 0 < blockTimer f ->
   blockTimer f' = blockTimer f - dt) /\
  (truthy keys (block (controls f)) = false -> blockTimer f <= 0 ->
   blockTimer f' = blockTimer f).
Proof.
  unfold blocking.
  destruct (truthy keys (block (controls f))) eqn:Ek;
    [|destruct (Qgtb (blockTimer f) 0) eqn:Eb];
    cbn; repeat split; try reflexivity; try discriminate.
  - intros _ Hle. apply Qgtb_true in Eb. lra.
  - intros _ Hlt. apply Qgtb_false in Eb. lra.
Qed.

Lemma shield_tickAttack_fields (dt : Q) (f : Fighter) :
  let f' := tickAttack dt f in
  health f' = health f /\ blockTimer f' = blockTimer f /\
  isBlocking f' = isBlocking f /\ attackTimer f' = attackTimer f - dt /\
  (attackTimer f - dt <= 0 -> isAttacking f' = false /\ attackType f' = None) /\
  (0 < attackTimer f - dt ->
   isAttacking f' = isAttacking f /\ attackType f' = attackType f).
Proof.
  unfold tickAttack. cbn [attackTimer set_attackTimer].
  destruct (Qle_bool (attackTimer f - dt) 0) eqn:E; cbn.
  - apply Qle_bool_true in E. repeat split; try reflexivity; exfalso; lra.
  - apply Qle_bool_false in E. repeat split; try reflexivity; exfalso; lra.
Qed.

Lemma shield_animateLimb_fields (f : Fighter) :
  let f' := animateLimb f in
  health f' = health f /\ isAttacking f' = isAttacking f /\
  attackTimer f' = attackTimer f /\ attackType f' = attackType f /\
  blockTimer f' = blockTimer f /\ isBlocking f' = isBlocking f.
Proof.
  destruct f as [g fc h ia tm [limb|] [[|]|] ib bt fa fcd fm sk c]; repeat split.
Qed.

Lemma shield_resetLimb_fields (f : Fighter) :
  let f' := resetLimb f in
  health f' = health f /\ isAttacking f' = isAttacking f /\
  attackTimer f' = attackTimer f /\ attackType f' = attackType f /\
  blockTimer f' = blockTimer f /\ isBlocking f' = isBlocking f.
Proof.
  destruct f as [g fc h ia tm [limb|] ty ib bt fa fcd fm sk c]; repeat split.
Qed.

Lemma shield_animateArms_fields (f : Fighter) :
  let f' := animateArms f in
  health f' = health f /\ isAttacking f' = isAttacking f /\
  attackTimer f' = attackTimer f /\ attackType f' = attackType f /\
  blockTimer f' = blockTimer f /\ isBlocking f' = isBlocking f /\
  forceActiveTimer f' = forceActiveTimer f.
Proof.
  unfold animateArms.
  destruct (isBlocking f) eqn:Eb;
    repeat match goal with
           | |- context [match ?o with Some _ => _ | None => _ end] => destruct o
           end;
    cbn; rewrite ?Eb; repeat split.
Qed.

Lemma shield_striking_fields (keys : gmap string bool) (dt : Q) (o f : Fighter) :
  let e := engaged keys dt o f in
  let s := striking keys dt o f in
  health s = health e /\ blockTimer s = blockTimer e /\
  isBlocking s = isBlocking e /\ attackTimer s = attackTimer e - dt /\
  (attackTimer e - dt <= 0 -> isAttacking s = false /\ attackType s = None) /\
  (0 < attackTimer e - dt ->
   isAttacking s = isAttacking e /\ attackType s = attackType e).
Proof.
  unfold striking.
  destruct (shield_tickAttack_fields dt (engaged keys dt o f))
    as (T1 & T2 & T3 & T4 & T5 & T6).
  destruct (shield_animateLimb_fields (tickAttack dt (engaged keys dt o f)))
    as (A1 & A2 & A3 & A4 & A5 & A6).
  cbv zeta in *. repeat split; try congruence.
  - rewrite A2. apply T5. assumption.
  - rewrite A4. apply T5. assumption.
  - rewrite A2. apply T6. assumption.
  - rewrite A4. apply T6. assumption.
Qed.

(** [updateFighter] in terms of the fighter at its two stages. *)
Lemma shield_updateFighter_unfold (keys : gmap string bool) (who : Side) (dt : Q)
      (w : World) :
  updateFighter keys who dt w =
  let f := getFighter who w in
  let opponent := getFighter (other who) w in
  if gameOver w || Qle_bool (health f) 0 then w
  else
    let w1 :=
      if isAttacking (engaged keys dt opponent f) then
        if boxesOverlap (striking keys dt opponent f) opponent && exposed opponent
        then registerHit who (putFighter who (striking keys dt opponent f) w)
        else putFighter who (striking keys dt opponent f) w
      else putFighter who (resetLimb (engaged keys dt opponent f)) w in
    putFighter who (animateArms (getFighter who w1)) w1.
Proof. reflexivity. Qed.

Lemma shield_registerHit_effect (who : Side) (f : Fighter) (w : World) :
  let w' := registerHit who (putFighter who f w) in
  log w' = HealthBarsUpdated :: log w /\
  getFighter (other who) w' =
    set_health (Math_max 0 (health (getFighter (other who) w) - 10))
               (getFighter (other who) w) /\
  getFighter who w' = set_isAttacking false f.
Proof. destruct who; repeat split. Qed.

Lemma shield_guard_open (w : World) (f : Fighter) :
  gameOver w = false -> 0 < health f -> gameOver w || Qle_bool (health f) 0 = false.
Proof. intros -> Hh. simpl. apply Qle_bool_false. exact Hh. Qed.

Lemma exposed_true (o : Fighter) :
  exposed o = true <-> isBlocking o = false /\ forceActiveTimer o <= 0.
Proof.
  unfold exposed. rewrite andb_true_iff, negb_true_iff, Qle_bool_true. tauto.
Qed.

(** In a frame that the update does not skip, a hit is registered exactly
    when the fighter is attacking, its box meets the box of the opponent,
    and the opponent neither blocks nor stands in a force field. *)
Lemma shield_hit_exactly (keys : gmap string bool) (who : Side) (dt : Q) (w : World) :
  let f := getFighter who w in
  let opponent := getFighter (other who) w in
  gameOver w = false -> 0 < health f ->
  let e := engaged keys dt opponent f in
  let s := striking keys dt opponent f in
  let w' := updateFighter keys who dt w in
  (hitRegistered w w' <->
   isAttacking e = true /\ boxesOverlap s opponent = true /\
   isBlocking opponent = false /\ forceActiveTimer opponent <= 0) /\
  (hitRegistered w w' ->
   health (getFighter (other who) w') = Math_max 0 (health opponent - 10) /\
   isAttacking (getFighter who w') = false) /\
  (~ hitRegistered w w' -> getFighter (other who) w' = opponent /\ log w' = log w).
Proof.
  intros f opponent Hover Halive e s w'.
  unfold w', hitRegistered. rewrite shield_updateFighter_unfold. cbv zeta.
  fold f opponent e s. rewrite (shield_guard_open w f Hover Halive).
  rewrite shield_log_put, shield_get_put_other, shield_get_put_same.
  rewrite <- exposed_true.
  destruct (isAttacking e) eqn:Ee;
    [destruct (boxesOverlap s opponent) eqn:Eb; [destruct (exposed opponent) eqn:Ex|]|];
    cbn [andb].
  - destruct (shield_registerHit_effect who s w) as (R1 & R2 & R3).
    cbv zeta in R1, R2, R3. fold opponent in R2. rewrite R1, R2, R3.
    destruct (shield_animateArms_fields (set_isAttacking false s)) as (_ & A2 & _).
    cbv zeta in A2. rewrite A2. split; [|split].
    + split; [repeat split | reflexivity].
    + intros _. split; reflexivity.
    + intros Hno. exfalso. apply Hno. reflexivity.
  - rewrite shield_log_put, shield_get_put_other. split; [|split].
    + split; [intros E; exfalso; exact (cons_neq_self _ _ E)
             | intros (_ & _ & E); discriminate E].
    + intros E. exfalso. exact (cons_neq_self _ _ E).
    + intros _. split; reflexivity.
  - rewrite shield_log_put, shield_get_put_other. split; [|split].
    + split; [intros E; exfalso; exact (cons_neq_self _ _ E)
             | intros (_ & E & _); discriminate E].
    + intros E. exfalso. exact (cons_neq_self _ _ E).
    + intros _. split; reflexivity.
  - rewrite shield_log_put, shield_get_put_other. split; [|split].
    + split; [intros E; exfalso; exact (cons_neq_self _ _ E)
             | intros (E & _); discriminate E].
    + intros E. exfalso. exact (cons_neq_self _ _ E).
    + intros _. split; reflexivity.
Qed.

End ShieldFacts.

(** ** The base variant: what the update depends on *)

Section BaseDeterminism.

Import THREE Base.
Context `{Platform}.

#[local] Arguments getObjectByName : simpl never.

Lemma engaged_sameControls (keys1 keys2 : gmap string bool) (dt : Q) (o f : Fighter) :
  sameControls keys1 keys2 f -> engaged keys1 dt o f = engaged keys2 dt o f.
Proof.
  intros (Hl & Hr & Hp & Hk). unfold engaged.
  assert (Hm : movement keys1 dt (faceOpponent o f) = movement keys2 dt (faceOpponent o f)).
  { destruct f as [g fc h ia tm limb ty c]. unfold movement, faceOpponent in *.
    cbn in *. rewrite Hl. destruct (truthy keys2 (left c)); cbn; rewrite Hr; reflexivity. }
  rewrite Hm. unfold startAttack, requestedAttack.
  destruct (movement_fields keys2 dt (faceOpponent o f)) as (_ & _ & _ & _ & _ & M6 & _).
  destruct (faceOpponent_fields o f) as (_ & _ & _ & _ & _ & F6 & _).
  cbv zeta in M6, F6. rewrite M6, F6, Hp, Hk. reflexivity.
Qed.

(** The fighters after the update are a function of the fighters before it,
    of the flag that ends the game, of the keys of the fighter, and of the
    time step; nothing else in the world has a say. *)
Lemma updateFighter_fighters (keys1 keys2 : gmap string bool) (who : Side) (dt : Q)
      (w1 w2 : World) :
  fighter1 w1 = fighter1 w2 -> fighter2 w1 = fighter2 w2 ->
  gameOver w1 = gameOver w2 ->
  sameControls keys1 keys2 (getFighter who w1) ->
  fighter1 (updateFighter keys1 who dt w1) = fighter1 (updateFighter keys2 who dt w2) /\
  fighter2 (updateFighter keys1 who dt w1) = fighter2 (updateFighter keys2 who dt w2).
Proof.
  intros H1 H2 Hg Hk.
  assert (Hf : getFighter who w1 = getFighter who w2) by (destruct who; assumption).
  assert (Ho : getFighter (other who) w1 = getFighter (other who) w2)
    by (destruct who; assumption).
  rewrite !updateFighter_unfold. cbv zeta. unfold striking.
  rewrite (engaged_sameControls keys1 keys2 dt _ _ Hk).
  rewrite <- Hf, <- Ho, <- Hg.
  destruct (gameOver w1 || Qle_bool (health (getFighter who w1)) 0); [auto|].
  set (e := engaged keys2 dt (getFighter (other who) w1) (getFighter who w1)).
  destruct (isAttacking e);
    [destruct (boxesOverlap (animateLimb (tickAttack dt e)) (getFighter (other who) w1))|];
    destruct who; cbn in *; rewrite <- ?H1, <- ?H2; auto.
Qed.

End BaseDeterminism.

(** ** The base variant: frames, the lightning *)

Section BaseFrames.

Import THREE Base.
Context `{Platform}.

#[local] Arguments getObjectByName : simpl never.

(** *** The fighters' update leaves the cooldowns alone *)

Lemma updateFighter_views (keys : gmap string bool) (who : Side) (dt : Q) (w : World) :
  let w' := updateFighter keys who dt w in
  lightningView w' = lightningView w /\ fireballView w' = fireballView w /\
  gameOver w' = gameOver w /\ projectiles w' = projectiles w /\
  gameStarted w' = gameStarted w.
Proof.
  cbv zeta. rewrite updateFighter_unfold. cbv zeta.
  branches; destruct who; repeat split.
Qed.

Lemma updateProjectile_views (dt : Q) (p : Projectile) (w : World) :
  let w' := snd (updateProjectile dt p w) in
  lightningView w' = lightningView w /\ fireballView w' = fireballView w.
Proof.
  cbv zeta. unfold updateProjectile. cbv zeta. branches; repeat split.
Qed.

Lemma updateProjectiles_views (dt : Q) (ps : list Projectile) (w : World) :
  let w' := snd (updateProjectiles dt ps w) in
  lightningView w' = lightningView w /\ fireballView w' = fireballView w.
Proof.
  cbv zeta. induction ps as [|p ps IH]; [split; reflexivity|].
  simpl. destruct (updateProjectiles dt ps w) as [rest w1]. simpl in IH.
  pose proof (updateProjectile_views dt p w1) as Hp. cbv zeta in Hp.
  destruct (updateProjectile dt p w1) as [[p'|] w2]; simpl in *;
    destruct IH as [IH1 IH2], Hp as [Hp1 Hp2]; split; congruence.
Qed.

Lemma fireballKey_lightningView (keys : gmap string bool) (w : World) :
  lightningView (fireballKey keys w) = lightningView w.
Proof. unfold fireballKey. cbv zeta. branches; reflexivity. Qed.

Lemma lightningKey_fireballView (keys : gmap string bool) (w : World) :
  fireballView (lightningKey keys w) = fireballView w.
Proof. unfold lightningKey, shootLightning. cbv zeta. branches; reflexivity. Qed.

(** The countdown: a positive cooldown loses [dt], any other stays. *)
Lemma coolDown_views (dt : Q) (w : World) :
  let w' := coolDown dt w in
  prevTime w' = prevTime w /\
  xPressedPrev w' = xPressedPrev w /\ lightningShots w' = lightningShots w /\
  uPressedPrev w' = uPressedPrev w /\ fireballShots w' = fireballShots w /\
  ((lightningCooldown w <= 0 /\ lightningCooldown w' = lightningCooldown w) \/
   (0 < lightningCooldown w /\ lightningCooldown w' = lightningCooldown w - dt)) /\
  ((fireballCooldown w <= 0 /\ fireballCooldown w' = fireballCooldown w) \/
   (0 < fireballCooldown w /\ fireballCooldown w' = fireballCooldown w - dt)).
Proof.
  cbv zeta. unfold coolDown. cbv zeta.
  destruct (Qgtb (lightningCooldown w) 0) eqn:El;
    [apply Qgtb_true in El | apply Qgtb_false in El]; cbn;
    (destruct (Qgtb (fireballCooldown w) 0) eqn:Ef;
     [apply Qgtb_true in Ef | apply Qgtb_false in Ef]); cbn;
    repeat split; auto.
Qed.

(** The lightning key: a shot needs the key down now and up before, and a
    cooldown that has run out; it sets the cooldown to 1. *)
Lemma lightningKey_views (keys : gmap string bool) (w : World) :
  let w' := lightningKey keys w in
  prevTime w' = prevTime w /\
  ((lightningShots w' = lightningShots w /\ lightningCooldown w' = lightningCooldown w)
   \/
   (lightningShots w' = S (lightningShots w) /\ lightningCooldown w' = 1 /\
    truthy keys "KeyX" = true /\ xPressedPrev w = false /\ lightningCooldown w <= 0 /\
    gameOver w = false /\ 0 < health (fighter1 w))).
Proof.
  cbv zeta. unfold lightningKey. cbv zeta.
  destruct (gameOver w) eqn:Eg; cbn [negb andb]; [split; [reflexivity | left; split; reflexivity]|].
  destruct (Qgtb (health (fighter1 w)) 0) eqn:Eh;
    [|split; [reflexivity | left; split; reflexivity]].
  apply Qgtb_true in Eh.
  destruct (truthy keys "KeyX") eqn:Ek; cbn [negb andb];
    [|split; [reflexivity | left; split; reflexivity]].
  destruct (xPressedPrev w) eqn:Ex; cbn [negb andb];
    [split; [reflexivity | left; split; reflexivity]|].
  destruct (Qle_bool (lightningCooldown w) 0) eqn:Ec;
    [|split; [reflexivity | left; split; reflexivity]].
  apply Qle_bool_true in Ec. split.
  - unfold shootLightning. cbv zeta. branches; reflexivity.
  - right. repeat split; auto.
    unfold shootLightning. cbv zeta. branches; reflexivity.
Qed.

(** *** One frame, seen from the lightning *)

Lemma frame_lightning (keys : gmap string bool) (current : Q) (w : World) :
  let dt := (current - prevTime w) / 1000 in
  let w' := animate keys current w in
  prevTime w' = current /\
  ((lightningShots w' = lightningShots w /\
    ((lightningCooldown w' = lightningCooldown w /\ (gameStarted w = false \/ lightningCooldown w <= 0)) \/
     (0 < lightningCooldown w /\ lightningCooldown w' = lightningCooldown w - dt)))
   \/
   (lightningShots w' = S (lightningShots w) /\ lightningCooldown w' = 1 /\
    truthy keys "KeyX" = true /\ xPressedPrev w = false /\
    (lightningCooldown w <= 0 \/ lightningCooldown w - dt <= 0))).
Proof.
  intros dt w'. unfold w', animate. fold dt. cbv zeta.
  change (gameStarted (set_prevTime current w)) with (gameStarted w).
  destruct (gameStarted w);
    [|split; [reflexivity | left; split; [reflexivity | left; split; [reflexivity | left; reflexivity]]]].
  set (w0 := set_prevTime current w).
  set (w1 := if negb (gameOver w0)
             then updateFighter keys F2 dt (updateFighter keys F1 dt w0) else w0).
  assert (H1 : lightningView w1 = (current, lightningCooldown w, xPressedPrev w,
                                   lightningShots w)).
  { unfold w1. destruct (negb (gameOver w0)); [|reflexivity].
    destruct (updateFighter_views keys F1 dt w0) as (A & _).
    destruct (updateFighter_views keys F2 dt (updateFighter keys F1 dt w0)) as (B & _).
    cbv zeta in A, B. rewrite B, A. reflexivity. }
  clearbody w1. clear w0. injection H1 as T1 C1 X1 S1.
  destruct (coolDown_views dt w1) as (T2 & X2 & S2 & _ & _ & C2 & _).
  cbv zeta in T2, X2, S2, C2. set (w2 := coolDown dt w1) in *. clearbody w2.
  destruct (lightningKey_views keys w2) as (T3 & K3).
  cbv zeta in T3, K3. set (w3 := lightningKey keys w2) in *. clearbody w3.
  pose proof (fireballKey_lightningView keys w3) as V4.
  set (w4 := fireballKey keys w3) in *. clearbody w4.
  pose proof (updateProjectiles_views dt (projectiles w4) w4) as [V5 _].
  cbv zeta in V5.
  destruct (updateProjectiles dt (projectiles w4) w4) as [ps w5]. simpl in V5.
  change (prevTime (set_projectiles ps w5)) with (prevTime w5).
  change (lightningShots (set_projectiles ps w5)) with (lightningShots w5).
  change (lightningCooldown (set_projectiles ps w5)) with (lightningCooldown w5).
  rewrite V4 in V5. injection V5 as T5 C5 _ S5.
  rewrite T5, C5, S5, T3, T2, T1. split; [reflexivity|].
  rewrite X2, S2, X1, S1, C1 in *.
  destruct K3 as [[K K']|(K & K' & Kk & Kx & Kc & _)].
  - left. rewrite K, K'. split; [reflexivity|].
    destruct C2 as [[Hle C]|[Hpos C]]; [left; split; [exact C | right; exact Hle]
                                       | right; split; [exact Hpos | exact C]].
  - right. rewrite K, K'. repeat split; auto.
    destruct C2 as [[Hle _]|[_ C]]; [left; exact Hle | right; rewrite <- C; exact Kc].
Qed.

End BaseFrames.

(** ** The base variant: the fireball, health *)

Section BaseHealth.

Import THREE Base.
Context `{Platform}.

#[local] Arguments getObjectByName : simpl never.

(** The fireball key: the same mechanism, for the girl. *)
Lemma fireballKey_views (keys : gmap string bool) (w : World) :
  let w' := fireballKey keys w in
  prevTime w' = prevTime w /\
  ((fireballShots w' = fireballShots w /\ fireballCooldown w' = fireballCooldown w)
   \/
   (fireballShots w' = S (fireballShots w) /\ fireballCooldown w' = 1 /\
    truthy keys "KeyU" = true /\ uPressedPrev w = false /\ fireballCooldown w <= 0 /\
    gameOver w = false /\ 0 < health (fighter2 w))).
Proof.
  cbv zeta. unfold fireballKey. cbv zeta.
  destruct (gameOver w) eqn:Eg; cbn [negb andb]; [split; [reflexivity | left; split; reflexivity]|].
  destruct (Qgtb (health (fighter2 w)) 0) eqn:Eh;
    [|split; [reflexivity | left; split; reflexivity]].
  apply Qgtb_true in Eh.
  destruct (truthy keys "KeyU") eqn:Ek; cbn [negb andb];
    [|split; [reflexivity | left; split; reflexivity]].
  destruct (uPressedPrev w) eqn:Ex; cbn [negb andb];
    [split; [reflexivity | left; split; reflexivity]|].
  destruct (Qle_bool (fireballCooldown w) 0) eqn:Ec;
    [|split; [reflexivity | left; split; reflexivity]].
  apply Qle_bool_true in Ec. split; [reflexivity|].
  right. repeat split; auto.
Qed.

(** *** One frame, seen from the fireball *)

Lemma frame_fireball (keys : gmap string bool) (current : Q) (w : World) :
  let dt := (current - prevTime w) / 1000 in
  let w' := animate keys current w in
  prevTime w' = current /\
  ((fireballShots w' = fireballShots w /\
    ((fireballCooldown w' = fireballCooldown w /\ (gameStarted w = false \/ fireballCooldown w <= 0)) \/
     (0 < fireballCooldown w /\ fireballCooldown w' = fireballCooldown w - dt)))
   \/
   (fireballShots w' = S (fireballShots w) /\ fireballCooldown w' = 1 /\
    truthy keys "KeyU" = true /\ uPressedPrev w = false /\
    (fireballCooldown w <= 0 \/ fireballCooldown w - dt <= 0))).
Proof.
  intros dt w'. unfold w', animate. fold dt. cbv zeta.
  change (gameStarted (set_prevTime current w)) with (gameStarted w).
  destruct (gameStarted w);
    [|split; [reflexivity | left; split; [reflexivity | left; split; [reflexivity | left; reflexivity]]]].
  set (w0 := set_prevTime current w).
  set (w1 := if negb (gameOver w0)
             then updateFighter keys F2 dt (updateFighter keys F1 dt w0) else w0).
  assert (H1 : fireballView w1 = (current, fireballCooldown w, uPressedPrev w,
                                  fireballShots w)).
  { unfold w1. destruct (negb (gameOver w0)); [|reflexivity].
    destruct (updateFighter_views keys F1 dt w0) as (_ & A & _).
    destruct (updateFighter_views keys F2 dt (updateFighter keys F1 dt w0)) as (_ & B & _).
    cbv zeta in A, B. rewrite B, A. reflexivity. }
  clearbody w1. clear w0. injection H1 as T1 C1 X1 S1.
  destruct (coolDown_views dt w1) as (T2 & _ & _ & X2 & S2 & _ & C2).
  cbv zeta in T2, X2, S2, C2. set (w2 := coolDown dt w1) in *. clearbody w2.
  pose proof (lightningKey_fireballView keys w2) as V3.
  set (w3 := lightningKey keys w2) in *. clearbody w3.
  injection V3 as T3 C3 X3 S3.
  destruct (fireballKey_views keys w3) as (T4 & K4).
  cbv zeta in T4, K4. set (w4 := fireballKey keys w3) in *. clearbody w4.
  pose proof (updateProjectiles_views dt (projectiles w4) w4) as [_ V5].
  cbv zeta in V5.
  destruct (updateProjectiles dt (projectiles w4) w4) as [ps w5]. simpl in V5.
  change (prevTime (set_projectiles ps w5)) with (prevTime w5).
  change (fireballShots (set_projectiles ps w5)) with (fireballShots w5).
  change (fireballCooldown (set_projectiles ps w5)) with (fireballCooldown w5).
  injection V5 as T5 C5 _ S5.
  rewrite T5, C5, S5, T4, T3, T2, T1. split; [reflexivity|].
  rewrite C3, X3, S3, X2, S2, X1, S1, C1 in *.
  destruct K4 as [[K K']|(K & K' & Kk & Kx & Kc & _)].
  - left. rewrite K, K'. split; [reflexivity|].
    destruct C2 as [[Hle C]|[Hpos C]]; [left; split; [exact C | right; exact Hle]
                                       | right; split; [exact Hpos | exact C]].
  - right. rewrite K, K'. repeat split; auto.
    destruct C2 as [[Hle _]|[_ C]]; [left; exact Hle | right; rewrite <- C; exact Kc].
Qed.

(** *** Health stays between 0 and 100 *)

Lemma healthy_put (who : Side) (f : Fighter) (w : World) :
  healthy w -> health f = health (getFighter who w) -> healthy (putFighter who f w).
Proof.
  unfold healthy. intros [H1 H2] E. destruct who; simpl in *; rewrite ?E; auto.
Qed.

Lemma updateFighter_healthy (keys : gmap string bool) (who : Side) (dt : Q) (w : World) :
  healthy w -> healthy (updateFighter keys who dt w).
Proof.
  intros Hw. rewrite updateFighter_unfold. cbv zeta.
  destruct (striking_fields keys dt (getFighter (other who) w) (getFighter who w))
    as (Hs & _).
  destruct (engaged_fields keys dt (getFighter (other who) w) (getFighter who w))
    as (He & _).
  destruct (resetLimb_fields (engaged keys dt (getFighter (other who) w)
                                      (getFighter who w))) as (Hr & _).
  cbv zeta in Hs, He, Hr.
  branches; try exact Hw; try (apply healthy_put; [exact Hw | congruence]).
  pose proof (damage_in_range 0 10 (health (getFighter (other who) w))) as Hd.
  unfold healthy in *. destruct Hw as [H1 H2].
  destruct who; simpl in *; rewrite ?Hs; split; auto; apply Hd; auto; lra.
Qed.

Lemma shootLightning_healthy (w : World) : healthy w -> healthy (shootLightning w).
Proof.
  unfold healthy. intros [H1 H2]. unfold shootLightning. cbv zeta.
  pose proof (damage_in_range 0 10 (health (fighter2 w))) as Hd.
  branches; simpl; (split; [exact H1 | apply Hd; auto; lra]).
Qed.

Lemma updateProjectile_healthy (dt : Q) (p : Projectile) (w : World) :
  healthy w -> healthy (snd (updateProjectile dt p w)).
Proof.
  unfold healthy. intros [H1 H2]. unfold updateProjectile. cbv zeta.
  pose proof (damage_in_range 0 10 (health (fighter1 w))) as Hd.
  branches; simpl; try (split; assumption); (split; [apply Hd; auto; lra | exact H2]).
Qed.

Lemma updateProjectiles_healthy (dt : Q) (ps : list Projectile) (w : World) :
  healthy w -> healthy (snd (updateProjectiles dt ps w)).
Proof.
  intros Hw. induction ps as [|p ps IH]; [exact Hw|].
  simpl. destruct (updateProjectiles dt ps w) as [rest w1]. simpl in IH.
  pose proof (updateProjectile_healthy dt p w1 IH) as Hp.
  destruct (updateProjectile dt p w1) as [[p'|] w2]; exact Hp.
Qed.

(** A whole frame keeps both healths in range: the two fighters' updates
    with their hits, the lightning, and the projectiles. *)
Lemma animate_healthy (keys : gmap string bool) (current : Q) (w : World) :
  healthy w -> healthy (animate keys current w).
Proof.
  intros Hw. unfold animate. cbv zeta.
  change (gameStarted (set_prevTime current w)) with (gameStarted w).
  destruct (gameStarted w); [|exact Hw].
  set (dt := (current - prevTime w) / 1000).
  set (w0 := set_prevTime current w).
  assert (H0 : healthy w0) by exact Hw.
  set (w1 := if negb (gameOver w0)
             then updateFighter keys F2 dt (updateFighter keys F1 dt w0) else w0).
  assert (H1 : healthy w1).
  { unfold w1. destruct (negb (gameOver w0)); [|exact H0].
    apply updateFighter_healthy, updateFighter_healthy, H0. }
  clearbody w1.
  assert (H2 : healthy (coolDown dt w1)).
  { unfold coolDown. cbv zeta. branches; exact H1. }
  set (w2 := coolDown dt w1) in *. clearbody w2.
  assert (H3 : healthy (lightningKey keys w2)).
  { unfold lightningKey. cbv zeta.
    branches; try exact H2; apply (shootLightning_healthy w2 H2). }
  set (w3 := lightningKey keys w2) in *. clearbody w3.
  assert (H4 : healthy (fireballKey keys w3)).
  { unfold fireballKey. cbv zeta. branches; exact H3. }
  set (w4 := fireballKey keys w3) in *. clearbody w4.
  pose proof (updateProjectiles_healthy dt (projectiles w4) w4 H4) as H5.
  destruct (updateProjectiles dt (projectiles w4) w4) as [ps w5]. exact H5.
Qed.

End BaseHealth.

(** ** The variant with blocking: frames, health *)

Section ShieldFrames.

Import THREE Shield.
Context `{Platform}.

#[local] Arguments getObjectByName : simpl never.

Lemma shield_updateFighter_views (keys : gmap string bool) (who : Side) (dt : Q)
      (w : World) :
  let w' := updateFighter keys who dt w in
  lightningView w' = lightningView w /\ fireballView w' = fireballView w /\
  gameOver w' = gameOver w /\ projectiles w' = projectiles w /\
  gameStarted w' = gameStarted w.
Proof.
  cbv zeta. rewrite shield_updateFighter_unfold. cbv zeta.
  branches; destruct who; repeat split.
Qed.











(** *** Health stays between 0 and 100 *)

Lemma shield_healthy_put (who : Side) (f : Fighter) (w : World) :
  healthy w -> health f = health (getFighter who w) -> healthy (putFighter who f w).
Proof.
  unfold healthy. intros [H1 H2] E. destruct who; simpl in *; rewrite ?E; auto.
Qed.

Lemma shield_engaged_health (keys : gmap string bool) (dt : Q) (o f : Fighter) :
  health (engaged keys dt o f) = health f.
Proof.
  unfold engaged.
  set (m := movement keys dt (faceOpponent o f)).
  assert (Hm : health m = health f).
  { unfold m, movement. branches; reflexivity. }
  destruct (shield_blocking_fields keys dt m) as (B1 & _). cbv zeta in B1.
  set (b := blocking keys dt m) in *. clearbody b.
  assert (Hs : health (startAttack keys b) = health b).
  { unfold startAttack. destruct (requestedAttack keys b) as [[|]|];
      destruct (isAttacking b); reflexivity. }
  congruence.
Qed.

Lemma shield_updateFighter_healthy (keys : gmap string bool) (who : Side) (dt : Q)
      (w : World) :
  healthy w -> healthy (updateFighter keys who dt w).
Proof.
  intros Hw. rewrite shield_updateFighter_unfold. cbv zeta.
  set (f := getFighter who w). set (o := getFighter (other who) w).
  destruct (shield_striking_fields keys dt o f) as (Hs & _).
  pose proof (shield_engaged_health keys dt o f) as He.
  destruct (shield_resetLimb_fields (engaged keys dt o f)) as (Hr & _).
  cbv zeta in Hs, He, Hr.
  destruct (gameOver w || Qle_bool (health f) 0); [exact Hw|].
  assert (Harms : forall w1, healthy w1 ->
            healthy (putFighter who (animateArms (getFighter who w1)) w1)).
  { intros w1 H1. apply shield_healthy_put; [exact H1|].
    destruct (shield_animateArms_fields (getFighter who w1)) as (A & _). exact A. }
  apply Harms.
  destruct (isAttacking (engaged keys dt o f));
    [destruct (boxesOverlap (striking keys dt o f) o && exposed o)|].
  - pose proof (damage_in_range 0 10 (health o)) as Hd.
    unfold healthy in *. destruct Hw as [H1 H2]. unfold f, o in *.
    destruct who; simpl in *; rewrite ?Hs, ?He; split; auto; apply Hd; auto; lra.
  - apply shield_healthy_put; [exact Hw | unfold f in *; congruence].
  - apply shield_healthy_put; [exact Hw | unfold f in *; congruence].
Qed.

Lemma shield_shootLightning_healthy (w : World) : healthy w -> healthy (shootLightning w).
Proof.
  unfold healthy. intros [H1 H2]. unfold shootLightning. cbv zeta.
  pose proof (damage_in_range 0 10 (health (fighter2 w))) as Hd.
  branches; simpl; try (split; assumption); (split; [exact H1 | apply Hd; auto; lra]).
Qed.

Lemma shield_updateProjectile_healthy (dt : Q) (p : Projectile) (w : World) :
  healthy w -> healthy (snd (updateProjectile dt p w)).
Proof.
  unfold healthy. intros [H1 H2]. unfold updateProjectile. cbv zeta.
  pose proof (damage_in_range 0 10 (health (fighter1 w))) as Hd.
  branches; simpl; try (split; assumption); (split; [apply Hd; auto; lra | exact H2]).
Qed.

Lemma shield_updateProjectiles_healthy (dt : Q) (ps : list Projectile) (w : World) :
  healthy w -> healthy (snd (updateProjectiles dt ps w)).
Proof.
  intros Hw. induction ps as [|p ps IH]; [exact Hw|].
  simpl. destruct (updateProjectiles dt ps w) as [rest w1]. simpl in IH.
  pose proof (shield_updateProjectile_healthy dt p w1 IH) as Hp.
  destruct (updateProjectile dt p w1) as [[p'|] w2]; exact Hp.
Qed.

Lemma shield_handleForceField_health (keys : gmap string bool) (f : Fighter)
      (key : string) (prev : bool) (dt : Q) :
  health (handleForceField keys f key prev dt) = health f.
Proof.
  assert (Hrem : forall g, health (removeField g) = health g).
  { intros g. unfold removeField. repeat case_match; reflexivity. }
  assert (Hani : forall g, health (animateField dt g) = health g).
  { intros g. unfold animateField. cbv zeta. repeat case_match; reflexivity. }
  unfold handleForceField. cbv zeta.
  match goal with
  | |- context [if ?c then activateField f else f] =>
      set (f1 := if c then activateField f else f)
  end.
  assert (H1 : health f1 = health f) by (unfold f1; case_match; reflexivity).
  clearbody f1.
  set (f2 := if Qgtb (forceCooldown f1) 0
             then set_forceCooldown (forceCooldown f1 - dt) f1 else f1).
  assert (H2 : health f2 = health f1) by (unfold f2; case_match; reflexivity).
  clearbody f2.
  repeat case_match; rewrite ?Hrem; cbn; rewrite ?Hani; congruence.
Qed.

Lemma shield_animate_healthy (keys : gmap string bool) (current : Q) (w : World) :
  healthy w -> healthy (animate keys current w).
Proof.
  intros Hw. unfold animate. cbv zeta.
  change (gameStarted (set_prevTime current w)) with (gameStarted w).
  destruct (gameStarted w); [|exact Hw].
  set (dt := (current - prevTime w) / 1000).
  set (w0 := set_prevTime current w).
  assert (H0 : healthy w0) by exact Hw.
  set (w1 := if negb (gameOver w0)
             then updateFighter keys F2 dt (updateFighter keys F1 dt w0) else w0).
  assert (H1 : healthy w1).
  { unfold w1. destruct (negb (gameOver w0)); [|exact H0].
    apply shield_updateFighter_healthy, shield_updateFighter_healthy, H0. }
  clearbody w1.
  assert (H2 : healthy (coolDown dt w1)).
  { unfold coolDown. cbv zeta. branches; exact H1. }
  set (w2 := coolDown dt w1) in *. clearbody w2.
  assert (H3 : healthy (lightningKey keys w2)).
  { unfold lightningKey. cbv zeta.
    branches; try exact H2; apply (shield_shootLightning_healthy w2 H2). }
  set (w3 := lightningKey keys w2) in *. clearbody w3.
  assert (H4 : healthy (fireballKey keys w3)).
  { unfold fireballKey. cbv zeta. branches; exact H3. }
  set (w4 := fireballKey keys w3) in *. clearbody w4.
  assert (H4' : healthy (forceFields keys dt w4)).
  { unfold healthy, forceFields in *. cbv zeta. cbn.
    rewrite !shield_handleForceField_health. exact H4. }
  set (w4' := forceFields keys dt w4) in *. clearbody w4'.
  pose proof (shield_updateProjectiles_healthy dt (projectiles w4') w4' H4') as H5.
  destruct (updateProjectiles dt (projectiles w4') w4') as [ps w5]. exact H5.
Qed.

End ShieldFrames.

(** ** The variant with blocking: timers *)

Section ShieldTimers.

Import THREE Shield.
Context `{Platform}.

#[local] Arguments getObjectByName : simpl never.




(** A fighter that the update skips keeps everything, its timers too. *)
Lemma shield_skipped (keys : gmap string bool) (who : Side) (dt : Q) (w : World) :
  gameOver w = true \/ health (getFighter who w) <= 0 ->
  updateFighter keys who dt w = w.
Proof.
  intros Hskip. rewrite shield_updateFighter_unfold. cbv zeta.
  destruct Hskip as [-> | Hdead]; [reflexivity|].
  apply Qle_bool_true in Hdead. rewrite Hdead, orb_true_r. reflexivity.
Qed.


End ShieldTimers.

(** ** The workflow: directories, resolution, copy *)

Section DeployFacts.

Import Deploy.
Context `{Runner}.

Lemma lookup_app (root : Node) (p q : Path) :
  lookup root (p ++ q) =
  match lookup root p with
  | Some v => lookup v q
  | None => None
  end.
Proof.
  revert root. induction p as [|c p IH]; intros root; [reflexivity|].
  simpl. destruct root as [|es]; [reflexivity|].
  destruct (es !! c); [apply IH | reflexivity].
Qed.

(** What [at_dir] leaves at the directory it rewrites. *)
Lemma at_dir_lookup (p : Path) (f : gmap string Node -> gmap string Node)
      (root root' : Node) :
  at_dir p f root = Some root' ->
  exists ds, lookup root p = Some (Dir ds) /\ lookup root' p = Some (Dir (f ds)).
Proof.
  revert root root'. induction p as [|c p IH]; intros root root' Hat.
  - destruct root as [|es]; [discriminate|]. injection Hat as <-. eauto.
  - destruct root as [|es]; [discriminate|]. simpl in Hat |- *.
    destruct (es !! c) as [v|] eqn:Ec; [|discriminate].
    destruct (at_dir p f v) as [v'|] eqn:Ev; [|discriminate].
    injection Hat as <-. destruct (IH _ _ Ev) as (ds & H1 & H2).
    exists ds. simpl. rewrite lookup_insert_eq. auto.
Qed.

(** ... and elsewhere: a path that leaves [p :: _] at its first step is
    untouched. *)
Lemma at_dir_elsewhere (c : string) (p : Path)
      (f : gmap string Node -> gmap string Node) (root root' : Node) (d : string)
      (q : Path) :
  at_dir (c :: p) f root = Some root' -> d <> c ->
  lookup root' (d :: q) = lookup root (d :: q).
Proof.
  intros Hat Hne. destruct root as [|es]; [discriminate|]. simpl in Hat.
  destruct (es !! c) as [v|]; [|discriminate].
  destruct (at_dir p f v) as [v'|]; [|discriminate].
  injection Hat as <-. simpl. rewrite lookup_insert_ne by congruence. reflexivity.
Qed.

Lemma mkdir_p_elsewhere (c : string) (p : Path) (root root' : Node) (d : string)
      (q : Path) :
  mkdir_p (c :: p) root = Some root' -> d <> c ->
  lookup root' (d :: q) = lookup root (d :: q).
Proof.
  intros Hmk Hne. destruct root as [|es]; [discriminate|]. simpl in Hmk.
  destruct (mkdir_p p (default (Dir ∅) (es !! c))) as [v|]; [|discriminate].
  injection Hmk as <-. simpl. rewrite lookup_insert_ne by congruence. reflexivity.
Qed.

(** [mkdir -p] makes a directory of its path, when it succeeds; and it
    succeeds when no file is in the way. *)
Lemma mkdir_p_is_dir (p : Path) (root root' : Node) :
  mkdir_p p root = Some root' -> is_dir root' p = true.
Proof.
  revert root root'. induction p as [|c p IH]; intros root root' Hmk.
  - destruct root; [discriminate|]. injection Hmk as <-. reflexivity.
  - destruct root as [|es]; [discriminate|]. simpl in Hmk.
    destruct (mkdir_p p (default (Dir ∅) (es !! c))) as [v|] eqn:Ev; [|discriminate].
    injection Hmk as <-. unfold is_dir. simpl. rewrite lookup_insert_eq.
    apply IH in Ev. exact Ev.
Qed.

(** ... and leaves what lies in the directory as it was. *)
Lemma mkdir_p_below (p : Path) (root root' : Node) (n : string) :
  mkdir_p p root = Some root' -> lookup root' (p ++ [n]) = lookup root (p ++ [n]).
Proof.
  revert root root'. induction p as [|c p IH]; intros root root' Hmk.
  - destruct root; [discriminate|]. injection Hmk as <-. reflexivity.
  - destruct root as [|es]; [discriminate|]. simpl in Hmk.
    destruct (mkdir_p p (default (Dir ∅) (es !! c))) as [v|] eqn:Ev; [|discriminate].
    injection Hmk as <-. simpl. rewrite lookup_insert_eq, (IH _ _ Ev).
    destruct (es !! c) as [u|]; [reflexivity|]. simpl.
    destruct p; simpl; rewrite lookup_empty; reflexivity.
Qed.

Lemma at_dir_defined (p : Path) (f : gmap string Node -> gmap string Node)
      (root : Node) :
  is_dir root p = true -> is_Some (at_dir p f root).
Proof.
  revert root. induction p as [|c p IH]; intros root Hd; unfold is_dir in Hd.
  - destruct root; [discriminate | simpl; eauto].
  - destruct root as [|es]; [discriminate|]. simpl in Hd |- *.
    destruct (es !! c) as [v|]; [|discriminate].
    destruct (IH v) as [v' Hv']; [exact Hd|]. rewrite Hv'. eauto.
Qed.

(** The three cases of the choice of the output directory. *)
Lemma resolveOutDir_cases (game : string) (root : Node) :
  (is_dir root [game; "dist"] = true ->
   resolveOutDir game root = Some [game; "dist"]) /\
  (is_dir root [game; "dist"] = false -> is_dir root [game; "build"] = true ->
   resolveOutDir game root = Some [game; "build"]) /\
  (is_dir root [game; "dist"] = false -> is_dir root [game; "build"] = false ->
   resolveOutDir game root = None).
Proof.
  unfold resolveOutDir. repeat split; intros; repeat case_match; congruence.
Qed.

Lemma resolveOutDir_Some (game : string) (root : Node) (out : Path) :
  resolveOutDir game root = Some out ->
  exists d es, out = [game; d] /\ lookup root out = Some (Dir es).
Proof.
  unfold resolveOutDir, is_dir. intros Hr.
  repeat case_match; simplify_eq; eauto.
Qed.

(** Without an output directory the turn ends the script with status 1,
    after the message on the error stream. *)
Lemma publish_missing (game : string) (sh : Shell) :
  resolveOutDir game (fs sh) = None ->
  publish game sh = Exited 1 (mkShell (fs sh) (stdout sh) (stderr sh ++ [notFound game])).
Proof. intros Hr. unfold publish. rewrite Hr. reflexivity. Qed.

(** With an output directory, the turn goes on only after a copy of every
    entry that the pattern matches, and of no other entry: under a name
    that starts with a dot the site directory holds what it held before;
    the turn ends with status 1 otherwise. *)
Lemma publish_found (game : string) (sh : Shell) (out : Path) (es : gmap string Node) :
  game <> SITE_DIR ->
  resolveOutDir game (fs sh) = Some out ->
  lookup (fs sh) out = Some (Dir es) ->
  (forall sh', publish game sh = Running sh' ->
     stdout sh' = stdout sh /\ stderr sh' = stderr sh /\
     (forall n v, es !! n = Some v -> visible n = true ->
                  lookup (fs sh') [SITE_DIR; game; n] = Some v) /\
     (forall n, visible n = false ->
                lookup (fs sh') [SITE_DIR; game; n] = lookup (fs sh) [SITE_DIR; game; n])) /\
  (forall c sh', publish game sh = Exited c sh' -> c = 1%Z) /\
  (matching es = ∅ -> exists sh', publish game sh = Exited 1 sh') /\
  (matching es <> ∅ -> (exists root', mkdir_p [SITE_DIR; game] (fs sh) = Some root') ->
   exists sh', publish game sh = Running sh').
Proof.
  intros Hsite Hr Hout.
  destruct (resolveOutDir_Some _ _ _ Hr) as (d & es' & -> & Hout'). clear Hout'.
  assert (Hp : publish game sh =
               match mkdir_p [SITE_DIR; game] (fs sh) with
               | None => Exited 1 sh
               | Some root1 =>
                   match cp_r_glob [game; d] [SITE_DIR; game] root1 with
                   | Some root2 => Running (mkShell root2 (stdout sh) (stderr sh))
                   | None => Exited 1 (mkShell root1 (stdout sh) (stderr sh))
                   end
               end).
  { unfold publish. rewrite Hr. unfold command.
    destruct (mkdir_p [SITE_DIR; game] (fs sh)); reflexivity. }
  rewrite Hp. clear Hp.
  destruct (mkdir_p [SITE_DIR; game] (fs sh)) as [root1|] eqn:Emk.
  - assert (Hout1 : lookup root1 [game; d] = Some (Dir es)).
    { rewrite (mkdir_p_elsewhere _ _ _ _ _ _ Emk) by exact Hsite. exact Hout. }
    unfold cp_r_glob. rewrite Hout1.
    destruct (bool_decide (matching es = ∅)) eqn:Eempty.
    + apply bool_decide_eq_true in Eempty. split; [|split; [|split]].
      * intros sh' E; discriminate E.
      * intros c sh' E. injection E as <- _. reflexivity.
      * intros _. eauto.
      * intros Hne. contradiction.
    + apply bool_decide_eq_false in Eempty.
      destruct (at_dir_defined [SITE_DIR; game] (fun ds => matching es ∪ ds) root1
                               (mkdir_p_is_dir _ _ _ Emk)) as [root2 E2].
      rewrite E2.
      destruct (at_dir_lookup _ _ _ _ E2) as (ds & Hds1 & Hds).
      split; [|split; [|split]].
      * intros sh' E. injection E as <-.
        split; [reflexivity|]. split; [reflexivity|]. split.
        -- intros n v Hn Hv. simpl fs.
           change [SITE_DIR; game; n] with ([SITE_DIR; game] ++ [n]).
           rewrite lookup_app, Hds. simpl.
           assert (Hm : matching es !! n = Some v).
           { unfold matching. apply map_lookup_filter_Some. split; [exact Hn|].
             simpl. rewrite Hv. exact I. }
           rewrite (lookup_union_Some_l _ _ _ _ Hm). reflexivity.
        -- intros n Hv. simpl fs.
           change [SITE_DIR; game; n] with ([SITE_DIR; game] ++ [n]).
           rewrite <- (mkdir_p_below _ _ _ n Emk).
           rewrite !lookup_app, Hds, Hds1. simpl.
           assert (Hm : matching es !! n = None).
           { unfold matching. apply map_lookup_filter_None. right.
             intros v _. simpl. rewrite Hv. exact id. }
           rewrite (lookup_union_r _ _ _ Hm). reflexivity.
      * intros c sh' E. discriminate E.
      * intros Hemp. contradiction.
      * intros _ _. eauto.
  - split; [|split; [|split]].
    + intros sh' E; discriminate E.
    + intros c sh' E. injection E as <- _. reflexivity.
    + intros _. eauto.
    + intros _ [root' E]. discriminate E.
Qed.

(** A turn that ends the script ends the loop, the script and the job: the
    steps that upload and deploy do not run. *)
Lemma forGames_abort (pre : list string) (game : string) (rest : list string)
      (sh0 sh : Shell) (code : Z) (sh' : Shell) :
  forGames pre sh0 = Running sh -> forGame game sh = Exited code sh' ->
  forGames (pre ++ game :: rest) sh0 = Exited code sh'.
Proof.
  revert sh0. induction pre as [|g pre IH]; intros sh0 Hpre Hg; simpl in *.
  - injection Hpre as ->. rewrite Hg. reflexivity.
  - destruct (forGame g sh0) as [sh1|c sh1]; simpl in *; [|discriminate].
    apply IH; assumption.
Qed.

Lemma job_abort (workspace root1 root2 : Node) (pre : list string) (game : string)
      (rest : list string) (sh1 sh : Shell) (code : Z) (sh' : Shell) :
  checkout workspace = Some root1 -> setup_node root1 = Some root2 ->
  command (mkdir_p [SITE_DIR]) (mkShell (rm_rf [] SITE_DIR root2) [] []) = Running sh1 ->
  GAMES = pre ++ game :: rest ->
  forGames pre sh1 = Running sh -> forGame game sh = Exited code sh' ->
  job workspace = Aborted BuildGames code sh'.
Proof.
  intros Hc Hs Hmk Hg Hpre Hgame. unfold job. rewrite Hc, Hs.
  unfold buildScript. cbv zeta. cbn [fs stdout stderr]. rewrite Hmk.
  cbn [andThen]. rewrite Hg, (forGames_abort _ _ _ _ _ _ _ Hpre Hgame). reflexivity.
Qed.

End DeployFacts.

(** ** The bow, frame by frame *)

Section BowFacts.

Import THREE Bow.
Context `{Platform}.

#[local] Arguments getObjectByName : simpl never.

Lemma whenPresent_ok (target : option Ref) (v : Q) (o : Object3D) :
  whenPresent target v o = Ok (settle target v o).
Proof. destruct target; reflexivity. Qed.

Lemma pose_ok (c : Closure) (angle : Q) (s : Stage) :
  pose c angle s = Ok (posed c angle s).
Proof. unfold pose. repeat (rewrite whenPresent_ok; cbn [bind]). reflexivity. Qed.

Lemma posed_nothingFound (c : Closure) (angle : Q) (s : Stage) :
  nothingFound c -> posed c angle s = s.
Proof.
  intros (N1 & N2 & N3 & N4). unfold posed. rewrite N1, N2, N3, N4.
  destruct s. reflexivity.
Qed.

Lemma frames_snoc (n : nat) (cs : Closure * Stage) :
  frames (S n) cs = bind (frames n cs) bowAnim.
Proof.
  revert cs. induction n as [|n IH]; intros cs.
  - simpl. destruct (bowAnim cs); reflexivity.
  - change (frames (S (S n)) cs) with (bind (bowAnim cs) (frames (S n))).
    change (frames (S n) cs) with (bind (bowAnim cs) (frames n)).
    destruct (bowAnim cs) as [cs'|e]; [apply IH | reflexivity].
Qed.

Lemma ofNat_S (k : nat) : ofNat (S k) == ofNat k + 1.
Proof.
  unfold ofNat. rewrite Nat2Z.inj_succ, <- Z.add_1_r, inject_Z_plus. reflexivity.
Qed.

Lemma ofNat_lt (a b : nat) : (a < b)%nat -> ofNat a < ofNat b.
Proof. intros Hlt. unfold ofNat. rewrite <- Zlt_Qlt. lia. Qed.

Lemma ofNat_le (a b : nat) : (a <= b)%nat -> ofNat a <= ofNat b.
Proof. intros Hle. unfold ofNat. rewrite <- Zle_Qle. lia. Qed.

(** One frame, the time being that of the [k]-th. *)
Lemma bowAnim_early (c : Closure) (s : Stage) (k : nat) :
  t c == ofNat k / 60 -> (k < 72)%nat ->
  exists angle,
    bowAnim (c, s) =
    Ok (mkClosure (torso1 c) (torso2 c) (head1 c) (head2 c) (t c + 1 / 60),
        posed c angle s).
Proof.
  intros Ht Hk. unfold bowAnim. cbv zeta.
  assert (H36 : ofNat 36 == 36) by reflexivity.
  assert (H72 : ofNat 72 == 72) by reflexivity.
  destruct (Qltb (t c) bowTime) eqn:E1.
  - rewrite pose_ok. eexists. reflexivity.
  - destruct (Qltb (t c) (bowTime + upTime)) eqn:E2.
    + rewrite pose_ok. eexists. reflexivity.
    + exfalso. apply Qltb_false in E2. pose proof (ofNat_lt k 72 Hk) as Hlt.
      unfold bowTime, upTime in E2. rewrite Ht in E2.
      assert (Hdiv : ofNat k / 60 == ofNat k * (1 # 60)) by field. lra.
Qed.

Lemma bowAnim_late (c : Closure) (s : Stage) :
  t c == ofNat 72 / 60 ->
  bowAnim (c, s) = Ok (c, callback (faceEachOther (posed c 0 s))).
Proof.
  intros Ht. unfold bowAnim. cbv zeta.
  assert (H72 : ofNat 72 == 72) by reflexivity.
  assert (Hdiv : ofNat 72 / 60 == ofNat 72 * (1 # 60)) by field.
  destruct (Qltb (t c) bowTime) eqn:E1.
  { exfalso. apply Qltb_true in E1. unfold bowTime in E1. rewrite Ht in E1. lra. }
  destruct (Qltb (t c) (bowTime + upTime)) eqn:E2.
  { exfalso. apply Qltb_true in E2. unfold bowTime, upTime in E2. rewrite Ht in E2. lra. }
  rewrite pose_ok. reflexivity.
Qed.

(** The bow, frame by frame: no frame throws; the first 72 frames pose the
    characters and leave the callback alone; every frame from the 73rd on
    calls it. *)
Lemma frames_run (s0 : Stage) (n : nat) :
  exists c s,
    frames n (bowFighters s0, s0) = Ok (c, s) /\
    torso1 c = torso1 (bowFighters s0) /\ torso2 c = torso2 (bowFighters s0) /\
    head1 c = head1 (bowFighters s0) /\ head2 c = head2 (bowFighters s0) /\
    t c == ofNat (Nat.min n 72) / 60 /\
    callbacks s = (callbacks s0 + (n - 72))%nat /\
    ((n <= 72)%nat -> gameStarted s = gameStarted s0) /\
    ((72 < n)%nat -> gameStarted s = true) /\
    (nothingFound (bowFighters s0) -> (n <= 72)%nat -> s = s0).
Proof.
  induction n as [|n IH].
  - exists (bowFighters s0), s0. simpl. repeat split; auto; try reflexivity; lia.
  - destruct IH as (c & s & Hf & R1 & R2 & R3 & R4 & Ht & Hcb & Hgs & Hgt & Hnf).
    rewrite frames_snoc, Hf. cbn [bind].
    destruct (Nat.lt_ge_cases n 72) as [Hlt|Hge].
    + rewrite Nat.min_l in Ht by lia.
      destruct (bowAnim_early c s n Ht Hlt) as (angle & ->).
      eexists _, _. split; [reflexivity|]. cbn [torso1 torso2 head1 head2 t].
      repeat split; auto.
      * rewrite Nat.min_l by lia. rewrite Ht, ofNat_S. field.
      * simpl. rewrite Hcb. lia.
      * intros _. simpl. apply Hgs. lia.
      * intros Hbad. lia.
      * intros Hno _. rewrite posed_nothingFound.
        -- apply Hnf; [exact Hno | lia].
        -- destruct Hno as (N1 & N2 & N3 & N4). repeat split; congruence.
    + rewrite Nat.min_r in Ht by lia.
      rewrite (bowAnim_late c s Ht).
      eexists _, _. split; [reflexivity|]. repeat split; auto.
      * rewrite Nat.min_r by lia. exact Ht.
      * simpl. rewrite Hcb. lia.
      * intros Hbad. lia.
      * intros _ Hbad. lia.
Qed.

End BowFacts.

(** ** scene.ts: validation, health, timers *)

Section ValidationFacts.

Lemma clamp_range (lo hi h : Q) : lo <= hi -> lo <= Math_max lo (Math_min hi h) <= hi.
Proof.
  intros Hle. split; [apply Math_max_ge_l|].
  apply Math_max_le; [exact Hle | apply Q.le_min_l].
Qed.

(** Both [validateHealth] functions give a health between 0 and 100 for
    every number but [NaN], which they return as it is. *)
Lemma validateHealth_range (h : number) :
  h <> NaN -> JS.between 0 100 (Secure.validateHealth h).
Proof. apply JS_clamp_range. discriminate. Qed.

Lemma imported_validateHealth_range (h : number) :
  h <> NaN -> JS.between 0 100 (Security.validateHealth h).
Proof. apply JS_clamp_range. discriminate. Qed.

Lemma validateHealth_valid (h : number) :
  JS.between 0 100 h -> JS.between 0 100 (Secure.validateHealth h).
Proof.
  intros Hb. apply validateHealth_range.
  destruct h; [discriminate | contradiction | discriminate | discriminate].
Qed.

End ValidationFacts.

Section SecureFacts.

Import THREE Secure.
Context `{Platform}.
Variable miniBunny : Fighter -> Fighter -> nat -> Object3D * Vector3 * Vector3.

#[local] Arguments getObjectByName : simpl never.

Lemma restore_between (stored : option number) (f : Fighter) :
  (forall h, stored = Some h -> JS.between 0 100 h) ->
  JS.between 0 100 (health f) -> JS.between 0 100 (health (restore stored f)).
Proof.
  intros Hs Hf. destruct stored as [h|]; [|exact Hf]. cbn. apply Hs. reflexivity.
Qed.

(** A call of [updateHealthBars] keeps the healths between 0 and 100 if
    the healths that it may read back from the storage are. *)
Lemma secure_updateHealthBars_healthy (attempt : Attempt) (w : World) :
  trusted attempt -> healthy w -> healthy (snd (updateHealthBars attempt w)).
Proof.
  intros Ht [H1 H2].
  pose proof (validateHealth_valid _ H1) as V1.
  pose proof (validateHealth_valid _ H2) as V2.
  unfold updateHealthBars. cbv zeta.
  destruct attempt as [|s1 s2|s1 s2|]; cbn [snd]; unfold healthy; cbn;
    try (split; assumption);
    destruct Ht as [T1 T2]; split; apply restore_between; assumption.
Qed.

Lemma andThen_healthy (r : Ending * World) (k : World -> World) :
  healthy (snd r) -> (forall w, healthy w -> healthy (k w)) ->
  healthy (snd (andThen r k)).
Proof. destruct r as [[|] w]; cbn; auto. Qed.

Lemma endGame_healthy (message : string) (w : World) : healthy w -> healthy (endGame message w).
Proof. intros Hw. exact Hw. Qed.

Lemma emit_healthy (e : Effect) (w : World) : healthy w -> healthy (emit e w).
Proof. intros Hw. exact Hw. Qed.

Lemma secure_healthy_put (who : Side) (f : Fighter) (w : World) :
  healthy w -> JS.between 0 100 (health f) -> healthy (putFighter who f w).
Proof. intros [H1 H2] Hf. destruct who; split; assumption. Qed.

(** Every assignment to a health keeps it between 0 and 100, as long as
    the healths read back from the storage are. *)
Lemma applyHealthOp_healthy (attempt : Attempt) (op : HealthOp) (w : World) :
  trusted attempt -> healthy w -> healthy (applyHealthOp attempt op w).
Proof.
  intros Ht Hw.
  assert (Hd : forall (floor d : Q) (who : Side) (v : World),
             0 <= floor -> floor <= 100 -> 0 <= d -> healthy v ->
             JS.between 0 100 (JS.max floor (JS.minus (health (getFighter who v)) d))).
  { intros floor d who v Hf Hf' Hd0 [H1 H2].
    apply JS_damage_in_range; try assumption. destruct who; assumption. }
  assert (Hend : forall (c : bool) (m : string) (e : Effect) (v : World),
             healthy v -> healthy (emit e (if c then endGame m v else v))).
  { intros c m e v Hv. destruct c; exact Hv. }
  destruct op as [|who|who|who|who|]; simpl.
  - apply secure_updateHealthBars_healthy; assumption.
  - unfold punishViolation. cbv zeta.
    change (healthy (putFighter who
              (set_isOPForm false (set_isBlocking false (set_attackTimer 2
                 (set_health (JS.max 20 (JS.minus (health (getFighter who w)) 30))
                             (getFighter who w))))) w)).
    apply secure_healthy_put; [exact Hw|]. cbn. apply Hd; [discriminate..|exact Hw].
  - unfold performRobloxSpecial. cbv zeta. case_match; [|exact Hw].
    apply andThen_healthy; [|intros v Hv; apply Hend; exact Hv].
    apply secure_updateHealthBars_healthy; [exact Ht|].
    apply secure_healthy_put; [exact Hw|]. cbn. apply Hd; [discriminate..|exact Hw].
  - unfold robotRingHit. cbv zeta. case_match; [|exact Hw].
    apply andThen_healthy; [|intros v Hv; apply Hend; exact Hv].
    apply secure_updateHealthBars_healthy; [exact Ht|].
    apply secure_healthy_put; [exact Hw|]. cbn. apply Hd; [discriminate..|exact Hw].
  - unfold bunnyHit. cbv zeta. case_match; [|exact Hw].
    apply emit_healthy, secure_healthy_put; [exact Hw|]. cbn.
    apply Hd; [discriminate..|exact Hw].
  - unfold projectileHit. cbv zeta.
    apply andThen_healthy; [|intros v Hv; apply Hend; exact Hv].
    apply secure_updateHealthBars_healthy; [exact Ht|].
    case_match; [|exact Hw].
    apply (secure_healthy_put F1); [exact Hw|]. cbn.
    apply (Hd 0 10 F1 w); [discriminate..|exact Hw].
Qed.

(** *** The countdowns at the end of [updateFighter] *)


Lemma secure_get_put_same (who : Side) (f : Fighter) (w : World) :
  getFighter who (putFighter who f w) = f.
Proof. destruct who; reflexivity. Qed.

(** A world is its fighter on one side with its own army and cooldown,
    and its own log. *)
Lemma secure_world_eta (who : Side) (w : World) :
  w = set_log ([] ++ log w)
        (putFighter who
           (set_bunnyArmy (bunnyArmy (getFighter who w))
              (set_bunnyArmyCooldown (bunnyArmyCooldown (getFighter who w))
                                     (getFighter who w))) w).
Proof. destruct w as [[] [] ? ? ? ? ? ?], who; reflexivity. Qed.

(** The loop of [summonBunnyArmy] adds bunnies to the army and to the
    scene. *)
Lemma summon_loop (who : Side) (o : Fighter) (count : list nat) (w : World) :
  exists army added,
    fold_left
      (fun w i =>
         let f := getFighter who w in
         let '(m, v, t) := miniBunny f o i in
         putFighter who
           (set_bunnyArmy (bunnyArmy f ++ [mkBunnyMinion m v BUNNY_LIFETIME t]) f)
           (emit (MiniBunnyShown m) w)) count w
    = set_log (added ++ log w)
        (putFighter who
           (set_bunnyArmy army
              (set_bunnyArmyCooldown (bunnyArmyCooldown (getFighter who w))
                                     (getFighter who w))) w) /\
    forallb Arena.harmless added = true.
Proof.
  set (turn := fun (w : World) (i : nat) => _).
  revert w. induction count as [|i count IH]; intros w.
  - exists (bunnyArmy (getFighter who w)), []. split; [|reflexivity].
    cbn [fold_left]. apply secure_world_eta.
  - cbn [fold_left].
    destruct (miniBunny (getFighter who w) o i) as [[m v] t] eqn:Em.
    assert (Hturn : turn w i =
              putFighter who
                (set_bunnyArmy (bunnyArmy (getFighter who w)
                                ++ [mkBunnyMinion m v BUNNY_LIFETIME t]) (getFighter who w))
                (emit (MiniBunnyShown m) w))
      by (unfold turn; cbv beta zeta; rewrite Em; reflexivity).
    destruct (IH (turn w i)) as (army & added & E & Hadd). rewrite E, Hturn.
    exists army, (added ++ [MiniBunnyShown m]). split.
    + rewrite <- app_assoc. destruct who; reflexivity.
    + rewrite forallb_app, Hadd. reflexivity.
Qed.

(** A summon changes the army of the fighter and the cooldown of the
    army, and adds harmless effects; nothing else. *)
Lemma summonBunnyArmy_frame (who : Side) (w : World) :
  exists army cooldown added,
    summonBunnyArmy miniBunny who w
    = set_log (added ++ log w)
        (putFighter who
           (set_bunnyArmy army (set_bunnyArmyCooldown cooldown (getFighter who w))) w) /\
    forallb Arena.harmless added = true.
Proof.
  unfold summonBunnyArmy. cbv zeta.
  destruct (Qgtb (bunnyArmyCooldown (getFighter who w)) 0
            || negb (String.eqb (characterType (getFighter who w)) "bunny")).
  - exists (bunnyArmy (getFighter who w)), (bunnyArmyCooldown (getFighter who w)), [].
    split; [apply secure_world_eta | reflexivity].
  - set (w1 := emit (SummonEffectShown (position (group (getFighter who w))))
                    (putFighter who
                       (set_bunnyArmyCooldown BUNNY_COOLDOWN (getFighter who w)) w)).
    destruct (summon_loop who (getFighter (other who) w) (seq 0 BUNNY_COUNT) w1)
      as (army & added & E & Hadd).
    cbv zeta in E. rewrite E.
    exists army, BUNNY_COOLDOWN,
      (SummonSound :: added ++ [SummonEffectShown (position (group (getFighter who w)))]).
    split.
    + unfold emit. cbn [app]. rewrite <- app_assoc. unfold w1.
      destruct who; reflexivity.
    + cbn [forallb Arena.harmless andb]. rewrite forallb_app, Hadd. reflexivity.
Qed.

(** So a summon leaves every view of the fighter alone that does not look
    at the army or its cooldown. *)
Lemma summonBunnyArmy_view {A : Type} (view : Fighter -> A) (who : Side) (w : World) :
  (forall v f, view (set_bunnyArmy v f) = view f) ->
  (forall v f, view (set_bunnyArmyCooldown v f) = view f) ->
  view (getFighter who (summonBunnyArmy miniBunny who w)) = view (getFighter who w).
Proof.
  intros Harmy Hcd.
  destruct (summonBunnyArmy_frame who w) as (army & cd & added & E & _). rewrite E.
  destruct who; cbn; rewrite Harmy, Hcd; reflexivity.
Qed.

Lemma bunnyAbility_view {A : Type} (view : Fighter -> A) (keys : gmap string bool)
      (who : Side) (w : World) :
  (forall v f, view (set_bunnyArmy v f) = view f) ->
  (forall v f, view (set_bunnyArmyCooldown v f) = view f) ->
  view (getFighter who (bunnyAbility miniBunny keys who w)) = view (getFighter who w).
Proof.
  intros Harmy Hcd. unfold bunnyAbility. cbv zeta.
  destruct (String.eqb (characterType (getFighter who w)) "bunny"); [|reflexivity].
  destruct (truthy keys (match who with F1 => "KeyB" | F2 => "KeyN" end)
            && Qle_bool (bunnyArmyCooldown (getFighter who w)) 0); [|reflexivity].
  apply summonBunnyArmy_view; assumption.
Qed.

(** ... and the rest of the world as well, but for the log. *)
Lemma bunnyAbility_rest (keys : gmap string bool) (who : Side) (w : World) :
  let w' := bunnyAbility miniBunny keys who w in
  getFighter (other who) w' = getFighter (other who) w /\
  fighter1Security w' = fighter1Security w /\
  fighter2Security w' = fighter2Security w /\
  firewallSystem w' = firewallSystem w /\ violations w' = violations w /\
  gameOver w' = gameOver w /\ Arena.quietly w w'.
Proof.
  assert (Hsame : getFighter (other who) w = getFighter (other who) w /\
                  fighter1Security w = fighter1Security w /\
                  fighter2Security w = fighter2Security w /\
                  firewallSystem w = firewallSystem w /\ violations w = violations w /\
                  gameOver w = gameOver w /\ Arena.quietly w w).
  { repeat split. exists []. split; reflexivity. }
  destruct (summonBunnyArmy_frame who w) as (army & cd & added & E & Hadd).
  cbv zeta. unfold bunnyAbility. cbv zeta. rewrite E.
  destruct (String.eqb (characterType (getFighter who w)) "bunny"); [|exact Hsame].
  destruct (truthy keys (match who with F1 => "KeyB" | F2 => "KeyN" end)
            && Qle_bool (bunnyArmyCooldown (getFighter who w)) 0); [|exact Hsame].
  destruct who; cbn; repeat split; exists added; split; (reflexivity || exact Hadd).
Qed.

Lemma bunnyAbility_timers (keys : gmap string bool) (who : Side) (w : World) :
  timers (getFighter who (bunnyAbility miniBunny keys who w)) = timers (getFighter who w).
Proof. apply bunnyAbility_view; reflexivity. Qed.

Lemma checkSecurityViolation_fighters (now : Z) (who : Side) (type : string) (w : World) :
  let w' := snd (checkSecurityViolation now who type w) in
  fighter1 w' = fighter1 w /\ fighter2 w' = fighter2 w /\ gameOver w' = gameOver w.
Proof.
  cbv zeta. unfold checkSecurityViolation. cbv zeta.
  repeat case_match; destruct who; repeat split.
Qed.



End SecureFacts.

Section SecureHealth.

Import THREE Secure.
Context `{Platform}.
Variable miniBunny : Fighter -> Fighter -> nat -> Object3D * Vector3 * Vector3.

#[local] Arguments getObjectByName : simpl never.

(** The healths of the two fighters. *)
Lemma movement_health (keys : gmap string bool) (dt : Q) (f : Fighter) :
  health (movement keys dt f) = health f.
Proof. unfold movement. cbv zeta. repeat case_match; reflexivity. Qed.

Lemma updateTimers_health (dt : Q) (f : Fighter) :
  health (updateTimers dt f) = health f.
Proof. unfold updateTimers. cbv zeta. repeat case_match; reflexivity. Qed.

(** The fighter update of [scene.ts] changes a health only by validating
    it. *)
Lemma secure_updateFighter_health (keys : gmap string bool) (now : Z) (who : Side)
      (dt : Q) (w : World) :
  let w' := updateFighter miniBunny keys now who dt w in
  health (getFighter (other who) w') = health (getFighter (other who) w) /\
  (health (getFighter who w') = health (getFighter who w) \/
   health (getFighter who w') = validateHealth (health (getFighter who w))).
Proof.
  cbv zeta. unfold updateFighter. cbv zeta.
  destruct (gameOver w || JS.leb (health (getFighter who w)) 0);
    [split; [reflexivity | left; reflexivity]|].
  set (f := getFighter who w).
  set (w1 := putFighter who (set_health (validateHealth (health f)) f) w).
  assert (T1 : health (getFighter (other who) w1) = health (getFighter (other who) w) /\
               health (getFighter who w1) = validateHealth (health f)).
  { unfold w1. destruct who; split; reflexivity. }
  clearbody w1.
  set (w2 := teleportCheck now who w1).
  assert (T2 : health (getFighter (other who) w2) = health (getFighter (other who) w) /\
               health (getFighter who w2) = validateHealth (health f)).
  { destruct T1 as [T1 C1]. rewrite <- T1, <- C1. unfold w2, teleportCheck. cbv zeta.
    unfold checkSecurityViolation. cbv zeta.
    repeat case_match; destruct who; split; reflexivity. }
  clearbody w2. clear T1 w1.
  set (w3 := rateWindow now who w2).
  assert (T3 : health (getFighter (other who) w3) = health (getFighter (other who) w) /\
               health (getFighter who w3) = validateHealth (health f)).
  { destruct T2 as [T2 C2]. rewrite <- T2, <- C2. unfold w3, rateWindow. cbv zeta.
    repeat case_match; destruct who; split; reflexivity. }
  clearbody w3. clear T2 w2.
  set (w4 := characterCheck now who w3).
  assert (T4 : health (getFighter (other who) w4) = health (getFighter (other who) w) /\
               health (getFighter who w4) = validateHealth (health f)).
  { destruct T3 as [T3 C3]. rewrite <- T3, <- C3. unfold w4, characterCheck. cbv zeta.
    unfold checkSecurityViolation. cbv zeta.
    repeat case_match; destruct who; split; reflexivity. }
  clearbody w4. clear T3 w3.
  set (w5 := putFighter who (movement keys dt (getFighter who w4)) w4).
  assert (T5 : health (getFighter (other who) w5) = health (getFighter (other who) w) /\
               health (getFighter who w5) = validateHealth (health f)).
  { destruct T4 as [T4 C4]. rewrite <- T4, <- C4. unfold w5.
    destruct who; split; try reflexivity; apply movement_health. }
  clearbody w5. clear T4 w4.
  set (w6 := startAttack keys now who w5).
  assert (T6 : health (getFighter (other who) w6) = health (getFighter (other who) w) /\
               health (getFighter who w6) = validateHealth (health f)).
  { destruct T5 as [T5 C5]. rewrite <- T5, <- C5. unfold w6, startAttack. cbv zeta.
    repeat case_match; destruct who; split; reflexivity. }
  clearbody w6. clear T5 w5.
  set (w7 := firewallCheck now who w6).
  assert (T7 : health (getFighter (other who) w7) = health (getFighter (other who) w) /\
               health (getFighter who w7) = validateHealth (health f)).
  { destruct T6 as [T6 C6]. rewrite <- T6, <- C6. unfold w7, firewallCheck. cbv zeta.
    unfold checkSecurityViolation. cbv zeta.
    repeat case_match; destruct who; split; reflexivity. }
  clearbody w7. clear T6 w6.
  set (w8 := putFighter who (updateTimers dt (getFighter who w7)) w7).
  assert (T8 : health (getFighter (other who) w8) = health (getFighter (other who) w) /\
               health (getFighter who w8) = validateHealth (health f)).
  { destruct T7 as [T7 C7]. rewrite <- T7, <- C7. unfold w8.
    destruct who; split; try reflexivity; apply updateTimers_health. }
  clearbody w8. clear T7 w7.
  destruct T8 as [T8 C8]. rewrite <- T8, <- C8.
  split; [rewrite (proj1 (bunnyAbility_rest miniBunny keys who w8)); reflexivity|].
  right. apply (bunnyAbility_view miniBunny health); reflexivity.
Qed.

Lemma secure_updateFighter_healthy (keys : gmap string bool) (now : Z) (who : Side)
      (dt : Q) (w : World) :
  healthy w -> healthy (updateFighter miniBunny keys now who dt w).
Proof.
  intros [H1 H2].
  destruct (secure_updateFighter_health keys now who dt w) as [Ho Hw].
  cbv zeta in Ho, Hw.
  unfold healthy. destruct who; cbn in *.
  - rewrite Ho. split; [|exact H2].
    destruct Hw as [E|E]; rewrite E; [|apply validateHealth_valid]; assumption.
  - rewrite Ho. split; [exact H1|].
    destruct Hw as [E|E]; rewrite E; [|apply validateHealth_valid]; assumption.
Qed.

End SecureHealth.

(** ** Hits *)

Section HitClaim.

Import THREE.
Context `{Platform}.

(** Claim C1, amended.  In both variants of [updateFighter], when the game
    is not over and the fighter's health is positive, a hit is registered
    exactly when the fighter is attacking once this frame's attack has
    started and its bounding box, taken after the limb has moved, overlaps
    the opponent's (and, in the variant with blocking and force fields, the
    opponent is not blocking and has no active force field).  A hit sets
    the opponent's health to max(0, health - 10) and ends the attacking
    state; without a hit the opponent is left as it was.  When the game is
    over or the fighter's health is not positive, the update does nothing
    and registers no hit. *)
Theorem hit_exactly_when_striking :
  (forall (keys : gmap string bool) (who : Base.Side) (dt : Q) (w : Base.World),
     let f := Base.getFighter who w in
     let opponent := Base.getFighter (Base.other who) w in
     let e := Base.engaged keys dt opponent f in
     let s := Base.striking keys dt opponent f in
     let w' := Base.updateFighter keys who dt w in
     (Base.gameOver w = false -> 0 < Base.health f ->
      (Base.hitRegistered w w' <->
       Base.isAttacking e = true /\ Base.boxesOverlap s opponent = true) /\
      (Base.hitRegistered w w' ->
       Base.health (Base.getFighter (Base.other who) w') =
         Math_max 0 (Base.health opponent - 10) /\
       Base.isAttacking (Base.getFighter who w') = false) /\
      (~ Base.hitRegistered w w' ->
       Base.getFighter (Base.other who) w' = opponent)) /\
     (Base.gameOver w = true \/ Base.health f <= 0 ->
      w' = w /\ ~ Base.hitRegistered w w')) /\
  (forall (keys : gmap string bool) (who : Shield.Side) (dt : Q) (w : Shield.World),
     let f := Shield.getFighter who w in
     let opponent := Shield.getFighter (Shield.other who) w in
     let e := Shield.engaged keys dt opponent f in
     let s := Shield.striking keys dt opponent f in
     let w' := Shield.updateFighter keys who dt w in
     (Shield.gameOver w = false -> 0 < Shield.health f ->
      (Shield.hitRegistered w w' <->
       Shield.isAttacking e = true /\ Shield.boxesOverlap s opponent = true /\
       Shield.isBlocking opponent = false /\ Shield.forceActiveTimer opponent <= 0) /\
      (Shield.hitRegistered w w' ->
       Shield.health (Shield.getFighter (Shield.other who) w') =
         Math_max 0 (Shield.health opponent - 10) /\
       Shield.isAttacking (Shield.getFighter who w') = false) /\
      (~ Shield.hitRegistered w w' ->
       Shield.getFighter (Shield.other who) w' = opponent)) /\
     (Shield.gameOver w = true \/ Shield.health f <= 0 ->
      w' = w /\ ~ Shield.hitRegistered w w')).
Proof.
  split; intros keys who dt w f opponent e s w'; split.
  - intros Hg Hh.
    destruct (base_hit_exactly keys who dt w Hg Hh) as (A & B & C).
    split; [exact A|]. split; [exact B|]. intros Hn. exact (proj1 (C Hn)).
  - intros Hskip. unfold w'. rewrite (base_skipped keys who dt w Hskip).
    split; [reflexivity|]. unfold Base.hitRegistered. apply cons_neq_self.
  - intros Hg Hh.
    destruct (shield_hit_exactly keys who dt w Hg Hh) as (A & B & C).
    split; [exact A|]. split; [exact B|]. intros Hn. exact (proj1 (C Hn)).
  - intros Hskip. unfold w'. rewrite (shield_skipped keys who dt w Hskip).
    split; [reflexivity|]. unfold Shield.hitRegistered. apply cons_neq_self.
Qed.

End HitClaim.

(** The punch of a boy who stands next to the girl lands, in both
    variants. *)
Lemma hit_exactly_when_striking_witness :
  (Base.gameOver Samples.basePunch = false /\
   0 < Base.health (Base.fighter1 Samples.basePunch) /\
   Base.hitRegistered Samples.basePunch
     (Base.updateFighter (H := Characters.testPlatform) Samples.noKeys Base.F1 (1 # 60)
                         Samples.basePunch)) /\
  (Shield.gameOver Samples.shieldPunch = false /\
   0 < Shield.health (Shield.fighter1 Samples.shieldPunch) /\
   Shield.hitRegistered Samples.shieldPunch
     (Shield.updateFighter (H := Characters.testPlatform) Samples.noKeys Shield.F1 (1 # 60)
                           Samples.shieldPunch)).
Proof.
  destruct (hit_exactly_when_striking (H := Characters.testPlatform)) as [HB HS].
  split.
  - assert (Hg : Base.gameOver Samples.basePunch = false) by reflexivity.
    assert (Hh : 0 < Base.health (Base.getFighter Base.F1 Samples.basePunch))
      by reflexivity.
    split; [exact Hg|]. split; [exact Hh|].
    destruct (HB Samples.noKeys Base.F1 (1 # 60) Samples.basePunch) as [Hrun _].
    destruct (Hrun Hg Hh) as [Hiff _].
    apply Hiff. split; vm_compute; reflexivity.
  - assert (Hg : Shield.gameOver Samples.shieldPunch = false) by reflexivity.
    assert (Hh : 0 < Shield.health (Shield.getFighter Shield.F1 Samples.shieldPunch))
      by reflexivity.
    split; [exact Hg|]. split; [exact Hh|].
    destruct (HS Samples.noKeys Shield.F1 (1 # 60) Samples.shieldPunch) as [Hrun _].
    destruct (Hrun Hg Hh) as [Hiff _].
    apply Hiff. repeat split; vm_compute; try reflexivity; discriminate.
Defined.

(** The fight of [Samples.knockOutRun], played from the start of the game:
    the girl is knocked out in the middle of her kick while the game is
    not over.  She is in the attacking state and her box overlaps the
    boy's, also as they would stand at the collision test; her update
    returns at once and registers no hit. *)
Lemma knocked_out_attacker_misses :
  let w := run (Base.frame (H := Characters.testPlatform)) Samples.knockOutRun
               Samples.baseStart in
  let f := Base.fighter2 w in
  let opponent := Base.fighter1 w in
  let keys : gmap string bool := {[ "KeyL" := true ]} in
  let w' := Base.updateFighter (H := Characters.testPlatform) keys Base.F2 (1 # 10) w in
  Base.gameOver w = false /\ Base.health f <= 0 /\ 0 < Base.health opponent /\
  Base.isAttacking f = true /\ Base.attackType f = Some Base.Kick /\
  0 < Base.attackTimer f /\
  Base.boxesOverlap (H := Characters.testPlatform) f opponent = true /\
  Base.isAttacking (Base.engaged (H := Characters.testPlatform) keys (1 # 10) opponent f)
    = true /\
  Base.boxesOverlap (H := Characters.testPlatform)
    (Base.striking (H := Characters.testPlatform) keys (1 # 10) opponent f) opponent
    = true /\
  w' = w /\ ~ Base.hitRegistered w w'.
Proof.
  cbv zeta.
  set (w := run (Base.frame (H := Characters.testPlatform)) Samples.knockOutRun
                Samples.baseStart).
  assert (Hsame : Base.updateFighter (H := Characters.testPlatform) {[ "KeyL" := true ]}
                    Base.F2 (1 # 10) w = w)
    by (apply base_skipped; right; vm_compute; discriminate).
  split; [vm_compute; reflexivity|]. split; [vm_compute; discriminate|].
  split; [vm_compute; reflexivity|]. split; [vm_compute; reflexivity|].
  split; [vm_compute; reflexivity|]. split; [vm_compute; reflexivity|].
  split; [vm_compute; reflexivity|]. split; [vm_compute; reflexivity|].
  split; [vm_compute; reflexivity|].
  split; [exact Hsame|]. rewrite Hsame. unfold Base.hitRegistered. apply cons_neq_self.
Qed.

(** ** Timers *)

Section TimerClaim.

Import THREE.
Context `{Platform}.
Variable miniBunny : Secure.Fighter -> Secure.Fighter -> nat -> Object3D * Vector3 * Vector3.



End TimerClaim.



(** ** Health *)

Section HealthClaim.

Import THREE.
Context `{Platform}.

(** Claim C3, amended.  [validateHealth], as exported by [security.ts] and
    as declared in [scene.ts], returns a value between MIN_HEALTH = 0 and
    MAX_HEALTH = 100 for every number other than NaN, the infinities
    included; for NaN it returns NaN.  Every operation that changes a
    health keeps both healths between 0 and 100 when they were so before:
    in the two demos the fighter update with its melee hit, the lightning,
    the step of a projectile with its hit, and with them the whole frame;
    in [scene.ts] the anti-cheat penalty, the hit of a bunny, the fighter
    update, and also [updateHealthBars], the special attacks and the
    projectile hit, which call it, provided that the healths which its
    [catch] block reads back from [localStorage], when its [try] block
    throws, are themselves between 0 and 100. *)
Theorem health_stays_in_range :
  (Security.MIN_HEALTH Security.SECURITY_CONFIG = 0 /\
   Security.MAX_HEALTH Security.SECURITY_CONFIG = 100 /\
   (forall h : number, h <> NaN -> JS.between 0 100 (Security.validateHealth h)) /\
   Security.validateHealth NaN = NaN) /\
  (Secure.MIN_HEALTH = 0 /\ Secure.MAX_HEALTH = 100 /\
   (forall h : number, h <> NaN -> JS.between 0 100 (Secure.validateHealth h)) /\
   Secure.validateHealth NaN = NaN) /\
  (forall (keys : gmap string bool) (who : Base.Side) (dt : Q) (w : Base.World),
     Base.healthy w -> Base.healthy (Base.updateFighter keys who dt w)) /\
  (forall w : Base.World, Base.healthy w -> Base.healthy (Base.shootLightning w)) /\
  (forall (dt : Q) (p : Base.Projectile) (w : Base.World),
     Base.healthy w -> Base.healthy (snd (Base.updateProjectile dt p w))) /\
  (forall (keys : gmap string bool) (current : Q) (w : Base.World),
     Base.healthy w -> Base.healthy (Base.animate keys current w)) /\
  (forall (keys : gmap string bool) (who : Shield.Side) (dt : Q) (w : Shield.World),
     Shield.healthy w -> Shield.healthy (Shield.updateFighter keys who dt w)) /\
  (forall w : Shield.World, Shield.healthy w -> Shield.healthy (Shield.shootLightning w)) /\
  (forall (dt : Q) (p : Shield.Projectile) (w : Shield.World),
     Shield.healthy w -> Shield.healthy (snd (Shield.updateProjectile dt p w))) /\
  (forall (keys : gmap string bool) (current : Q) (w : Shield.World),
     Shield.healthy w -> Shield.healthy (Shield.animate keys current w)) /\
  (forall (attempt : Secure.Attempt) (op : Secure.HealthOp) (w : Secure.World),
     Secure.trusted attempt -> Secure.healthy w ->
     Secure.healthy (Secure.applyHealthOp attempt op w)) /\
  (forall (miniBunny : Secure.Fighter -> Secure.Fighter -> nat ->
                       Object3D * Vector3 * Vector3)
          (keys : gmap string bool) (now : Z) (who : Secure.Side) (dt : Q)
          (w : Secure.World),
     Secure.healthy w ->
     Secure.healthy (Secure.updateFighter miniBunny keys now who dt w)).
Proof.
  split; [split; [reflexivity | split; [reflexivity |
            split; [exact imported_validateHealth_range | reflexivity]]]|].
  split; [split; [reflexivity | split; [reflexivity |
            split; [exact validateHealth_range | reflexivity]]]|].
  split; [exact updateFighter_healthy|].
  split; [exact shootLightning_healthy|].
  split; [exact updateProjectile_healthy|].
  split; [exact animate_healthy|].
  split; [exact shield_updateFighter_healthy|].
  split; [exact shield_shootLightning_healthy|].
  split; [exact shield_updateProjectile_healthy|].
  split; [exact shield_animate_healthy|].
  split; [exact applyHealthOp_healthy|].
  exact secure_updateFighter_healthy.
Qed.

End HealthClaim.

(** The punch that lands takes the girl from 100 to 90; the penalty takes
    the boy of [scene.ts] from 100 to 70; a projectile takes him from 100
    to 90, also when [updateHealthBars] cannot store the healths and reads
    back the 100 and 100 of its call before. *)
Lemma health_stays_in_range_witness :
  (Base.healthy Samples.basePunch /\
   Base.healthy (Base.updateFighter (H := Characters.testPlatform) Samples.noKeys Base.F1
                                    (1 # 60) Samples.basePunch)) /\
  (Shield.healthy Samples.shieldPunch /\
   Shield.healthy (Shield.animate (H := Characters.testPlatform) Samples.lightningKey 16
                                  Samples.shieldPunch)) /\
  (Secure.healthy Samples.secureDuel /\
   Secure.healthy (Secure.applyHealthOp Secure.Completes (Secure.OpPenalty Secure.F1)
                                        Samples.secureDuel) /\
   Secure.trusted (Secure.Recovers (Some (Finite 100)) (Some (Finite 100))) /\
   Secure.healthy (Secure.applyHealthOp
                     (Secure.Recovers (Some (Finite 100)) (Some (Finite 100)))
                     Secure.OpProjectile Samples.secureDuel)).
Proof.
  destruct (health_stays_in_range (H := Characters.testPlatform))
    as (_ & _ & Hmelee & _ & _ & _ & _ & _ & _ & Hframe & Hop & _).
  assert (Hb : Base.healthy Samples.basePunch)
    by (unfold Base.healthy; simpl; split; split; discriminate).
  assert (Hs : Shield.healthy Samples.shieldPunch)
    by (unfold Shield.healthy; simpl; split; split; discriminate).
  assert (Hc : Secure.healthy Samples.secureDuel)
    by (unfold Secure.healthy; simpl; split; split; discriminate).
  assert (Ht : Secure.trusted (Secure.Recovers (Some (Finite 100)) (Some (Finite 100))))
    by (split; intros h E; injection E as <-; split; discriminate).
  split; [split; [exact Hb | exact (Hmelee _ _ _ _ Hb)]|].
  split; [split; [exact Hs | exact (Hframe _ _ _ Hs)]|].
  split; [exact Hc|]. split; [exact (Hop Secure.Completes _ _ I Hc)|].
  split; [exact Ht | exact (Hop _ _ _ Ht Hc)].
Defined.

(** [validateHealth] leaves NaN as it is, in both files.  And a stored
    health comes back unchecked: a projectile reaches the boy of
    [scene.ts] while both fighters are at 100; [updateHealthBars] validates
    the two healths, then its [try] block throws (the storage refuses to
    store) and its [catch] block reads back the strings that the storage
    holds, which [Number] turns into NaN for the boy and 250 for the girl:
    these are the healths after the hit. *)
Lemma stored_health_unchecked :
  Security.validateHealth NaN = NaN /\ Secure.validateHealth NaN = NaN /\
  ~ JS.between 0 100 NaN /\
  let w := Samples.secureDuel in
  let w' := Secure.applyHealthOp (Secure.Recovers (Some NaN) (Some (Finite 250)))
                                 Secure.OpProjectile w in
  Secure.healthy w /\
  Secure.health (Secure.fighter1 w') = NaN /\
  Secure.health (Secure.fighter2 w') = Finite 250 /\
  ~ Secure.healthy w'.
Proof.
  split; [reflexivity|]. split; [reflexivity|]. split; [intros Hb; exact Hb|].
  cbv zeta. split; [unfold Secure.healthy; simpl; split; split; discriminate|].
  split; [reflexivity|]. split; [reflexivity|].
  intros [Hb _]. exact Hb.
Qed.

(** ** The build step of the workflow *)

Section DeployClaim.

Import Deploy.
Context `{Runner}.

Lemma forGame_missing (game : string) (sh shb : Shell) :
  build game (mkShell (fs sh) (stdout sh ++ ["\n👉 Building " +:+ game]) (stderr sh))
    = Running shb ->
  resolveOutDir game (fs shb) = None ->
  forGame game sh =
    Exited 1 (mkShell (fs shb) (stdout shb) (stderr shb ++ [notFound game])).
Proof.
  intros Hb Hr. unfold forGame, echo. cbn [andThen]. rewrite Hb. cbn [andThen].
  exact (publish_missing game shb Hr).
Qed.

Lemma games_not_site (game : string) : game ∈ GAMES -> game <> SITE_DIR.
Proof.
  intros Hin Heq. subst game. apply list_elem_of_In in Hin. simpl in Hin.
  destruct Hin as [Hin|[Hin|[]]]; discriminate Hin.
Qed.

(** What the build step does for each game.  The output directory is
    [<game>/dist] if that is a directory, otherwise [<game>/build] if that
    is a directory.  If neither is one, the step prints the error on the
    standard error and exits with status 1, which aborts the job at this
    step.  Otherwise the entries of the output directory whose names do
    not start with a dot, the ones that the pattern [*] matches, are copied
    to [site/<game>], each under its name, and no other entry is: under a
    name that starts with a dot [site/<game>] holds what it held before.
    The copy is the only thing that can fail here, with status 1, and it
    does fail when the output directory has no entry that the pattern
    matches. *)
Theorem build_output_published (game : string) (Hgame : game ∈ GAMES) :
  (forall root : Node,
     (is_dir root [game; "dist"] = true ->
      resolveOutDir game root = Some [game; "dist"]) /\
     (is_dir root [game; "dist"] = false -> is_dir root [game; "build"] = true ->
      resolveOutDir game root = Some [game; "build"]) /\
     (is_dir root [game; "dist"] = false -> is_dir root [game; "build"] = false ->
      resolveOutDir game root = None)) /\
  (forall sh : Shell,
     resolveOutDir game (fs sh) = None ->
     publish game sh =
       Exited 1 (mkShell (fs sh) (stdout sh) (stderr sh ++ [notFound game]))) /\
  (forall (workspace root1 root2 : Node) (pre rest : list string) (sh1 sh shb : Shell),
     checkout workspace = Some root1 -> setup_node root1 = Some root2 ->
     command (mkdir_p [SITE_DIR]) (mkShell (rm_rf [] SITE_DIR root2) [] []) = Running sh1 ->
     GAMES = pre ++ game :: rest ->
     forGames pre sh1 = Running sh ->
     build game (mkShell (fs sh) (stdout sh ++ ["\n👉 Building " +:+ game]) (stderr sh))
       = Running shb ->
     resolveOutDir game (fs shb) = None ->
     job workspace =
       Aborted BuildGames 1
               (mkShell (fs shb) (stdout shb) (stderr shb ++ [notFound game]))) /\
  (forall (sh : Shell) (out : Path),
     resolveOutDir game (fs sh) = Some out ->
     exists es : gmap string Node,
       lookup (fs sh) out = Some (Dir es) /\
       (forall sh', publish game sh = Running sh' ->
          stdout sh' = stdout sh /\ stderr sh' = stderr sh /\
          (forall n v, es !! n = Some v -> visible n = true ->
                       lookup (fs sh') [SITE_DIR; game; n] = Some v) /\
          (forall n, visible n = false ->
                     lookup (fs sh') [SITE_DIR; game; n]
                     = lookup (fs sh) [SITE_DIR; game; n])) /\
       (forall c sh', publish game sh = Exited c sh' -> c = 1%Z) /\
       (matching es = ∅ -> exists sh', publish game sh = Exited 1 sh') /\
       (matching es <> ∅ ->
        (exists root', mkdir_p [SITE_DIR; game] (fs sh) = Some root') ->
        exists sh', publish game sh = Running sh')).
Proof.
  split; [intros root; exact (resolveOutDir_cases game root)|].
  split; [intros sh; exact (publish_missing game sh)|].
  split.
  - intros workspace root1 root2 pre rest sh1 sh shb Hc Hs Hm Hg Hpre Hb Hr.
    exact (job_abort workspace root1 root2 pre game rest sh1 sh 1%Z _ Hc Hs Hm Hg Hpre
                     (forGame_missing game sh shb Hb Hr)).
  - intros sh out Hr.
    destruct (resolveOutDir_Some game (fs sh) out Hr) as (d & es & _ & Hl).
    exists es. split; [exact Hl|].
    exact (publish_found game sh out es (games_not_site game Hgame) Hr Hl).
Qed.

End DeployClaim.

Section DeployRuns.

Import Deploy.

(** With a second game that has no output directory the job is aborted at
    the build step, with status 1 and the error as the last line of the
    standard error. *)
Lemma build_output_published_witness :
  "cubes" ∈ GAMES /\
  resolveOutDir "cubes" Samples.halfBuiltWorkspace = None /\
  exists sh : Shell,
    job (H := Samples.quietRunner) Samples.halfBuiltWorkspace = Aborted BuildGames 1 sh /\
    last (stderr sh) = Some (notFound "cubes").
Proof.
  assert (Hgame : "cubes" ∈ GAMES) by (apply list_elem_of_In; simpl; tauto).
  split; [exact Hgame|]. split; [vm_compute; reflexivity|].
  destruct (build_output_published (H := Samples.quietRunner) "cubes" Hgame)
    as (_ & _ & Habort & _).
  pose (ws := Samples.halfBuiltWorkspace).
  pose (sh1 := mkShell (default ws (mkdir_p [SITE_DIR] (rm_rf [] SITE_DIR ws))) [] []).
  pose (sh := match forGames (H := Samples.quietRunner) ["fighters"] sh1 with
              | Running s => s | Exited _ s => s end).
  pose (shb := match build (H := Samples.quietRunner) "cubes"
                       (mkShell (fs sh) (stdout sh ++ ["\n👉 Building " +:+ "cubes"])
                                (stderr sh)) with
               | Running s => s | Exited _ s => s end).
  exists (mkShell (fs shb) (stdout shb) (stderr shb ++ [notFound "cubes"])).
  split.
  - apply (Habort ws ws ws ["fighters"] [] sh1 sh shb).
    + reflexivity.
    + reflexivity.
    + vm_compute. reflexivity.
    + reflexivity.
    + vm_compute. reflexivity.
    + vm_compute. reflexivity.
    + vm_compute. reflexivity.
  - vm_compute. reflexivity.
Defined.

(** Claim C4, at an input where the workflow fails it.  The output
    directory of the first game holds a hidden file, [.nojekyll], next to
    its page.  The step means to copy the built artefacts, as its comment
    says, but its pattern [*] leaves the names that start with a dot out:
    the job deploys the site, the page is under [site/fighters], the
    hidden file is not. *)
Lemma hidden_file_left_behind :
  exists site : Node,
    job (H := Samples.quietRunner) Samples.builtWorkspace = Deployed site /\
    resolveOutDir "fighters" Samples.builtWorkspace = Some ["fighters"; "dist"] /\
    lookup Samples.builtWorkspace ["fighters"; "dist"; "index.html"]
      = Some (Samples.page "fighters") /\
    lookup Samples.builtWorkspace ["fighters"; "dist"; ".nojekyll"]
      = Some (Samples.page "marker") /\
    lookup site ["fighters"; "index.html"] = Some (Samples.page "fighters") /\
    lookup site ["fighters"; ".nojekyll"] = None.
Proof.
  eexists. split; [vm_compute; reflexivity|].
  repeat split; vm_compute; reflexivity.
Qed.

End DeployRuns.

(** ** The bow *)

Section BowClaim.

Import THREE Bow.
Context `{Platform}.

(** Claim C5.  [bowFighters] looks up ['torso'] and ['head'] on each
    character.  Whatever subset of the four lookups returns null, the four
    guarded assignments of a frame complete without an error and leave out
    exactly the rotations whose target is missing; every number of frames
    of the animation completes without an error; the lookups are not
    repeated; the clock of the bow stops at 72 sixtieths of a second, and
    from the 73rd frame on the callback has been called and has set its
    flag.  When all four lookups return null, the frames before the
    callback change nothing at all. *)
Theorem bow_ignores_missing_parts :
  (forall (c : Closure) (angle : Q) (s : Stage),
     pose c angle s = Ok (posed c angle s)) /\
  (forall (v : Q) (o : Object3D), settle None v o = o) /\
  (forall (c : Closure) (angle : Q) (s : Stage),
     nothingFound c -> posed c angle s = s) /\
  (forall (s0 : Stage) (n : nat),
     exists (c : Closure) (s : Stage),
       frames n (bowFighters s0, s0) = Ok (c, s) /\
       torso1 c = getObjectByName (boy s0) "torso" /\
       torso2 c = getObjectByName (girl s0) "torso" /\
       head1 c = getObjectByName (boy s0) "head" /\
       head2 c = getObjectByName (girl s0) "head" /\
       t c == ofNat (Nat.min n 72) / 60 /\
       callbacks s = (callbacks s0 + (n - 72))%nat /\
       ((n <= 72)%nat -> gameStarted s = gameStarted s0) /\
       ((72 < n)%nat -> gameStarted s = true) /\
       (nothingFound (bowFighters s0) -> (n <= 72)%nat -> s = s0)).
Proof.
  split; [exact pose_ok|]. split; [reflexivity|]. split; [exact posed_nothingFound|].
  intros s0 n. exact (frames_run s0 n).
Qed.

End BowClaim.

(** Two characters without a torso and without a head: 72 frames leave them
    as they are, the 73rd calls the callback. *)
Lemma bow_ignores_missing_parts_witness :
  Bow.nothingFound (Bow.bowFighters Samples.mannequins) /\
  (exists c : Bow.Closure,
     Bow.frames (H := Characters.testPlatform) 72
                (Bow.bowFighters Samples.mannequins, Samples.mannequins)
     = Bow.Ok (c, Samples.mannequins)) /\
  (exists (c : Bow.Closure) (s : Bow.Stage),
     Bow.frames (H := Characters.testPlatform) 73
                (Bow.bowFighters Samples.mannequins, Samples.mannequins)
     = Bow.Ok (c, s) /\
     Bow.gameStarted s = true /\ Bow.callbacks s = 1%nat).
Proof.
  destruct (bow_ignores_missing_parts (H := Characters.testPlatform)) as (_ & _ & _ & Hrun).
  assert (Hnone : Bow.nothingFound (Bow.bowFighters Samples.mannequins))
    by (repeat split; reflexivity).
  split; [exact Hnone|]. split.
  - destruct (Hrun Samples.mannequins 72%nat)
      as (c & s & Hf & _ & _ & _ & _ & _ & _ & _ & _ & Hsame).
    assert (H72 : (72 <= 72)%nat) by lia.
    exists c. rewrite (Hsame Hnone H72) in Hf. exact Hf.
  - destruct (Hrun Samples.mannequins 73%nat)
      as (c & s & Hf & _ & _ & _ & _ & _ & Hcalls & _ & Hstarted & _).
    assert (H73 : (72 < 73)%nat) by lia.
    exists c, s. split; [exact Hf|]. split; [exact (Hstarted H73)|exact Hcalls].
Defined.

(** ** The cooldowns of the special attacks *)

Section CooldownClaim.

Import Clock.





(** A special attack that is counted by [shots] and cooled by [cooldown]:
    what one frame does to it, and what follows for a run of frames. *)
Section OneSpecial.

Variable shots : Timers -> nat.
Variable cooldown : Timers -> double.
Variable fires : Frame -> Timers -> bool.

Hypothesis frame_effect : forall (i : Frame) (s : Timers),
  let dt := divide (minus (current i) (prevTime s)) (ofZ 1000) in
  prevTime (animate i s) = current i /\
  if fires i s && leb (coolDown dt (cooldown s)) (ofZ 0)
  then shots (animate i s) = S (shots s) /\ cooldown (animate i s) = ofZ 1
  else shots (animate i s) = shots s /\
       cooldown (animate i s)
         = (if gameStarted i then coolDown dt (cooldown s) else cooldown s).

Hypothesis fires_started : forall i s, fires i s = true -> gameStarted i = true.






End OneSpecial.



End CooldownClaim.



(** ** Determinism of the fighter update *)

Section DeterminismClaim.

Import THREE Base.
Context `{Platform}.

(** Claim C8.  The fighter update of the base variant is a function of the
    two fighters, the keys and dt: two runs that start, in the same state
    of the game-over flag, from the same fighter and the same opponent,
    with the same keys down and the same dt, end with the same fighter and
    the same opponent, whatever else differs between the two worlds (the
    clock, the cooldowns, the projectiles, the effects so far).  Of the keys
    only the four of the fighter's controls matter.  The update leaves the
    game-over flag as it found it. *)
Theorem updateFighter_deterministic (who : Side) (dt : Q) (w1 w2 : World)
        (Hf1 : fighter1 w1 = fighter1 w2) (Hf2 : fighter2 w1 = fighter2 w2)
        (Hover : gameOver w1 = gameOver w2) :
  (forall keys : gmap string bool,
     fighter1 (updateFighter keys who dt w1) = fighter1 (updateFighter keys who dt w2) /\
     fighter2 (updateFighter keys who dt w1) = fighter2 (updateFighter keys who dt w2) /\
     gameOver (updateFighter keys who dt w1) = gameOver w1) /\
  (forall keys1 keys2 : gmap string bool,
     sameControls keys1 keys2 (getFighter who w1) ->
     fighter1 (updateFighter keys1 who dt w1) = fighter1 (updateFighter keys2 who dt w2) /\
     fighter2 (updateFighter keys1 who dt w1) = fighter2 (updateFighter keys2 who dt w2)).
Proof.
  split.
  - intros keys.
    assert (Hsame : sameControls keys keys (getFighter who w1))
      by (repeat split; reflexivity).
    destruct (updateFighter_fighters keys keys who dt w1 w2 Hf1 Hf2 Hover Hsame) as [A B].
    split; [exact A|]. split; [exact B|].
    exact (proj1 (proj2 (proj2 (updateFighter_views keys who dt w1)))).
  - intros keys1 keys2 Hsame.
    exact (updateFighter_fighters keys1 keys2 who dt w1 w2 Hf1 Hf2 Hover Hsame).
Qed.

End DeterminismClaim.

(** The same punch in two worlds that differ in the clock and in a
    cooldown: the two fighters end the same. *)
Lemma updateFighter_deterministic_witness :
  let w1 := Samples.basePunch in
  let w2 := Base.set_lightningCooldown 0.7 (Base.set_prevTime 5000 Samples.basePunch) in
  let run := Base.updateFighter (H := Characters.testPlatform) Samples.punchAndKick
                                Base.F1 (1 # 60) in
  Base.fighter1 w1 = Base.fighter1 w2 /\ Base.fighter2 w1 = Base.fighter2 w2 /\
  Base.gameOver w1 = Base.gameOver w2 /\ (w1 <> w2) /\
  Base.fighter1 (run w1) = Base.fighter1 (run w2) /\
  Base.fighter2 (run w1) = Base.fighter2 (run w2).
Proof.
  cbv zeta.
  set (w1 := Samples.basePunch).
  set (w2 := Base.set_lightningCooldown 0.7 (Base.set_prevTime 5000 Samples.basePunch)).
  assert (Hf1 : Base.fighter1 w1 = Base.fighter1 w2) by reflexivity.
  assert (Hf2 : Base.fighter2 w1 = Base.fighter2 w2) by reflexivity.
  assert (Hover : Base.gameOver w1 = Base.gameOver w2) by reflexivity.
  split; [exact Hf1|]. split; [exact Hf2|]. split; [exact Hover|].
  split; [intros Heq; apply (f_equal Base.prevTime) in Heq; discriminate Heq|].
  destruct (updateFighter_deterministic (H := Characters.testPlatform) Base.F1 (1 # 60)
              w1 w2 Hf1 Hf2 Hover) as [Hkeys _].
  destruct (Hkeys Samples.punchAndKick) as (A & B & _).
  split; [exact A | exact B].
Defined.

(** ** The base variant: how a game ends *)

Section BaseEndings.

Import THREE Base Play.
Context `{Platform}.

#[local] Arguments getObjectByName : simpl never.

Lemma settled_cases (w : World) :
  settled w <->
  (endings w = [] /\ gameOver w = false) \/
  (exists m, endings w = [m] /\ gameOver w = true /\
             ((m = "Boy wins!" /\ health (fighter2 w) == 0) \/
              (m = "Girl wins!" /\ health (fighter1 w) == 0))).
Proof.
  unfold settled. destruct (endings w) as [|m [|m' l]].
  - split; [intros Hg; left; split; [reflexivity | exact Hg]|].
    intros [[_ Hg]|(m & Hm & _)]; [exact Hg | discriminate Hm].
  - split; [intros Hs; right; exists m; split; [reflexivity | exact Hs]|].
    intros [[Hm _]|(m0 & Hm & Hs)]; [discriminate Hm|].
    injection Hm as ->. exact Hs.
  - split; [intros []|].
    intros [[Hm _]|(m0 & Hm & _)]; discriminate Hm.
Qed.

(** A step that calls no [endGame] and, once the game is over, changes no
    health. *)
Lemma settled_kept (w w' : World) :
  endings w' = endings w -> gameOver w' = gameOver w ->
  (gameOver w = true ->
   health (fighter1 w') == health (fighter1 w) /\
   health (fighter2 w') == health (fighter2 w)) ->
  settled w -> settled w'.
Proof.
  intros He Hg Hh Hs. apply settled_cases in Hs. apply settled_cases.
  rewrite He, Hg.
  destruct Hs as [Hs|(m & Hm & Ho & Hs)]; [left; exact Hs|].
  right. exists m. split; [exact Hm|]. split; [exact Ho|].
  destruct (Hh Ho) as [H1 H2]. rewrite H1, H2. exact Hs.
Qed.

(** The update of a fighter calls no [endGame] and leaves the flag. *)
Lemma updateFighter_endings (keys : gmap string bool) (who : Side) (dt : Q) (w : World) :
  let w' := updateFighter keys who dt w in
  endings w' = endings w /\ gameOver w' = gameOver w /\
  (gameOver w = true -> w' = w).
Proof.
  cbv zeta. rewrite updateFighter_unfold. cbv zeta.
  destruct (gameOver w) eqn:Hg.
  - simpl. split; [reflexivity|]. split; [exact Hg | reflexivity].
  - branches; destruct who;
      (split; [reflexivity|]; split; [exact Hg | intros Ho; discriminate Ho]).
Qed.

Lemma settled_updateFighter (keys : gmap string bool) (who : Side) (dt : Q) (w : World) :
  settled w -> settled (updateFighter keys who dt w).
Proof.
  destruct (updateFighter_endings keys who dt w) as (He & Hg & Hsame).
  apply settled_kept; [exact He | exact Hg|].
  intros Ho. rewrite (Hsame Ho). split; reflexivity.
Qed.

Lemma settled_coolDown (dt : Q) (w : World) : settled w -> settled (coolDown dt w).
Proof.
  apply settled_kept; unfold coolDown; cbv zeta; branches; try reflexivity;
    intros _; split; reflexivity.
Qed.

Lemma max_zero_stays (h d : Q) : h == 0 -> 0 <= d -> Math_max 0 (h - d) == 0.
Proof.
  intros Hh Hd. unfold Math_max. apply Q.max_l. lra.
Qed.

(** The lightning ends the game when it takes the girl's last health. *)
Lemma settled_shootLightning (w : World) :
  gameOver w = false -> settled w -> settled (shootLightning w).
Proof.
  intros Hg Hs. apply settled_cases in Hs.
  destruct Hs as [[He _]|(m & _ & Ho & _)]; [|congruence].
  apply settled_cases. unfold shootLightning. cbv zeta.
  match goal with |- context [if ?b then _ else _] => destruct b eqn:Eb end.
  - right. exists "Boy wins!".
    apply andb_true_iff in Eb as [Eq _]. apply Qeq_bool_iff in Eq.
    split; [exact (f_equal (cons "Boy wins!") He)|].
    split; [reflexivity|]. left. split; [reflexivity | exact Eq].
  - left. split; [exact He | exact Hg].
Qed.

Lemma settled_lightningKey (keys : gmap string bool) (w : World) :
  settled w -> settled (lightningKey keys w).
Proof.
  intros Hs. unfold lightningKey.
  destruct (negb (gameOver w) && Qgtb (health (fighter1 w)) 0) eqn:Eg; [|exact Hs].
  apply andb_true_iff in Eg as [Eg _]. apply negb_true_iff in Eg.
  cbv zeta.
  match goal with |- context [if ?b then _ else _] => destruct b end.
  - pose proof (settled_shootLightning w Eg Hs) as Hs'.
    revert Hs'. apply settled_kept; try reflexivity. intros _. split; reflexivity.
  - revert Hs. apply settled_kept; try reflexivity. intros _. split; reflexivity.
Qed.

Lemma settled_fireballKey (keys : gmap string bool) (w : World) :
  settled w -> settled (fireballKey keys w).
Proof.
  apply settled_kept; unfold fireballKey, shootFireball; cbv zeta; branches;
    try reflexivity; intros _; split; reflexivity.
Qed.

(** A fireball ends the game when it takes the boy's last health and the
    game is not over yet. *)
Lemma settled_updateProjectile (dt : Q) (p : Projectile) (w : World) :
  settled w -> settled (snd (updateProjectile dt p w)).
Proof.
  intros Hs. unfold updateProjectile. cbv zeta.
  match goal with |- context [if ?b then _ else _] => destruct b end; [exact Hs|].
  match goal with |- context [if ?b then _ else _] => destruct b end; [|exact Hs].
  cbn [snd]. apply settled_cases in Hs. apply settled_cases.
  destruct Hs as [[He Hg]|(m & He & Ho & Hm)].
  - match goal with |- context [if ?b then _ else _] => destruct b eqn:Eb end.
    + right. exists "Girl wins!".
      apply andb_true_iff in Eb as [Eq _]. apply Qeq_bool_iff in Eq.
      split; [exact (f_equal (cons "Girl wins!") He)|].
      split; [reflexivity|]. right. split; [reflexivity | exact Eq].
    + left. split; [exact He | exact Hg].
  - match goal with |- context [if ?b then _ else _] => destruct b eqn:Eb end.
    + apply andb_true_iff in Eb as [_ Eb]. simpl in Eb. rewrite Ho in Eb.
      discriminate Eb.
    + right. exists m. split; [exact He|].
      split; [exact Ho|].
      destruct Hm as [[-> Hh]|[-> Hh]]; [left; split; [reflexivity | exact Hh]|].
      right. split; [reflexivity|]. simpl. apply max_zero_stays; [exact Hh | lra].
Qed.

Lemma settled_updateProjectiles (dt : Q) (ps : list Projectile) (w : World) :
  settled w -> settled (snd (updateProjectiles dt ps w)).
Proof.
  intros Hs. induction ps as [|p ps IH]; [exact Hs|].
  simpl. destruct (updateProjectiles dt ps w) as [rest w1]. simpl in IH.
  pose proof (settled_updateProjectile dt p w1 IH) as Hp.
  destruct (updateProjectile dt p w1) as [[p'|] w2]; exact Hp.
Qed.

Lemma settled_animate (keys : gmap string bool) (current : Q) (w : World) :
  settled w -> settled (animate keys current w).
Proof.
  intros Hs. unfold animate. cbv zeta.
  change (gameStarted (set_prevTime current w)) with (gameStarted w).
  assert (H0 : settled (set_prevTime current w)) by exact Hs.
  destruct (gameStarted w); [|exact H0].
  set (dt := (current - prevTime w) / 1000).
  set (w0 := set_prevTime current w) in *.
  set (w1 := if negb (gameOver w0)
             then updateFighter keys F2 dt (updateFighter keys F1 dt w0) else w0).
  assert (H1 : settled w1).
  { unfold w1. destruct (negb (gameOver w0)); [|exact H0].
    apply settled_updateFighter, settled_updateFighter, H0. }
  clearbody w1. clear H0 Hs.
  pose proof (settled_fireballKey keys _
                (settled_lightningKey keys _ (settled_coolDown dt w1 H1))) as H4.
  set (w4 := fireballKey keys (lightningKey keys (coolDown dt w1))) in *.
  clearbody w4.
  pose proof (settled_updateProjectiles dt (projectiles w4) w4 H4) as H5.
  destruct (updateProjectiles dt (projectiles w4) w4) as [ps w5].
  exact H5.
Qed.

Lemma settled_run (events : list Event) (w : World) :
  settled w -> settled (run step events w).
Proof.
  revert w. induction events as [|e events IH]; intros w Hs; [exact Hs|].
  simpl. apply IH. destruct e as [|keys current]; [exact Hs|].
  apply settled_animate, Hs.
Qed.

(** Property X1.  However a session goes, [endGame] is called at most once, the game is
    over exactly when it has been called, and the fighter that the message
    declares beaten has no health left. *)
Theorem game_ends_once (t0 : Q) (events : list Event) :
  let w := run step events (initial t0) in
  (List.length (endings w) <= 1)%nat /\
  (gameOver w = true <-> List.length (endings w) = 1%nat) /\
  (forall m, m ∈ endings w ->
     (m = "Boy wins!" /\ health (fighter2 w) == 0) \/
     (m = "Girl wins!" /\ health (fighter1 w) == 0)).
Proof.
  cbv zeta.
  assert (Hs : settled (run step events (initial t0)))
    by (apply settled_run; reflexivity).
  set (w := run step events (initial t0)) in *. clearbody w.
  apply settled_cases in Hs.
  destruct Hs as [[He Hg]|(m & He & Ho & Hm)]; rewrite He; simpl.
  - split; [lia|]. split; [split; [congruence | discriminate]|].
    intros m Hin. inversion Hin.
  - split; [lia|]. split; [split; [reflexivity | intros _; exact Ho]|].
    intros m' Hin. apply list_elem_of_singleton in Hin. subst m'. exact Hm.
Qed.

End BaseEndings.

(** ** The base variant: health only goes down; a game that is over *)

Section BaseDecline.

Import THREE Base Play.
Context `{Platform}.

#[local] Arguments getObjectByName : simpl never.

Lemma declining_refl (w : World) :
  0 <= health (fighter1 w) -> 0 <= health (fighter2 w) -> declining w w.
Proof. intros H1 H2. unfold declining. repeat split; lra. Qed.

Lemma declining_trans (w1 w2 w3 : World) :
  declining w1 w2 -> declining w2 w3 -> declining w1 w3.
Proof. unfold declining. intros [[? ?] [? ?]] [[? ?] [? ?]]. repeat split; lra. Qed.

Lemma declining_same (w w' : World) :
  health (fighter1 w') = health (fighter1 w) ->
  health (fighter2 w') = health (fighter2 w) ->
  0 <= health (fighter1 w) -> 0 <= health (fighter2 w) -> declining w w'.
Proof. intros E1 E2 H1 H2. unfold declining. rewrite E1, E2. repeat split; lra. Qed.

Lemma blow_declines (h : Q) : 0 <= h -> 0 <= Math_max 0 (h - 10) <= h.
Proof.
  intros Hh. split; [apply Math_max_ge_l|]. apply Math_max_le; lra.
Qed.

(** What the update of a fighter does to the two healths. *)
Lemma updateFighter_healths (keys : gmap string bool) (who : Side) (dt : Q) (w : World) :
  let w' := updateFighter keys who dt w in
  health (getFighter who w') = health (getFighter who w) /\
  (health (getFighter (other who) w') = health (getFighter (other who) w) \/
   health (getFighter (other who) w') =
     Math_max 0 (health (getFighter (other who) w) - 10)).
Proof.
  cbv zeta. rewrite updateFighter_unfold. cbv zeta.
  destruct (striking_fields keys dt (getFighter (other who) w) (getFighter who w))
    as (Hs & _).
  destruct (engaged_fields keys dt (getFighter (other who) w) (getFighter who w))
    as (He & _).
  destruct (resetLimb_fields (engaged keys dt (getFighter (other who) w)
                                      (getFighter who w))) as (Hr & _).
  cbv zeta in Hs, He, Hr.
  branches.
  - split; [reflexivity | left; reflexivity].
  - destruct (registerHit_effect who
                (striking keys dt (getFighter (other who) w) (getFighter who w)) w)
      as (_ & Ho & Hw).
    cbv zeta in Ho, Hw. rewrite Ho, Hw. split; [exact Hs | right; reflexivity].
  - rewrite get_put_same, get_put_other. split; [exact Hs | left; reflexivity].
  - rewrite get_put_same, get_put_other. split; [congruence | left; reflexivity].
Qed.

Lemma declining_updateFighter (keys : gmap string bool) (who : Side) (dt : Q) (w : World) :
  0 <= health (fighter1 w) -> 0 <= health (fighter2 w) ->
  declining w (updateFighter keys who dt w).
Proof.
  intros H1 H2. destruct (updateFighter_healths keys who dt w) as [Hown Hopp].
  cbv zeta in Hown, Hopp. unfold declining.
  pose proof (blow_declines _ H1) as B1. pose proof (blow_declines _ H2) as B2.
  destruct who; cbn [getFighter other] in Hown, Hopp; rewrite Hown;
    destruct Hopp as [E|E]; rewrite E; repeat split; lra.
Qed.

Lemma declining_coolDown (dt : Q) (w : World) :
  0 <= health (fighter1 w) -> 0 <= health (fighter2 w) -> declining w (coolDown dt w).
Proof.
  apply declining_same; unfold coolDown; cbv zeta; branches; reflexivity.
Qed.

Lemma declining_lightningKey (keys : gmap string bool) (w : World) :
  0 <= health (fighter1 w) -> 0 <= health (fighter2 w) ->
  declining w (lightningKey keys w).
Proof.
  intros H1 H2. pose proof (blow_declines _ H2) as B2.
  unfold lightningKey, shootLightning, declining. cbv zeta.
  branches; cbn; repeat split; lra.
Qed.

Lemma declining_fireballKey (keys : gmap string bool) (w : World) :
  0 <= health (fighter1 w) -> 0 <= health (fighter2 w) ->
  declining w (fireballKey keys w).
Proof.
  apply declining_same; unfold fireballKey, shootFireball; cbv zeta; branches;
    reflexivity.
Qed.

Lemma declining_updateProjectile (dt : Q) (p : Projectile) (w : World) :
  0 <= health (fighter1 w) -> 0 <= health (fighter2 w) ->
  declining w (snd (updateProjectile dt p w)).
Proof.
  intros H1 H2. pose proof (blow_declines _ H1) as B1.
  unfold updateProjectile, declining. cbv zeta.
  branches; cbn; repeat split; lra.
Qed.

Lemma declining_updateProjectiles (dt : Q) (ps : list Projectile) (w : World) :
  0 <= health (fighter1 w) -> 0 <= health (fighter2 w) ->
  declining w (snd (updateProjectiles dt ps w)).
Proof.
  intros H1 H2. induction ps as [|p ps IH]; [apply declining_refl; assumption|].
  simpl. destruct (updateProjectiles dt ps w) as [rest w1]. simpl in IH.
  assert (Hp : declining w1 (snd (updateProjectile dt p w1))).
  { apply declining_updateProjectile; apply IH. }
  pose proof (declining_trans _ _ _ IH Hp) as Ht.
  destruct (updateProjectile dt p w1) as [[p'|] w2]; exact Ht.
Qed.

Lemma declining_animate (keys : gmap string bool) (current : Q) (w : World) :
  0 <= health (fighter1 w) -> 0 <= health (fighter2 w) ->
  declining w (animate keys current w).
Proof.
  intros H1 H2. unfold animate. cbv zeta.
  change (gameStarted (set_prevTime current w)) with (gameStarted w).
  assert (H0 : declining w (set_prevTime current w))
    by (apply declining_same; [reflexivity | reflexivity | assumption | assumption]).
  destruct (gameStarted w); [|exact H0].
  set (dt := (current - prevTime w) / 1000).
  set (w0 := set_prevTime current w) in *.
  set (w1 := if negb (gameOver w0)
             then updateFighter keys F2 dt (updateFighter keys F1 dt w0) else w0).
  assert (Ha : declining w w1).
  { unfold w1. destruct (negb (gameOver w0)); [|exact H0].
    assert (Hf : declining w0 (updateFighter keys F1 dt w0))
      by (apply declining_updateFighter; apply H0).
    eapply declining_trans; [exact H0|]. eapply declining_trans; [exact Hf|].
    apply declining_updateFighter; apply Hf. }
  clearbody w1. clear H0.
  assert (Hb : declining w (coolDown dt w1)).
  { eapply declining_trans; [exact Ha|]. apply declining_coolDown; apply Ha. }
  set (w2 := coolDown dt w1) in *. clearbody w2. clear Ha.
  assert (Hc : declining w (lightningKey keys w2)).
  { eapply declining_trans; [exact Hb|]. apply declining_lightningKey; apply Hb. }
  set (w3 := lightningKey keys w2) in *. clearbody w3. clear Hb.
  assert (Hd : declining w (fireballKey keys w3)).
  { eapply declining_trans; [exact Hc|]. apply declining_fireballKey; apply Hc. }
  set (w4 := fireballKey keys w3) in *. clearbody w4. clear Hc.
  assert (He : declining w (snd (updateProjectiles dt (projectiles w4) w4))).
  { eapply declining_trans; [exact Hd|]. apply declining_updateProjectiles; apply Hd. }
  destruct (updateProjectiles dt (projectiles w4) w4) as [ps w5]. exact He.
Qed.

(** Property X2.  However a session goes on, no fighter gains health: neither health
    rises, and neither falls below zero. *)
Theorem health_never_rises (events : list Event) (w : World) :
  0 <= health (fighter1 w) -> 0 <= health (fighter2 w) ->
  declining w (run step events w).
Proof.
  revert w. induction events as [|e events IH]; intros w H1 H2;
    [apply declining_refl; assumption|].
  simpl. fold (run step events (step e w)).
  assert (Hs : declining w (step e w)).
  { destruct e as [|keys current];
      [apply declining_same; [reflexivity | reflexivity | assumption | assumption]|].
    apply declining_animate; assumption. }
  eapply declining_trans; [exact Hs|]. apply IH; apply Hs.
Qed.

End BaseDecline.

(** ** The base variant: once the game is over *)

Section BaseOver.

Import THREE Base Play.
Context `{Platform}.

#[local] Arguments getObjectByName : simpl never.

Lemma still_trans (w1 w2 w3 : World) : still w1 w2 -> still w2 w3 -> still w1 w3.
Proof.
  unfold still, frozen.
  intros (_ & (A2 & A1) & A3 & A4 & A5 & A6 & A7 & A8 & A9)
         (B0 & (B2 & B1) & B3 & B4 & B5 & B6 & B7 & B8 & B9).
  split; [exact B0|]. split; [split; [congruence|]|].
  - etransitivity; [exact B1|]. rewrite A1. reflexivity.
  - repeat split; congruence.
Qed.

Lemma still_updateProjectile (dt : Q) (p : Projectile) (w : World) :
  gameOver w = true -> still w (snd (updateProjectile dt p w)).
Proof.
  intros Ho. unfold updateProjectile, still, frozen. cbv zeta.
  destruct w as [f1 f2 gs go pt lc xp fc up ps b1 b2 lg]. simpl in Ho. subst go.
  destruct f1 as [g fc1 h ia tm limb ty c].
  branches;
    try match goal with
        | E : (_ && _) = true |- _ =>
            apply andb_true_iff in E as [_ E]; simpl in E; discriminate E
        end;
    cbn; repeat split.
Qed.

Lemma still_updateProjectiles (dt : Q) (ps : list Projectile) (w : World) :
  gameOver w = true ->
  still w (snd (updateProjectiles dt ps w)) /\
  (List.length (fst (updateProjectiles dt ps w)) <= List.length ps)%nat.
Proof.
  intros Ho. induction ps as [|p ps [IH IHl]].
  - split; [|simpl; lia]. unfold still, frozen. simpl.
    destruct w as [f1 f2 gs go pt lc xp fc up ps b1 b2 lg]. simpl in Ho. subst go.
    destruct f1 as [g fc1 h ia tm limb ty c]. repeat split.
  - simpl. destruct (updateProjectiles dt ps w) as [rest w1]. simpl in IH, IHl.
    pose proof (still_updateProjectile dt p w1 (proj1 IH)) as Hp.
    pose proof (still_trans _ _ _ IH Hp) as Ht.
    destruct (updateProjectile dt p w1) as [[p'|] w2]; simpl in *;
      (split; [exact Ht | lia]).
Qed.

(** Property X3.  A frame after the end of the game: the game stays over, no fighter
    moves, turns, attacks or shoots, [endGame] is not called again, and no
    fireball is added; all that can still change is the boy's health,
    through a fireball that was in flight. *)
Theorem game_over_is_final (keys : gmap string bool) (current : Q) (w : World) :
  gameOver w = true ->
  let w' := animate keys current w in
  gameOver w' = true /\ frozen w w' /\ endings w' = endings w /\
  lightningShots w' = lightningShots w /\ fireballShots w' = fireballShots w /\
  (List.length (projectiles w') <= List.length (projectiles w))%nat.
Proof.
  intros Ho. cbv zeta. unfold animate. cbv zeta.
  change (gameStarted (set_prevTime current w)) with (gameStarted w).
  change (gameOver (set_prevTime current w)) with (gameOver w).
  rewrite Ho. cbn [negb].
  assert (Hf : frozen w w).
  { unfold frozen. destruct w as [f1 f2 gs go pt lc xp fc up ps b1 b2 lg].
    destruct f1 as [g fc1 h ia tm limb ty c]. split; reflexivity. }
  destruct (gameStarted w).
  2:{ split; [exact Ho|]. split; [exact Hf|]. repeat split. simpl. lia. }
  set (dt := (current - prevTime w) / 1000).
  set (w0 := set_prevTime current w).
  assert (H2 : gameOver (coolDown dt w0) = true /\ fighter1 (coolDown dt w0) = fighter1 w /\
               fighter2 (coolDown dt w0) = fighter2 w /\ log (coolDown dt w0) = log w /\
               projectiles (coolDown dt w0) = projectiles w).
  { unfold coolDown. cbv zeta. branches; repeat split; exact Ho. }
  set (w2 := coolDown dt w0) in *. clearbody w2.
  destruct H2 as (G2 & F12 & F22 & L2 & P2).
  assert (H3 : lightningKey keys w2 = w2)
    by (unfold lightningKey; rewrite G2; reflexivity).
  rewrite H3.
  assert (H4 : fireballKey keys w2 = w2)
    by (unfold fireballKey; rewrite G2; reflexivity).
  rewrite H4.
  destruct (still_updateProjectiles dt (projectiles w2) w2 G2) as [Hs Hl].
  destruct (updateProjectiles dt (projectiles w2) w2) as [ps w5].
  simpl in Hs, Hl. cbn [projectiles set_projectiles gameOver fighter1 fighter2 log].
  destruct Hs as (S0 & (S2 & S1) & S3 & S4 & S5 & _).
  split; [exact S0|]. split.
  { unfold frozen. cbn. split; [congruence|]. rewrite S1, F12. reflexivity. }
  unfold endings, lightningShots, fireballShots in *. cbn [log set_projectiles].
  rewrite <- L2. split; [exact S3|]. split; [exact S4|]. split; [exact S5|].
  rewrite <- P2. exact Hl.
Qed.

End BaseOver.

(** ** The base variant: the fireballs in flight *)

Section BaseFireballs.

Import THREE Base Play.
Context `{Platform}.

#[local] Arguments getObjectByName : simpl never.

Lemma staggered_weaken (b b' : Q) (ps : list Projectile) :
  b <= b' -> staggered b ps -> staggered b' ps.
Proof.
  intros Hb. induction ps as [|p ps IH]; [exact id|].
  simpl. intros (H0 & H1 & H3).
  split; [exact H0|]. split; [lra | exact (IH H3)].
Qed.

(** A new fireball counts as one more younger fireball for each of the
    others. *)
Lemma staggered_snoc (b : Q) (ps : list Projectile) (q : Projectile) :
  staggered b ps -> 0 < lifetime q -> lifetime q <= b + 1 ->
  staggered (b + 1) (ps ++ [q]).
Proof.
  intros Hs H0 H1. induction ps as [|p ps IH]; simpl.
  - split; [exact H0|]. split; [|exact I]. change (ofNat 0) with 0. lra.
  - destruct Hs as (P0 & P1 & P3).
    split; [exact P0|]. split; [|exact (IH P3)].
    rewrite length_app. simpl List.length. rewrite Nat.add_1_r, ofNat_S. lra.
Qed.

(** Three fireballs do not fit into a second and a half. *)
Lemma staggered_length (b : Q) (ps : list Projectile) :
  b <= 1.5 -> staggered b ps -> (List.length ps <= 2)%nat.
Proof.
  intros Hb Hs.
  destruct ps as [|p1 [|p2 [|p3 ps]]]; simpl; try lia.
  exfalso. simpl in Hs. destruct Hs as (A0 & A1 & _).
  pose proof (ofNat_le 2 (S (S (List.length ps))) ltac:(lia)) as Hn.
  change (ofNat 2) with 2 in Hn. lra.
Qed.

(** The fireballs that a frame keeps have [dt] less to live, and still
    time left. *)
Lemma updateProjectile_aged (dt : Q) (p p' : Projectile) (w : World) :
  fst (updateProjectile dt p w) = Some p' ->
  lifetime p' = lifetime p - dt /\ 0 < lifetime p'.
Proof.
  unfold updateProjectile. cbv zeta. cbn [lifetime].
  destruct (Qle_bool (lifetime p - dt) 0) eqn:E; [discriminate|].
  apply Qle_bool_false in E.
  match goal with |- context [if ?b then _ else _] => destruct b end; [discriminate|].
  cbn [fst]. intros [= <-]. split; [reflexivity | exact E].
Qed.

Lemma updateProjectiles_length (dt : Q) (ps : list Projectile) (w : World) :
  (List.length (fst (updateProjectiles dt ps w)) <= List.length ps)%nat.
Proof.
  induction ps as [|p ps IH]; [simpl; lia|].
  simpl. destruct (updateProjectiles dt ps w) as [rest w1]. simpl in IH.
  destruct (updateProjectile dt p w1) as [[p'|] w2]; simpl; lia.
Qed.

Lemma staggered_aged (b dt : Q) (ps : list Projectile) (w : World) :
  staggered b ps -> staggered (b - dt) (fst (updateProjectiles dt ps w)).
Proof.
  induction ps as [|p ps IH]; [intros _; exact I|].
  simpl. intros (P0 & P1 & P3). specialize (IH P3).
  pose proof (updateProjectiles_length dt ps w) as Hlen.
  destruct (updateProjectiles dt ps w) as [rest w1]. simpl in IH, Hlen.
  pose proof (fun p' => updateProjectile_aged dt p p' w1) as Hp.
  destruct (updateProjectile dt p w1) as [[p'|] w2]; simpl; [|exact IH].
  destruct (Hp p' eq_refl) as [El Hpos].
  split; [exact Hpos|]. split; [|exact IH].
  pose proof (ofNat_le _ _ Hlen) as Hn. rewrite El. lra.
Qed.

(** What a frame does to the cooldown of the fireball and to the
    fireballs in flight. *)
Lemma staggered_animate (keys : gmap string bool) (current : Q) (w : World) :
  prevTime w <= current ->
  fireballCooldown w <= 1 ->
  staggered (0.5 + Qmax (fireballCooldown w) 0) (projectiles w) ->
  let w' := animate keys current w in
  prevTime w' = current /\
  fireballCooldown w' <= 1 /\
  staggered (0.5 + Qmax (fireballCooldown w') 0) (projectiles w').
Proof.
  intros Ht Hc Hs. cbv zeta. unfold animate. cbv zeta.
  change (gameStarted (set_prevTime current w)) with (gameStarted w).
  destruct (gameStarted w); [|split; [reflexivity | split; [exact Hc | exact Hs]]].
  set (dt := (current - prevTime w) / 1000).
  assert (Hdt : 0 <= dt).
  { unfold dt, Qdiv. apply Qmult_le_0_compat; [lra | discriminate]. }
  set (w0 := set_prevTime current w).
  set (w1 := if negb (gameOver w0)
             then updateFighter keys F2 dt (updateFighter keys F1 dt w0) else w0).
  assert (H1 : fireballCooldown w1 = fireballCooldown w /\
               projectiles w1 = projectiles w /\ prevTime w1 = current).
  { unfold w1. destruct (negb (gameOver w0)); [|repeat split].
    destruct (updateFighter_views keys F1 dt w0) as (_ & A & _ & Ap & _).
    destruct (updateFighter_views keys F2 dt (updateFighter keys F1 dt w0))
      as (_ & B & _ & Bp & _).
    cbv zeta in A, B, Ap, Bp.
    rewrite A in B. unfold fireballView in B. injection B as B1 B2 _ _.
    split; [exact B2|]. split; [rewrite Bp, Ap; reflexivity | exact B1]. }
  clearbody w1. clear w0. destruct H1 as (C1 & P1 & T1).
  destruct (coolDown_views dt w1) as (T2 & _ & _ & _ & _ & _ & C2).
  assert (P2 : projectiles (coolDown dt w1) = projectiles w)
    by (rewrite <- P1; unfold coolDown; cbv zeta; branches; reflexivity).
  cbv zeta in C2, T2. rewrite C1 in C2. rewrite T1 in T2.
  set (w2 := coolDown dt w1) in *. clearbody w2. clear C1 P1 T1 w1.
  assert (H3 : fireballCooldown (lightningKey keys w2) = fireballCooldown w2 /\
               projectiles (lightningKey keys w2) = projectiles w2 /\
               prevTime (lightningKey keys w2) = prevTime w2)
    by (unfold lightningKey, shootLightning; cbv zeta; branches; repeat split).
  destruct H3 as (C3 & P3 & T3). rewrite P2 in P3. rewrite T2 in T3.
  set (w3 := lightningKey keys w2) in *. clearbody w3.
  assert (H4 : prevTime (fireballKey keys w3) = prevTime w3 /\
               ((fireballCooldown (fireballKey keys w3) = fireballCooldown w3 /\
                 projectiles (fireballKey keys w3) = projectiles w3) \/
                (fireballCooldown w3 <= 0 /\
                 fireballCooldown (fireballKey keys w3) = 1 /\
                 exists q, lifetime q = 1.5 /\
                           projectiles (fireballKey keys w3) = projectiles w3 ++ [q]))).
  { unfold fireballKey. cbv zeta.
    destruct (negb (gameOver w3) && Qgtb (health (fighter2 w3)) 0);
      [|split; [reflexivity | left; split; reflexivity]].
    destruct (truthy keys "KeyU" && negb (uPressedPrev w3)
              && Qle_bool (fireballCooldown w3) 0) eqn:E;
      [|split; [reflexivity | left; split; reflexivity]].
    split; [reflexivity|].
    right. apply andb_true_iff in E as [_ E]. apply Qle_bool_true in E.
    split; [exact E|]. split; [reflexivity|].
    unfold shootFireball. cbv zeta. eexists. split; [|reflexivity]. reflexivity. }
  destruct H4 as [T4 H4]. rewrite P3, C3 in H4. rewrite T3 in T4.
  set (w4 := fireballKey keys w3) in *. clearbody w4. clear C3 P3 T3 w3.
  destruct (updateProjectiles_views dt (projectiles w4) w4) as (_ & V).
  pose proof (fun b => staggered_aged b dt (projectiles w4) w4) as Haged.
  destruct (updateProjectiles dt (projectiles w4) w4) as [ps w5].
  cbv zeta in V. simpl in V, Haged.
  unfold fireballView in V. injection V as V1 V2 _ _.
  cbn [fireballCooldown projectiles set_projectiles prevTime]. rewrite V1, V2.
  split; [exact T4|].
  pose proof (Q.le_max_l (fireballCooldown w) 0) as Ml.
  pose proof (Q.le_max_r (fireballCooldown w) 0) as Mr.
  assert (Mu : Qmax (fireballCooldown w) 0 <= 1) by (apply Q.max_lub; lra).
  destruct H4 as [[C4 P4]|(C3 & C4 & q & Lq & P4)]; rewrite C4.
  - (* no fireball is shot *)
    rewrite P4 in Haged.
    destruct C2 as [[C2 E2]|[C2 E2]]; rewrite E2.
    + split; [exact Hc|].
      assert (M0 : Qmax (fireballCooldown w) 0 <= 0) by (apply Q.max_lub; lra).
      eapply staggered_weaken; [|apply Haged, Hs]. lra.
    + split; [lra|].
      assert (M0 : Qmax (fireballCooldown w) 0 <= fireballCooldown w)
        by (apply Q.max_lub; lra).
      pose proof (Q.le_max_l (fireballCooldown w - dt) 0) as Nl.
      eapply staggered_weaken; [|apply Haged, Hs]. lra.
  - (* a fireball is shot *)
    rewrite P4 in Haged.
    split; [lra|].
    pose proof (Q.le_max_l 1 0) as Nl.
    assert (M0 : Qmax (fireballCooldown w) 0 <= dt).
    { apply Q.max_lub; [|exact Hdt].
      destruct C2 as [[C2 E2]|[C2 E2]]; rewrite E2 in C3; lra. }
    eapply staggered_weaken; [|apply (Haged (0.5 + dt + 1))].
    + lra.
    + apply staggered_snoc.
      * eapply staggered_weaken; [|exact Hs]. lra.
      * rewrite Lq. reflexivity.
      * rewrite Lq. lra.
Qed.

(** Property X4.  With a clock that never goes back, however a session goes, at most
    two fireballs are in flight at any time. *)
Theorem two_fireballs_at_most (t0 : Q) (events : list Event) :
  monotone t0 (clockReadings events) ->
  (List.length (projectiles (run step events (initial t0))) <= 2)%nat.
Proof.
  intros Hm.
  assert (Hinv : forall evs w,
            monotone (prevTime w) (clockReadings evs) ->
            fireballCooldown w <= 1 ->
            staggered (0.5 + Qmax (fireballCooldown w) 0) (projectiles w) ->
            fireballCooldown (run step evs w) <= 1 /\
            staggered (0.5 + Qmax (fireballCooldown (run step evs w)) 0)
                      (projectiles (run step evs w))).
  { induction evs as [|e evs IH]; intros w Hmw Hc Hs; [split; assumption|].
    simpl. fold (run step evs (step e w)).
    destruct e as [|keys current]; simpl in Hmw |- *.
    - apply IH; assumption.
    - destruct Hmw as [Hle Hmw].
      destruct (staggered_animate keys current w Hle Hc Hs) as (T & C & S).
      cbv zeta in T, C, S. apply IH; [rewrite T; exact Hmw | exact C | exact S]. }
  destruct (Hinv events (initial t0) Hm) as [Hc Hs];
    [simpl; lra | exact I |].
  eapply staggered_length; [|exact Hs].
  assert (Mu : Qmax (fireballCooldown (run step events (initial t0))) 0 <= 1)
    by (apply Q.max_lub; lra).
  lra.
Qed.

End BaseFireballs.

(** Ten lightnings end the game; the frame after that changes nothing. *)
Lemma game_over_is_final_witness :
  let w := run (Play.step (H := Characters.testPlatform)) Sessions.tenLightnings
               (Base.initial 0) in
  let w' := Base.animate (H := Characters.testPlatform) {[ "KeyD" := true ]} 11000 w in
  Base.gameOver w = true /\ Play.endings w = ["Boy wins!"] /\
  Base.gameOver w' = true /\ Play.frozen w w' /\ Play.endings w' = Play.endings w.
Proof.
  cbv zeta.
  set (w := run (Play.step (H := Characters.testPlatform)) Sessions.tenLightnings
                (Base.initial 0)).
  assert (Ho : Base.gameOver w = true) by (vm_compute; reflexivity).
  split; [exact Ho|]. split; [vm_compute; reflexivity|].
  destruct (game_over_is_final (H := Characters.testPlatform) {[ "KeyD" := true ]}
              11000 w Ho) as (A & B & C & _).
  split; [exact A|]. split; [exact B | exact C].
Defined.

(** From the start of the fight neither health rises in a session with
    ten lightnings. *)
Lemma health_never_rises_witness :
  let w := Base.initial 0 in
  0 <= Base.health (Base.fighter1 w) /\ 0 <= Base.health (Base.fighter2 w) /\
  Play.declining w
    (run (Play.step (H := Characters.testPlatform)) Sessions.tenLightnings w).
Proof.
  cbv zeta.
  assert (H1 : 0 <= Base.health (Base.fighter1 (Base.initial 0))) by discriminate.
  assert (H2 : 0 <= Base.health (Base.fighter2 (Base.initial 0))) by discriminate.
  split; [exact H1|]. split; [exact H2|].
  exact (health_never_rises (H := Characters.testPlatform) Sessions.tenLightnings
                            (Base.initial 0) H1 H2).
Defined.

(** Two fireballs shot as fast as the cooldown allows are in flight
    together; there are never more. *)
Lemma two_fireballs_at_most_witness :
  let w := run (Play.step (H := Characters.testPlatform)) Sessions.twoFireballs
               (Base.initial 0) in
  monotone 0 (Play.clockReadings Sessions.twoFireballs) /\
  (List.length (Base.projectiles w) <= 2)%nat /\
  List.length (Base.projectiles w) = 2%nat.
Proof.
  cbv zeta.
  assert (Hm : monotone 0 (Play.clockReadings Sessions.twoFireballs))
    by (simpl; repeat split; discriminate).
  split; [exact Hm|].
  split; [exact (two_fireballs_at_most (H := Characters.testPlatform) 0
                   Sessions.twoFireballs Hm)|].
  vm_compute. reflexivity.
Defined.

(** ** The bow: what happens after it has ended *)

Section BowAfter.

Import THREE Bow.
Context `{Platform}.

#[local] Arguments getObjectByName : simpl never.

(** Property X5.  [bowAnim] asks for the next frame before it looks at the time, also
    once the bow has ended, and then calls the callback anew: from the
    73rd frame on every frame calls it once more, and the clock of the bow
    stands still. *)
Theorem bow_callback_repeats (s0 : Stage) (n : nat) :
  (72 <= n)%nat ->
  exists (c c' : Closure) (s s' : Stage),
    frames n (bowFighters s0, s0) = Ok (c, s) /\
    frames (S n) (bowFighters s0, s0) = Ok (c', s') /\
    callbacks s = (callbacks s0 + (n - 72))%nat /\
    callbacks s' = S (callbacks s) /\
    gameStarted s' = true /\
    t c' == t c.
Proof.
  intros Hn.
  destruct (frames_run s0 n) as (c & s & Hf & _ & _ & _ & _ & Ht & Hc & _).
  destruct (frames_run s0 (S n)) as (c' & s' & Hf' & _ & _ & _ & _ & Ht' & Hc' & _ & Hg & _).
  exists c, c', s, s'.
  split; [exact Hf|]. split; [exact Hf'|]. split; [exact Hc|].
  split; [lia|]. split; [apply Hg; lia|].
  rewrite Ht, Ht'. rewrite !Nat.min_r by lia. reflexivity.
Qed.

End BowAfter.

(** The demo's two fighters: the 80th frame calls the callback for the
    eighth time. *)
Lemma bow_callback_repeats_witness :
  exists (s s' : Bow.Stage) (c c' : Bow.Closure),
    Bow.frames (H := Characters.testPlatform) 79
               (Bow.bowFighters Samples.fighters, Samples.fighters) = Bow.Ok (c, s) /\
    Bow.frames (H := Characters.testPlatform) 80
               (Bow.bowFighters Samples.fighters, Samples.fighters) = Bow.Ok (c', s') /\
    Bow.callbacks s = 7%nat /\ Bow.callbacks s' = 8%nat.
Proof.
  assert (Hn : (72 <= 79)%nat) by lia.
  destruct (bow_callback_repeats (H := Characters.testPlatform) Samples.fighters 79 Hn)
    as (c & c' & s & s' & Hf & Hf' & Hc & Hc' & _).
  exists s, s', c, c'.
  split; [exact Hf|]. split; [exact Hf'|]. split; [exact Hc|].
  rewrite Hc', Hc. reflexivity.
Defined.

(** ** The variant with blocking: the force field *)

(** *** What the update of a fighter writes *)

Section ShieldWrites.

Import THREE Shield.
Context `{Platform}.

#[local] Arguments getObjectByName : simpl never.

(** A view of a fighter that does not look at the fields that the update
    of the fighter writes. *)
Variable A : Type.
Variable view : Fighter -> A.
Hypothesis view_group : forall v f, view (set_group v f) = view f.
Hypothesis view_facing : forall v f, view (set_facing v f) = view f.
Hypothesis view_blockTimer : forall v f, view (set_blockTimer v f) = view f.
Hypothesis view_isBlocking : forall v f, view (set_isBlocking v f) = view f.
Hypothesis view_isAttacking : forall v f, view (set_isAttacking v f) = view f.
Hypothesis view_attackTimer : forall v f, view (set_attackTimer v f) = view f.
Hypothesis view_attackType : forall v f, view (set_attackType v f) = view f.
Hypothesis view_attackLimb : forall v f, view (set_attackLimb v f) = view f.

Lemma engaged_view (keys : gmap string bool) (dt : Q) (o f : Fighter) :
  view (engaged keys dt o f) = view f.
Proof.
  unfold engaged.
  assert (Hs : forall g, view (startAttack keys g) = view g).
  { intros g. unfold startAttack. repeat case_match;
      rewrite ?view_attackLimb, ?view_attackType, ?view_attackTimer, ?view_isAttacking;
      reflexivity. }
  assert (Hb : forall g, view (blocking keys dt g) = view g).
  { intros g. unfold blocking. cbv zeta. rewrite view_isBlocking.
    repeat case_match; rewrite ?view_blockTimer; reflexivity. }
  assert (Hm : forall g, view (movement keys dt g) = view g).
  { intros g. unfold movement. cbv zeta.
    repeat case_match; rewrite ?view_group; reflexivity. }
  rewrite Hs, Hb, Hm. unfold faceOpponent. cbv zeta.
  rewrite view_group, view_facing. reflexivity.
Qed.

Lemma striking_view (keys : gmap string bool) (dt : Q) (o f : Fighter) :
  view (striking keys dt o f) = view f.
Proof.
  unfold striking. rewrite <- (engaged_view keys dt o f).
  generalize (engaged keys dt o f). intros e.
  unfold animateLimb. repeat case_match; rewrite ?view_group;
    unfold tickAttack; cbv zeta; repeat case_match;
    rewrite ?view_attackType, ?view_isAttacking, ?view_attackTimer; reflexivity.
Qed.

Lemma resetLimb_view (f : Fighter) : view (resetLimb f) = view f.
Proof. unfold resetLimb. case_match; rewrite ?view_group; reflexivity. Qed.

Lemma animateArms_view (f : Fighter) : view (animateArms f) = view f.
Proof.
  unfold animateArms. cbv zeta. repeat case_match; rewrite ?view_group; reflexivity.
Qed.

(** The update of a fighter shows in the fighter itself through the fields
    it writes only. *)
Lemma updateFighter_view (keys : gmap string bool) (who : Side) (dt : Q) (w : World) :
  view (getFighter who (updateFighter keys who dt w)) = view (getFighter who w).
Proof.
  rewrite shield_updateFighter_unfold. cbv zeta.
  destruct (gameOver w || Qle_bool (health (getFighter who w)) 0); [reflexivity|].
  rewrite shield_get_put_same, animateArms_view.
  set (o := getFighter (other who) w). set (f := getFighter who w).
  destruct (isAttacking (engaged keys dt o f)).
  - destruct (boxesOverlap (striking keys dt o f) o && exposed o).
    + destruct (shield_registerHit_effect who (striking keys dt o f) w) as (_ & _ & E).
      cbv zeta in E. rewrite E, view_isAttacking. apply striking_view.
    + rewrite shield_get_put_same. apply striking_view.
  - rewrite shield_get_put_same, resetLimb_view. apply engaged_view.
Qed.

End ShieldWrites.

Section ShieldField.

Import THREE Shield Guard.
Context `{Platform}.

#[local] Arguments getObjectByName : simpl never.


(** The opponent comes out of the update as it went in, or with a hit. *)
Lemma updateFighter_opponent (keys : gmap string bool) (who : Side) (dt : Q)
      (w : World) :
  let o := getFighter (other who) w in
  let o' := getFighter (other who) (updateFighter keys who dt w) in
  o' = o \/
  (exposed o = true /\ o' = set_health (Math_max 0 (health o - 10)) o).
Proof.
  cbv zeta. rewrite shield_updateFighter_unfold. cbv zeta.
  destruct (gameOver w || Qle_bool (health (getFighter who w)) 0);
    [left; reflexivity|].
  rewrite shield_get_put_other.
  destruct (isAttacking _).
  - destruct (boxesOverlap _ _ && exposed _) eqn:Hhit.
    + apply andb_true_iff in Hhit as [_ Hx].
      match goal with
      | |- context [registerHit who (putFighter who ?s w)] =>
          destruct (shield_registerHit_effect who s w) as (_ & E & _)
      end.
      cbv zeta in E. right. split; [exact Hx | exact E].
    + left. apply shield_get_put_other.
  - left. apply shield_get_put_other.
Qed.

(** The update of a fighter leaves both force fields alone. *)
Lemma updateFighter_field (keys : gmap string bool) (who : Side) (dt : Q) (w : World) :
  let w' := updateFighter keys who dt w in
  fieldOf (fighter1 w') = fieldOf (fighter1 w) /\ fieldOf (fighter2 w') = fieldOf (fighter2 w).
Proof.
  cbv zeta.
  assert (Hown : fieldOf (getFighter who (updateFighter keys who dt w))
                 = fieldOf (getFighter who w)).
  { apply (updateFighter_view _ fieldOf); reflexivity. }
  assert (Hopp : fieldOf (getFighter (other who) (updateFighter keys who dt w))
                 = fieldOf (getFighter (other who) w)).
  { destruct (updateFighter_opponent keys who dt w) as [E | [_ E]];
      cbv zeta in E; rewrite E; reflexivity. }
  destruct who; cbn in Hown, Hopp; split; assumption.
Qed.





Lemma updateProjectile_field (dt : Q) (p : Projectile) (w : World) :
  let w' := snd (updateProjectile dt p w) in
  fieldOf (fighter1 w') = fieldOf (fighter1 w) /\ fighter2 w' = fighter2 w.
Proof.
  cbv zeta. unfold updateProjectile, updateHealthBars, endGame, emit. cbv zeta.
  repeat case_match; split; reflexivity.
Qed.

Lemma updateProjectiles_field (dt : Q) (ps : list Projectile) (w : World) :
  let w' := snd (updateProjectiles dt ps w) in
  fieldOf (fighter1 w') = fieldOf (fighter1 w) /\ fighter2 w' = fighter2 w.
Proof.
  cbv zeta. induction ps as [|p ps IH]; [split; reflexivity|].
  cbn [updateProjectiles].
  destruct (updateProjectiles dt ps w) as [rest w1]. cbn [snd] in IH.
  pose proof (updateProjectile_field dt p w1) as Hp. cbv zeta in Hp.
  destruct (updateProjectile dt p w1) as [[p'|] w2]; cbn [snd] in *;
    destruct Hp as [A B]; destruct IH as [C D]; rewrite A, B, C, D; split; reflexivity.
Qed.



End ShieldField.

(** ** The variant with blocking: what a force field keeps off *)

Section ShieldProtection.

Import THREE Shield Guard.
Context `{Platform}.

#[local] Arguments getObjectByName : simpl never.

Lemma exposed_active (f : Fighter) : 0 < forceActiveTimer f -> exposed f = false.
Proof.
  intros Hf. unfold exposed. apply andb_false_iff. right.
  apply Qle_bool_false. exact Hf.
Qed.

Lemma exposed_health (f : Fighter) (h : Q) : exposed (set_health h f) = exposed f.
Proof. reflexivity. Qed.

(** The update of a fighter leaves its own health alone, and that of an
    opponent behind a force field. *)
Lemma updateFighter_shielded (keys : gmap string bool) (who who' : Side) (dt : Q)
      (w : World) :
  0 < forceActiveTimer (getFighter who' w) ->
  health (getFighter who' (updateFighter keys who dt w)) = health (getFighter who' w).
Proof.
  intros Hf.
  assert (Hwho : who' = who \/ who' = other who) by (destruct who, who'; cbn; tauto).
  destruct Hwho as [-> | ->].
  - apply (updateFighter_view _ health); reflexivity.
  - destruct (updateFighter_opponent keys who dt w) as [E | [Hx _]]; cbv zeta in *.
    + rewrite E. reflexivity.
    + rewrite (exposed_active _ Hf) in Hx. discriminate Hx.
Qed.

Lemma shootLightning_shielded (w : World) :
  health (fighter1 (shootLightning w)) = health (fighter1 w) /\
  (0 < forceActiveTimer (fighter2 w) ->
   health (fighter2 (shootLightning w)) = health (fighter2 w)).
Proof.
  unfold shootLightning, updateHealthBars, endGame. cbv zeta.
  split.
  - repeat case_match; reflexivity.
  - intros Hf. change (exposed (fighter2 (emit LightningShot w))) with (exposed (fighter2 w)).
    rewrite (exposed_active _ Hf). repeat case_match; reflexivity.
Qed.

Lemma keys_shielded (keys : gmap string bool) (dt : Q) (w : World) :
  let w' := fireballKey keys (lightningKey keys (coolDown dt w)) in
  health (fighter1 w') = health (fighter1 w) /\
  (0 < forceActiveTimer (fighter2 w) -> health (fighter2 w') = health (fighter2 w)).
Proof.
  cbv zeta.
  assert (Hc : fighter1 (coolDown dt w) = fighter1 w /\
               fighter2 (coolDown dt w) = fighter2 w).
  { unfold coolDown. cbv zeta. repeat case_match; split; reflexivity. }
  destruct Hc as [C1 C2]. set (w1 := coolDown dt w) in *. clearbody w1.
  assert (Hl : health (fighter1 (lightningKey keys w1)) = health (fighter1 w1) /\
               (0 < forceActiveTimer (fighter2 w1) ->
                health (fighter2 (lightningKey keys w1)) = health (fighter2 w1))).
  { unfold lightningKey. cbv zeta.
    destruct (negb (gameOver w1) && Qgtb (health (fighter1 w1)) 0);
      [|split; [reflexivity | intros _; reflexivity]].
    destruct (truthy keys "KeyX" && negb (xPressedPrev w1)
              && Qle_bool (lightningCooldown w1) 0).
    - assert (P : forall b c v,
                 fighter1 (set_xPressedPrev b (set_lightningCooldown c v)) = fighter1 v /\
                 fighter2 (set_xPressedPrev b (set_lightningCooldown c v)) = fighter2 v)
        by (intros; split; reflexivity).
      rewrite (proj1 (P _ _ _)), (proj2 (P _ _ _)). apply shootLightning_shielded.
    - split; [reflexivity | intros _; reflexivity]. }
  destruct Hl as [L1 L2]. set (w2 := lightningKey keys w1) in *. clearbody w2.
  assert (Hf : fighter1 (fireballKey keys w2) = fighter1 w2 /\
               fighter2 (fireballKey keys w2) = fighter2 w2).
  { unfold fireballKey, shootFireball, emit. cbv zeta.
    repeat case_match; split; reflexivity. }
  destruct Hf as [F1' F2']. rewrite F1', F2', L1, C1. split; [reflexivity|].
  intros Hf. rewrite L2, C2; [reflexivity | rewrite C2; exact Hf].
Qed.

Lemma updateProjectile_shielded (dt : Q) (p : Projectile) (w : World) :
  0 < forceActiveTimer (fighter1 w) ->
  health (fighter1 (snd (updateProjectile dt p w))) = health (fighter1 w).
Proof.
  intros Hf. unfold updateProjectile, updateHealthBars, endGame, emit. cbv zeta.
  rewrite (exposed_active _ Hf). repeat case_match; reflexivity.
Qed.

Lemma updateProjectiles_shielded (dt : Q) (ps : list Projectile) (w : World) :
  0 < forceActiveTimer (fighter1 w) ->
  health (fighter1 (snd (updateProjectiles dt ps w))) = health (fighter1 w).
Proof.
  intros Hf. induction ps as [|p ps IH]; [reflexivity|].
  cbn [updateProjectiles].
  pose proof (updateProjectiles_field dt ps w) as Hq. cbv zeta in Hq.
  destruct (updateProjectiles dt ps w) as [rest w1]. cbn [snd] in *.
  destruct Hq as [Hq _].
  assert (Hf1 : 0 < forceActiveTimer (fighter1 w1)).
  { unfold fieldOf in Hq. injection Hq as _ -> _. exact Hf. }
  pose proof (updateProjectile_shielded dt p w1 Hf1) as Hp.
  destruct (updateProjectile dt p w1) as [[p'|] w2]; cbn [snd] in *; congruence.
Qed.

(** Property X7.  A frame lowers the health of no fighter behind a force field: neither
    a punch, a kick, the lightning nor a fireball gets through.  The girl
    is safe in every frame that her field is active at its start; the boy
    in every frame that his field outlasts, since the fireballs fly after
    the fields have counted down. *)
Theorem force_field_protects (keys : gmap string bool) (current : Q) (w : World) :
  let w' := animate keys current w in
  (0 < forceActiveTimer (fighter1 w) -> 0 < forceActiveTimer (fighter1 w') ->
   health (fighter1 w') = health (fighter1 w)) /\
  (0 < forceActiveTimer (fighter2 w) -> health (fighter2 w') = health (fighter2 w)).
Proof.
  cbv zeta. unfold animate. cbv zeta.
  set (dt := (current - prevTime w) / 1000).
  set (w0 := set_prevTime current w).
  destruct (gameStarted w0); [|split; reflexivity].
  set (w1 := if negb (gameOver w0)
             then updateFighter keys F2 dt (updateFighter keys F1 dt w0) else w0).
  assert (H1 : forall who, 0 < forceActiveTimer (getFighter who w) ->
                           health (getFighter who w1) = health (getFighter who w)).
  { intros who Hf. unfold w1. destruct (negb (gameOver w0)); [|destruct who; reflexivity].
    rewrite updateFighter_shielded.
    - apply (updateFighter_shielded keys F1 who dt w0). destruct who; exact Hf.
    - destruct (updateFighter_field keys F1 dt w0) as [A B]. unfold fieldOf in A, B.
      destruct who; cbn; [injection A as _ -> _ | injection B as _ -> _]; exact Hf. }
  assert (G1 : fieldOf (fighter1 w1) = fieldOf (fighter1 w) /\
               fieldOf (fighter2 w1) = fieldOf (fighter2 w)).
  { unfold w1. destruct (negb (gameOver w0)); [|split; reflexivity].
    destruct (updateFighter_field keys F1 dt w0) as [A B].
    destruct (updateFighter_field keys F2 dt (updateFighter keys F1 dt w0)) as [C D].
    rewrite C, D, A, B. split; reflexivity. }
  clearbody w1.
  destruct (keys_shielded keys dt w1) as [K1 K2].
  set (w2 := fireballKey keys (lightningKey keys (coolDown dt w1))) in *.
  clearbody w2.
  set (w3 := forceFields keys dt w2).
  assert (H3 : health (fighter1 w3) = health (fighter1 w2) /\
               health (fighter2 w3) = health (fighter2 w2)).
  { unfold w3, forceFields. cbn. split; apply shield_handleForceField_health. }
  clearbody w3.
  pose proof (updateProjectiles_field dt (projectiles w3) w3) as Hq. cbv zeta in Hq.
  pose proof (updateProjectiles_shielded dt (projectiles w3) w3) as Hp.
  destruct (updateProjectiles dt (projectiles w3) w3) as [ps w4]. cbn [snd] in *.
  destruct Hq as [Q1 Q2]. destruct H3 as [A B]. destruct G1 as [G1 G2]. cbn.
  split.
  - intros Hf Hf'. rewrite Hp.
    + rewrite A, K1. exact (H1 F1 Hf).
    + unfold fieldOf in Q1. injection Q1 as _ <- _. exact Hf'.
  - intros Hf. rewrite Q2, B, K2.
    + exact (H1 F2 Hf).
    + unfold fieldOf in G2. injection G2 as _ -> _. exact Hf.
Qed.

End ShieldProtection.

(** Both fields are up after the first frame of [Sessions.bothFields]; in
    the next frame the boy shoots his lightning, and the girl keeps her
    health. *)
Lemma force_field_protects_witness :
  let w := run (Guard.step (H := Characters.testPlatform)) Sessions.bothFields
               (Shield.initial 0) in
  let w' := Shield.animate (H := Characters.testPlatform) Samples.lightningKey 200 w in
  0 < Shield.forceActiveTimer (Shield.fighter1 w) /\
  0 < Shield.forceActiveTimer (Shield.fighter1 w') /\
  0 < Shield.forceActiveTimer (Shield.fighter2 w) /\
  Shield.lightningShots w' = 1%nat /\
  Shield.health (Shield.fighter1 w') = Shield.health (Shield.fighter1 w) /\
  Shield.health (Shield.fighter2 w') = Shield.health (Shield.fighter2 w).
Proof.
  cbv zeta.
  assert (H1 : 0 < Shield.forceActiveTimer
                     (Shield.fighter1
                        (run (Guard.step (H := Characters.testPlatform))
                             Sessions.bothFields (Shield.initial 0))))
    by (vm_compute; reflexivity).
  assert (H2 : 0 < Shield.forceActiveTimer
                     (Shield.fighter1
                        (Shield.animate (H := Characters.testPlatform)
                           Samples.lightningKey 200
                           (run (Guard.step (H := Characters.testPlatform))
                                Sessions.bothFields (Shield.initial 0)))))
    by (vm_compute; reflexivity).
  assert (H3 : 0 < Shield.forceActiveTimer
                     (Shield.fighter2
                        (run (Guard.step (H := Characters.testPlatform))
                             Sessions.bothFields (Shield.initial 0))))
    by (vm_compute; reflexivity).
  destruct (force_field_protects (H := Characters.testPlatform) Samples.lightningKey 200
              (run (Guard.step (H := Characters.testPlatform))
                   Sessions.bothFields (Shield.initial 0))) as [P1 P2].
  split; [exact H1|]. split; [exact H2|]. split; [exact H3|].
  split; [vm_compute; reflexivity|].
  split; [exact (P1 H1 H2) | exact (P2 H3)].
Defined.

(** ** Punches and kicks do not end the game *)

Section MeleeOnly.

Import THREE.
Context `{Platform}.

#[local] Arguments getObjectByName : simpl never.

(** A frame of the base variant without the keys of the lightning and of
    the fireball, no fireball being in flight. *)
Lemma base_frame_melee (i : gmap string bool * Q) (w : Base.World) :
  Base.gameOver w = false -> Base.projectiles w = [] ->
  truthy (fst i) "KeyX" = false -> truthy (fst i) "KeyU" = false ->
  Base.gameOver (Base.frame i w) = false /\ Base.projectiles (Base.frame i w) = [].
Proof.
  intros Hg Hp Hx Hu. destruct i as [keys current]. cbn [fst] in Hx, Hu.
  unfold Base.frame, Base.animate. cbn [fst snd]. cbv zeta.
  set (dt := (current - Base.prevTime w) / 1000).
  set (w0 := Base.set_prevTime current w).
  destruct (Base.gameStarted w0); [|split; assumption].
  change (Base.gameOver w0) with (Base.gameOver w). rewrite Hg. cbn [negb].
  destruct (updateFighter_views keys Base.F1 dt w0) as (_ & _ & G1 & P1 & _).
  destruct (updateFighter_views keys Base.F2 dt (Base.updateFighter keys Base.F1 dt w0))
    as (_ & _ & G2 & P2 & _).
  set (w1 := Base.updateFighter keys Base.F2 dt (Base.updateFighter keys Base.F1 dt w0))
    in *.
  assert (I1 : Base.gameOver w1 = false /\ Base.projectiles w1 = []).
  { rewrite G2, G1, P2, P1. split; assumption. }
  clearbody w1. clear G1 G2 P1 P2.
  assert (I2 : Base.gameOver (Base.coolDown dt w1) = false /\
               Base.projectiles (Base.coolDown dt w1) = []).
  { unfold Base.coolDown. cbv zeta. repeat case_match; exact I1. }
  set (w2 := Base.coolDown dt w1) in *. clearbody w2. clear I1.
  assert (I3 : Base.gameOver (Base.lightningKey keys w2) = false /\
               Base.projectiles (Base.lightningKey keys w2) = []).
  { unfold Base.lightningKey. cbv zeta. rewrite Hx. cbn [andb].
    case_match; exact I2. }
  set (w3 := Base.lightningKey keys w2) in *. clearbody w3. clear I2.
  assert (I4 : Base.gameOver (Base.fireballKey keys w3) = false /\
               Base.projectiles (Base.fireballKey keys w3) = []).
  { unfold Base.fireballKey. cbv zeta. rewrite Hu. cbn [andb].
    case_match; exact I3. }
  set (w4 := Base.fireballKey keys w3) in *. clearbody w4. clear I3.
  destruct I4 as [G4 P4]. rewrite P4. cbn. split; [exact G4 | reflexivity].
Qed.

(** The same frame in the variant with blocking. *)
Lemma shield_frame_melee (i : gmap string bool * Q) (w : Shield.World) :
  Shield.gameOver w = false -> Shield.projectiles w = [] ->
  truthy (fst i) "KeyX" = false -> truthy (fst i) "KeyU" = false ->
  Shield.gameOver (Shield.frame i w) = false /\ Shield.projectiles (Shield.frame i w) = [].
Proof.
  intros Hg Hp Hx Hu. destruct i as [keys current]. cbn [fst] in Hx, Hu.
  unfold Shield.frame, Shield.animate. cbn [fst snd]. cbv zeta.
  set (dt := (current - Shield.prevTime w) / 1000).
  set (w0 := Shield.set_prevTime current w).
  destruct (Shield.gameStarted w0); [|split; assumption].
  change (Shield.gameOver w0) with (Shield.gameOver w). rewrite Hg. cbn [negb].
  destruct (shield_updateFighter_views keys Shield.F1 dt w0) as (_ & _ & G1 & P1 & _).
  destruct (shield_updateFighter_views keys Shield.F2 dt
              (Shield.updateFighter keys Shield.F1 dt w0)) as (_ & _ & G2 & P2 & _).
  set (w1 := Shield.updateFighter keys Shield.F2 dt
               (Shield.updateFighter keys Shield.F1 dt w0)) in *.
  assert (I1 : Shield.gameOver w1 = false /\ Shield.projectiles w1 = []).
  { rewrite G2, G1, P2, P1. split; assumption. }
  clearbody w1. clear G1 G2 P1 P2.
  assert (I2 : Shield.gameOver (Shield.coolDown dt w1) = false /\
               Shield.projectiles (Shield.coolDown dt w1) = []).
  { unfold Shield.coolDown. cbv zeta. repeat case_match; exact I1. }
  set (w2 := Shield.coolDown dt w1) in *. clearbody w2. clear I1.
  assert (I3 : Shield.gameOver (Shield.lightningKey keys w2) = false /\
               Shield.projectiles (Shield.lightningKey keys w2) = []).
  { unfold Shield.lightningKey. cbv zeta. rewrite Hx. cbn [andb].
    case_match; exact I2. }
  set (w3 := Shield.lightningKey keys w2) in *. clearbody w3. clear I2.
  assert (I4 : Shield.gameOver (Shield.fireballKey keys w3) = false /\
               Shield.projectiles (Shield.fireballKey keys w3) = []).
  { unfold Shield.fireballKey. cbv zeta. rewrite Hu. cbn [andb].
    case_match; exact I3. }
  set (w4 := Shield.fireballKey keys w3) in *. clearbody w4. clear I3.
  assert (I5 : Shield.gameOver (Shield.forceFields keys dt w4) = false /\
               Shield.projectiles (Shield.forceFields keys dt w4) = []).
  { exact I4. }
  destruct I5 as [G5 P5]. rewrite P5. cbn. split; [exact G5 | reflexivity].
Qed.

(** Property X18.  Punches and kicks alone never end the game, in neither variant of
    part_000 and part_001: as long as no frame sees the key of the
    lightning or the key of the fireball down, and no fireball was in
    flight to begin with, the game is not over, whatever has become of
    the healths. *)
Theorem melee_never_ends_game :
  (forall (frames : list (gmap string bool * Q)) (w : Base.World),
     Base.gameOver w = false -> Base.projectiles w = [] ->
     Forall (fun i => truthy (fst i) "KeyX" = false /\ truthy (fst i) "KeyU" = false)
            frames ->
     Base.gameOver (run Base.frame frames w) = false) /\
  (forall (frames : list (gmap string bool * Q)) (w : Shield.World),
     Shield.gameOver w = false -> Shield.projectiles w = [] ->
     Forall (fun i => truthy (fst i) "KeyX" = false /\ truthy (fst i) "KeyU" = false)
            frames ->
     Shield.gameOver (run Shield.frame frames w) = false).
Proof.
  split.
  - intros frames. unfold run.
    induction frames as [|i frames IH]; intros w Hg Hp Hk; [exact Hg|].
    apply Forall_cons in Hk as [[Hx Hu] Hk]. cbn [fold_left].
    destruct (base_frame_melee i w Hg Hp Hx Hu) as [Hg' Hp'].
    exact (IH _ Hg' Hp' Hk).
  - intros frames. unfold run.
    induction frames as [|i frames IH]; intros w Hg Hp Hk; [exact Hg|].
    apply Forall_cons in Hk as [[Hx Hu] Hk]. cbn [fold_left].
    destruct (shield_frame_melee i w Hg Hp Hx Hu) as [Hg' Hp'].
    exact (IH _ Hg' Hp' Hk).
Qed.

End MeleeOnly.

(** The fight of [Samples.knockOutRun]: ten punches bring the girl's health
    to 0, and the game goes on without a winner. *)
Lemma melee_never_ends_game_witness :
  let w := run (Base.frame (H := Characters.testPlatform)) Samples.knockOutRun
               Samples.baseStart in
  Base.gameOver Samples.baseStart = false /\ Base.projectiles Samples.baseStart = [] /\
  Base.health (Base.fighter2 w) == 0 /\ Base.gameOver w = false.
Proof.
  cbv zeta.
  assert (Hg : Base.gameOver Samples.baseStart = false) by reflexivity.
  assert (Hp : Base.projectiles Samples.baseStart = []) by reflexivity.
  assert (Hk : Forall (fun i => truthy (fst i) "KeyX" = false /\
                                truthy (fst i) "KeyU" = false) Samples.knockOutRun).
  { apply Forall_forall. intros i Hi. unfold Samples.knockOutRun, Samples.held in Hi.
    rewrite !elem_of_app in Hi.
    destruct Hi as [Hi|[Hi|[Hi|Hi]]];
      apply list_elem_of_fmap in Hi as (k & -> & _); split; reflexivity. }
  split; [exact Hg|]. split; [exact Hp|]. split; [vm_compute; reflexivity|].
  exact (proj1 (melee_never_ends_game (H := Characters.testPlatform))
               Samples.knockOutRun Samples.baseStart Hg Hp Hk).
Defined.

(** ** The variant with blocking: the arms of the block *)

Section NoLeftArm.

Import THREE Shield Guard.
Context `{Platform}.

(** *** Names that a scene graph does not have *)

Lemma firstAmong_None (n : string) (cs : list Object3D) (i : nat) :
  firstAmong n cs i = None <-> Forall (fun c => getObjectByName c n = None) cs.
Proof.
  revert i. induction cs as [|c cs IH]; intros i; simpl.
  - split; [constructor | reflexivity].
  - destruct (getObjectByName c n) as [r|] eqn:Hc.
    + split; [discriminate|]. intros Hall. apply Forall_cons in Hall as [Hc' _].
      congruence.
    + rewrite IH. split; [intros Hall; constructor; assumption|].
      intros Hall. apply Forall_cons in Hall as [_ Hall]. exact Hall.
Qed.

Lemma absent_iff (n : string) (o : Object3D) :
  getObjectByName o n = None <->
  String.eqb (name o) n = false /\
  Forall (fun c => getObjectByName c n = None) (children o).
Proof.
  rewrite getObjectByName_unfold. destruct (String.eqb (name o) n).
  - split; [discriminate | intros [Hf _]; discriminate Hf].
  - rewrite firstAmong_None. tauto.
Qed.

(** A node that keeps its name and its children keeps its names. *)
Lemma absent_same (n : string) (o o' : Object3D) :
  name o' = name o -> children o' = children o ->
  getObjectByName o n = None -> getObjectByName o' n = None.
Proof.
  intros Hn Hc. rewrite !absent_iff, Hn, Hc. exact id.
Qed.

(** A write through a reference that keeps names keeps them below the
    root as well. *)
Lemma absent_updateAt (n : string) (g : Object3D -> Object3D) :
  (forall c, getObjectByName c n = None -> getObjectByName (g c) n = None) ->
  forall (r : Ref) (o : Object3D),
    getObjectByName o n = None -> getObjectByName (updateAt g o r) n = None.
Proof.
  intros Hg. induction r as [|i r IH]; intros o Ho; simpl; [apply Hg, Ho|].
  destruct (children o !! i) as [c|] eqn:Hc; [|exact Ho].
  apply absent_iff in Ho as [Hname Hall]. apply absent_iff. simpl.
  split; [exact Hname|]. apply Forall_insert; [exact Hall|].
  apply IH. rewrite Forall_forall in Hall.
  apply Hall. eapply list_elem_of_lookup_2. exact Hc.
Qed.

Lemma absent_set (n : string) (o : Object3D) :
  getObjectByName o n = None ->
  (forall a, getObjectByName (set_rotation_x a o) n = None) /\
  (forall a, getObjectByName (set_rotation_y a o) n = None) /\
  (forall a, getObjectByName (set_rotation_z a o) n = None) /\
  (forall a, getObjectByName (set_position_x a o) n = None) /\
  (forall v, getObjectByName (set_scale v o) n = None) /\
  (forall a, getObjectByName (set_opacity a o) n = None).
Proof.
  intros Ho. repeat split; intros a; apply (absent_same n o); destruct o; auto.
Qed.

(** *** The fighters *)

Lemma updateFighter_absent (n : string) (keys : gmap string bool) (who who' : Side)
      (dt : Q) (w : World) :
  getObjectByName (group (getFighter who' w)) n = None ->
  getObjectByName (group (getFighter who' (updateFighter keys who dt w))) n = None.
Proof.
  intros Hn.
  assert (Hwho : who' = who \/ who' = other who) by (destruct who, who'; cbn; tauto).
  destruct Hwho as [-> | ->].
  2:{ destruct (updateFighter_opponent keys who dt w) as [E | [_ E]];
        cbv zeta in E; rewrite E; exact Hn. }
  rewrite shield_updateFighter_unfold. cbv zeta.
  destruct (gameOver w || Qle_bool (health (getFighter who w)) 0); [exact Hn|].
  rewrite shield_get_put_same.
  set (o := getFighter (other who) w). set (f := getFighter who w) in *.
  assert (Hrx : forall a c, getObjectByName c n = None ->
                            getObjectByName (set_rotation_x a c) n = None).
  { intros a c Hc. apply (absent_set n c Hc). }
  assert (Hrz : forall a c, getObjectByName c n = None ->
                            getObjectByName (set_rotation_z a c) n = None).
  { intros a c Hc. apply (absent_set n c Hc). }
  assert (He : getObjectByName (group (engaged keys dt o f)) n = None).
  { unfold engaged.
    assert (Hs : forall g, group (startAttack keys g) = group g).
    { intros g. unfold startAttack. repeat case_match; reflexivity. }
    assert (Hb : forall g, group (blocking keys dt g) = group g).
    { intros g. unfold blocking. cbv zeta. repeat case_match; reflexivity. }
    rewrite Hs, Hb. unfold movement, faceOpponent. cbv zeta.
    repeat case_match; cbn [group set_group set_facing];
      repeat first [ exact Hn
                   | apply (absent_set n)
                   | rewrite getObjectByName_set_rotation
                   | rewrite getObjectByName_set_position ]. }
  assert (Hst : getObjectByName (group (striking keys dt o f)) n = None).
  { unfold striking. unfold animateLimb.
    assert (Ht : forall g, group (tickAttack dt g) = group g).
    { intros g. unfold tickAttack. cbv zeta. repeat case_match; reflexivity. }
    repeat case_match; cbn [group set_group]; rewrite ?Ht;
      try exact He; apply absent_updateAt; auto. }
  assert (Hre : getObjectByName (group (resetLimb (engaged keys dt o f))) n = None).
  { unfold resetLimb. case_match; cbn [group set_group]; [|exact He].
    apply absent_updateAt; auto. }
  assert (Harms : forall g, getObjectByName (group g) n = None ->
                            getObjectByName (group (animateArms g)) n = None).
  { intros g Hg. unfold animateArms. cbv zeta.
    repeat case_match; cbn [group set_group];
      repeat first [ exact Hg | apply absent_updateAt; [intros c Hc; auto|] ]. }
  apply Harms.
  destruct (isAttacking (engaged keys dt o f)).
  - destruct (boxesOverlap (striking keys dt o f) o && exposed o).
    + destruct (shield_registerHit_effect who (striking keys dt o f) w) as (_ & _ & E).
      cbv zeta in E. rewrite E. exact Hst.
    + rewrite shield_get_put_same. exact Hst.
  - rewrite shield_get_put_same. exact Hre.
Qed.

Lemma handleForceField_absent (keys : gmap string bool) (f : Fighter) (key : string)
      (prev : bool) (dt : Q) :
  getObjectByName (group f) "leftArm" = None ->
  getObjectByName (group (handleForceField keys f key prev dt)) "leftArm" = None.
Proof.
  intros Hn. unfold handleForceField. cbv zeta.
  assert (Hact : forall g, getObjectByName (group g) "leftArm" = None ->
                           getObjectByName (group (activateField g)) "leftArm" = None).
  { intros g Hg. unfold activateField. cbv zeta. cbn [group set_group set_forceMesh
      set_forceCooldown set_forceActiveTimer].
    apply absent_iff in Hg as [Hname Hall]. apply absent_iff. cbn.
    split; [exact Hname|]. apply Forall_app. split; [exact Hall|].
    constructor; [reflexivity | constructor]. }
  assert (Hcd : forall v g, group (set_forceCooldown v g) = group g) by reflexivity.
  assert (Hat : forall v g, group (set_forceActiveTimer v g) = group g) by reflexivity.
  assert (Hanim : forall g, getObjectByName (group g) "leftArm" = None ->
                            getObjectByName (group (animateField dt g)) "leftArm" = None).
  { intros g Hg. unfold animateField. cbv zeta.
    destruct (forceMesh g) as [m|]; [|exact Hg]. cbn [group set_group].
    repeat (apply absent_updateAt; [intros c Hc; apply (absent_set _ c Hc)|]).
    exact Hg. }
  assert (Hrem : forall g, getObjectByName (group g) "leftArm" = None ->
                           getObjectByName (group (removeField g)) "leftArm" = None).
  { intros g Hg. unfold removeField.
    destruct (forceMesh g) as [[|i l]|]; try exact Hg.
    cbn [group set_group set_forceMesh].
    apply absent_iff in Hg as [Hname Hall]. apply absent_iff. cbn.
    split; [exact Hname|]. apply Forall_delete. exact Hall. }
  set (f1 := if truthy keys key && negb prev && Qle_bool (forceCooldown f) 0
                && Qle_bool (forceActiveTimer f) 0
             then activateField f else f).
  assert (H1 : getObjectByName (group f1) "leftArm" = None).
  { unfold f1. case_match; [apply Hact|]; exact Hn. }
  clearbody f1.
  set (f2 := if Qgtb (forceCooldown f1) 0
             then set_forceCooldown (forceCooldown f1 - dt) f1 else f1).
  assert (H2 : getObjectByName (group f2) "leftArm" = None).
  { unfold f2. case_match; [rewrite Hcd|]; exact H1. }
  clearbody f2.
  destruct (Qgtb (forceActiveTimer f2) 0); [|exact H2].
  case_match; [apply Hrem|]; rewrite Hat; apply Hanim; exact H2.
Qed.

(** The frame loop changes the groups of the fighters in the update of a
    fighter and in the force fields only. *)
Lemma specials_group (keys : gmap string bool) (dt : Q) (w : World) :
  let w' := fireballKey keys (lightningKey keys (coolDown dt w)) in
  group (fighter1 w') = group (fighter1 w) /\ group (fighter2 w') = group (fighter2 w).
Proof.
  cbv zeta.
  assert (Hc : forall v, fighter1 (coolDown dt v) = fighter1 v /\
                         fighter2 (coolDown dt v) = fighter2 v).
  { intros v. unfold coolDown. cbv zeta. repeat case_match; split; reflexivity. }
  assert (Hs : forall v, group (fighter1 (shootLightning v)) = group (fighter1 v) /\
                         group (fighter2 (shootLightning v)) = group (fighter2 v)).
  { intros v. unfold shootLightning, updateHealthBars, endGame, emit. cbv zeta.
    repeat case_match; split; reflexivity. }
  assert (Hl : forall v, group (fighter1 (lightningKey keys v)) = group (fighter1 v) /\
                         group (fighter2 (lightningKey keys v)) = group (fighter2 v)).
  { intros v. unfold lightningKey. cbv zeta.
    destruct (negb (gameOver v) && Qgtb (health (fighter1 v)) 0); [|split; reflexivity].
    destruct (truthy keys "KeyX" && negb (xPressedPrev v)
              && Qle_bool (lightningCooldown v) 0); [|split; reflexivity].
    assert (P : forall b c u,
               fighter1 (set_xPressedPrev b (set_lightningCooldown c u)) = fighter1 u /\
               fighter2 (set_xPressedPrev b (set_lightningCooldown c u)) = fighter2 u)
      by (intros; split; reflexivity).
    rewrite (proj1 (P _ _ _)), (proj2 (P _ _ _)). apply Hs. }
  assert (Hf : forall v, fighter1 (fireballKey keys v) = fighter1 v /\
                         fighter2 (fireballKey keys v) = fighter2 v).
  { intros v. unfold fireballKey, shootFireball, emit. cbv zeta.
    repeat case_match; split; reflexivity. }
  rewrite (proj1 (Hf _)), (proj2 (Hf _)), (proj1 (Hl _)), (proj2 (Hl _)),
    (proj1 (Hc _)), (proj2 (Hc _)).
  split; reflexivity.
Qed.

Lemma updateProjectiles_group (dt : Q) (ps : list Projectile) (w : World) :
  let w' := snd (updateProjectiles dt ps w) in
  group (fighter1 w') = group (fighter1 w) /\ fighter2 w' = fighter2 w.
Proof.
  cbv zeta. induction ps as [|p ps IH]; [split; reflexivity|].
  cbn [updateProjectiles].
  destruct (updateProjectiles dt ps w) as [rest w1]. cbn [snd] in IH.
  assert (Hp : group (fighter1 (snd (updateProjectile dt p w1))) = group (fighter1 w1) /\
               fighter2 (snd (updateProjectile dt p w1)) = fighter2 w1).
  { unfold updateProjectile, updateHealthBars, endGame, emit. cbv zeta.
    repeat case_match; split; reflexivity. }
  destruct (updateProjectile dt p w1) as [[p'|] w2]; cbn [snd] in *;
    destruct Hp as [A B]; destruct IH as [C D]; rewrite A, B, C, D; split; reflexivity.
Qed.

Lemma animate_absent (keys : gmap string bool) (current : Q) (w : World) :
  getObjectByName (group (fighter1 w)) "leftArm" = None /\
  getObjectByName (group (fighter2 w)) "leftArm" = None ->
  getObjectByName (group (fighter1 (animate keys current w))) "leftArm" = None /\
  getObjectByName (group (fighter2 (animate keys current w))) "leftArm" = None.
Proof.
  intros [A1 A2]. unfold animate. cbv zeta.
  set (dt := (current - prevTime w) / 1000).
  set (w0 := set_prevTime current w).
  destruct (gameStarted w0); [|split; assumption].
  set (w1 := if negb (gameOver w0)
             then updateFighter keys F2 dt (updateFighter keys F1 dt w0) else w0).
  assert (H1 : getObjectByName (group (fighter1 w1)) "leftArm" = None /\
               getObjectByName (group (fighter2 w1)) "leftArm" = None).
  { unfold w1. destruct (negb (gameOver w0)); [|split; assumption].
    split.
    - apply (updateFighter_absent "leftArm" keys F2 F1).
      apply (updateFighter_absent "leftArm" keys F1 F1). exact A1.
    - apply (updateFighter_absent "leftArm" keys F2 F2).
      apply (updateFighter_absent "leftArm" keys F1 F2). exact A2. }
  clearbody w1.
  destruct (specials_group keys dt w1) as [S1 S2].
  set (w2 := fireballKey keys (lightningKey keys (coolDown dt w1))) in *.
  clearbody w2. rewrite <- S1, <- S2 in H1. clear S1 S2.
  set (w3 := forceFields keys dt w2).
  assert (H3 : getObjectByName (group (fighter1 w3)) "leftArm" = None /\
               getObjectByName (group (fighter2 w3)) "leftArm" = None).
  { unfold w3, forceFields. cbn. destruct H1 as [B1 B2].
    split; apply handleForceField_absent; assumption. }
  clearbody w3.
  pose proof (updateProjectiles_group dt (projectiles w3) w3) as Hp. cbv zeta in Hp.
  destruct (updateProjectiles dt (projectiles w3) w3) as [ps w4]. cbn [snd] in Hp.
  destruct Hp as [P1 P2]. cbn. rewrite P1, P2. exact H3.
Qed.

(** Property X19.  No character of the variant with blocking has a part named
    [leftArm], and nothing that happens in a game adds one: all along a
    session the lookup of [leftArm] in [updateFighter] finds nothing for
    either fighter, so that the crossed arms of a block are the turn of
    the right arm alone, the one write that is left of the pose. *)
Theorem left_arm_never_found (t0 : Q) (events : list Event) (who : Side) :
  let f := getFighter who (run step events (initial t0)) in
  getObjectByName (group f) "leftArm" = None /\
  animateArms f =
    match getObjectByName (group f) "rightArm" with
    | Some r =>
        set_group
          (updateAt (if isBlocking f
                     then fun o => set_rotation_x 0 (set_rotation_z (- Math_PI / 4) o)
                     else set_rotation_z 0) (group f) r) f
    | None => f
    end.
Proof.
  cbv zeta.
  assert (Hs : getObjectByName (group (fighter1 (run step events (initial t0)))) "leftArm"
               = None /\
               getObjectByName (group (fighter2 (run step events (initial t0)))) "leftArm"
               = None).
  { unfold run. induction events as [|e events IH] using rev_ind.
    - split; reflexivity.
    - rewrite fold_left_app. cbn [fold_left].
      destruct e as [|keys current]; [exact IH|].
      apply animate_absent. exact IH. }
  assert (Hf : getObjectByName (group (getFighter who (run step events (initial t0))))
                 "leftArm" = None).
  { destruct who; [exact (proj1 Hs) | exact (proj2 Hs)]. }
  split; [exact Hf|].
  unfold animateArms. cbv zeta. rewrite Hf.
  destruct (isBlocking _); reflexivity.
Qed.

End NoLeftArm.

(** ** The cubes demo: what holds all along *)

Section CubesTidy.

Import Cubes Viewer.

(** A loop over the meshes that keeps a property of each mesh. *)
Lemma alter_fold_keeps (P : Mesh -> Prop) (f : nat -> Mesh -> Mesh) (cs : list nat)
      (h : gmap nat Mesh) (k : nat) :
  (forall c m, P m -> P (f c m)) ->
  (exists m, h !! k = Some m /\ P m) ->
  exists m, fold_left (fun h c => alter (f c) c h) cs h !! k = Some m /\ P m.
Proof.
  intros Hf. revert h. induction cs as [|c cs IH]; intros h Hk; simpl; [exact Hk|].
  apply IH. destruct Hk as (m & Hm & HP). destruct (decide (c = k)) as [->|Hne].
  - exists (f k m). rewrite lookup_alter_eq, Hm. split; [reflexivity | apply Hf, HP].
  - exists m. rewrite lookup_alter_ne by exact Hne. split; assumption.
Qed.

Lemma tidy_forEachCube (f : Mesh -> Mesh) (st : Demo) :
  (forall m, geometry (f m) = geometry m /\ material (f m) = material m) ->
  tidy st -> tidy (forEachCube f st).
Proof.
  intros Hf (H1 & H2 & H3 & H4 & H5 & H6 & H7). unfold tidy, forEachCube. simpl.
  repeat split; try assumption; try apply H2; try apply H5; try apply H6.
  intros c Hc.
  apply (alter_fold_keeps
           (fun m => geometry m = currentGeometry st /\ base (material m) = currentBase st)
           (fun _ => f)).
  - intros _ m [A B]. destruct (Hf m) as [-> ->]. split; assumption.
  - destruct (H7 c Hc) as (m & Hm & A & B). exists m. repeat split; assumption.
Qed.

(** The swap of geometry and material reaches every tracked mesh. *)
Lemma reskin_meshes (g : Geometry) (b : BaseMaterial) (cs : list nat) (st : Demo)
      (k : nat) :
  let st' :=
    fold_left
      (fun s c =>
         mkDemo (rotationSpeed s) (isSphere s) (cubes s) (scene s)
                (alter (fun m => mkMesh g (mkMaterial (nextMaterialId s) b 0)
                                        (position m) (rotation m)) c (heap s))
                (nextObjectId s) (S (nextMaterialId s)))
      cs st in
  rotationSpeed st' = rotationSpeed st /\ isSphere st' = isSphere st /\
  (is_Some (heap st !! k) ->
   k ∈ cs \/ (exists m, heap st !! k = Some m /\ geometry m = g /\ base (material m) = b) ->
   exists m, heap st' !! k = Some m /\ geometry m = g /\ base (material m) = b).
Proof.
  revert st. induction cs as [|c cs IH]; intros st; simpl.
  - repeat split. intros _ [Hin | Hgood]; [|exact Hgood].
    apply elem_of_nil in Hin. destruct Hin.
  - match goal with |- context [fold_left ?F cs ?S0] => specialize (IH S0) end.
    simpl in IH. destruct IH as (Hr & Hs & Hh).
    split; [exact Hr|]. split; [exact Hs|].
    intros [m Hm] Hk. apply Hh.
    + destruct (decide (c = k)) as [->|Hne].
      * rewrite lookup_alter_eq, Hm. eexists. reflexivity.
      * rewrite lookup_alter_ne by exact Hne. eexists. exact Hm.
    + destruct (decide (c = k)) as [->|Hne].
      * right. rewrite lookup_alter_eq, Hm. eexists. split; [reflexivity|].
        split; reflexivity.
      * rewrite lookup_alter_ne by exact Hne.
        destruct Hk as [Hin | Hgood]; [|right; exact Hgood].
        apply elem_of_cons in Hin as [->|Hin]; [congruence | left; exact Hin].
Qed.

Lemma tidy_reskin (v : Q) (sphere : bool) (st : Demo) :
  tidy st -> 0 <= v -> (sphere = true <-> SPEED_THRESHOLD <= v) ->
  tidy (reskin (if sphere then sphereGeometry else cubeGeometry)
               (if sphere then sphereBaseMaterial else cubeBaseMaterial)
               (set_speed v sphere st)).
Proof.
  intros (H1 & H2 & H3 & H4 & H5 & H6 & H7) Hv Hs. unfold tidy, reskin.
  set (g := if sphere then sphereGeometry else cubeGeometry).
  set (b := if sphere then sphereBaseMaterial else cubeBaseMaterial).
  destruct (reskin_fields g b (cubes (set_speed v sphere st)) (set_speed v sphere st))
    as (Hc & Hsc & _ & _).
  cbv zeta in Hc, Hsc.
  pose proof (fun k => reskin_meshes g b (cubes (set_speed v sphere st))
                                     (set_speed v sphere st) k) as Hm.
  cbv zeta in Hm.
  set (st' := fold_left _ (cubes (set_speed v sphere st)) (set_speed v sphere st)) in *.
  destruct (Hm 0%nat) as (Hr & Hi & _).
  rewrite Hc, Hsc. unfold currentGeometry, currentBase. rewrite Hr, Hi. simpl.
  repeat split; try assumption; try apply Hs; try apply H5; try apply H6.
  intros c Hin. destruct (Hm c) as (_ & _ & Hk).
  destruct (H7 c Hin) as (m & Hmc & _).
  apply Hk; [eexists; exact Hmc | left; exact Hin].
Qed.

Lemma tidy_set_speed (v : Q) (st : Demo) :
  tidy st -> 0 <= v -> (isSphere st = true <-> SPEED_THRESHOLD <= v) ->
  tidy (set_speed v (isSphere st) st).
Proof.
  intros (H1 & H2 & H3 & H4 & H5 & H6 & H7) Hv Hs. unfold tidy. simpl.
  repeat split; try assumption; try apply Hs; try apply H5; try apply H6.
Qed.

Lemma light_is : light = 1%nat.
Proof. reflexivity. Qed.

Lemma tidy_createCubes (count : nat) (st : Demo) :
  (1 <= count <= 9)%nat -> wf st -> (light < nextObjectId st)%nat -> tidy st ->
  tidy (createCubes count st).
Proof.
  intros Hcount (Hnd & Hsc & Hcs & Hheap) Hlight (H1 & H2 & H3 & H4 & H5 & H6 & H7).
  unfold createCubes.
  set (st1 := fold_left (fun s c => scene_remove c s) (cubes st) st).
  destruct (removal_fields (cubes st) st) as (Hr1 & Hi1 & _ & Hh1 & Hn1 & _ & Hs1).
  fold st1 in Hr1, Hi1, Hh1, Hn1, Hs1.
  destruct (removal_scene (cubes st) (scene st) Hnd) as (Hnd1 & Hsub & Hout & Hkeep).
  rewrite <- Hs1 in Hnd1, Hsub, Hout, Hkeep.
  assert (Hsc1 : Forall (fun c => (c < nextObjectId (set_cubes [] st1))%nat)
                        (scene (set_cubes [] st1))).
  { simpl. rewrite Hn1. apply Forall_forall. intros x Hx.
    rewrite Forall_forall in Hsc. apply Hsc, Hsub, Hx. }
  destruct (loop_state count (gridSizeOf count) count (set_cubes [] st1) eq_refl Hsc1)
    as (Hr & Hi & _ & _ & Hc & Hscene & Hnew & _ & _).
  simpl in Hr, Hi, Hc, Hscene, Hnew. rewrite Hn1 in Hc, Hscene, Hnew.
  set (st2 := fold_left (createCube count (gridSizeOf count)) (seq 0 count)
                        (set_cubes [] st1)) in *.
  unfold tidy, currentGeometry, currentBase. rewrite Hr, Hi, Hc, Hscene, Hr1, Hi1.
  split; [exact H1|]. split; [exact H2|].
  split; [apply NoDup_fmap_2; [intros a b Hab; lia | apply NoDup_seq]|].
  split.
  { intros Hin. apply list_elem_of_fmap in Hin as (j & Hj & _). lia. }
  split.
  { intros x. rewrite elem_of_app. split.
    - intros [Hx | Hx]; [left | right; exact Hx].
      destruct (proj1 (H5 x) (Hsub x Hx)) as [Hl | Hcube]; [exact Hl|].
      destruct (Hout x Hcube Hx).
    - intros [-> | Hx]; [left | right; exact Hx].
      apply Hkeep; [apply H5; left; reflexivity | exact H4]. }
  split; [rewrite length_map, length_seq; exact Hcount|].
  intros c Hin. apply list_elem_of_fmap in Hin as (j & -> & Hj).
  apply elem_of_seq in Hj. exists (cubeOf (set_cubes [] st1) count (gridSizeOf count) j).
  split; [apply Hnew; lia|]. unfold cubeOf, currentGeometry. simpl. rewrite Hi1.
  split; reflexivity.
Qed.

Lemma parseInt_digit (key : string) (n : nat) :
  parseInt key = Some n -> (1 <= n <= 9)%nat.
Proof.
  unfold parseInt. repeat case_match; intros [= <-]; lia.
Qed.

Lemma light_keydown (key : string) (st : Demo) :
  wf st -> (light < nextObjectId st)%nat -> (light < nextObjectId (keydown key st))%nat.
Proof.
  intros Hwf Hl.
  assert (Hmono : (nextObjectId st <= nextObjectId (keydown key st))%nat);
    [|lia].
  unfold keydown, reskin.
  assert (Hre : forall g b s, nextObjectId (reskin g b s) = nextObjectId s).
  { intros g b s. exact (proj1 (proj2 (proj2 (reskin_fields g b (cubes s) s)))). }
  assert (Hcr : forall n, (nextObjectId st <= nextObjectId (createCubes n st))%nat).
  { intros n. unfold createCubes.
    destruct (removal_fields (cubes st) st) as (_ & _ & _ & _ & Hn1 & _ & Hs1).
    destruct Hwf as (Hnd & Hsc & _).
    destruct (removal_scene (cubes st) (scene st) Hnd) as (_ & Hsub & _ & _).
    rewrite <- Hs1 in Hsub.
    set (st1 := fold_left (fun s c => scene_remove c s) (cubes st) st) in *.
    assert (Hsc1 : Forall (fun c => (c < nextObjectId (set_cubes [] st1))%nat)
                          (scene (set_cubes [] st1))).
    { simpl. rewrite Hn1. apply Forall_forall. intros x Hx.
      rewrite Forall_forall in Hsc. apply Hsc, Hsub, Hx. }
    destruct (loop_state n (gridSizeOf n) n (set_cubes [] st1) eq_refl Hsc1)
      as (_ & _ & Hn & _).
    simpl in Hn. rewrite Hn, Hn1. lia. }
  fold (reskin cubeGeometry cubeBaseMaterial
               (set_speed (Math_max 0 (rotationSpeed st - 0.005)) false st)).
  fold (reskin sphereGeometry sphereBaseMaterial
               (set_speed (rotationSpeed st + 0.005) true st)).
  repeat case_match; rewrite ?Hre; simpl; try lia; apply Hcr.
Qed.

Lemma tidy_keydown (key : string) (st : Demo) :
  wf st -> (light < nextObjectId st)%nat -> tidy st -> tidy (keydown key st).
Proof.
  intros Hwf Hl Ht. unfold keydown.
  assert (Hmove : forall dx dy m, geometry (move dx dy m) = geometry m /\
                                  material (move dx dy m) = material m).
  { intros. split; reflexivity. }
  destruct Ht as (H1 & H2 & Hrest).
  assert (Ht : tidy st) by (split; [exact H1 | split; [exact H2 | exact Hrest]]).
  destruct (String.eqb key "ArrowUp"); [apply tidy_forEachCube; auto|].
  destruct (String.eqb key "ArrowDown"); [apply tidy_forEachCube; auto|].
  destruct (String.eqb key "ArrowLeft"); [apply tidy_forEachCube; auto|].
  destruct (String.eqb key "ArrowRight"); [apply tidy_forEachCube; auto|].
  destruct (String.eqb key "q" || String.eqb key "Q").
  { set (v := Math_max 0 (rotationSpeed st - 0.005)).
    assert (Hv0 : 0 <= v) by apply Math_max_ge_l.
    assert (Hv : v <= rotationSpeed st).
    { unfold v. apply Math_max_le; lra. }
    destruct (Qltb v SPEED_THRESHOLD && isSphere st) eqn:Hb.
    - apply andb_true_iff in Hb as [Hlt _]. apply Qltb_true in Hlt.
      apply (tidy_reskin v false st Ht Hv0). split; [discriminate | intros; lra].
    - apply (tidy_set_speed v st Ht Hv0).
      apply andb_false_iff in Hb as [Hge | Hns].
      + apply Qltb_false in Hge. split; [intros _; exact Hge | intros _; apply H2; lra].
      + split; [rewrite Hns; discriminate|]. intros Hge.
        apply H2. lra. }
  destruct (String.eqb key "w" || String.eqb key "W").
  { set (v := rotationSpeed st + 0.005).
    assert (Hv0 : 0 <= v) by (unfold v; lra).
    destruct (Qgeb v SPEED_THRESHOLD && negb (isSphere st)) eqn:Hb.
    - apply andb_true_iff in Hb as [Hge _].
      apply (tidy_reskin v true st Ht Hv0). split; [intros _|reflexivity].
      unfold Qgeb in Hge. apply Qle_bool_true in Hge. exact Hge.
    - apply (tidy_set_speed v st Ht Hv0).
      apply andb_false_iff in Hb as [Hlt | Hs].
      + unfold Qgeb in Hlt. apply Qle_bool_false in Hlt.
        split; [|intros; lra]. intros Hs. apply H2 in Hs. unfold v. lra.
      + apply negb_false_iff in Hs. split; [|intros _; exact Hs].
        intros _. apply H2 in Hs. unfold v. lra. }
  destruct (bool_decide (key ∈ digitKeys)); [|exact Ht].
  destruct (parseInt key) as [n|] eqn:Hp; [|exact Ht].
  apply tidy_createCubes; auto. exact (parseInt_digit key n Hp).
Qed.

Lemma tidy_run (events : list Event) :
  let st := run step events init in
  wf st /\ (light < nextObjectId st)%nat /\ tidy st.
Proof.
  cbv zeta. unfold run. induction events as [|e events IH] using rev_ind.
  - cbn [fold_left]. split; [exact wf_init|]. split; [vm_compute; lia|].
    unfold tidy. change (cubes init) with [0%nat]. change (scene init) with [0%nat; 1%nat].
    change (rotationSpeed init) with 0.01. change (isSphere init) with false.
    rewrite light_is. unfold SPEED_THRESHOLD.
    split; [lra|]. split; [split; [discriminate | intros; lra]|].
    split; [repeat constructor; rewrite ?elem_of_nil; tauto|].
    split; [rewrite list_elem_of_singleton; lia|].
    split; [intros x; rewrite !elem_of_cons, elem_of_nil; tauto|].
    split; [simpl; lia|].
    intros c Hc. apply list_elem_of_singleton in Hc as ->.
    eexists. split; [vm_compute; reflexivity|]. split; reflexivity.
  - rewrite fold_left_app. cbn [fold_left].
    destruct IH as (Hwf & Hl & Ht).
    set (st := fold_left (fun s i => step i s) events init) in *. clearbody st.
    destruct e as [key|]; cbn [step].
    + split; [apply wf_keydown, Hwf|]. split; [apply light_keydown; assumption|].
      apply tidy_keydown; assumption.
    + unfold animate. split; [apply wf_forEachCube, Hwf|]. split; [exact Hl|].
      apply tidy_forEachCube; [|exact Ht]. intros m. split; reflexivity.
Qed.

(** Property X10.  All along a session of the demo, whatever the keys and the frames, the
    scene holds the tracked meshes and the light and nothing else, each of
    them once: no mesh is left behind by a new layout.  There are between
    one and nine meshes. *)
Theorem scene_holds_cubes_and_light (events : list Event) :
  let st := run step events init in
  NoDup (scene st) /\ NoDup (cubes st) /\ (light ∉ cubes st) /\
  (forall x, x ∈ scene st <-> x = light \/ x ∈ cubes st) /\
  (1 <= List.length (cubes st) <= 9)%nat /\
  (forall c, c ∈ cubes st -> is_Some (heap st !! c)).
Proof.
  cbv zeta. destruct (tidy_run events) as ((Hnd & _) & _ & (_ & _ & H3 & H4 & H5 & H6 & H7)).
  repeat split; try assumption; try apply H5; try apply H6.
  intros c Hc. destruct (H7 c Hc) as (m & Hm & _). eexists. exact Hm.
Qed.

(** Property X11.  All along a session the rotation speed is not negative, the demo shows
    spheres exactly when the speed is at the threshold or above it, and
    every tracked mesh wears the geometry of the mode and a clone of its
    base material. *)
Theorem mode_follows_speed (events : list Event) :
  let st := run step events init in
  0 <= rotationSpeed st /\
  (isSphere st = true <-> SPEED_THRESHOLD <= rotationSpeed st) /\
  (forall c, c ∈ cubes st ->
     exists m, heap st !! c = Some m /\
               geometry m = (if isSphere st then sphereGeometry else cubeGeometry) /\
               base (material m) =
                 (if isSphere st then sphereBaseMaterial else cubeBaseMaterial)).
Proof.
  cbv zeta. destruct (tidy_run events) as (_ & _ & (H1 & H2 & _ & _ & _ & _ & H7)).
  split; [exact H1|]. split; [exact H2|]. exact H7.
Qed.

End CubesTidy.

(** ** scene.ts: what the fighter update leaves alone *)

Section SecureSpares.

Import THREE Secure Arena.
Context `{Platform}.
Variable miniBunny : Fighter -> Fighter -> nat -> Object3D * Vector3 * Vector3.

Lemma quietly_refl (w : World) : quietly w w.
Proof. exists []. split; reflexivity. Qed.

Lemma quietly_trans (w1 w2 w3 : World) :
  quietly w1 w2 -> quietly w2 w3 -> quietly w1 w3.
Proof.
  intros (a1 & H1 & Q1) (a2 & H2 & Q2). exists (a2 ++ a1). split.
  - rewrite H2, H1, app_assoc. reflexivity.
  - rewrite forallb_app, Q1, Q2. reflexivity.
Qed.

Lemma spares_refl (who : Side) (w : World) : spares who w w.
Proof. split; [reflexivity|]. split; [reflexivity | apply quietly_refl]. Qed.

Lemma spares_trans (who : Side) (w1 w2 w3 : World) :
  spares who w1 w2 -> spares who w2 w3 -> spares who w1 w3.
Proof.
  intros (A1 & B1 & C1) (A2 & B2 & C2). split; [congruence|].
  split; [congruence | exact (quietly_trans _ _ _ C1 C2)].
Qed.

Lemma spares_putFighter (who : Side) (f : Fighter) (w : World) :
  spares who w (putFighter who f w).
Proof.
  destruct who;
    (split; [reflexivity|]; split; [reflexivity | exists []; split; reflexivity]).
Qed.

Lemma spares_putSecurity (who : Side) (c : SecurityState) (w : World) :
  spares who w (putSecurity who c w).
Proof.
  destruct who;
    (split; [reflexivity|]; split; [reflexivity | exists []; split; reflexivity]).
Qed.

Lemma spares_check (now : Z) (who : Side) (type : string) (w : World) :
  spares who w (snd (checkSecurityViolation now who type w)).
Proof.
  unfold checkSecurityViolation. cbv zeta.
  repeat case_match; destruct who; cbn;
    (split; [reflexivity|]; split; [reflexivity|]);
    first [ exists []; split; reflexivity | exists [Warned type]; split; reflexivity ].
Qed.

Lemma spares_teleportCheck (now : Z) (who : Side) (w : World) :
  spares who w (teleportCheck now who w).
Proof.
  unfold teleportCheck. cbv zeta.
  eapply spares_trans; [|apply spares_putSecurity].
  repeat case_match.
  - eapply spares_trans; [apply spares_putSecurity|].
    eapply spares_trans; [apply spares_check|]. apply spares_putFighter.
  - apply spares_putSecurity.
  - apply spares_putSecurity.
Qed.

Lemma spares_rateWindow (now : Z) (who : Side) (w : World) :
  spares who w (rateWindow now who w).
Proof.
  unfold rateWindow. cbv zeta. case_match; [apply spares_putSecurity | apply spares_refl].
Qed.

Lemma spares_characterCheck (now : Z) (who : Side) (w : World) :
  spares who w (characterCheck now who w).
Proof.
  unfold characterCheck. case_match; [|apply spares_refl].
  eapply spares_trans; [apply spares_check | apply spares_putFighter].
Qed.

Lemma spares_startAttack (keys : gmap string bool) (now : Z) (who : Side) (w : World) :
  spares who w (startAttack keys now who w).
Proof.
  unfold startAttack. cbv zeta. repeat case_match; try apply spares_refl;
    (eapply spares_trans; [apply spares_putFighter | apply spares_putSecurity]).
Qed.

Lemma spares_firewallCheck (now : Z) (who : Side) (w : World) :
  spares who w (firewallCheck now who w).
Proof.
  unfold firewallCheck. cbv zeta.
  assert (Hfw : forall fw, spares who w (set_firewallSystem fw w)).
  { intros fw. split; [destruct who; reflexivity|].
    split; [reflexivity | exists []; split; reflexivity]. }
  repeat case_match; try apply spares_refl; try apply Hfw;
    (eapply spares_trans; [apply Hfw|];
     eapply spares_trans; [apply spares_check | apply spares_putFighter]).
Qed.

Lemma spares_bunnyAbility (keys : gmap string bool) (who : Side) (w : World) :
  spares who w (bunnyAbility miniBunny keys who w).
Proof.
  destruct (bunnyAbility_rest miniBunny keys who w) as (A & _ & _ & _ & _ & B & C).
  split; [exact A|]. split; [exact B | exact C].
Qed.

(** The steps of the update that leave the health of the fighter alone. *)
Lemma checks_health (keys : gmap string bool) (now : Z) (who : Side) (w : World) :
  health (getFighter who (teleportCheck now who w)) = health (getFighter who w) /\
  health (getFighter who (rateWindow now who w)) = health (getFighter who w) /\
  health (getFighter who (characterCheck now who w)) = health (getFighter who w) /\
  health (getFighter who (startAttack keys now who w)) = health (getFighter who w) /\
  health (getFighter who (firewallCheck now who w)) = health (getFighter who w) /\
  health (getFighter who (bunnyAbility miniBunny keys who w)) = health (getFighter who w).
Proof.
  split; [|split; [|split; [|split; [|split]]]];
    [| | | | | apply (bunnyAbility_view miniBunny health); reflexivity];
    unfold teleportCheck, rateWindow, characterCheck, startAttack, firewallCheck,
      checkSecurityViolation;
    cbv zeta; repeat case_match; destruct who; reflexivity.
Qed.

Lemma updateFighter_spares (keys : gmap string bool) (now : Z) (who : Side) (dt : Q)
      (w : World) :
  spares who w (updateFighter miniBunny keys now who dt w).
Proof.
  unfold updateFighter. cbv zeta.
  destruct (gameOver w || JS.leb (health (getFighter who w)) 0);
    [apply spares_refl|].
  eapply spares_trans; [apply spares_putFighter|].
  eapply spares_trans; [apply spares_teleportCheck|].
  eapply spares_trans; [apply spares_rateWindow|].
  eapply spares_trans; [apply spares_characterCheck|].
  eapply spares_trans; [apply spares_putFighter|].
  eapply spares_trans; [apply spares_startAttack|].
  eapply spares_trans; [apply spares_firewallCheck|].
  eapply spares_trans; [apply spares_putFighter|].
  apply spares_bunnyAbility.
Qed.

(** Property X12.  In scene.ts a punch or a kick does no damage: the update of a fighter
    leaves the opponent as it is and does not end the game.  The effects
    that it adds are warnings on the console and, when a bunny summons its
    army, what the summon shows and plays (the cylinder and the small
    bunnies added to the scene, the sound): no hit sound, no update of the
    health bars, no end of the game.  The health of the fighter itself
    becomes [validateHealth] of it when the update runs and is left alone
    when it does not. *)
Theorem melee_does_no_damage (keys : gmap string bool) (now : Z) (who : Side) (dt : Q)
        (w : World) :
  let w' := updateFighter miniBunny keys now who dt w in
  getFighter (other who) w' = getFighter (other who) w /\
  gameOver w' = gameOver w /\
  (exists added, log w' = added ++ log w /\ forallb harmless added = true) /\
  health (getFighter who w') =
    (if gameOver w || JS.leb (health (getFighter who w)) 0
     then health (getFighter who w)
     else validateHealth (health (getFighter who w))).
Proof.
  cbv zeta.
  pose proof (updateFighter_spares keys now who dt w) as Hs.
  destruct Hs as (A & B & C). split; [exact A|]. split; [exact B|]. split; [exact C|].
  unfold updateFighter.
  destruct (gameOver w || JS.leb (health (getFighter who w)) 0); [reflexivity|].
  cbv zeta.
  assert (P : forall f v, health (getFighter who (putFighter who f v)) = health f).
  { intros f v. rewrite secure_get_put_same. reflexivity. }
  repeat first
    [ rewrite (proj2 (proj2 (proj2 (proj2 (proj2 (checks_health keys now who _))))))
    | rewrite P
    | rewrite updateTimers_health
    | rewrite (proj1 (proj2 (proj2 (proj2 (proj2 (checks_health keys now who _))))))
    | rewrite (proj1 (proj2 (proj2 (proj2 (checks_health keys now who _)))))
    | rewrite movement_health
    | rewrite (proj1 (proj2 (proj2 (checks_health keys now who _))))
    | rewrite (proj1 (proj2 (checks_health keys now who _)))
    | rewrite (proj1 (checks_health keys now who _)) ].
  reflexivity.
Qed.

End SecureSpares.

(** ** scene.ts: the arena, the rate of the attacks *)

Section SecureArena.

Import THREE Secure Arena.
Context `{Platform}.
Variable miniBunny : Fighter -> Fighter -> nat -> Object3D * Vector3 * Vector3.

Lemma validatePosition_inArena (p : Vector3) : inArena (validatePosition p).
Proof.
  unfold inArena, validatePosition. cbn.
  split; [apply clamp_range; lra|]. split; apply clamp_range; lra.
Qed.

Lemma movement_inArena (keys : gmap string bool) (dt : Q) (f : Fighter) :
  inArena (position (group (movement keys dt f))).
Proof.
  unfold movement. cbv zeta. cbn. apply validatePosition_inArena.
Qed.

(** The steps after the movement keep the fighter in the arena. *)
Lemma later_steps_inArena (keys : gmap string bool) (now : Z) (who : Side) (dt : Q)
      (w : World) :
  inArena (position (group (getFighter who w))) ->
  inArena (position (group (getFighter who (startAttack keys now who w)))) /\
  inArena (position (group (getFighter who (firewallCheck now who w)))) /\
  inArena (position (group (updateTimers dt (getFighter who w)))) /\
  inArena (position (group (getFighter who (bunnyAbility miniBunny keys who w)))).
Proof.
  intros Hin.
  split; [|split; [|split]];
    [| | | rewrite (bunnyAbility_view miniBunny (fun f => position (group f)));
           [exact Hin | reflexivity | reflexivity]];
    unfold startAttack, firewallCheck, updateTimers, checkSecurityViolation;
    cbv zeta;
    repeat case_match; destruct who; cbn; try exact Hin;
    unfold inArena in *; cbn in *; repeat split; try apply Hin; lra.
Qed.

(** Property X13.  A fighter whose update runs ends it inside the arena, wherever it was
    before and whatever the keys and the time step: between -10 and 10
    sideways and in depth, between 0 and 5 in height. *)
Theorem update_ends_in_arena (keys : gmap string bool) (now : Z) (who : Side) (dt : Q)
        (w : World) :
  gameOver w = false -> JS.lt 0 (health (getFighter who w)) ->
  inArena (position (group (getFighter who (updateFighter miniBunny keys now who dt w)))).
Proof.
  intros Hg Hh. unfold updateFighter.
  assert (Hrun : gameOver w || JS.leb (health (getFighter who w)) 0 = false).
  { rewrite Hg. cbn. apply JS_positive_alive. exact Hh. }
  rewrite Hrun. cbv zeta.
  match goal with
  | |- context [bunnyAbility _ _ _ ?v] =>
      apply (later_steps_inArena keys now who dt v)
  end.
  rewrite secure_get_put_same.
  match goal with
  | |- context [updateTimers _ (getFighter _ ?v)] =>
      apply (later_steps_inArena keys now who dt v)
  end.
  match goal with
  | |- context [firewallCheck _ _ ?v] =>
      apply (later_steps_inArena keys now who dt v)
  end.
  match goal with
  | |- context [startAttack _ _ _ ?v] =>
      apply (later_steps_inArena keys now who dt v)
  end.
  rewrite secure_get_put_same. apply movement_inArena.
Qed.

End SecureArena.

(** The boy strays to (40, -3, 25); his next update brings him back. *)
Lemma update_ends_in_arena_witness :
  Secure.gameOver Sessions.strayed = false /\
  JS.lt 0 (Secure.health (Secure.getFighter Secure.F1 Sessions.strayed)) /\
  ~ Arena.inArena (THREE.position (Secure.group (Secure.fighter1 Sessions.strayed))) /\
  Arena.inArena
    (THREE.position
       (Secure.group
          (Secure.getFighter Secure.F1
             (Secure.updateFighter (H := Characters.testPlatform) Samples.plainBunny
                Samples.noKeys 1000 Secure.F1 (1 # 60) Sessions.strayed)))).
Proof.
  assert (Hg : Secure.gameOver Sessions.strayed = false) by reflexivity.
  assert (Hh : JS.lt 0 (Secure.health (Secure.getFighter Secure.F1 Sessions.strayed)))
    by (vm_compute; reflexivity).
  split; [exact Hg|]. split; [exact Hh|]. split.
  - intros [[_ Hx] _]. vm_compute in Hx. apply Hx. reflexivity.
  - exact (update_ends_in_arena (H := Characters.testPlatform) Samples.plainBunny
             Samples.noKeys 1000 Secure.F1 (1 # 60) Sessions.strayed Hg Hh).
Defined.

(** ** scene.ts: the rate of the attacks *)

Section SecureRate.

Import THREE Secure Arena.
Context `{Platform}.
Variable miniBunny : Fighter -> Fighter -> nat -> Object3D * Vector3 * Vector3.

(** The checks leave the count of the attacks and the attack state alone;
    a check of a violation can only move the start of the window to the
    present. *)
Lemma checks_rate (now : Z) (who : Side) (w : World) :
  forall w', w' = teleportCheck now who w \/ w' = characterCheck now who w \/
             w' = firewallCheck now who w ->
  attackCount (getSecurity who w') = attackCount (getSecurity who w) /\
  isAttacking (getFighter who w') = isAttacking (getFighter who w) /\
  (lastResetTime (getSecurity who w') = lastResetTime (getSecurity who w) \/
   lastResetTime (getSecurity who w') = now).
Proof.
  intros w' [-> | [-> | ->]];
    unfold teleportCheck, characterCheck, firewallCheck, checkSecurityViolation;
    cbv zeta;
    repeat case_match; destruct who; cbn; repeat split; auto.
Qed.

Lemma updateTimers_idle (dt : Q) (f : Fighter) :
  isAttacking f = false -> isAttacking (updateTimers dt f) = false.
Proof.
  intros Hf. unfold updateTimers. cbv zeta. repeat case_match; cbn; auto.
Qed.

Lemma movement_isAttacking (keys : gmap string bool) (dt : Q) (f : Fighter) :
  isAttacking (movement keys dt f) = isAttacking f.
Proof. unfold movement. cbv zeta. repeat case_match; reflexivity. Qed.

Lemma bunnyAbility_rate (keys : gmap string bool) (who : Side) (w : World) :
  attackCount (getSecurity who (bunnyAbility miniBunny keys who w)) =
    attackCount (getSecurity who w) /\
  isAttacking (getFighter who (bunnyAbility miniBunny keys who w)) =
    isAttacking (getFighter who w).
Proof.
  split.
  - destruct (bunnyAbility_rest miniBunny keys who w) as (_ & S1 & S2 & _).
    destruct who; cbn [getSecurity]; [rewrite S1 | rewrite S2]; reflexivity.
  - pose proof (bunnyAbility_timers miniBunny keys who w) as Ht. unfold timers in Ht.
    injection Ht as _ _ Ht _ _. exact Ht.
Qed.

(** Property X14.  The rate limit: once five attacks have been counted in a window that
    is still open, the punch and kick keys start no attack, and the count
    stays where it is. *)
Theorem attacks_rate_limited (keys : gmap string bool) (now : Z) (who : Side) (dt : Q)
        (w : World) :
  gameOver w = false -> JS.lt 0 (health (getFighter who w)) ->
  isAttacking (getFighter who w) = false ->
  (now - lastResetTime (getSecurity who w) <= 1000)%Z ->
  (CONFIG_MAX_ATTACKS_PER_SECOND <= attackCount (getSecurity who w))%Z ->
  let w' := updateFighter miniBunny keys now who dt w in
  isAttacking (getFighter who w') = false /\
  attackCount (getSecurity who w') = attackCount (getSecurity who w).
Proof.
  intros Hg Hh Hidle Hwin Hfull. cbv zeta. unfold updateFighter.
  assert (Hrun : gameOver w || JS.leb (health (getFighter who w)) 0 = false).
  { rewrite Hg. cbn. apply JS_positive_alive. exact Hh. }
  rewrite Hrun. cbv zeta.
  set (w1 := putFighter who (set_health (validateHealth (health (getFighter who w)))
                                        (getFighter who w)) w).
  assert (I1 : attackCount (getSecurity who w1) = attackCount (getSecurity who w) /\
               isAttacking (getFighter who w1) = false /\
               (now - lastResetTime (getSecurity who w1) <= 1000)%Z).
  { unfold w1. destruct who; cbn; repeat split; assumption. }
  clearbody w1.
  destruct (checks_rate now who w1 (teleportCheck now who w1)) as (A2 & B2 & C2);
    [left; reflexivity|].
  set (w2 := teleportCheck now who w1) in *. clearbody w2.
  assert (I2 : attackCount (getSecurity who w2) = attackCount (getSecurity who w) /\
               isAttacking (getFighter who w2) = false /\
               (now - lastResetTime (getSecurity who w2) <= 1000)%Z).
  { destruct I1 as (A1 & B1 & C1). split; [congruence|]. split; [congruence|].
    destruct C2 as [-> | ->]; lia. }
  clear I1 A2 B2 C2 w1.
  assert (E3 : rateWindow now who w2 = w2).
  { unfold rateWindow. cbv zeta. destruct I2 as (_ & _ & C).
    destruct (Z.ltb_spec 1000 (now - lastResetTime (getSecurity who w2))); [lia|].
    reflexivity. }
  rewrite E3. clear E3.
  destruct (checks_rate now who w2 (characterCheck now who w2)) as (A4 & B4 & C4);
    [right; left; reflexivity|].
  set (w4 := characterCheck now who w2) in *. clearbody w4.
  assert (I4 : attackCount (getSecurity who w4) = attackCount (getSecurity who w) /\
               isAttacking (getFighter who w4) = false).
  { destruct I2 as (A2 & B2 & _). split; congruence. }
  clear I2 A4 B4 C4 w2.
  set (w5 := putFighter who (movement keys dt (getFighter who w4)) w4).
  assert (I5 : attackCount (getSecurity who w5) = attackCount (getSecurity who w) /\
               isAttacking (getFighter who w5) = false).
  { destruct I4 as (A4 & B4). unfold w5. rewrite secure_get_put_same.
    rewrite movement_isAttacking. split; [|exact B4].
    rewrite <- A4. destruct who; reflexivity. }
  clearbody w5. clear I4 w4.
  assert (E6 : startAttack keys now who w5 = w5).
  { unfold startAttack. cbv zeta. destruct I5 as (A5 & _).
    destruct (Z.ltb_spec (attackCount (getSecurity who w5))
                         CONFIG_MAX_ATTACKS_PER_SECOND); [lia|].
    repeat case_match; reflexivity. }
  rewrite E6. clear E6.
  destruct (checks_rate now who w5 (firewallCheck now who w5)) as (A7 & B7 & _);
    [right; right; reflexivity|].
  set (w7 := firewallCheck now who w5) in *. clearbody w7.
  destruct I5 as (A5 & B5).
  destruct (bunnyAbility_rate keys who
              (putFighter who (updateTimers dt (getFighter who w7)) w7)) as [A9 B9].
  rewrite A9, B9, secure_get_put_same. split.
  - apply updateTimers_idle. congruence.
  - rewrite <- A5, <- A7. destruct who; reflexivity.
Qed.

End SecureRate.

(** Five attacks have been counted for the boy and the window is half a
    second old: his punch key starts nothing. *)
Lemma attacks_rate_limited_witness :
  let w := Sessions.fiveAttacks in
  let w' := Secure.updateFighter (H := Characters.testPlatform) Samples.plainBunny
              {[ "KeyF" := true ]} 500 Secure.F1 (1 # 60) w in
  truthy {[ "KeyF" := true ]} (Secure.punch (Secure.controls (Secure.fighter1 w))) = true /\
  Secure.isAttacking (Secure.getFighter Secure.F1 w') = false /\
  Secure.attackCount (Secure.getSecurity Secure.F1 w') = 5%Z.
Proof.
  cbv zeta. split; [vm_compute; reflexivity|].
  assert (Hg : Secure.gameOver Sessions.fiveAttacks = false) by reflexivity.
  assert (Hh : JS.lt 0 (Secure.health (Secure.getFighter Secure.F1 Sessions.fiveAttacks)))
    by (vm_compute; reflexivity).
  assert (Hi : Secure.isAttacking (Secure.getFighter Secure.F1 Sessions.fiveAttacks) = false)
    by reflexivity.
  assert (Hw : (500 - Secure.lastResetTime
                        (Secure.getSecurity Secure.F1 Sessions.fiveAttacks) <= 1000)%Z)
    by (vm_compute; congruence).
  assert (Hf : (Secure.CONFIG_MAX_ATTACKS_PER_SECOND <=
                Secure.attackCount (Secure.getSecurity Secure.F1 Sessions.fiveAttacks))%Z)
    by (vm_compute; congruence).
  exact (attacks_rate_limited (H := Characters.testPlatform) Samples.plainBunny
           {[ "KeyF" := true ]} 500 Secure.F1 (1 # 60) Sessions.fiveAttacks
           Hg Hh Hi Hw Hf).
Defined.

(** ** The workflow: the site that is deployed *)

Section DeploySite.

Import Deploy.
Context `{Runner}.

Lemma lookup_site (R : gmap string Node) :
  lookup (Dir R) [SITE_DIR] = R !! SITE_DIR.
Proof. cbn. destruct (R !! SITE_DIR); reflexivity. Qed.

(** A program run inside the directory of a game leaves the site alone. *)
Lemma inGame_site (tool : string -> Node -> Z + Node) (game : string) (sh sh' : Shell) :
  inGame tool game sh = Running sh' -> game <> SITE_DIR ->
  lookup (fs sh') [SITE_DIR] = lookup (fs sh) [SITE_DIR].
Proof.
  unfold inGame. intros Hrun Hne.
  destruct (fs sh) as [c|R] eqn:Hfs; [discriminate Hrun|].
  destruct (lookup (Dir R) [game]) as [[c|es]|]; try discriminate Hrun.
  destruct (tool game (Dir es)) as [code|d]; [discriminate Hrun|].
  injection Hrun as <-. cbn [fs at_dir default].
  rewrite !lookup_site. apply lookup_insert_ne. exact Hne.
Qed.

Lemma build_site (game : string) (sh sh' : Shell) :
  build game sh = Running sh' -> game <> SITE_DIR ->
  lookup (fs sh') [SITE_DIR] = lookup (fs sh) [SITE_DIR].
Proof.
  unfold build. intros Hrun Hne.
  destruct (inGame npm_ci game sh) as [sh1|c sh1] eqn:H1; [|discriminate Hrun].
  cbn [andThen] in Hrun.
  rewrite (inGame_site _ _ _ _ Hrun Hne). exact (inGame_site _ _ _ _ H1 Hne).
Qed.

Lemma mkdir_p_game (game : string) (R S : gmap string Node) :
  R !! SITE_DIR = Some (Dir S) -> S !! game = None ->
  mkdir_p [SITE_DIR; game] (Dir R)
  = Some (Dir (<[SITE_DIR := Dir (<[game := Dir ∅]> S)]> R)).
Proof.
  intros Hsite Hfresh. cbn [mkdir_p]. rewrite Hsite. simpl. rewrite Hfresh. reflexivity.
Qed.

(** The copy of a game into a site that does not hold it yet. *)
Lemma publish_site (game : string) (sh sh' : Shell) (S : gmap string Node) :
  publish game sh = Running sh' -> game <> SITE_DIR ->
  lookup (fs sh) [SITE_DIR] = Some (Dir S) -> S !! game = None ->
  exists es, matching es <> ∅ /\
             lookup (fs sh') [SITE_DIR] = Some (Dir (<[game := Dir (matching es)]> S)).
Proof.
  unfold publish. intros Hrun Hne Hsite Hfresh.
  destruct (resolveOutDir game (fs sh)) as [out|] eqn:Hout; [|discriminate Hrun].
  destruct (resolveOutDir_Some game (fs sh) out Hout) as (d & es & -> & Hes).
  destruct (fs sh) as [c|R] eqn:Hfs; [discriminate Hsite|].
  rewrite lookup_site in Hsite.
  unfold command in Hrun. cbn [fs] in Hrun. rewrite Hfs in Hrun.
  rewrite (mkdir_p_game game R S Hsite Hfresh) in Hrun. cbn [andThen fs] in Hrun.
  unfold cp_r_glob in Hrun.
  assert (Hes' : lookup (Dir (<[SITE_DIR := Dir (<[game := Dir ∅]> S)]> R)) [game; d]
                 = Some (Dir es)).
  { rewrite <- Hes. cbn [lookup]. rewrite lookup_insert_ne by congruence. reflexivity. }
  rewrite Hes' in Hrun.
  destruct (bool_decide (matching es = ∅)) eqn:Hm; [discriminate Hrun|].
  apply bool_decide_eq_false in Hm.
  cbn [at_dir] in Hrun. rewrite lookup_insert_eq in Hrun.
  rewrite lookup_insert_eq in Hrun.
  injection Hrun as <-. exists es. split; [exact Hm|].
  cbn [fs]. rewrite lookup_site, lookup_insert_eq.
  rewrite insert_insert_eq, (right_id ∅ (∪)). reflexivity.
Qed.

Lemma forGame_site (game : string) (sh sh' : Shell) (S : gmap string Node) :
  forGame game sh = Running sh' -> game <> SITE_DIR ->
  lookup (fs sh) [SITE_DIR] = Some (Dir S) -> S !! game = None ->
  exists es, matching es <> ∅ /\
             lookup (fs sh') [SITE_DIR] = Some (Dir (<[game := Dir (matching es)]> S)).
Proof.
  unfold forGame, echo. cbn [andThen]. intros Hrun Hne Hsite Hfresh.
  destruct (build game _) as [shb|c shb] eqn:Hb; [|discriminate Hrun].
  cbn [andThen] in Hrun.
  apply (publish_site game shb sh' S Hrun Hne); [|exact Hfresh].
  rewrite (build_site _ _ _ Hb Hne). exact Hsite.
Qed.

(** Property X15.  The site of a deployment holds the catalog page [index.html] and one
    directory for each game, and nothing else: whatever the checkout
    brought along under [site] is gone.  The directory of a game is not
    empty and has no entry whose name starts with a dot. *)
Theorem deployed_site_layout (workspace site : Node) :
  job workspace = Deployed site ->
  exists fightersOut cubesOut : gmap string Node,
    site = Dir (<["index.html" := File CatalogIndex]>
                  (<["cubes" := Dir (matching cubesOut)]>
                     (<["fighters" := Dir (matching fightersOut)]> ∅))) /\
    matching fightersOut <> ∅ /\ matching cubesOut <> ∅ /\
    (forall n, is_Some (matching fightersOut !! n) -> visible n = true) /\
    (forall n, is_Some (matching cubesOut !! n) -> visible n = true).
Proof.
  unfold job. intros Hjob.
  destruct (checkout workspace) as [root1|]; [|discriminate Hjob].
  destruct (setup_node root1) as [root2|]; [|discriminate Hjob].
  destruct (buildScript (mkShell root2 [] [])) as [sh|c sh] eqn:Hscript;
    [|discriminate Hjob].
  destruct (lookup (fs sh) [SITE_DIR]) as [site'|] eqn:Hsite; [|discriminate Hjob].
  destruct (upload_pages_artifact site'); [|discriminate Hjob].
  destruct (deploy_pages site'); [|discriminate Hjob].
  injection Hjob as ->.
  unfold buildScript in Hscript. cbv zeta in Hscript. cbn [fs stdout stderr] in Hscript.
  unfold command at 1 in Hscript. cbn [fs stdout stderr] in Hscript.
  destruct (mkdir_p [SITE_DIR] (rm_rf [] SITE_DIR root2)) as [root3|] eqn:Hmk;
    [|discriminate Hscript].
  cbn [andThen] in Hscript.
  assert (H3 : lookup root3 [SITE_DIR] = Some (Dir ∅)).
  { unfold rm_rf in Hmk. destruct root2 as [c|R]; [discriminate Hmk|].
    cbn [at_dir from_option mkdir_p] in Hmk. unfold id in Hmk.
    cbn [mkdir_p] in Hmk. rewrite lookup_delete_eq in Hmk.
    cbn [from_option mkdir_p] in Hmk. injection Hmk as <-.
    rewrite lookup_site. apply lookup_insert_eq. }
  clear Hmk.
  set (sh1 := mkShell root3 [] []) in *.
  cbn [GAMES forGames] in Hscript.
  destruct (forGame "fighters" sh1) as [sh2|c sh2] eqn:Hf; [|discriminate Hscript].
  cbn [andThen] in Hscript.
  destruct (forGame "cubes" sh2) as [sh3|c sh3] eqn:Hc; [|discriminate Hscript].
  cbn [andThen] in Hscript.
  destruct (forGame_site "fighters" sh1 sh2 ∅ Hf) as (ef & Hef & H4);
    [discriminate | exact H3 | apply lookup_empty |].
  destruct (forGame_site "cubes" sh2 sh3 (<["fighters" := Dir (matching ef)]> ∅) Hc)
    as (ec & Hec & H5);
    [discriminate | exact H4 | rewrite lookup_insert_ne by discriminate; apply lookup_empty |].
  unfold command in Hscript.
  destruct (fs sh3) as [c|R] eqn:Hfs; [discriminate H5|].
  rewrite lookup_site in H5. cbn [at_dir] in Hscript.
  change ("site") with SITE_DIR in Hscript. rewrite H5 in Hscript.
  injection Hscript as <-. cbn [fs] in Hsite.
  rewrite lookup_site, lookup_insert_eq in Hsite. injection Hsite as <-.
  exists ef, ec. split; [reflexivity|]. split; [exact Hef|]. split; [exact Hec|].
  split; intros n [v Hv]; apply map_lookup_filter_Some in Hv as [_ Hv];
    cbn in Hv; apply Is_true_true in Hv; exact Hv.
Qed.

End DeploySite.

(** The checkout of [Samples.builtWorkspace] with a stale [site] directory
    next to the games: the job deploys, and the stale page is not part of
    the site. *)
Lemma deployed_site_layout_witness :
  exists site : Deploy.Node,
    Deploy.job (H := Samples.quietRunner) Sessions.staleWorkspace = Deploy.Deployed site /\
    Deploy.lookup Sessions.staleWorkspace ["site"; "old.html"] = Some (Samples.page "old") /\
    Deploy.lookup site ["old.html"] = None /\
    exists fightersOut cubesOut : gmap string Deploy.Node,
      site = Deploy.Dir
               (<["index.html" := Deploy.File Deploy.CatalogIndex]>
                  (<["cubes" := Deploy.Dir (Deploy.matching cubesOut)]>
                     (<["fighters" := Deploy.Dir (Deploy.matching fightersOut)]> ∅))).
Proof.
  pose (site := match Deploy.job (H := Samples.quietRunner) Sessions.staleWorkspace with
                | Deploy.Deployed s => s
                | Deploy.Aborted _ _ _ => Deploy.Dir ∅
                end).
  assert (Hjob : Deploy.job (H := Samples.quietRunner) Sessions.staleWorkspace
                 = Deploy.Deployed site) by (vm_compute; reflexivity).
  exists site. split; [exact Hjob|].
  split; [vm_compute; reflexivity|]. split; [vm_compute; reflexivity|].
  destruct (deployed_site_layout (H := Samples.quietRunner) Sessions.staleWorkspace site Hjob)
    as (f & c & Hs & _).
  exists f, c. exact Hs.
Defined.

(** ** scene.ts: the change of character *)

Section RosterFacts.

Import THREE Secure Arena Roster.
Context `{Platform} `{Wardrobe}.
Variable miniBunny : Fighter -> Fighter -> nat -> Object3D * Vector3 * Vector3.

#[local] Arguments getObjectByName : simpl never.

Lemma nextChar_cases (c v : string) :
  nextChar !! c = Some v ->
  (c = "roblox" /\ v = "robot") \/ (c = "robot" /\ v = "ninja") \/
  (c = "ninja" /\ v = "roblox").
Proof.
  unfold nextChar. intros Hl.
  apply lookup_insert_Some in Hl as [[<- <-]|[_ Hl]]; [tauto|].
  apply lookup_insert_Some in Hl as [[<- <-]|[_ Hl]]; [tauto|].
  apply lookup_singleton_Some in Hl as [<- <-]. tauto.
Qed.

Lemma nextChar_bunny : nextChar !! "bunny" = None.
Proof. reflexivity. Qed.

(** The update of a fighter leaves a valid character type alone. *)
Lemma updateFighter_characterType (keys : gmap string bool) (now : Z) (who who' : Side)
      (dt : Q) (w : World) :
  validateCharacterType (characterType (getFighter who' w)) = true ->
  characterType (getFighter who' (updateFighter miniBunny keys now who dt w)) =
  characterType (getFighter who' w).
Proof.
  intros Hvalid.
  assert (Hwho : who' = who \/ who' = other who)
    by (destruct who, who'; cbn; tauto).
  destruct Hwho as [-> | ->].
  2:{ rewrite (proj1 (updateFighter_spares miniBunny keys now who dt w)).
      reflexivity. }
  unfold updateFighter.
  destruct (gameOver w || JS.leb (health (getFighter who w)) 0); [reflexivity|].
  cbv zeta.
  assert (P : forall f v, characterType (getFighter who (putFighter who f v)) =
                          characterType f).
  { intros f v. rewrite secure_get_put_same. reflexivity. }
  assert (B : forall v, characterType (getFighter who (bunnyAbility miniBunny keys who v))
                        = characterType (getFighter who v)).
  { intros v. apply (bunnyAbility_view miniBunny characterType); reflexivity. }
  assert (T : forall f, characterType (updateTimers dt f) = characterType f).
  { intros f. unfold updateTimers. cbv zeta. repeat case_match; reflexivity. }
  assert (F : forall v, characterType (getFighter who (firewallCheck now who v))
                        = characterType (getFighter who v)).
  { intros v. unfold firewallCheck, checkSecurityViolation. cbv zeta.
    repeat case_match; destruct who; reflexivity. }
  assert (A : forall v, characterType (getFighter who (startAttack keys now who v))
                        = characterType (getFighter who v)).
  { intros v. unfold startAttack. cbv zeta.
    repeat case_match; destruct who; reflexivity. }
  assert (M : forall f, characterType (movement keys dt f) = characterType f).
  { intros f. unfold movement. cbv zeta. repeat case_match; reflexivity. }
  assert (R : forall v, characterType (getFighter who (rateWindow now who v))
                        = characterType (getFighter who v)).
  { intros v. unfold rateWindow. cbv zeta. repeat case_match; destruct who; reflexivity. }
  assert (L : forall v, characterType (getFighter who (teleportCheck now who v))
                        = characterType (getFighter who v)).
  { intros v. unfold teleportCheck, checkSecurityViolation. cbv zeta.
    repeat case_match; destruct who; reflexivity. }
  assert (C : forall v, validateCharacterType (characterType (getFighter who v)) = true ->
                        characterType (getFighter who (characterCheck now who v))
                        = characterType (getFighter who v)).
  { intros v Hv. unfold characterCheck. rewrite Hv. reflexivity. }
  rewrite B, P, T, F, A, P, M, C; rewrite ?R, ?L, ?P; [reflexivity | exact Hvalid].
Qed.

(** The change of character of the girl with her key. *)
Lemma keydown_girl (st : Stage) (v : string) :
  playing st = true -> nextChar !! currentGirlCharacter st = Some v ->
  exists st',
    keydown "2" st = (st', false) /\
    currentGirlCharacter st' = v /\ characterType (fighter2 (world st')) = v /\
    playing st' = true /\ shown2 st' = true /\ shown1 st' = shown1 st /\
    currentBoyCharacter st' = currentBoyCharacter st /\
    fighter1 (world st') = fighter1 (world st).
Proof.
  intros Hplay Hnext. unfold playing in Hplay.
  apply andb_true_iff in Hplay as [Hs Hg]. apply negb_true_iff in Hg.
  unfold keydown. rewrite Hs, Hg. cbn [negb orb String.eqb Ascii.eqb Bool.eqb].
  cbn match. rewrite Hnext.
  unfold switchCharacter, playing. cbv zeta.
  destruct (nextChar_cases _ _ Hnext) as [[_ ->]|[[_ ->]|[_ ->]]]; cbn;
    eexists; repeat split; cbn; rewrite ?Hs, ?Hg; reflexivity.
Qed.

Lemma step_girl (e : Event) (st : Stage) :
  is_Some (nextChar !! currentGirlCharacter st) ->
  characterType (fighter2 (world st)) = currentGirlCharacter st ->
  is_Some (nextChar !! currentGirlCharacter (step miniBunny e st)) /\
  characterType (fighter2 (world (step miniBunny e st)))
  = currentGirlCharacter (step miniBunny e st).
Proof.
  intros Hin Hty. destruct e as [key|keys|who keys now dt]; cbn [step].
  - unfold keydown.
    destruct (negb (gameStarted st) || gameOver (world st)) eqn:Hoff;
      [split; assumption|].
    assert (Hboy : forall c st1 threw,
               switchCharacter F1 Boy c st = (st1, threw) ->
               currentGirlCharacter st1 = currentGirlCharacter st /\
               fighter2 (world st1) = fighter2 (world st) /\
               gameStarted st1 = gameStarted st /\
               gameOver (world st1) = gameOver (world st)).
    { intros c st1 threw. unfold switchCharacter. cbv zeta.
      destruct (newCharacter Boy c), c; intros [= <- <-]; repeat split. }
    destruct (String.eqb key "1") eqn:H1.
    + apply String.eqb_eq in H1 as ->.
      destruct (switchCharacter F1 Boy (nextChar !! currentBoyCharacter st) st)
        as [st1 threw] eqn:Hsw.
      destruct (Hboy _ _ _ Hsw) as (A & B & _ & _).
      destruct threw; cbn; rewrite A, B; split; assumption.
    + destruct (String.eqb key "2") eqn:H2; [|split; assumption].
      apply String.eqb_eq in H2 as ->.
      assert (Hplay : playing st = true).
      { unfold playing. apply orb_false_iff in Hoff as [A B].
        apply negb_false_iff in A. rewrite A, B. reflexivity. }
      destruct Hin as [v Hv].
      destruct (keydown_girl st v Hplay Hv) as (st' & Hk & A & B & _).
      unfold keydown in Hk. rewrite Hoff in Hk. cbn in Hk. rewrite Hk. cbn.
      rewrite A, B. split; [|reflexivity].
      destruct (nextChar_cases _ _ Hv) as [[_ ->]|[[_ ->]|[_ ->]]]; eexists; reflexivity.
  - destruct (playing st); [|split; assumption].
    unfold handleBunnyTransform, switchCharacter. cbv zeta.
    repeat case_match; simplify_eq; cbn; split; assumption.
  - destruct (playing st); [|split; assumption].
    pose proof (updateFighter_characterType keys now who F2 dt (world st)) as Hc.
    cbn [getFighter] in Hc.
    assert (Hvalid : validateCharacterType (characterType (fighter2 (world st))) = true).
    { rewrite Hty. destruct Hin as [v Hv].
      destruct (nextChar_cases _ _ Hv) as [[-> _]|[[-> _]|[-> _]]]; reflexivity. }
    unfold set_world. cbn [world currentGirlCharacter].
    rewrite (Hc Hvalid). split; assumption.
Qed.

(** Property X16.  The girl goes round her three characters: all along a game her
    character is one of roblox, robot and ninja, never the bunny; her key
    never throws, and three strokes of it bring her character back. *)
Theorem girl_goes_round (events : list Event) (st : Stage) :
  is_Some (nextChar !! currentGirlCharacter st) ->
  characterType (fighter2 (world st)) = currentGirlCharacter st ->
  let st' := run (step miniBunny) events st in
  let stroke := fun s => fst (keydown "2" s) in
  characterType (fighter2 (world st')) ∈ ["roblox"; "robot"; "ninja"] /\
  characterType (fighter2 (world st')) = currentGirlCharacter st' /\
  (playing st' = true ->
   snd (keydown "2" st') = false /\ shown2 (stroke st') = true /\
   characterType (fighter2 (world (stroke st')))
     <> characterType (fighter2 (world st')) /\
   characterType (fighter2 (world (stroke (stroke (stroke st')))))
     = characterType (fighter2 (world st'))).
Proof.
  intros Hin Hty. cbv zeta.
  assert (Hinv : is_Some (nextChar !! currentGirlCharacter (run (step miniBunny) events st)) /\
                 characterType (fighter2 (world (run (step miniBunny) events st)))
                 = currentGirlCharacter (run (step miniBunny) events st)).
  { unfold run. induction events as [|e events IH] using rev_ind; [split; assumption|].
    rewrite fold_left_app. cbn [fold_left]. destruct IH as [A B].
    apply step_girl; assumption. }
  set (st' := run (step miniBunny) events st) in *. clearbody st'.
  destruct Hinv as [[v Hv] Hty']. split; [|split; [exact Hty'|]].
  - rewrite Hty'. destruct (nextChar_cases _ _ Hv) as [[-> _]|[[-> _]|[-> _]]];
      rewrite !elem_of_cons; tauto.
  - intros Hplay.
    assert (Hnext : forall s c, currentGirlCharacter s = c ->
                      c ∈ ["robot"; "ninja"; "roblox"] ->
                      exists v, nextChar !! currentGirlCharacter s = Some v /\
                                ((c = "roblox" /\ v = "robot") \/
                                 (c = "robot" /\ v = "ninja") \/
                                 (c = "ninja" /\ v = "roblox"))).
    { intros s c -> Hc. rewrite !elem_of_cons, elem_of_nil in Hc.
      destruct Hc as [->|[->|[->|[]]]]; eexists; (split; [reflexivity | tauto]). }
    assert (Hround : forall c v, (c = "roblox" /\ v = "robot") \/
                                 (c = "robot" /\ v = "ninja") \/
                                 (c = "ninja" /\ v = "roblox") ->
                                 v ∈ ["robot"; "ninja"; "roblox"]).
    { intros c w [[_ ->]|[[_ ->]|[_ ->]]]; rewrite !elem_of_cons; tauto. }
    pose proof (nextChar_cases _ _ Hv) as Hc0.
    destruct (keydown_girl st' v Hplay Hv) as (s1 & K1 & C1 & T1 & P1 & S1 & _).
    destruct (Hnext s1 v C1 (Hround _ _ Hc0)) as (v1 & Hv1 & Hc1).
    destruct (keydown_girl s1 v1 P1 Hv1) as (s2 & K2 & C2 & T2 & P2 & _).
    destruct (Hnext s2 v1 C2 (Hround _ _ Hc1)) as (v2 & Hv2 & Hc2).
    destruct (keydown_girl s2 v2 P2 Hv2) as (s3 & K3 & C3 & T3 & _).
    rewrite K1. cbn [fst snd]. rewrite K2. cbn [fst]. rewrite K3. cbn [fst].
    rewrite T1, T3, Hty'. split; [reflexivity|]. split; [exact S1|].
    destruct Hc0 as [[E0 F0]|[[E0 F0]|[E0 F0]]];
      destruct Hc1 as [[E1 F1']|[[E1 F1']|[E1 F1']]];
      destruct Hc2 as [[E2 F2']|[[E2 F2']|[E2 F2']]];
      try congruence; (split; congruence).
Qed.

Lemma step_boy (e : Event) (st : Stage) :
  currentBoyCharacter st = "bunny" ->
  characterType (fighter1 (world st)) = "bunny" ->
  currentBoyCharacter (step miniBunny e st) = "bunny" /\
  characterType (fighter1 (world (step miniBunny e st))) = "bunny".
Proof.
  intros Hcur Hty. destruct e as [key|keys|who keys now dt]; cbn [step].
  - unfold keydown.
    destruct (negb (gameStarted st) || gameOver (world st)); [split; assumption|].
    destruct (String.eqb key "1") eqn:H1.
    + rewrite Hcur, nextChar_bunny. cbn. split; assumption.
    + destruct (String.eqb key "2"); [|split; assumption].
      unfold switchCharacter. cbv zeta.
      destruct (newCharacter Girl (nextChar !! currentGirlCharacter st)),
        (nextChar !! currentGirlCharacter st); cbn; split; assumption.
  - destruct (playing st); [|split; assumption].
    unfold handleBunnyTransform. cbv zeta. cbn [getFighter]. rewrite Hty.
    rewrite andb_false_r. cbn. split; assumption.
  - destruct (playing st); [|split; assumption].
    pose proof (updateFighter_characterType keys now who F1 dt (world st)) as Hc.
    cbn [getFighter] in Hc. rewrite Hty in Hc.
    unfold set_world. cbn [world currentBoyCharacter].
    rewrite (Hc eq_refl). split; [exact Hcur | reflexivity].
Qed.

(** Property X17.  The boy stays a bunny: once he is one, no stroke of a key, no call of
    [handleBunnyTransform] and no update of a fighter gives him another
    character.  While the game is on, the key 1 finds no next character
    for him: the listener takes his group out of the scene, throws, and
    changes nothing else. *)
Theorem boy_stays_bunny (events : list Event) (st : Stage) :
  currentBoyCharacter st = "bunny" ->
  characterType (fighter1 (world st)) = "bunny" ->
  let st' := run (step miniBunny) events st in
  currentBoyCharacter st' = "bunny" /\
  characterType (fighter1 (world st')) = "bunny" /\
  (playing st' = true -> keydown "1" st' = (set_shown F1 false st', true)).
Proof.
  intros Hcur Hty. cbv zeta.
  assert (Hinv : currentBoyCharacter (run (step miniBunny) events st) = "bunny" /\
                 characterType (fighter1 (world (run (step miniBunny) events st)))
                 = "bunny").
  { unfold run. induction events as [|e events IH] using rev_ind; [split; assumption|].
    rewrite fold_left_app. cbn [fold_left]. destruct IH as [A B].
    apply step_boy; assumption. }
  set (st' := run (step miniBunny) events st) in *. clearbody st'.
  destruct Hinv as [A B]. split; [exact A|]. split; [exact B|].
  intros Hplay. unfold playing in Hplay.
  apply andb_true_iff in Hplay as [Hs Hg]. apply negb_true_iff in Hg.
  unfold keydown. rewrite Hs, Hg, A, nextChar_bunny. reflexivity.
Qed.

End RosterFacts.

(** The girl changes to the robot with her first stroke. *)
Lemma girl_goes_round_witness :
  let st := Sessions.started in
  let st' := run (Roster.step (H := Characters.testPlatform) (H0 := Sessions.plainWardrobe)
                    Samples.plainBunny) [Roster.KeyDown "2"] st in
  is_Some (Roster.nextChar !! Roster.currentGirlCharacter st) /\
  Secure.characterType (Secure.fighter2 (Roster.world st)) = Roster.currentGirlCharacter st /\
  Secure.characterType (Secure.fighter2 (Roster.world st')) = "robot" /\
  Secure.characterType (Secure.fighter2 (Roster.world st')) ∈ ["roblox"; "robot"; "ninja"].
Proof.
  cbv zeta.
  assert (Hin : is_Some (Roster.nextChar !! Roster.currentGirlCharacter Sessions.started))
    by (eexists; reflexivity).
  assert (Hty : Secure.characterType (Secure.fighter2 (Roster.world Sessions.started))
                = Roster.currentGirlCharacter Sessions.started) by reflexivity.
  split; [exact Hin|]. split; [exact Hty|]. split; [vm_compute; reflexivity|].
  exact (proj1 (girl_goes_round (H := Characters.testPlatform)
                  (H0 := Sessions.plainWardrobe) Samples.plainBunny
                  [Roster.KeyDown "2"] Sessions.started Hin Hty)).
Defined.

(** The boy steps to the left in the first frame of the fight and is a
    bunny; the girl changes her character, the boy cannot. *)
Lemma boy_stays_bunny_witness :
  let step := Roster.step (H := Characters.testPlatform) (H0 := Sessions.plainWardrobe)
                Samples.plainBunny in
  let st := step (Roster.Transform Sessions.leftKey) Sessions.started in
  let st' := run step [Roster.KeyDown "2"; Roster.KeyDown "1"] st in
  Secure.characterType (Secure.fighter1 (Roster.world Sessions.started)) = "roblox" /\
  Roster.currentBoyCharacter st = "bunny" /\
  Secure.characterType (Secure.fighter1 (Roster.world st)) = "bunny" /\
  Roster.currentBoyCharacter st' = "bunny" /\
  Secure.characterType (Secure.fighter1 (Roster.world st')) = "bunny" /\
  Roster.shown1 st = true /\ Roster.shown1 st' = false.
Proof.
  cbv zeta.
  assert (Hcur : Roster.currentBoyCharacter
                   (Roster.step (H := Characters.testPlatform)
                      (H0 := Sessions.plainWardrobe) Samples.plainBunny
                      (Roster.Transform Sessions.leftKey) Sessions.started) = "bunny")
    by (vm_compute; reflexivity).
  assert (Hty : Secure.characterType
                  (Secure.fighter1
                     (Roster.world
                        (Roster.step (H := Characters.testPlatform)
                           (H0 := Sessions.plainWardrobe) Samples.plainBunny
                           (Roster.Transform Sessions.leftKey) Sessions.started)))
                = "bunny")
    by (vm_compute; reflexivity).
  destruct (boy_stays_bunny (H := Characters.testPlatform) (H0 := Sessions.plainWardrobe)
              Samples.plainBunny [Roster.KeyDown "2"; Roster.KeyDown "1"] _ Hcur Hty)
    as (A & B & _).
  split; [reflexivity|]. split; [exact Hcur|]. split; [exact Hty|].
  split; [exact A|]. split; [exact B|].
  split; vm_compute; reflexivity.
Defined.
